(* ===== verification/_CoqProject ===== *)
-Q . S2P
Prelude.v
Grid.v
Queue.v
Apocalypse.v
Scenarios.v
DistanceField.v
FieldInvariants.v
Movement.v
ShortestPath.v
Chase.v
Ticks.v
Merge.v
Game2048.v
Game2048Move.v
Game2048Props.v
Yahtzee.v
YahtzeeComb.v
YahtzeeProps.v
Cookie.v
CookieProps.v
CookieTermination.v
TicTacToe.v
TicTacToeProps.v
TestSuites.v
