(* ===== verification/Prelude.v ===== *)
(** * A verification development for [principles_of_computing]

    The repository is a set of independent Python exercises.  This
    development models all five of them: the zombie-pursuit
    simulation of [src/zombie_apocalypse.py] (with the two course-library
    classes it is built on, [poc_grid.Grid] and [poc_queue.Queue], which are
    not in [src/] and are modelled from the specification), the 2048 game
    of [src/merge.py] and [src/2048.py], the Yahtzee planner of
    [src/yahtzee.py] with its test suite [src/holds_testsuite.py], the
    Cookie Clicker simulator of [src/cookie_clicker.py], and the Monte
    Carlo tic-tac-toe player of [src/tic_tac_toe.py] (written against the
    course module [ttt_board], which is not in the repository and is
    stated as an interface).

    ** Parts of the program and how they interact

    - [Grid] (file [Grid.v], Module [Grid]): an occupancy grid, a list of
      rows of [EMPTY]/[FULL] cells, with [set_full], [set_empty],
      [is_empty], [is_full], [clear], [four_neighbors], [eight_neighbors].
    - [Queue] (file [Queue.v]): a FIFO over a Python list.  Its contract is
      the pair of classes [QueueOps] (the operations) and [QueueLaws] (what
      they promise, through the list [q_items] of queued elements); the list
      implementation [ListQueue] is an instance of both, and the search only
      uses the laws.
    - [Apocalypse] (file [Apocalypse.v], Module [Apocalypse]): the class
      [Apocalypse].  Its state is the record [apocalypse] (the obstacle
      [Grid] it inherits, the two entity lists); every method is one
      definition ([init], [clear], [add_zombie], [add_human], [num_zombies],
      [num_humans], [zombies], [humans], [compute_distance_field],
      [move_humans], [move_zombies]).  [compute_distance_field] is split as
      written: [seed_boundary] is the [for entity in boundary] loop, [relax]
      the body of [for nbr in neighbors], [bfs_loop] the [while boundary]
      loop.  The fixture of [run_tests] is data in [Scenarios.v].  The GUI
      ([zombie_gui], not modelled) calls [compute_distance_field] and then
      [move_humans] or [move_zombies] with the field it returned.  A tick
      of the simulation (spec section 5) is [Ticks.tick] (file
      [Ticks.v]): both fields from one snapshot, then both moves;
      [tick_step] is its transition relation.  The zombies' half of a
      tick is [Chase.zombie_tick] (file [Chase.v]), and [Chase.chase n]
      runs it [n] times.
    - [Merge] (file [Merge.v]): [slide_list] and [merge] of [merge.py];
      [merge_loop] is its [while] loop.
    - [Game2048] (file [Game2048.v]): the class [TwentyFortyEight] of
      [2048.py] as the record [game]; its [slide_list] and [merge] are the
      functions of [Merge.v] (the code is a verbatim copy).  [move] reads the
      caches built by [create_initials_cache] and [create_ranges_cache],
      lists each line with [gen_offset_list], merges it ([move_line]) and
      calls [new_tile], which draws an empty cell with
      [find_empty_coords].
    - [Yahtzee] (file [Yahtzee.v]): every function of [yahtzee.py].
      [strategy] calls [gen_all_holds], which calls the generator
      [combinations] for each hold size, and then [expected_value] on each
      hold ([strategy_loop] is its [for] loop); [expected_value] rolls the
      free dice with [gen_all_sequences] and scores each hand with [score].
      [combinations] is split as written: [scan_back] is the
      [for ... else] scan, [advance] the increment and reset, [comb_loop]
      the [while True] loop, [pick] the tuple it yields.
    - [Cookie] (file [Cookie.v]): the classes [BuildInfo] (record
      [build_info], its dict of [[cost, cps]] lists a [gmap string
      (list Q)]) and [ClickerState] (record [clicker_state]), the
      strategies, and [simulate_clicker] ([simulate_clicker_fuel], its
      [while] loop [sim_loop]), which clones the build table, asks the
      strategy for an item, waits [time_until] its cost, calls [buy_item]
      and [update_item], and finally waits out the duration.
    - The test code (files [Scenarios.v], [Merge.v], [TestSuites.v]):
      each [run_tests] is a definition, [assert] raising
      [AssertionError] ([py_assert]); the suites of [2048.py],
      [yahtzee.py] and [holds_testsuite.py] run through the class
      [TestSuite] of the course module [poc_simpletest], not in the
      repository, modelled in [SimpleTest] by its counters and the lines
      printed.
    - [TicTacToe] (file [TicTacToe.v]): the player of [tic_tac_toe.py].
      The board of [ttt_board] is the class [TTTBoard] (the operations
      the player calls) with the class [TTTBoardLaws] (its empty squares
      are on the board; [clone] and [move] keep the size); [ListBoard] is
      one instance, to run the player on.  [mc_move] builds a score grid
      and, in its first part [mc_scores], runs [trials] times [mc_trial] ([mc_trial_loop] is its [while]
      loop) on a [clone] of the board and [mc_update_scores] on the
      result ([update_square] is the body of its two [for] loops), and
      returns [get_best_move] ([best_step] is its [for] loop).

    ** How Python is modelled

    - Python integers are [Z]; coordinates are pairs of [Z] ([coord]).
    - A list is a Rocq [list]; indexing follows Python, negative indices
      included: [py_get]/[py_set] normalise [i] to [i] when [0 <= i < n], to
      [n + i] when [-n <= i < 0], and fail otherwise; [py_get2]/[py_set2]
      index a list of lists twice; [py_drop_last] is [l[:-1]].  A dict is a
      stdpp [gmap] read with [of_key].
    - A method that can raise returns [res A]: [Ok a] or [Raise e], [e]
      being [IndexError], [KeyError], [ValueError] ([max] of an empty
      list, [py_max]), [ZeroDivisionError] ([py_fdiv]), [NameError],
      [TypeError] or [EmptyQueueError].  Its bind
      [res_bind] is written [x <- m ;; k] (scope [res_scope]): the first
      exception stops the method.  [for] loops are [for_each]; list
      comprehensions that may raise are [res_map].
    - Randomness: a method that calls [random.choice] is a computation of
      [rnd A], a function of the position in a stream of draws [oracle], a
      parameter of the definitions, returning its result and the position
      after its draws ([x <~ m ;; k], scope [rnd_scope]).  [py_choice] is
      Python 2's [seq[int(random() * len(seq))]]: one draw, and [IndexError]
      on an empty sequence; [py_randrange] draws in [range(start, stop)]
      and raises [ValueError] on an empty range.  Theorems about these methods hold for every
      stream of draws.
    - Mutation is explicit state passing: a method returns the new state of
      its object.  No object is shared between two owners in these programs
      (the rows of a grid are built one by one by comprehensions), so no
      aliasing is modelled.
    - A set is a stdpp [gset]; a [for] loop over a set visits
      [elements s] (the theorems do not depend on that order, except which
      of two equally good holds [strategy] keeps).  A generator is the list
      of the values it yields.  Floats ([expected_value] of the Yahtzee
      planner, the Cookie Clicker simulator) are exact rationals [Q]:
      division raises [ZeroDivisionError] on a zero divisor ([py_fdiv]),
      [math.ceil] is [Qceiling]; rounding is not modelled, so no claim
      rests on an equality or an order of float sums that rounding can
      break (the Cookie Clicker accounts and waiting times).
    - [str] of an [int] is its decimal text ([py_str_int], stdpp's
      [pretty]); [str] of a list is ["[a, b]"] ([py_str_list]).  What a
      function prints is returned as a list of lines.
    - A Python function passed as a value (a Cookie Clicker strategy) is
      a Rocq function tagged with its number of parameters
      ([Cookie.strategy]): a call with the wrong number of arguments
      raises [TypeError].  A read of an undefined global raises
      [NameError].
    - The [while] loops are [Fixpoint]s on fuel: [bfs_loop] gets [bfs_fuel]
      (the number of seeds plus the number of cells: each iteration dequeues
      a cell and every cell is enqueued at most once after the seeds);
      [merge_loop] gets [len(slided) + 1] (each iteration raises [index]);
      [comb_loop] gets [2 ^ len(pool)] (at least the number of
      combinations, one per iteration); [sim_loop] gets [sim_fuel]: one
      more than [G N / cmin], a bound on the number of purchases, [cmin]
      the least cost, [N] the whole part of the duration and [G] a bound
      on the cookies earned in [N] seconds (file [CookieTermination.v]).
      The loop of [mc_trial] draws squares until the game ends, which
      happens only with probability 1: its fuel is a parameter of
      [mc_move], and the tic-tac-toe theorems hold for every fuel.
      The theorems show that the loops stop on their own test with this
      fuel ([bfs_loop_terminates], [merge_loop_trace],
      [combinations_choose], [simulate_clicker_terminates]).

    ** What is proved (PROJECT.json lists the claims)

    - Distance field ([DistanceField.v], [FieldInvariants.v],
      [ShortestPath.v]): on a well-formed grid with in-bounds seeds the
      method raises nothing and its loop stops with an empty queue; the
      result is exactly the shortest four-adjacent path distance through
      free cells from the nearest seed, and the sentinel [height * width] on
      the cells no seed reaches (refinement of the abstract contract, by the
      loop invariant [bfs_inv]); corollaries: values between 0 and the
      sentinel, below it exactly on reachable cells, growing by at most one
      per move; seeds at 0, obstacles at the sentinel, no seeds gives the
      constant array, the array has the grid's shape.
    - Movement ([Movement.v]): humans and zombies move only to empty
      in-bounds neighbours or stay; zombies never move away from the humans
      and go to a nearest neighbour, humans the opposite.
    - The simulation ([Ticks.v]): from a state whose entities stand on
      free in-bounds cells, every state reachable by ticks (rule
      induction on [rtc tick_step]) keeps them there, keeps the grid and
      the numbers of entities, and its next tick raises nothing.  The
      two orders of the moves the specification allows are the same
      function ([tick_order_irrelevant]): each move touches only its own
      list and fails only with [IndexError] ([raises_only]).
    - Liveness ([Chase.v]): humans who stand still are caught.  A zombie
      from which a human can be reached in [d] moves through free cells
      stands on a human after [d] ticks of [zombie_tick]; the variant is
      the zombie's value in the humans' field, which does not change while
      the humans stand still and drops by at least one per tick.
    - Fixtures ([Scenarios.v], [Merge.v]): the assertions of both
      [run_tests] hold (by evaluation).
    - 2048 merge ([Merge.v]): [merge] equals the reference merge
      [merge_spec] (equivalence), keeps the length and the tile total, and
      returns a slid line; [slide_list] is a permutation.
    - 2048 game ([Game2048.v], [Game2048Move.v], [Game2048Props.v]): [move]
      refines the abstract move (every line replaced by its merge, then a
      new tile when the board changed); an unknown direction raises
      [KeyError]; [move] keeps the invariant [wf] and [tiles_ok] (board
      shape, caches, tiles 0 or powers of two); [new_tile] never raises and
      writes a 2 or a 4 on an empty cell or reports a full board, but can
      report it while a cell is empty; [set_tile]/[get_tile] round trip; the
      checks of [run_test_suite] hold for every stream of draws.
    - Yahtzee ([YahtzeeComb.v], [YahtzeeProps.v]): [combinations] ends and
      yields exactly the sublists of length [r] in index order
      (equivalence with the reference [choose], through the successor
      function [snext] on index tuples); [gen_all_holds] is the set of
      sublists of the hand; [gen_all_sequences] is the set of all
      sequences over the outcomes, [len(outcomes) ** length] of them;
      [score] is the best upper-section score and raises [ValueError] on
      an empty hand; [strategy] returns a hold of greatest expected value
      and fails exactly on an empty hand or a die without sides; the
      checks of both test suites hold.
    - Cookie Clicker ([CookieProps.v], [CookieTermination.v]): on a
      well-formed table [strategy_best_cps_cost_ratio] picks an affordable
      item of best cps/cost ratio; the loop of [simulate_clicker] ends by
      itself within [sim_fuel] turns, but never ends on a table with a
      free item.  No claim depends on the exact value of a float sum:
      [time_until] and [wait] are exact in [Q] ([time_until_least]) but
      not in Python's floats, where the wait can be one second short.
    - Tic-tac-toe ([TicTacToeProps.v]), for every board satisfying
      [TTTBoardLaws]: [get_best_move] returns an empty square of maximum
      score and raises [IndexError] exactly on a full board (it always
      keeps the first such square, where its docstring says it picks one
      at random); [mc_update_scores] adds 1 to the winner's squares,
      takes 1 from the other occupied squares, leaves a draw alone, and
      does not depend on the player (the two score constants are equal);
      [mc_move] raises nothing on a board with an empty square and returns
      an empty square of maximum score for the grid its trials built
      ([mc_scores]), whatever the draws and the fuel.
    - The test code passes: both [run_tests] raise no [AssertionError]
      ([Scenarios.v], [Merge.v]); the suites of [yahtzee.py] and
      [holds_testsuite.py] report 11 and 5 tests without failure, and
      the suite of [2048.py] reports 20 tests without failure for every
      stream of random draws ([TestSuites.v]).

    ** Files, in dependency order

    [Prelude.v] (this file: exceptions, Python lists, dicts, random draws,
    tactics, hints and shared lemmas), [Grid.v], [Queue.v], [Apocalypse.v],
    [Scenarios.v], [DistanceField.v], [FieldInvariants.v], [Movement.v],
    [ShortestPath.v], [Chase.v], [Ticks.v], [Merge.v], [Game2048.v], [Game2048Move.v],
    [Game2048Props.v], [Yahtzee.v], [YahtzeeComb.v], [YahtzeeProps.v],
    [Cookie.v], [CookieProps.v], [CookieTermination.v], [TicTacToe.v],
    [TicTacToeProps.v], [TestSuites.v].

    ** Not modelled

    The GUI harnesses ([zombie_gui], [poc_2048_gui], [ttt_gui],
    [simpleplot]) are I/O; the tick they drive is modelled from the
    specification ([Ticks.v]), as the GUI's code is not in the
    repository.  The text [run_example] of [yahtzee.py] and [run_strategy] of
    [cookie_clicker.py] print is not modelled, only the values they print:
    it shows floats through Python's [str], which the exact rationals do
    not reproduce; for the same reason [ClickerState.__str__] is not
    modelled.  [run_strategy] takes the table of the external
    [clicker.BuildInfo()] as an argument.  The code of [ttt_board] and
    [poc_simpletest] is not in the repository: only what the programs call
    and rely on is stated ([TTTBoard], [TTTBoardLaws], [SimpleTest]); the
    two module-level calls of [tic_tac_toe.py] ([play_game], [run_gui])
    start external games. *)

From stdpp Require Import base list options sets pretty.
From Stdlib Require Import ZArith QArith Lia.
From Stdlib Require String.
Local Unset Default Proof Using.

Open Scope Z_scope.

(** ** Python exceptions and the result monad *)

Inductive exn :=
  | IndexError | KeyError | ValueError | ZeroDivisionError | NameError | TypeError
  | AssertionError | EmptyQueueError.

#[global] Instance exn_eq_dec : EqDecision exn.
Proof. solve_decision. Defined.

Inductive res (A : Type) := Ok (a : A) | Raise (e : exn).
Arguments Ok {A} a.
Arguments Raise {A} e.

(** Sequencing of two statements: an exception in the first skips the
    second. *)
Definition res_bind {A B} (m : res A) (f : A → res B) : res B :=
  match m with Ok a => f a | Raise e => Raise e end.

Declare Scope res_scope.
Delimit Scope res_scope with res.
Notation "x <- m ;; k" := (res_bind m (λ x, k))
  (at level 20, m at level 99, k at level 200) : res_scope.
Notation "' p <- m ;; k" := (res_bind m (λ p, k))
  (at level 20, p pattern, m at level 99, k at level 200) : res_scope.
Open Scope res_scope.

Definition res_to_option {A} (m : res A) : option A :=
  match m with Ok a => Some a | Raise _ => None end.

(** [assert cond]: [AssertionError] when [cond] is false. *)
Definition py_assert (cond : Prop) `{Decision cond} : res unit :=
  if decide cond then Ok () else Raise AssertionError.

(** ** Python's [str] *)

(** [str(n)] of an [int]: its decimal digits. *)
Definition py_str_int (n : Z) : String.string := pretty n.

(** [str(l)] of a list, given [repr] of its elements: ["[a, b, c]"]. *)
Definition py_str_list {A} (f : A → String.string) (l : list A) : String.string :=
  String.append "[" (String.append (String.concat ", " (map f l)) "]")%string.

(** An absent value (a failed Python index) raises [IndexError]. *)
Definition of_index {A} (o : option A) : res A :=
  match o with Some a => Ok a | None => Raise IndexError end.

(** A missing dictionary key raises [KeyError]. *)
Definition of_key {A} (o : option A) : res A :=
  match o with Some a => Ok a | None => Raise KeyError end.

(** [max(l)] on a list of integers: [ValueError] on an empty list. *)
Definition py_max (l : list Z) : res Z :=
  match l with [] => Raise ValueError | x :: xs => Ok (foldl Z.max x xs) end.

(** [x / y] on floats, as exact division: [ZeroDivisionError] on a zero
    divisor. *)
Definition py_fdiv (x y : Q) : res Q :=
  if Qeq_bool y 0 then Raise ZeroDivisionError else Ok (x / y)%Q.

(** [l.count(x)] *)
Definition py_count (l : list Z) (x : Z) : Z := Z.of_nat (length (filter (λ y, y = x) l)).

(** A list comprehension [[f(x) for x in xs]] whose body may raise. *)
Fixpoint res_map {A B} (f : A → res B) (xs : list A) : res (list B) :=
  match xs with
  | [] => Ok []
  | x :: xs' => y <- f x ;; ys <- res_map f xs' ;; Ok (y :: ys)
  end.

(** ** Python's [random] module

    Code that draws random numbers is modelled against a stream of draws
    [oracle : nat → nat], a parameter of the definitions: a computation of
    type [rnd A] takes the position in the stream, and returns its result
    (or exception) with the position after the draws it made.
    [random.choice(seq)] is, in Python 2, [seq[int(random() * len(seq))]]:
    one draw, an index below [len(seq)], and [IndexError] on an empty
    sequence. *)
Definition rnd (A : Type) : Type := nat → res A * nat.

Definition rnd_ret {A} (a : A) : rnd A := λ k, (Ok a, k).
Definition rnd_lift {A} (m : res A) : rnd A := λ k, (m, k).
Definition rnd_bind {A B} (m : rnd A) (f : A → rnd B) : rnd B :=
  λ k, let '(r, k') := m k in
       match r with Ok a => f a k' | Raise e => (Raise e, k') end.

Declare Scope rnd_scope.
Delimit Scope rnd_scope with rnd.
Notation "x <~ m ;; k" := (rnd_bind m (λ x, k))
  (at level 20, m at level 99, k at level 200) : rnd_scope.
Notation "' p <~ m ;; k" := (rnd_bind m (λ p, k))
  (at level 20, p pattern, m at level 99, k at level 200) : rnd_scope.
Open Scope rnd_scope.

Definition py_choice (oracle : nat → nat) {A} (seq : list A) : rnd A :=
  λ k, (of_index (seq !! (oracle k mod length seq)%nat), S k).

(** [random.randrange(start, stop)], Python 2: [ValueError] on an empty
    range before any draw, else [start + int(random() * width)], one draw. *)
Definition py_randrange (oracle : nat → nat) (start stop : Z) : rnd Z :=
  λ k, if decide (start < stop)
       then (Ok (start + Z.of_nat (oracle k mod Z.to_nat (stop - start))%nat), S k)
       else (Raise ValueError, k).

(** [try: m except IndexError: return v] *)
Definition rnd_catch_index {A} (m : rnd A) (v : A) : rnd A :=
  λ k, let '(r, k') := m k in
       match r with Raise IndexError => (Ok v, k') | _ => (r, k') end.

(** A [for] loop whose body draws random numbers. *)
Fixpoint rnd_for_each {A S} (body : S → A → rnd S) (xs : list A) (s : S) : rnd S :=
  match xs with
  | [] => rnd_ret s
  | x :: xs' => s' <~ body s x ;; rnd_for_each body xs' s'
  end.

(** A Python [for x in xs:] loop over a list whose body may raise. *)
Fixpoint for_each {A S} (body : S → A → res S) (xs : list A) (s : S) : res S :=
  match xs with
  | [] => Ok s
  | x :: xs' => s' <- body s x ;; for_each body xs' s'
  end.

(** ** Python lists *)

Abbreviation coord := (Z * Z)%type.

(** Normalisation of a Python index [i] into a list of length [n]. *)
Definition py_norm (n : nat) (i : Z) : option nat :=
  if decide (0 ≤ i < Z.of_nat n) then Some (Z.to_nat i)
  else if decide (- Z.of_nat n ≤ i < 0) then Some (Z.to_nat (Z.of_nat n + i))
  else None.

(** [l[:-1]]: every element but the last ([[]] for [[]]). *)
Definition py_drop_last {A} (l : list A) : list A := take (length l - 1) l.

(** [l[i]] *)
Definition py_get {A} (l : list A) (i : Z) : option A :=
  py_norm (length l) i ≫= λ k, l !! k.

(** [l[i] = x] *)
Definition py_set {A} (l : list A) (i : Z) (x : A) : option (list A) :=
  (λ k, <[k := x]> l) <$> py_norm (length l) i.

(** [m[r][c]] *)
Definition py_get2 {A} (m : list (list A)) (r c : Z) : option A :=
  py_get m r ≫= λ row, py_get row c.

(** [m[r][c] = x]: read row [r], update it, store it back. *)
Definition py_set2 {A} (m : list (list A)) (r c : Z) (x : A) : option (list (list A)) :=
  row ← py_get m r; row' ← py_set row c x; py_set m r row'.

(** A rectangular [h] by [w] list of lists, as the code builds them with
    nested comprehensions over [range]. *)
Definition rect {A} (h w : Z) (m : list (list A)) : Prop :=
  length m = Z.to_nat h ∧ Forall (λ row, length row = Z.to_nat w) m.

Definition in_bounds (h w : Z) (p : coord) : Prop :=
  0 ≤ p.1 < h ∧ 0 ≤ p.2 < w.

#[global] Instance in_bounds_dec h w p : Decision (in_bounds h w p).
Proof. unfold in_bounds. apply _. Defined.

#[global] Instance rect_dec {A} h w (m : list (list A)) : Decision (rect h w m).
Proof. unfold rect. apply _. Defined.

(** The cell of an in-bounds coordinate, read without Python's wrap-around. *)
Definition mget {A} (m : list (list A)) (p : coord) : option A :=
  m !! Z.to_nat p.1 ≫= λ row, row !! Z.to_nat p.2.

Definition mset {A} (m : list (list A)) (p : coord) (x : A) : list (list A) :=
  alter (λ row, <[Z.to_nat p.2 := x]> row) (Z.to_nat p.1) m.

(** [[[x for c in range(w)] for r in range(h)]] *)
Definition const_matrix {A} (h w : Z) (x : A) : list (list A) :=
  replicate (Z.to_nat h) (replicate (Z.to_nat w) x).

(** Every cell of an [h] by [w] grid, row by row. *)
Definition all_cells (h w : Z) : list coord := list_prod (seqZ 0 h) (seqZ 0 w).

(** ** Tactics and hints *)

Create HintDb pylist.

(** Case on the first [Ok]/[Raise] or [if] left in a hypothesis or goal. *)
Ltac res_step :=
  match goal with
  | H : context [match ?m with Ok _ => _ | Raise _ => _ end] |- _ =>
      destruct m eqn:?; simpl in H
  | H : Ok _ = Ok _ |- _ => injection H as H
  | H : Raise _ = Ok _ |- _ => discriminate H
  | H : Ok _ = Raise _ |- _ => discriminate H
  end.

Ltac res_simp := repeat (simpl in *; res_step); simplify_eq.

(** Close a decidable proposition about concrete data by evaluation. *)
Ltac decide_by_eval := apply (bool_decide_unpack _); vm_compute; exact I.

(** ** Lemmas on Python indexing *)

Section PyIndex.
Context {A : Type}.
Implicit Types (l : list A) (m : list (list A)) (x : A).

Lemma py_norm_in n i : 0 ≤ i < Z.of_nat n → py_norm n i = Some (Z.to_nat i).
Proof. intros. unfold py_norm. by rewrite decide_True. Qed.

Lemma py_norm_neg n i :
  - Z.of_nat n ≤ i < 0 → py_norm n i = Some (Z.to_nat (Z.of_nat n + i)).
Proof. intros. unfold py_norm. rewrite decide_False, decide_True; [done|lia..]. Qed.

Lemma py_norm_out n i : i < - Z.of_nat n ∨ Z.of_nat n ≤ i → py_norm n i = None.
Proof. intros. unfold py_norm. rewrite !decide_False; [done|lia..]. Qed.

Lemma py_get_in l i : 0 ≤ i < Z.of_nat (length l) → py_get l i = l !! Z.to_nat i.
Proof. intros. unfold py_get. by rewrite py_norm_in. Qed.

Lemma py_set_in l i x :
  0 ≤ i < Z.of_nat (length l) → py_set l i x = Some (<[Z.to_nat i := x]> l).
Proof. intros. unfold py_set. by rewrite py_norm_in. Qed.

Lemma py_get_out l i : i < - Z.of_nat (length l) ∨ Z.of_nat (length l) ≤ i → py_get l i = None.
Proof. intros. unfold py_get. by rewrite py_norm_out. Qed.

Lemma py_set_out l i x :
  i < - Z.of_nat (length l) ∨ Z.of_nat (length l) ≤ i → py_set l i x = None.
Proof. intros. unfold py_set. by rewrite py_norm_out. Qed.

End PyIndex.

Section Matrix.
Context {A : Type}.
Implicit Types (m : list (list A)) (x : A).

Lemma rect_row h w m r row :
  rect h w m → m !! r = Some row → length row = Z.to_nat w.
Proof. intros [_ Hrows] Hr. exact (Forall_lookup_1 _ _ _ _ Hrows Hr). Qed.

Lemma rect_row_is_Some h w m r :
  rect h w m → (r < Z.to_nat h)%nat → is_Some (m !! r).
Proof. intros [Hlen _] ?. apply lookup_lt_is_Some_2. lia. Qed.

Lemma py_get2_mget h w m p :
  rect h w m → in_bounds h w p → py_get2 m p.1 p.2 = mget m p.
Proof.
  intros Hm [Hr Hc]. unfold py_get2, mget.
  rewrite py_get_in by (destruct Hm; lia).
  destruct (m !! Z.to_nat p.1) as [row|] eqn:E; simpl; [|done].
  apply py_get_in. erewrite rect_row by eauto. lia.
Qed.

Lemma mget_is_Some h w m p :
  rect h w m → in_bounds h w p → is_Some (mget m p).
Proof.
  intros Hm [Hr Hc]. unfold mget.
  destruct (rect_row_is_Some h w m (Z.to_nat p.1)) as [row E]; [done|lia|].
  rewrite E. simpl. apply lookup_lt_is_Some_2. erewrite rect_row by eauto. lia.
Qed.

Lemma py_set2_mset h w m p x :
  rect h w m → in_bounds h w p → py_set2 m p.1 p.2 x = Some (mset m p x).
Proof.
  intros Hm [Hr Hc]. unfold py_set2, mset.
  rewrite py_get_in by (destruct Hm; lia).
  destruct (rect_row_is_Some h w m (Z.to_nat p.1)) as [row E]; [done|lia|].
  rewrite E. simpl. rewrite py_set_in by (erewrite rect_row by eauto; lia). simpl.
  rewrite py_set_in by (destruct Hm; lia). f_equal.
  apply list_eq. intros k. rewrite list_lookup_alter, list_lookup_insert.
  destruct (decide (Z.to_nat p.1 = k)) as [<-|].
  - rewrite E, decide_True; [done|]. split; [done|]. destruct Hm; lia.
  - rewrite decide_False; [done|]. intros [? _]; done.
Qed.

Lemma rect_py_set2 h w m r c x m' :
  rect h w m → py_set2 m r c x = Some m' → rect h w m'.
Proof.
  unfold py_set2, py_get, py_set. intros [Hlen Hrows] H.
  destruct (py_norm (length m) r) as [kr|] eqn:Er; simpl in H; [|done].
  destruct (m !! kr) as [row|] eqn:Erow; simpl in H; [|done].
  destruct (py_norm (length row) c) as [kc|] eqn:Ec; simpl in H; [|done].
  injection H as <-. split; [by rewrite length_insert|].
  apply Forall_insert; [done|]. rewrite length_insert.
  exact (Forall_lookup_1 _ _ _ _ Hrows Erow).
Qed.

Lemma rect_mset h w m p x : rect h w m → rect h w (mset m p x).
Proof.
  intros [Hlen Hrows]. unfold mset. split; [by rewrite length_alter|].
  apply Forall_lookup_2. intros k row Hk.
  rewrite list_lookup_alter in Hk.
  case_decide; subst.
  - destruct (m !! Z.to_nat p.1) as [row0|] eqn:E; simplify_eq/=.
    rewrite length_insert. exact (Forall_lookup_1 _ _ _ _ Hrows E).
  - exact (Forall_lookup_1 _ _ _ _ Hrows Hk).
Qed.

Lemma mget_mset_eq h w m p x :
  rect h w m → in_bounds h w p → mget (mset m p x) p = Some x.
Proof.
  intros Hm Hp. destruct (mget_is_Some h w m p) as [y Hy]; [done..|].
  unfold mget, mset in *. rewrite list_lookup_alter, decide_True by done.
  destruct (m !! Z.to_nat p.1) as [row|] eqn:E; simplify_eq/=.
  apply list_lookup_insert_eq. by apply lookup_lt_Some with y.
Qed.

Lemma mget_mset_ne m p q x :
  0 ≤ p.1 → 0 ≤ p.2 → 0 ≤ q.1 → 0 ≤ q.2 → p ≠ q →
  mget (mset m p x) q = mget m q.
Proof.
  destruct p as [pr pc], q as [qr qc]; simpl. intros ???? Hne.
  unfold mget, mset; simpl.
  destruct (decide (Z.to_nat pr = Z.to_nat qr)) as [E|E].
  - rewrite E, list_lookup_alter, decide_True by done.
    destruct (m !! Z.to_nat qr); simpl; [|done].
    apply list_lookup_insert_ne. intros Hc. apply Hne. f_equal; lia.
  - by rewrite list_lookup_alter_ne.
Qed.

Lemma mget_mset h w m p q x :
  rect h w m → in_bounds h w p → in_bounds h w q →
  mget (mset m p x) q = if decide (p = q) then Some x else mget m q.
Proof.
  intros Hm Hp Hq. case_decide; subst; [by eapply mget_mset_eq|].
  destruct Hp, Hq. apply mget_mset_ne; lia || done.
Qed.

Lemma rect_const_matrix h w x : rect h w (const_matrix h w x).
Proof.
  unfold const_matrix. split; [by rewrite length_replicate|].
  apply Forall_replicate. by rewrite length_replicate.
Qed.

Lemma mget_const_matrix h w x p :
  in_bounds h w p → mget (const_matrix h w x) p = Some x.
Proof.
  intros [Hr Hc]. unfold mget, const_matrix.
  rewrite lookup_replicate_2 by lia. simpl. rewrite lookup_replicate_2 by lia. done.
Qed.

Lemma mget_in_bounds h w m p y :
  rect h w m → 0 ≤ p.1 → 0 ≤ p.2 → mget m p = Some y → in_bounds h w p.
Proof.
  intros [Hlen Hrows] ?? Hp. unfold mget in Hp.
  destruct (m !! Z.to_nat p.1) as [row|] eqn:E; simplify_eq/=.
  pose proof (lookup_lt_Some _ _ _ E). apply lookup_lt_Some in Hp.
  rewrite (rect_row h w m (Z.to_nat p.1) row) in Hp; [split; lia|by split|done].
Qed.

End Matrix.

#[export] Hint Resolve rect_mset rect_const_matrix : pylist.

(** ** Python [for] loops *)

Section ForEach.
Context {A S : Type} (body : S → A → res S).

(** A property kept by every iteration holds after the loop. *)
Lemma for_each_inv (P : S → Prop) xs s s' :
  P s → (∀ t x t', x ∈ xs → P t → body t x = Ok t' → P t') →
  for_each body xs s = Ok s' → P s'.
Proof.
  revert s. induction xs as [|x xs IH]; simpl; intros s Hs Hstep H.
  - by injection H as <-.
  - destruct (body s x) as [t|e] eqn:E; simpl in H; [|done].
    apply (IH t); [|set_solver|done]. apply (Hstep s x t); [set_solver|done..].
Qed.

(** An iteration that cannot fail from a state satisfying [P], and keeps
    [P], gives a loop that cannot fail. *)
Lemma for_each_ok (P : S → Prop) xs s :
  P s → (∀ t x, x ∈ xs → P t → ∃ t', body t x = Ok t' ∧ P t') →
  ∃ s', for_each body xs s = Ok s' ∧ P s'.
Proof.
  revert s. induction xs as [|x xs IH]; simpl; intros s Hs Hstep; [by exists s|].
  destruct (Hstep s x) as (t & -> & Ht); [set_solver|done|]. simpl.
  apply IH; [done|]. intros. apply Hstep; [set_solver|done].
Qed.

(** An iteration that raises [e] on the element [x] from any state
    satisfying [P], [P] being kept by the others: the loop raises [e]. *)
Lemma for_each_raise (P : S → Prop) xs x e s :
  x ∈ xs → P s →
  (∀ t y t', y ∈ xs → P t → body t y = Ok t' → P t') →
  (∀ t, P t → body t x = Raise e) →
  (∀ t y, y ∈ xs → P t → (∃ t', body t y = Ok t') ∨ body t y = Raise e) →
  for_each body xs s = Raise e.
Proof.
  intros Hx Hs Hkeep Hbad Hany. revert Hx Hkeep Hany s Hs.
  induction xs as [|y xs IH]; intros Hx Hkeep Hany s Hs; simpl; [set_solver|].
  destruct (Hany s y) as [[t Ht]|Ht]; [set_solver|done| |by rewrite Ht].
  rewrite Ht. simpl.
  apply elem_of_cons in Hx as [->|Hx]; [specialize (Hbad s Hs); congruence|].
  apply IH; [done| | |].
  - intros t0 y0 t0' ???. apply (Hkeep t0 y0 t0'); [set_solver|done..].
  - intros t0 y0 ??. apply Hany; [set_solver|done].
  - apply (Hkeep s y t); [set_solver|done..].
Qed.

(** A loop whose body cannot fail is a left fold. *)
Lemma for_each_pure (f : S → A → S) xs s :
  (∀ t x, x ∈ xs → body t x = Ok (f t x)) → for_each body xs s = Ok (foldl f s xs).
Proof.
  revert s. induction xs as [|x xs IH]; intros s Hf; simpl; [done|].
  rewrite Hf by set_solver. simpl. apply IH. intros. apply Hf. set_solver.
Qed.

End ForEach.

(** ** The exceptions a computation can raise *)

(** [m] raises nothing but [e0]. *)
Definition raises_only {A} (e0 : exn) (m : res A) : Prop := ∀ e, m = Raise e → e = e0.

Lemma raises_only_ok {A} e0 (a : A) : raises_only e0 (Ok a).
Proof. by intros e. Qed.

Lemma raises_only_bind {A B} e0 (m : res A) (k : A → res B) :
  raises_only e0 m → (∀ a, raises_only e0 (k a)) → raises_only e0 (res_bind m k).
Proof. intros Hm Hk e. destruct m as [a|e']; simpl; [apply Hk|intros [= <-]; by apply Hm]. Qed.

Lemma raises_only_of_index {A} (o : option A) : raises_only IndexError (of_index o).
Proof. intros e. by destruct o; intros [= <-]. Qed.

Lemma raises_only_for_each {A S} e0 (body : S → A → res S) xs s :
  (∀ s x, raises_only e0 (body s x)) → raises_only e0 (for_each body xs s).
Proof.
  intros Hb. revert s. induction xs as [|x xs IH]; intros s; simpl; [apply raises_only_ok|].
  by apply raises_only_bind.
Qed.

(** Show [raises_only] by going through the binds, loops and cases. *)
Ltac solve_raises_only :=
  repeat match goal with
  | |- raises_only _ (res_bind _ _) => apply raises_only_bind; [|intros ?]
  | |- raises_only _ (for_each _ _ _) => apply raises_only_for_each; intros ? ?
  | |- raises_only _ (of_index _) => apply raises_only_of_index
  | |- raises_only _ (Ok _) => apply raises_only_ok
  | |- raises_only _ (if ?b then _ else _) => destruct b
  | |- raises_only _ (match ?x with _ => _ end) => destruct x
  | |- raises_only _ (match ?x with _ => _ end _) => destruct x
  end.

Lemma Forall2_impl_l {A B} (P : A → Prop) (R R' : A → B → Prop) xs ys :
  Forall P xs → Forall2 R xs ys → (∀ x y, P x → R x y → R' x y) → Forall2 R' xs ys.
Proof. intros HP HR Himp. induction HR; inversion HP; constructor; auto. Qed.

Lemma Forall2_Forall_snd {A B} (P : B → Prop) (xs : list A) ys :
  Forall2 (λ _ y, P y) xs ys → Forall P ys.
Proof. induction 1; by constructor. Qed.

(** [new_list.append(f(x))] for each [x]: the loop builds the list of the
    results, in order, when no call raises. *)
Lemma for_each_append {A B} (f : A → res B) (xs : list A) (acc : list B) :
  (∀ x, x ∈ xs → ∃ y, f x = Ok y) →
  ∃ ys, for_each (λ acc x, y <- f x ;; Ok (acc ++ [y])) xs acc = Ok (acc ++ ys) ∧
        Forall2 (λ x y, f x = Ok y) xs ys.
Proof.
  revert acc. induction xs as [|x xs IH]; intros acc Hf; simpl.
  { exists []. by rewrite app_nil_r. }
  destruct (Hf x) as [y Hy]; [set_solver|]. rewrite Hy. simpl.
  destruct (IH (acc ++ [y])) as (ys & Hrun & Hall); [intros; apply Hf; set_solver|].
  exists (y :: ys). rewrite Hrun, <-app_assoc. split; [done|]. by constructor.
Qed.

Lemma for_each_append_inv {A B} (f : A → res B) (xs : list A) (acc zs : list B) :
  for_each (λ acc x, y <- f x ;; Ok (acc ++ [y])) xs acc = Ok zs →
  ∃ ys, zs = acc ++ ys ∧ Forall2 (λ x y, f x = Ok y) xs ys.
Proof.
  revert acc. induction xs as [|x xs IH]; intros acc Hrun; simpl in Hrun.
  { injection Hrun as <-. exists []. by rewrite app_nil_r. }
  destruct (f x) as [y|e] eqn:Hy; simpl in Hrun; [|done].
  destruct (IH _ Hrun) as (ys & -> & Hall). exists (y :: ys).
  rewrite <-app_assoc. split; [done|]. by constructor.
Qed.

(** ** The cells of a grid *)

Lemma elem_of_all_cells h w p : p ∈ all_cells h w ↔ in_bounds h w p.
Proof.
  destruct p as [r c]. unfold all_cells, in_bounds.
  rewrite list_elem_of_In, in_prod_iff, <-!list_elem_of_In, !elem_of_seqZ. simpl. lia.
Qed.

Lemma NoDup_list_prod {A B} (l : list A) (k : list B) :
  NoDup l → NoDup k → NoDup (list_prod l k).
Proof.
  intros Hl Hk. induction Hl as [|x l Hx Hl IH]; simpl; [constructor|].
  apply NoDup_app. split; [apply NoDup_fmap_2; [intros ?? [=]; done|done]|].
  split; [|done]. intros [a b] Hin Hin'.
  apply list_elem_of_In, in_map_iff in Hin as (? & [= <- <-] & _).
  apply list_elem_of_In, in_prod_iff in Hin' as [Hin' _].
  by apply Hx, list_elem_of_In.
Qed.

Lemma NoDup_all_cells h w : NoDup (all_cells h w).
Proof. apply NoDup_list_prod; apply NoDup_seqZ. Qed.

Lemma length_all_cells h w : length (all_cells h w) = (Z.to_nat h * Z.to_nat w)%nat.
Proof. unfold all_cells. by rewrite length_prod, !length_seqZ. Qed.

Lemma filter_ext_in {A} (P P' : A → Prop)
    `{∀ x, Decision (P x)} `{∀ x, Decision (P' x)} (l : list A) :
  (∀ y, y ∈ l → P y ↔ P' y) → filter P l = filter P' l.
Proof.
  induction l as [|y l IH]; intros Hs; [done|]. rewrite !filter_cons.
  assert (P y ↔ P' y) by (apply Hs; set_solver).
  rewrite IH by (intros; apply Hs; set_solver).
  destruct (decide (P y)), (decide (P' y)); tauto.
Qed.

(** Making one listed element fail a filter removes exactly one element. *)
Lemma length_filter_update {A} (P P' : A → Prop)
    `{∀ x, Decision (P x)} `{∀ x, Decision (P' x)} (l : list A) x :
  NoDup l → x ∈ l → P x → ¬ P' x → (∀ y, y ∈ l → y ≠ x → P y ↔ P' y) →
  length (filter P l) = S (length (filter P' l)).
Proof.
  intros Hl. revert x. induction Hl as [|y l Hy Hl IH]; intros x Hx HP HP' Hsame; [set_solver|].
  rewrite !filter_cons. apply elem_of_cons in Hx as [->|Hx].
  - rewrite decide_True, decide_False by done. simpl. do 2 f_equal.
    apply filter_ext_in. intros z Hz. apply Hsame; [set_solver|]. intros ->. by apply Hy.
  - assert (y ≠ x) as Hne by (intros ->; by apply Hy).
    assert (P y ↔ P' y) by (apply Hsame; [set_solver|done]).
    specialize (IH x Hx HP HP' ltac:(intros; apply Hsame; [set_solver|done])).
    destruct (decide (P y)), (decide (P' y)); simpl; try tauto; by rewrite IH.
Qed.

Lemma length_filter_ext {A} (P P' : A → Prop)
    `{∀ x, Decision (P x)} `{∀ x, Decision (P' x)} (l : list A) :
  (∀ y, y ∈ l → P y ↔ P' y) → length (filter P l) = length (filter P' l).
Proof. intros Hsame. f_equal. by apply filter_ext_in. Qed.

(** ** Loops over the cells of a grid *)

Lemma for_each_app {A S} (f : S → A → res S) l1 l2 s :
  for_each f (l1 ++ l2) s = (s' <- for_each f l1 s ;; for_each f l2 s').
Proof.
  revert s. induction l1 as [|x l1 IH]; intros s; simpl; [done|].
  destruct (f s x); simpl; [apply IH|done].
Qed.

(** [for r in rows: for c in cols: body] is one loop over the pairs. *)
Lemma for_each_nested {S} (g : S → Z → Z → res S) rows cols s :
  for_each (λ s r, for_each (λ s c, g s r c) cols s) rows s =
  for_each (λ s p, g s p.1 p.2) (list_prod rows cols) s.
Proof.
  revert s. induction rows as [|r rows IH]; intros s; simpl; [done|].
  rewrite for_each_app. assert (Hmap : ∀ t, for_each (λ s c, g s r c) cols t =
    for_each (λ s p, g s p.1 p.2) (map (λ y, (r, y)) cols) t).
  { clear IH. induction cols as [|c cols IHc]; intros t; simpl; [done|].
    destruct (g t r c); simpl; [apply IHc|done]. }
  rewrite <-Hmap. destruct (for_each _ cols s); simpl; [apply IH|done].
Qed.

(** A loop over distinct cells whose body changes only the cell it visits,
    by [upd]: every visited cell is changed once. *)
Lemma for_each_cells {A} (h w : Z) (f : list (list A) → coord → res (list (list A)))
    (upd : coord → A → A) ps s :
  (∀ s p, rect h w s → p ∈ ps → ∃ s', f s p = Ok s' ∧ rect h w s' ∧
     ∀ q, in_bounds h w q → mget s' q = if decide (q = p) then upd p <$> mget s q else mget s q) →
  NoDup ps → rect h w s →
  ∃ s', for_each f ps s = Ok s' ∧ rect h w s' ∧
    ∀ q, in_bounds h w q → mget s' q = if decide (q ∈ ps) then upd q <$> mget s q else mget s q.
Proof.
  intros Hf Hnd. revert s. induction Hnd as [|p ps Hp Hnd IH]; intros s Hs; simpl.
  { exists s. split_and!; done. }
  destruct (Hf s p) as (s1 & -> & Hs1 & Hq1); [done|set_solver|]. simpl.
  destruct (IH ltac:(intros; apply Hf; set_solver) s1 Hs1) as (s2 & -> & Hs2 & Hq2).
  exists s2. split_and!; [done|done|]. intros q Hq. rewrite Hq2, Hq1 by done.
  destruct (decide (q = p)) as [->|Hne].
  - rewrite decide_False, decide_True by set_solver. done.
  - destruct (decide (q ∈ ps)); [rewrite decide_True by set_solver|rewrite decide_False by set_solver]; done.
Qed.

(** ** Python append loops *)

(** [for x in l: if P(x): acc.append(x)] *)
Lemma foldl_append_filter {A} (P : A → Prop) `{∀ x, Decision (P x)} (acc l : list A) :
  foldl (λ acc x, if decide (P x) then acc ++ [x] else acc) acc l = acc ++ filter P l.
Proof.
  revert acc. induction l as [|x l IH]; intros acc; simpl; [by rewrite app_nil_r|].
  rewrite IH, filter_cons. case_decide; [by rewrite <-app_assoc|done].
Qed.

(** [for _ in range(n): acc.append(x)] *)
Lemma foldl_append_const {A B} (x : A) (acc : list A) (l : list B) :
  foldl (λ acc _, acc ++ [x]) acc l = acc ++ replicate (length l) x.
Proof.
  revert acc. induction l as [|y l IH]; intros acc; simpl; [by rewrite app_nil_r|].
  by rewrite IH, <-app_assoc.
Qed.

Lemma py_fdiv_ok x y : ¬ (y == 0)%Q → py_fdiv x y = Ok (x / y)%Q.
Proof. intros Hy. unfold py_fdiv. destruct (Qeq_bool y 0) eqn:E; [|done]. by apply Qeq_bool_eq in E. Qed.

(** A comprehension whose body succeeds on every element succeeds, with
    one result per element. *)
Lemma res_map_ok {A B} (f : A → res B) xs :
  (∀ x, x ∈ xs → ∃ y, f x = Ok y) → ∃ ys, res_map f xs = Ok ys ∧ length ys = length xs.
Proof.
  induction xs as [|x xs IH]; intros Hf; simpl; [by exists []|].
  destruct (Hf x) as [y ->]; [set_solver|]. destruct IH as (ys & -> & Hl); [set_solver|].
  exists (y :: ys). simpl. split; [done|]. by rewrite Hl.
Qed.

(** [for x in l: acc.extend(g(x))] *)
Lemma foldl_append_concat {A B} (g : B → list A) (acc : list A) (l : list B) :
  foldl (λ acc x, acc ++ g x) acc l = acc ++ concat (map g l).
Proof.
  revert acc. induction l as [|y l IH]; intros acc; simpl; [by rewrite app_nil_r|].
  by rewrite IH, app_assoc.
Qed.

Lemma elem_of_concat_map {A B} (g : B → list A) l x :
  x ∈ concat (map g l) ↔ ∃ y, y ∈ l ∧ x ∈ g y.
Proof.
  induction l as [|y l IH]; simpl; [set_solver|].
  rewrite elem_of_app, IH. setoid_rewrite elem_of_cons. naive_solver.
Qed.

(** [max(l)] is an element of [l] at least every element of [l]. *)
Lemma py_max_spec l :
  l ≠ [] → ∃ m, py_max l = Ok m ∧ m ∈ l ∧ ∀ x, x ∈ l → x ≤ m.
Proof.
  destruct l as [|x xs]; [done|]. intros _. exists (foldl Z.max x xs). split; [done|].
  revert x. induction xs as [|y xs IH]; intros x; simpl.
  - split; [set_solver|]. intros z Hz. apply list_elem_of_singleton in Hz. lia.
  - destruct (IH (Z.max x y)) as [Hin Hle]. split.
    + apply elem_of_cons in Hin as [Hm|Hin]; [|set_solver].
      rewrite Hm. destruct (Z.max_spec x y) as [[_ ->]|[_ ->]]; set_solver.
    + intros z Hz. assert (Z.max x y ≤ foldl Z.max (Z.max x y) xs) by (apply Hle; set_solver).
      rewrite !elem_of_cons in Hz. destruct Hz as [->|[->|Hz]]; [lia|lia|apply Hle; set_solver].
Qed.

(** Induction on a list two elements at a time, the shape of a loop that
    consumes one or two elements per iteration. *)
Lemma list_ind2 {A} (P : list A → Prop) :
  P [] → (∀ x, P [x]) → (∀ x y l, P l → P (y :: l) → P (x :: y :: l)) → ∀ l, P l.
Proof.
  intros H0 H1 H2 l. assert (P l ∧ ∀ x, P (x :: l)) as [? _]; [|done].
  induction l as [|y l [IH1 IH2]]; [done|]. split; [done|]. intros x. by apply H2.
Qed.

(** ** [random.choice] *)

Lemma py_choice_ok (oracle : nat → nat) {A} (xs : list A) k :
  xs ≠ [] → ∃ x, x ∈ xs ∧ py_choice oracle xs k = (Ok x, S k).
Proof.
  intros Hne. assert (length xs ≠ 0)%nat by (destruct xs; simpl; [done|lia]).
  destruct (lookup_lt_is_Some_2 xs (oracle k mod length xs)%nat) as [x Hx];
    [by apply Nat.mod_upper_bound|].
  exists x. split; [by eapply list_elem_of_lookup_2|]. unfold py_choice. by rewrite Hx.
Qed.

Lemma seqZ_nonempty m n : 0 < n → seqZ m n ≠ [].
Proof. intros Hn E. apply (f_equal length) in E. rewrite length_seqZ in E. simpl in E. lia. Qed.

Lemma map_const_replicate {A B} (x : B) (l : list A) : map (λ _, x) l = replicate (length l) x.
Proof. induction l as [|y l IH]; simpl; [done|]. by rewrite IH. Qed.

(** [[[x for c in range(w)] for r in range(h)]] is [const_matrix h w x]. *)
Lemma comprehension_const_matrix {A} h w (x : A) :
  map (λ _, map (λ _, x) (seqZ 0 w)) (seqZ 0 h) = const_matrix h w x.
Proof. by rewrite !map_const_replicate, !length_seqZ. Qed.

(** A property of every cell is kept by writing a cell that has it. *)
Lemma Forall_mset {A} (P : A → Prop) m p x :
  Forall (Forall P) m → P x → Forall (Forall P) (mset m p x).
Proof.
  intros Hm Hx. unfold mset. apply Forall_alter; [done|]. intros row _ Hrow.
  by apply Forall_insert.
Qed.

(** A property kept by every iteration of a [for] loop that draws random
    numbers and raises nothing holds at its end. *)
(** Running a [rnd] sequence step by step. *)
Lemma rnd_bind_lift_ok {A B} (a : A) (f : A → rnd B) k : rnd_bind (rnd_lift (Ok a)) f k = f a k.
Proof. done. Qed.

Lemma rnd_bind_run {A B} (m : rnd A) (f : A → rnd B) k a k' :
  m k = (Ok a, k') → rnd_bind m f k = f a k'.
Proof. intros E. unfold rnd_bind. by rewrite E. Qed.

Lemma rnd_for_each_inv {A S} (P : S → Prop) (body : S → A → rnd S) xs s k :
  (∀ s x k, P s → x ∈ xs → ∃ s' k', body s x k = (Ok s', k') ∧ P s') →
  P s → ∃ s' k', rnd_for_each body xs s k = (Ok s', k') ∧ P s'.
Proof.
  revert s k. induction xs as [|x xs IH]; intros s k Hbody Hs; simpl; [by eexists _, _|].
  destruct (Hbody s x k) as (s1 & k1 & E & Hs1); [done|set_solver|].
  unfold rnd_bind. rewrite E. apply IH; [|done]. intros; apply Hbody; [done|set_solver].
Qed.

(** ** Lists built over [range(n)] *)

Lemma lookup_map_seqZ {A} (f : Z → A) n j :
  0 ≤ j < n → map f (seqZ 0 n) !! Z.to_nat j = Some (f j).
Proof.
  intros Hj. change (map f (seqZ 0 n)) with (f <$> seqZ 0 n).
  rewrite list_lookup_fmap, lookup_seqZ_lt by lia. simpl. do 2 f_equal. lia.
Qed.

Lemma elem_of_map_seqZ {A} (f : Z → A) n x : x ∈ map f (seqZ 0 n) ↔ ∃ j, x = f j ∧ 0 ≤ j < n.
Proof.
  change (map f (seqZ 0 n)) with (f <$> seqZ 0 n). rewrite list_elem_of_fmap.
  setoid_rewrite elem_of_seqZ. split; intros (j & ? & ?); exists j; split; (done || lia).
Qed.

Lemma NoDup_map_seqZ {A} (f : Z → A) n :
  (∀ i j, 0 ≤ i < n → 0 ≤ j < n → f i = f j → i = j) → NoDup (map f (seqZ 0 n)).
Proof.
  intros Hinj. change (map f (seqZ 0 n)) with (f <$> seqZ 0 n).
  apply NoDup_fmap_2_strong; [|apply NoDup_seqZ].
  intros i j Hi%elem_of_seqZ Hj%elem_of_seqZ. apply Hinj; lia.
Qed.

(** A property of every cell, read cell by cell. *)
Lemma Forall_mget {A} (P : A → Prop) m p x : Forall (Forall P) m → mget m p = Some x → P x.
Proof.
  unfold mget. intros Hm (row & Hrow & Hx)%bind_Some.
  eapply Forall_lookup_1; [eapply Forall_lookup_1; [exact Hm|exact Hrow]|exact Hx].
Qed.

Lemma mget_Forall {A} (P : A → Prop) h w m :
  rect h w m → (∀ p x, in_bounds h w p → mget m p = Some x → P x) → Forall (Forall P) m.
Proof.
  intros [Hlen Hrows] Hcells. apply Forall_lookup_2. intros r row Hrow.
  apply Forall_lookup_2. intros c x Hx.
  pose proof (lookup_lt_Some _ _ _ Hrow) as Hr. pose proof (lookup_lt_Some _ _ _ Hx) as Hc.
  rewrite (Forall_lookup_1 _ _ _ _ Hrows Hrow) in Hc.
  apply (Hcells (Z.of_nat r, Z.of_nat c)); [split; simpl; lia|].
  unfold mget. simpl. rewrite !Nat2Z.id, Hrow. done.
Qed.

(** Two [h] by [w] matrices with the same cells are equal. *)
Lemma mget_ext {A} h w (m1 m2 : list (list A)) :
  rect h w m1 → rect h w m2 → (∀ p, in_bounds h w p → mget m1 p = mget m2 p) → m1 = m2.
Proof.
  intros [Hl1 Hr1] [Hl2 Hr2] Hcells. apply list_eq_same_length with (Z.to_nat h); [done|done|].
  intros r row1 row2 Hr Hrow1 Hrow2.
  pose proof (Forall_lookup_1 _ _ _ _ Hr1 Hrow1) as Hw1. pose proof (Forall_lookup_1 _ _ _ _ Hr2 Hrow2) as Hw2.
  apply list_eq_same_length with (Z.to_nat w); [done|done|]. intros c x1 x2 Hc Hx1 Hx2.
  specialize (Hcells (Z.of_nat r, Z.of_nat c) ltac:(split; simpl; lia)).
  unfold mget in Hcells. simpl in Hcells. rewrite !Nat2Z.id, Hrow1, Hrow2 in Hcells. simpl in Hcells.
  congruence.
Qed.

(** The matrix [[[f((r, c)) for c in range(w)] for r in range(h)]]. *)
Definition matrix_of {A} (h w : Z) (f : coord → A) : list (list A) :=
  map (λ r, map (λ c, f (r, c)) (seqZ 0 w)) (seqZ 0 h).

Lemma rect_matrix_of {A} h w (f : coord → A) : rect h w (matrix_of h w f).
Proof.
  unfold matrix_of, rect. rewrite length_map, length_seqZ. split; [done|].
  apply Forall_forall. intros row (r & -> & _)%elem_of_map_seqZ. by rewrite length_map, length_seqZ.
Qed.

Lemma mget_matrix_of {A} h w (f : coord → A) p :
  in_bounds h w p → mget (matrix_of h w f) p = Some (f p).
Proof.
  destruct p as [r c]. intros [Hr Hc]. simpl in *. unfold mget, matrix_of. simpl.
  rewrite lookup_map_seqZ by lia. simpl. by rewrite lookup_map_seqZ by lia.
Qed.
