(* ===== verification/Grid.v ===== *)
(** * The occupancy grid ([grid.Grid] of the course library)

    [Apocalypse] inherits from this class; its source is not in the
    repository, so it is modelled from the specification (section 4.1): a
    [grid_height] by [grid_width] list of rows of [EMPTY]/[FULL] cells,
    read and written with Python's indexing ([py_get2], [py_set2]), and the
    neighbour enumerations in the order up, down, left, right, then the four
    diagonals.  The shape invariant is [wf]; the neighbour functions are
    characterised by [adj4] and [adj8]. *)

From stdpp Require Import base list options sets.
From Stdlib Require Import ZArith Lia.
From S2P Require Import Prelude.
Local Unset Default Proof Using.

Open Scope Z_scope.

Module Grid.

Inductive cell := EMPTY | FULL.

#[global] Instance cell_eq_dec : EqDecision cell.
Proof. solve_decision. Defined.

Record grid := mk_grid {
  grid_height : Z;
  grid_width : Z;
  cells : list (list cell)
}.

(** [Grid.__init__]: every cell [EMPTY]. *)
Definition new (h w : Z) : grid := mk_grid h w (const_matrix h w EMPTY).

Definition get_grid_height (g : grid) : Z := grid_height g.
Definition get_grid_width (g : grid) : Z := grid_width g.

(** [clear]: a fresh all-[EMPTY] list of rows of the same dimensions. *)
Definition clear (g : grid) : grid := new (grid_height g) (grid_width g).

(** [is_empty]: [self._cells[row][col] == EMPTY]. *)
Definition is_empty (g : grid) (row col : Z) : res bool :=
  x <- of_index (py_get2 (cells g) row col) ;; Ok (bool_decide (x = EMPTY)).

(** [is_full]: [self._cells[row][col] == FULL]. *)
Definition is_full (g : grid) (row col : Z) : res bool :=
  x <- of_index (py_get2 (cells g) row col) ;; Ok (bool_decide (x = FULL)).

Definition set_cell (g : grid) (row col : Z) (x : cell) : res grid :=
  cs <- of_index (py_set2 (cells g) row col x) ;;
  Ok (mk_grid (grid_height g) (grid_width g) cs).

(** [set_empty]: [self._cells[row][col] = EMPTY]. *)
Definition set_empty (g : grid) (row col : Z) : res grid := set_cell g row col EMPTY.

(** [set_full]: [self._cells[row][col] = FULL]. *)
Definition set_full (g : grid) (row col : Z) : res grid := set_cell g row col FULL.

Definition when {A} (b : Prop) `{Decision b} (xs : list A) : list A :=
  if decide b then xs else [].

(** [four_neighbors]: up, down, left, right, those inside the grid. *)
Definition four_neighbors (g : grid) (row col : Z) : list coord :=
  when (row > 0) [(row - 1, col)] ++
  when (row < grid_height g - 1) [(row + 1, col)] ++
  when (col > 0) [(row, col - 1)] ++
  when (col < grid_width g - 1) [(row, col + 1)].

(** [eight_neighbors]: the four above, then the four diagonals. *)
Definition eight_neighbors (g : grid) (row col : Z) : list coord :=
  four_neighbors g row col ++
  when (row > 0 ∧ col > 0) [(row - 1, col - 1)] ++
  when (row > 0 ∧ col < grid_width g - 1) [(row - 1, col + 1)] ++
  when (row < grid_height g - 1 ∧ col > 0) [(row + 1, col - 1)] ++
  when (row < grid_height g - 1 ∧ col < grid_width g - 1) [(row + 1, col + 1)].

(** ** Shape invariant and adjacency *)

Definition wf (g : grid) : Prop := rect (grid_height g) (grid_width g) (cells g).

Definition inside (g : grid) (p : coord) : Prop :=
  in_bounds (grid_height g) (grid_width g) p.

Definition adj4 (p q : coord) : Prop := Z.abs (p.1 - q.1) + Z.abs (p.2 - q.2) = 1.

Definition adj8 (p q : coord) : Prop :=
  Z.abs (p.1 - q.1) ≤ 1 ∧ Z.abs (p.2 - q.2) ≤ 1 ∧ 0 < Z.abs (p.1 - q.1) + Z.abs (p.2 - q.2).

#[global] Instance wf_dec g : Decision (wf g).
Proof. unfold wf. apply _. Defined.
#[global] Instance inside_dec g p : Decision (inside g p).
Proof. unfold inside. apply _. Defined.

(** The cell at an in-bounds coordinate. *)
Definition cell_at (g : grid) (p : coord) : option cell := mget (cells g) p.


(** ** Lemmas *)

Lemma elem_of_when {A} (P : Prop) `{Decision P} (x y : A) :
  y ∈ when P [x] ↔ P ∧ y = x.
Proof. unfold when. case_decide; set_solver. Qed.

Lemma wf_new h w : wf (new h w).
Proof. apply rect_const_matrix. Qed.

Lemma wf_clear g : wf (clear g).
Proof. apply wf_new. Qed.

Lemma cell_at_inside g p : wf g → inside g p → ∃ x, cell_at g p = Some x.
Proof. intros. by apply (mget_is_Some (grid_height g) (grid_width g)). Qed.

Lemma is_empty_inside g p :
  wf g → inside g p →
  is_empty g p.1 p.2 = Ok (bool_decide (cell_at g p = Some EMPTY)).
Proof.
  intros Hg Hp. unfold is_empty, cell_at.
  rewrite (py_get2_mget (grid_height g) (grid_width g)) by done.
  destruct (mget_is_Some _ _ _ _ Hg Hp) as [x ->]. simpl.
  f_equal. apply bool_decide_ext. naive_solver.
Qed.

Lemma is_full_inside g p :
  wf g → inside g p →
  is_full g p.1 p.2 = Ok (bool_decide (cell_at g p = Some FULL)).
Proof.
  intros Hg Hp. unfold is_full, cell_at.
  rewrite (py_get2_mget (grid_height g) (grid_width g)) by done.
  destruct (mget_is_Some _ _ _ _ Hg Hp) as [x ->]. simpl.
  f_equal. apply bool_decide_ext. naive_solver.
Qed.

Lemma set_cell_inside g p x :
  wf g → inside g p →
  set_cell g p.1 p.2 x = Ok (mk_grid (grid_height g) (grid_width g) (mset (cells g) p x)).
Proof.
  intros. unfold set_cell.
  by rewrite (py_set2_mset (grid_height g) (grid_width g)).
Qed.

Lemma wf_set_cell g r c x g' : wf g → set_cell g r c x = Ok g' → wf g'.
Proof.
  unfold set_cell, wf. intros Hg H.
  destruct (py_set2 (cells g) r c x) as [cs|] eqn:E; simpl in H; [|done].
  injection H as <-. exact (rect_py_set2 _ _ _ _ _ _ _ Hg E).
Qed.

Lemma set_cell_dims g r c x g' :
  set_cell g r c x = Ok g' →
  grid_height g' = grid_height g ∧ grid_width g' = grid_width g.
Proof.
  unfold set_cell. intros H.
  destruct (py_set2 _ _ _ _); simpl in H; [injection H as <-|]; done.
Qed.

Lemma cell_at_set_cell g p q x :
  wf g → inside g p → inside g q →
  ∀ g', set_cell g p.1 p.2 x = Ok g' →
  cell_at g' q = if decide (p = q) then Some x else cell_at g q.
Proof.
  intros Hg Hp Hq g'. rewrite set_cell_inside by done. intros [= <-].
  unfold cell_at. simpl. by apply (mget_mset (grid_height g) (grid_width g)).
Qed.

(** Python's wrap-around: a row index in [-height, 0) reads row
    [height + row]. *)
Lemma is_empty_negative_row g r c :
  wf g → - grid_height g ≤ r < 0 →
  is_empty g r c = is_empty g (grid_height g + r) c.
Proof.
  intros [Hlen _] Hr. unfold is_empty, py_get2, py_get.
  rewrite py_norm_neg, (py_norm_in _ (grid_height g + r)) by lia.
  by replace (Z.of_nat (length (cells g)) + r) with (grid_height g + r) by lia.
Qed.

Lemma is_empty_row_out g r c :
  wf g → (r < - grid_height g ∨ grid_height g ≤ r) →
  is_empty g r c = Raise IndexError.
Proof.
  intros [Hlen _] Hr. unfold is_empty, py_get2. by rewrite py_get_out by lia.
Qed.

Lemma set_cell_row_out g r c x :
  wf g → (r < - grid_height g ∨ grid_height g ≤ r) →
  set_cell g r c x = Raise IndexError.
Proof.
  intros [Hlen _] Hr. unfold set_cell, py_set2. by rewrite py_get_out by lia.
Qed.

Lemma is_empty_col_out g r c :
  wf g → 0 ≤ r < grid_height g → (c < - grid_width g ∨ grid_width g ≤ c) →
  is_empty g r c = Raise IndexError.
Proof.
  intros Hg Hr Hc. unfold is_empty, py_get2.
  rewrite py_get_in by (destruct Hg; lia).
  destruct (rect_row_is_Some _ _ _ (Z.to_nat r) Hg) as [row E]; [lia|].
  rewrite E. simpl. rewrite py_get_out; [done|].
  rewrite (rect_row _ _ _ _ _ Hg E). lia.
Qed.

Lemma set_cell_col_out g r c x :
  wf g → 0 ≤ r < grid_height g → (c < - grid_width g ∨ grid_width g ≤ c) →
  set_cell g r c x = Raise IndexError.
Proof.
  intros Hg Hr Hc. unfold set_cell, py_set2.
  rewrite py_get_in by (destruct Hg; lia).
  destruct (rect_row_is_Some _ _ _ (Z.to_nat r) Hg) as [row E]; [lia|].
  rewrite E. simpl. rewrite py_set_out; [done|].
  rewrite (rect_row _ _ _ _ _ Hg E). lia.
Qed.

Lemma elem_of_four_neighbors g r c q :
  q ∈ four_neighbors g r c ↔
  (r > 0 ∧ q = (r - 1, c)) ∨ (r < grid_height g - 1 ∧ q = (r + 1, c)) ∨
  (c > 0 ∧ q = (r, c - 1)) ∨ (c < grid_width g - 1 ∧ q = (r, c + 1)).
Proof. unfold four_neighbors. rewrite !elem_of_app, !elem_of_when. tauto. Qed.

Lemma four_neighbors_spec g p q :
  inside g p → (q ∈ four_neighbors g p.1 p.2 ↔ inside g q ∧ adj4 p q).
Proof.
  destruct p as [r c], q as [a b]. unfold inside, in_bounds, adj4. simpl.
  rewrite elem_of_four_neighbors, !pair_equal_spec. intros. split; lia.
Qed.

Lemma eight_neighbors_spec g p q :
  inside g p → (q ∈ eight_neighbors g p.1 p.2 ↔ inside g q ∧ adj8 p q).
Proof.
  destruct p as [r c], q as [a b]. unfold inside, in_bounds, adj8, eight_neighbors. simpl.
  rewrite !elem_of_app, elem_of_four_neighbors, !elem_of_when, !pair_equal_spec.
  intros. split.
  { intros Hm. destruct_or! Hm; destruct_and! Hm; simplify_eq; lia. }
  intros [? [? [? ?]]].
  assert (a = r - 1 ∨ a = r ∨ a = r + 1) as Ha by lia.
  assert (b = c - 1 ∨ b = c ∨ b = c + 1) as Hb by lia.
  destruct Ha as [->|[->| ->]], Hb as [->|[->| ->]]; lia.
Qed.

Lemma four_neighbors_inside g p q :
  inside g p → q ∈ four_neighbors g p.1 p.2 → inside g q.
Proof. intros Hp Hq. by apply (four_neighbors_spec g p q Hp) in Hq as [? _]. Qed.

Lemma eight_neighbors_inside g p q :
  inside g p → q ∈ eight_neighbors g p.1 p.2 → inside g q.
Proof. intros Hp Hq. by apply (eight_neighbors_spec g p q Hp) in Hq as [? _]. Qed.

End Grid.

#[export] Hint Resolve Grid.wf_new Grid.wf_clear Grid.wf_set_cell : pylist.
