(* ===== verification/Queue.v ===== *)
(** * The FIFO queue ([queue.Queue] of the course library)

    The breadth-first search of [compute_distance_field] keeps its frontier
    in a [queue.Queue]; the class is not in the repository and is modelled
    from the specification (section 4.2).  The contract is stated as two
    classes: [QueueOps] gives the operations the search calls ([enqueue],
    [dequeue], [__len__], [__iter__]), [QueueLaws] what they promise,
    abstracted by the list [q_items] of the queued elements, head first.
    [ListQueue] is the class itself, a queue over a Python list whose
    [dequeue] is [self._items.pop(0)]; the instance [ListQueue.laws]
    discharges the contract.  The search in [Apocalypse.v] is written and
    proved against the contract only. *)

From stdpp Require Import base list options sets.
From Stdlib Require Import ZArith Lia.
From S2P Require Import Prelude.
Local Unset Default Proof Using.

Class QueueOps (Q : Type → Type) := {
  q_new {A} : Q A;
  q_enqueue {A} : Q A → A → Q A;
  q_dequeue {A} : Q A → res (A * Q A);
  q_len {A} : Q A → nat;
  q_items {A} : Q A → list A
}.

Class QueueLaws (Q : Type → Type) `{!QueueOps Q} := {
  q_items_new {A} : q_items (@q_new Q _ A) = [];
  q_items_enqueue {A} (q : Q A) x : q_items (q_enqueue q x) = q_items q ++ [x];
  q_len_items {A} (q : Q A) : q_len q = length (q_items q);
  q_dequeue_nil {A} (q : Q A) : q_items q = [] → q_dequeue q = Raise EmptyQueueError;
  q_dequeue_cons {A} (q : Q A) x xs :
    q_items q = x :: xs → ∃ q', q_dequeue q = Ok (x, q') ∧ q_items q' = xs
}.

(** ** Consequences of the contract *)

Section Contract.
Context {Q : Type → Type} `{!QueueOps Q} `{!QueueLaws Q}.

(** Enqueueing a list, element by element, appends it in order. *)
Lemma q_items_enqueue_list {A} (q : Q A) (xs : list A) :
  q_items (foldl q_enqueue q xs) = q_items q ++ xs.
Proof.
  revert q. induction xs as [|x xs IH]; intros q; simpl; [by rewrite app_nil_r|].
  by rewrite IH, q_items_enqueue, <-app_assoc.
Qed.

Lemma q_items_enqueue_new {A} (xs : list A) : q_items (foldl q_enqueue (@q_new Q _ A) xs) = xs.
Proof. by rewrite q_items_enqueue_list, q_items_new. Qed.

End Contract.

Module ListQueue.

Record queue (A : Type) := mk_queue { _items : list A }.
Arguments mk_queue {A} _.
Arguments _items {A} _.

(** [__init__]: [self._items = []] *)
Definition new {A} : queue A := mk_queue [].

(** [enqueue]: [self._items.append(item)] *)
Definition enqueue {A} (q : queue A) (x : A) : queue A := mk_queue (_items q ++ [x]).

(** [dequeue]: [self._items.pop(0)]; the specification names the error
    of an empty queue [EmptyQueueError]. *)
Definition dequeue {A} (q : queue A) : res (A * queue A) :=
  match _items q with
  | [] => Raise EmptyQueueError
  | x :: xs => Ok (x, mk_queue xs)
  end.

(** [__len__] *)
Definition len {A} (q : queue A) : nat := length (_items q).

(** [__iter__]: the items, head first, without consuming them. *)
Definition iter {A} (q : queue A) : list A := _items q.

(** [clear]: [self._items = []] *)
Definition clear {A} (q : queue A) : queue A := new.

#[global] Instance ops : QueueOps queue := {
  q_new := @new;
  q_enqueue := @enqueue;
  q_dequeue := @dequeue;
  q_len := @len;
  q_items := @iter
}.

#[global] Instance laws : QueueLaws queue.
Proof.
  split; simpl; unfold iter, enqueue, dequeue, len; simpl; try done.
  - intros A q ->. done.
  - intros A q x xs ->. by eexists.
Qed.

End ListQueue.
