(* ===== verification/Apocalypse.v ===== *)
(** * The simulation state and its methods ([src/zombie_apocalypse.py])

    [apocalypse] is the state of an [Apocalypse] object: the obstacle grid
    it inherits from [grid.Grid] and the two entity lists.  Each method of
    the class is one definition below, with the same name; a method that can
    raise returns [res].  [compute_distance_field] is written against the
    queue contract of [Queue.v] (a Section over [QueueOps]); the Python
    program runs it with [ListQueue]. *)

From stdpp Require Import base list options sets.
From Stdlib Require Import ZArith Lia.
From S2P Require Import Prelude Grid Queue.
Local Unset Default Proof Using.

Open Scope Z_scope.

Module Apocalypse.

(** Global constants of the module. *)
Definition OBSTACLE : Z := 5.
Definition HUMAN : Z := 6.
Definition ZOMBIE : Z := 7.

Record apocalypse := mk_apocalypse {
  apoc_grid : Grid.grid;
  _zombie_list : list coord;
  _human_list : list coord
}.

(** [__init__]: a fresh grid, each obstacle set full in list order (an
    out-of-range obstacle raises), then copies of the entity lists. *)
Definition init (grid_height grid_width : Z) (obstacle_list zombie_list human_list : option (list coord))
    : res apocalypse :=
  g <- (match obstacle_list with
       | Some obs => for_each (λ g cell, Grid.set_full g cell.1 cell.2) obs (Grid.new grid_height grid_width)
       | None => Ok (Grid.new grid_height grid_width)
       end) ;;
  Ok (mk_apocalypse g (default [] zombie_list) (default [] human_list)).

(** [clear]: obstacle grid emptied, both lists reset. *)
Definition clear (a : apocalypse) : apocalypse :=
  mk_apocalypse (Grid.clear (apoc_grid a)) [] [].

Definition add_zombie (a : apocalypse) (row col : Z) : apocalypse :=
  mk_apocalypse (apoc_grid a) (_zombie_list a ++ [(row, col)]) (_human_list a).

Definition num_zombies (a : apocalypse) : nat := length (_zombie_list a).

(** [zombies]: the generator yields the list in insertion order. *)
Definition zombies (a : apocalypse) : list coord := _zombie_list a.

Definition add_human (a : apocalypse) (row col : Z) : apocalypse :=
  mk_apocalypse (apoc_grid a) (_zombie_list a) (_human_list a ++ [(row, col)]).

Definition num_humans (a : apocalypse) : nat := length (_human_list a).

Definition humans (a : apocalypse) : list coord := _human_list a.

(** ** [compute_distance_field] *)

Section DistanceField.
Context {Q : Type → Type} `{!QueueOps Q}.

(** The three objects the method mutates. *)
Record bfs_state := mk_bfs_state {
  visited : Grid.grid;
  distance_field : list (list Z);
  boundary : Q coord
}.

(** [for human in self.humans(): boundary.enqueue(human)] (or zombies). *)
Definition enqueue_all (xs : list coord) : Q coord := foldl q_enqueue q_new xs.

(** The body of [for entity in boundary:]: mark the seed visited, set its
    distance to 0. *)
Definition seed_entity (s : bfs_state) (entity : coord) : res bfs_state :=
  v <- Grid.set_full (visited s) entity.1 entity.2 ;;
  d <- of_index (py_set2 (distance_field s) entity.1 entity.2 0) ;;
  Ok (mk_bfs_state v d (boundary s)).

(** [for entity in boundary: ...]: iterates the queue without consuming it. *)
Definition seed_boundary (s : bfs_state) : res bfs_state :=
  for_each seed_entity (q_items (boundary s)) s.

(** The body of [for nbr in neighbors:], [curr_cell] being dequeued.  The
    [and] is Python's: the obstacle grid is only read when [nbr] is not
    visited. *)
Definition relax (g : Grid.grid) (curr_cell : coord) (s : bfs_state) (nbr : coord) : res bfs_state :=
  ve <- Grid.is_empty (visited s) nbr.1 nbr.2 ;;
  if ve then
    (oe <- Grid.is_empty g nbr.1 nbr.2 ;;
     if oe then
       (v <- Grid.set_full (visited s) nbr.1 nbr.2 ;;
        let b := q_enqueue (boundary s) nbr in
        curr_dist <- of_index (py_get2 (distance_field s) nbr.1 nbr.2) ;;
        dc <- of_index (py_get2 (distance_field s) curr_cell.1 curr_cell.2) ;;
        d <- of_index (py_set2 (distance_field s) nbr.1 nbr.2 (Z.min curr_dist (dc + 1))) ;;
        Ok (mk_bfs_state v d b))
     else Ok s)
  else Ok s.

(** One iteration of [while boundary:]: dequeue a cell, relax its four
    neighbours in order. *)
Definition bfs_body (g : Grid.grid) (s : bfs_state) : res bfs_state :=
  '(curr_cell, b) <- q_dequeue (boundary s) ;;
  let neighbors := Grid.four_neighbors g curr_cell.1 curr_cell.2 in
  for_each (relax g curr_cell) neighbors (mk_bfs_state (visited s) (distance_field s) b).

(** [while boundary:], at most [fuel] iterations. *)
Fixpoint bfs_loop (g : Grid.grid) (fuel : nat) (s : bfs_state) : res bfs_state :=
  match fuel with
  | O => Ok s
  | S fuel' =>
      if decide (q_len (boundary s) = 0%nat) then Ok s
      else s' <- bfs_body g s ;; bfs_loop g fuel' s'
  end.

(** The seeds of the search: humans for [HUMAN], zombies for anything else. *)
Definition seeds (a : apocalypse) (entity_type : Z) : list coord :=
  if decide (entity_type = HUMAN) then humans a else zombies a.

(** Enough iterations for the loop: each seed is dequeued once, and every
    other cell at most once. *)
Definition bfs_fuel (a : apocalypse) (entity_type : Z) : nat :=
  (length (seeds a entity_type) +
   Z.to_nat (Grid.grid_height (apoc_grid a)) * Z.to_nat (Grid.grid_width (apoc_grid a)))%nat.

(** The state before seeding: an empty [visited] grid, every distance the
    sentinel [height * width], the seeds queued. *)
Definition initial_state (a : apocalypse) (entity_type : Z) : bfs_state :=
  let h := Grid.get_grid_height (apoc_grid a) in
  let w := Grid.get_grid_width (apoc_grid a) in
  mk_bfs_state (Grid.new h w) (const_matrix h w (h * w)) (enqueue_all (seeds a entity_type)).

Definition compute_distance_field (a : apocalypse) (entity_type : Z) : res (list (list Z)) :=
  s <- seed_boundary (initial_state a entity_type) ;;
  s' <- bfs_loop (apoc_grid a) (bfs_fuel a entity_type) s ;;
  Ok (distance_field s').

End DistanceField.

(** ** [move_humans] and [move_zombies] *)

(** The decision for one human: among the empty eight neighbours, the first
    one strictly farther from the zombies than the best so far. *)
Definition best_human_move (g : Grid.grid) (zombie_distance_field : list (list Z)) (human : coord)
    : res coord :=
  let nbrs := Grid.eight_neighbors g human.1 human.2 in
  curr_best_dist <- of_index (py_get2 zombie_distance_field human.1 human.2) ;;
  '(_, best_so_far) <- for_each (λ '(curr_best_dist, best_so_far) nbr,
      e <- Grid.is_empty g nbr.1 nbr.2 ;;
      if e then
        (d <- of_index (py_get2 zombie_distance_field nbr.1 nbr.2) ;;
         if decide (d > curr_best_dist) then Ok (d, nbr) else Ok (curr_best_dist, best_so_far))
      else Ok (curr_best_dist, best_so_far))
    nbrs (curr_best_dist, human) ;;
  Ok best_so_far.

Definition move_humans (a : apocalypse) (zombie_distance_field : list (list Z)) : res apocalypse :=
  new_human_list <- for_each (λ acc human,
      best <- best_human_move (apoc_grid a) zombie_distance_field human ;;
      Ok (acc ++ [best]))
    (humans a) [] ;;
  Ok (mk_apocalypse (apoc_grid a) (_zombie_list a) new_human_list).

(** The decision for one zombie: among the empty four neighbours, the
    first one strictly nearer the humans than the best so far. *)
Definition best_zombie_move (g : Grid.grid) (human_distance_field : list (list Z)) (zombie : coord)
    : res coord :=
  let nbrs := Grid.four_neighbors g zombie.1 zombie.2 in
  curr_best_dist <- of_index (py_get2 human_distance_field zombie.1 zombie.2) ;;
  '(_, best_so_far) <- for_each (λ '(curr_best_dist, best_so_far) nbr,
      e <- Grid.is_empty g nbr.1 nbr.2 ;;
      if e then
        (d <- of_index (py_get2 human_distance_field nbr.1 nbr.2) ;;
         if decide (d < curr_best_dist) then Ok (d, nbr) else Ok (curr_best_dist, best_so_far))
      else Ok (curr_best_dist, best_so_far))
    nbrs (curr_best_dist, zombie) ;;
  Ok best_so_far.

Definition move_zombies (a : apocalypse) (human_distance_field : list (list Z)) : res apocalypse :=
  new_zombie_list <- for_each (λ acc zombie,
      best <- best_zombie_move (apoc_grid a) human_distance_field zombie ;;
      Ok (acc ++ [best]))
    (zombies a) [] ;;
  Ok (mk_apocalypse (apoc_grid a) new_zombie_list (_human_list a)).

End Apocalypse.
