(* ===== verification/Scenarios.v ===== *)
(** * The test fixture of [src/zombie_apocalypse.py] ([run_tests])

    The two objects of [run_tests] and the two matrices its assertions
    compare [compute_distance_field] with, as data.  Running the model on
    them (by [vm_compute]) reproduces both matrices exactly, including the
    sentinel [600] on the obstacle wall.  The same objects are the concrete
    inputs of several witnesses of the other files. *)

From stdpp Require Import base list options sets.
From Stdlib Require Import ZArith Lia.
From Stdlib Require String.
From S2P Require Import Prelude Grid Queue Apocalypse.
Local Unset Default Proof Using.

Open Scope Z_scope.

Module Scenarios.
Import Apocalypse.

(** The L-shaped wall shared by both objects. *)
Definition wall : list coord :=
  [(4, 15); (5, 15); (6, 15); (7, 15); (8, 15); (9, 15); (10, 15); (11, 15); (12, 15);
   (13, 15); (14, 15); (15, 15); (15, 14); (15, 13); (15, 12); (15, 11); (15, 10)].

(** [obj1 = Apocalypse(20, 30, wall, [], [(18, 14), ...])] *)
Definition obj1 : res apocalypse :=
  init 20 30 (Some wall) (Some []) (Some [(18, 14); (18, 20); (14, 24); (7, 24); (2, 22)]).

(** [obj2 = Apocalypse(20, 30, wall, [(12, 12), (7, 12)], [])] *)
Definition obj2 : res apocalypse :=
  init 20 30 (Some wall) (Some [(12, 12); (7, 12)]) (Some []).

(** The matrix of the first assertion. *)
Definition expected_human_field : list (list Z) :=
[
  [24; 23; 22; 21; 20; 19; 18; 17; 16; 15; 14; 13; 12; 11; 10; 9; 8; 7; 6; 5; 4; 3; 2; 3; 4; 5; 6; 7; 8; 9];
  [23; 22; 21; 20; 19; 18; 17; 16; 15; 14; 13; 12; 11; 10; 9; 8; 7; 6; 5; 4; 3; 2; 1; 2; 3; 4; 5; 6; 7; 8];
  [22; 21; 20; 19; 18; 17; 16; 15; 14; 13; 12; 11; 10; 9; 8; 7; 6; 5; 4; 3; 2; 1; 0; 1; 2; 3; 4; 5; 6; 7];
  [23; 22; 21; 20; 19; 18; 17; 16; 15; 14; 13; 12; 11; 10; 9; 8; 7; 6; 5; 4; 3; 2; 1; 2; 3; 4; 5; 6; 7; 8];
  [24; 23; 22; 21; 20; 19; 18; 17; 16; 15; 14; 13; 12; 11; 10; 600; 8; 7; 6; 5; 4; 3; 2; 3; 3; 4; 5; 6; 7; 8];
  [25; 24; 23; 22; 21; 20; 19; 18; 17; 16; 15; 14; 13; 12; 11; 600; 9; 8; 7; 6; 5; 4; 3; 3; 2; 3; 4; 5; 6; 7];
  [26; 25; 24; 23; 22; 21; 20; 19; 18; 17; 16; 15; 14; 13; 12; 600; 9; 8; 7; 6; 5; 4; 3; 2; 1; 2; 3; 4; 5; 6];
  [25; 24; 23; 22; 21; 20; 19; 18; 17; 16; 17; 16; 15; 14; 13; 600; 8; 7; 6; 5; 4; 3; 2; 1; 0; 1; 2; 3; 4; 5];
  [24; 23; 22; 21; 20; 19; 18; 17; 16; 15; 16; 17; 16; 15; 14; 600; 9; 8; 7; 6; 5; 4; 3; 2; 1; 2; 3; 4; 5; 6];
  [23; 22; 21; 20; 19; 18; 17; 16; 15; 14; 15; 16; 17; 16; 15; 600; 10; 9; 8; 7; 6; 5; 4; 3; 2; 3; 4; 5; 6; 7];
  [22; 21; 20; 19; 18; 17; 16; 15; 14; 13; 14; 15; 16; 17; 16; 600; 10; 10; 9; 8; 7; 6; 5; 4; 3; 4; 5; 6; 7; 8];
  [21; 20; 19; 18; 17; 16; 15; 14; 13; 12; 13; 14; 15; 16; 17; 600; 9; 10; 9; 8; 7; 6; 5; 4; 3; 4; 5; 6; 7; 8];
  [20; 19; 18; 17; 16; 15; 14; 13; 12; 11; 12; 13; 14; 15; 16; 600; 8; 9; 8; 7; 6; 5; 4; 3; 2; 3; 4; 5; 6; 7];
  [19; 18; 17; 16; 15; 14; 13; 12; 11; 10; 11; 12; 13; 14; 15; 600; 7; 8; 7; 6; 5; 4; 3; 2; 1; 2; 3; 4; 5; 6];
  [18; 17; 16; 15; 14; 13; 12; 11; 10; 9; 10; 11; 12; 13; 14; 600; 6; 7; 6; 5; 4; 3; 2; 1; 0; 1; 2; 3; 4; 5];
  [17; 16; 15; 14; 13; 12; 11; 10; 9; 8; 600; 600; 600; 600; 600; 600; 5; 6; 5; 4; 3; 4; 3; 2; 1; 2; 3; 4; 5; 6];
  [16; 15; 14; 13; 12; 11; 10; 9; 8; 7; 6; 5; 4; 3; 2; 3; 4; 5; 4; 3; 2; 3; 4; 3; 2; 3; 4; 5; 6; 7];
  [15; 14; 13; 12; 11; 10; 9; 8; 7; 6; 5; 4; 3; 2; 1; 2; 3; 4; 3; 2; 1; 2; 3; 4; 3; 4; 5; 6; 7; 8];
  [14; 13; 12; 11; 10; 9; 8; 7; 6; 5; 4; 3; 2; 1; 0; 1; 2; 3; 2; 1; 0; 1; 2; 3; 4; 5; 6; 7; 8; 9];
  [15; 14; 13; 12; 11; 10; 9; 8; 7; 6; 5; 4; 3; 2; 1; 2; 3; 4; 3; 2; 1; 2; 3; 4; 5; 6; 7; 8; 9; 10]].

(** The matrix of the second assertion. *)
Definition expected_zombie_field : list (list Z) :=
[
  [19; 18; 17; 16; 15; 14; 13; 12; 11; 10; 9; 8; 7; 8; 9; 10; 11; 12; 13; 14; 15; 16; 17; 18; 19; 20; 21; 22; 23; 24];
  [18; 17; 16; 15; 14; 13; 12; 11; 10; 9; 8; 7; 6; 7; 8; 9; 10; 11; 12; 13; 14; 15; 16; 17; 18; 19; 20; 21; 22; 23];
  [17; 16; 15; 14; 13; 12; 11; 10; 9; 8; 7; 6; 5; 6; 7; 8; 9; 10; 11; 12; 13; 14; 15; 16; 17; 18; 19; 20; 21; 22];
  [16; 15; 14; 13; 12; 11; 10; 9; 8; 7; 6; 5; 4; 5; 6; 7; 8; 9; 10; 11; 12; 13; 14; 15; 16; 17; 18; 19; 20; 21];
  [15; 14; 13; 12; 11; 10; 9; 8; 7; 6; 5; 4; 3; 4; 5; 600; 9; 10; 11; 12; 13; 14; 15; 16; 17; 18; 19; 20; 21; 22];
  [14; 13; 12; 11; 10; 9; 8; 7; 6; 5; 4; 3; 2; 3; 4; 600; 10; 11; 12; 13; 14; 15; 16; 17; 18; 19; 20; 21; 22; 23];
  [13; 12; 11; 10; 9; 8; 7; 6; 5; 4; 3; 2; 1; 2; 3; 600; 11; 12; 13; 14; 15; 16; 17; 18; 19; 20; 21; 22; 23; 24];
  [12; 11; 10; 9; 8; 7; 6; 5; 4; 3; 2; 1; 0; 1; 2; 600; 12; 13; 14; 15; 16; 17; 18; 19; 20; 21; 22; 23; 24; 25];
  [13; 12; 11; 10; 9; 8; 7; 6; 5; 4; 3; 2; 1; 2; 3; 600; 13; 14; 15; 16; 17; 18; 19; 20; 21; 22; 23; 24; 25; 26];
  [14; 13; 12; 11; 10; 9; 8; 7; 6; 5; 4; 3; 2; 3; 4; 600; 14; 15; 16; 17; 18; 19; 20; 21; 22; 23; 24; 25; 26; 27];
  [14; 13; 12; 11; 10; 9; 8; 7; 6; 5; 4; 3; 2; 3; 4; 600; 15; 16; 17; 18; 19; 20; 21; 22; 23; 24; 25; 26; 27; 28];
  [13; 12; 11; 10; 9; 8; 7; 6; 5; 4; 3; 2; 1; 2; 3; 600; 16; 17; 18; 19; 20; 21; 22; 23; 24; 25; 26; 27; 28; 29];
  [12; 11; 10; 9; 8; 7; 6; 5; 4; 3; 2; 1; 0; 1; 2; 600; 17; 18; 19; 20; 21; 22; 23; 24; 25; 26; 27; 28; 29; 30];
  [13; 12; 11; 10; 9; 8; 7; 6; 5; 4; 3; 2; 1; 2; 3; 600; 17; 18; 19; 20; 21; 22; 23; 24; 25; 26; 27; 28; 29; 30];
  [14; 13; 12; 11; 10; 9; 8; 7; 6; 5; 4; 3; 2; 3; 4; 600; 16; 17; 18; 19; 20; 21; 22; 23; 24; 25; 26; 27; 28; 29];
  [15; 14; 13; 12; 11; 10; 9; 8; 7; 6; 600; 600; 600; 600; 600; 600; 15; 16; 17; 18; 19; 20; 21; 22; 23; 24; 25; 26; 27; 28];
  [16; 15; 14; 13; 12; 11; 10; 9; 8; 7; 8; 9; 10; 11; 12; 13; 14; 15; 16; 17; 18; 19; 20; 21; 22; 23; 24; 25; 26; 27];
  [17; 16; 15; 14; 13; 12; 11; 10; 9; 8; 9; 10; 11; 12; 13; 14; 15; 16; 17; 18; 19; 20; 21; 22; 23; 24; 25; 26; 27; 28];
  [18; 17; 16; 15; 14; 13; 12; 11; 10; 9; 10; 11; 12; 13; 14; 15; 16; 17; 18; 19; 20; 21; 22; 23; 24; 25; 26; 27; 28; 29];
  [19; 18; 17; 16; 15; 14; 13; 12; 11; 10; 11; 12; 13; 14; 15; 16; 17; 18; 19; 20; 21; 22; 23; 24; 25; 26; 27; 28; 29; 30]].

(** [obj.compute_distance_field(t)] on a constructed object, with the
    queue of the course library. *)
Definition field_of (o : res apocalypse) (entity_type : Z) : res (list (list Z)) :=
  a <- o ;; compute_distance_field (Q := ListQueue.queue) a entity_type.

Section Output.
Import String.
Local Open Scope string_scope.

(** [run_tests()]: the two assertions, then the line it prints. *)
Definition run_tests : res (list String.string) :=
  f1 <- field_of obj1 HUMAN ;; _ <- py_assert (f1 = expected_human_field) ;;
  f2 <- field_of obj2 ZOMBIE ;; _ <- py_assert (f2 = expected_zombie_field) ;;
  Ok ["Tests pass!!!"].

End Output.

(** The constructed objects (both constructions succeed, see
    [obj1_ok] and [obj2_ok]). *)
Definition apoc1 : apocalypse := default (mk_apocalypse (Grid.new 0 0) [] []) (res_to_option obj1).
Definition apoc2 : apocalypse := default (mk_apocalypse (Grid.new 0 0) [] []) (res_to_option obj2).

(** A 3 by 4 grid with no obstacle and no entity. *)
Definition empty_3x4 : apocalypse := mk_apocalypse (Grid.new 3 4) [] [].

Lemma obj1_ok : obj1 = Ok apoc1.
Proof. vm_compute. reflexivity. Qed.

Lemma obj2_ok : obj2 = Ok apoc2.
Proof. vm_compute. reflexivity. Qed.

(** The first assertion of [run_tests] holds of the model:
    [obj1.compute_distance_field(HUMAN)] is exactly the expected matrix. *)
Theorem run_tests_human_field : field_of obj1 HUMAN = Ok expected_human_field.
Proof. vm_compute. reflexivity. Qed.

(** The second assertion of [run_tests] holds of the model:
    [obj2.compute_distance_field(ZOMBIE)] is exactly the expected matrix. *)
Theorem run_tests_zombie_field : field_of obj2 ZOMBIE = Ok expected_zombie_field.
Proof. vm_compute. reflexivity. Qed.

Section OutputTheorem.
Import String.
Local Open Scope string_scope.

(** [run_tests()] raises no [AssertionError] and prints its line. *)
Theorem run_tests_pass : run_tests = Ok ["Tests pass!!!"].
Proof.
  unfold run_tests, py_assert. rewrite run_tests_human_field. cbn [res_bind].
  rewrite decide_True by done. cbn [res_bind]. rewrite run_tests_zombie_field. cbn [res_bind].
  by rewrite decide_True.
Qed.

End OutputTheorem.

End Scenarios.
