(* ===== verification/DistanceField.v ===== *)
(** * The breadth-first search of [compute_distance_field]: shape,
      functional behaviour of one step, termination

    Everything here is proved against the queue contract [QueueLaws] for a
    well-formed obstacle grid [g].  [shaped] is the invariant that keeps
    every index of the search in range (so that no [IndexError] can occur);
    [relax_inside] gives the result of one relaxation as a pure function
    ([relaxed]); [measure], the queue length plus the number of unvisited
    cells, drops by one at each iteration, which bounds the iterations of
    the loop by [Apocalypse.bfs_fuel]. *)

From stdpp Require Import base list options sets.
From Stdlib Require Import ZArith Lia.
From S2P Require Import Prelude Grid Queue Apocalypse Scenarios.

Open Scope Z_scope.
Local Unset Default Proof Using.

Module DistanceField.
Import Apocalypse.

Section Search.
Context {Q : Type → Type} `{!QueueOps Q} `{!QueueLaws Q}.
Context (g : Grid.grid) (Hg : Grid.wf g).

Local Abbreviation h := (Grid.grid_height g).
Local Abbreviation w := (Grid.grid_width g).
Local Abbreviation state := (@bfs_state Q).

(** The indices the search uses are all in range. *)
Definition shaped (s : state) : Prop :=
  Grid.wf (visited s) ∧ Grid.grid_height (visited s) = h ∧ Grid.grid_width (visited s) = w ∧
  rect h w (distance_field s) ∧ Forall (Grid.inside g) (q_items (boundary s)).

Definition unvisited (s : state) (p : coord) : Prop :=
  Grid.cell_at (visited s) p = Some Grid.EMPTY.

Definition passable (p : coord) : Prop := Grid.cell_at g p = Some Grid.EMPTY.

#[global] Instance shaped_dec s : Decision (shaped s).
Proof. unfold shaped. apply _. Defined.
#[global] Instance unvisited_dec s p : Decision (unvisited s p).
Proof. unfold unvisited. apply _. Defined.
#[global] Instance passable_dec p : Decision (passable p).
Proof. unfold passable. apply _. Defined.

(** The distance stored at [p] (0 when out of range, which [shaped]
    excludes). *)
Definition dist_at (s : state) (p : coord) : Z := default 0 (mget (distance_field s) p).

Definition measure (s : state) : nat :=
  (q_len (boundary s) + length (filter (unvisited s) (all_cells h w)))%nat.

(** A relaxation that finds [nbr] unvisited and free. *)
Definition relaxed (s : state) (curr nbr : coord) : state :=
  mk_bfs_state
    (Grid.mk_grid (Grid.grid_height (visited s)) (Grid.grid_width (visited s))
       (mset (Grid.cells (visited s)) nbr Grid.FULL))
    (mset (distance_field s) nbr (Z.min (dist_at s nbr) (dist_at s curr + 1)))
    (q_enqueue (boundary s) nbr).

(** ** Shape *)

Lemma shaped_inside_visited s p : shaped s → Grid.inside g p → Grid.inside (visited s) p.
Proof. intros (_ & Hh & Hw & _) Hp. unfold Grid.inside. by rewrite Hh, Hw. Qed.

Lemma shaped_dist_at s p :
  shaped s → Grid.inside g p → mget (distance_field s) p = Some (dist_at s p).
Proof.
  intros (_ & _ & _ & Hd & _) Hp. unfold dist_at.
  by destruct (mget_is_Some h w _ p Hd Hp) as [d ->].
Qed.

Lemma shaped_cell_at s p :
  shaped s → Grid.inside g p → ∃ c, Grid.cell_at (visited s) p = Some c.
Proof. intros Hs Hp. apply Grid.cell_at_inside; [apply Hs|by apply shaped_inside_visited]. Qed.

Lemma relax_inside s curr nbr :
  shaped s → Grid.inside g curr → Grid.inside g nbr →
  relax g curr s nbr =
    Ok (if decide (unvisited s nbr ∧ passable nbr) then relaxed s curr nbr else s).
Proof.
  intros Hs Hc Hn. pose proof (shaped_inside_visited s nbr Hs Hn) as Hv.
  destruct Hs as (Hwf & Hh & Hw & Hd & Hq).
  unfold relax. rewrite Grid.is_empty_inside by done. simpl.
  unfold unvisited, passable.
  destruct (decide (Grid.cell_at (visited s) nbr = Some Grid.EMPTY)) as [Hu|Hu];
    [rewrite bool_decide_true by done|rewrite bool_decide_false by done;
     rewrite decide_False by tauto; done].
  simpl. rewrite Grid.is_empty_inside by done. simpl.
  destruct (decide (Grid.cell_at g nbr = Some Grid.EMPTY)) as [Hp|Hp];
    [rewrite bool_decide_true by done|rewrite bool_decide_false by done;
     rewrite decide_False by tauto; done].
  rewrite decide_True by done. simpl.
  unfold Grid.set_full. rewrite Grid.set_cell_inside by done. simpl.
  rewrite !(py_get2_mget h w) by done. unfold relaxed, dist_at.
  destruct (mget_is_Some h w _ nbr Hd Hn) as [dn ->].
  destruct (mget_is_Some h w _ curr Hd Hc) as [dc ->]. simpl.
  by rewrite (py_set2_mset h w _ nbr _ Hd Hn).
Qed.

Lemma shaped_relaxed s curr nbr :
  shaped s → Grid.inside g nbr → shaped (relaxed s curr nbr).
Proof.
  intros (Hwf & Hh & Hw & Hd & Hq) Hn. unfold shaped, relaxed; simpl.
  split_and!; [by apply rect_mset|done|done|by apply rect_mset|].
  rewrite q_items_enqueue. apply Forall_app. by split; [|constructor].
Qed.

Lemma unvisited_relaxed s curr nbr p :
  shaped s → Grid.inside g nbr → Grid.inside g p →
  unvisited (relaxed s curr nbr) p ↔ p ≠ nbr ∧ unvisited s p.
Proof.
  intros Hs Hn Hp. pose proof (shaped_inside_visited s _ Hs Hn).
  pose proof (shaped_inside_visited s _ Hs Hp). destruct Hs as (Hwf & _).
  unfold unvisited, relaxed, Grid.cell_at; simpl.
  rewrite (mget_mset (Grid.grid_height (visited s)) (Grid.grid_width (visited s))) by done.
  case_decide; subst; [|naive_solver]. split; [done|]. naive_solver.
Qed.

Lemma measure_relaxed s curr nbr :
  shaped s → Grid.inside g nbr → unvisited s nbr →
  measure (relaxed s curr nbr) = measure s.
Proof.
  intros Hs Hn Hu. unfold measure. simpl.
  rewrite !q_len_items, q_items_enqueue, length_app. simpl.
  rewrite (length_filter_update (unvisited s) (unvisited (relaxed s curr nbr))
             (all_cells h w) nbr); [lia|apply NoDup_all_cells|by apply elem_of_all_cells|done|..].
  - rewrite unvisited_relaxed by done. tauto.
  - intros y Hy%elem_of_all_cells ?. rewrite unvisited_relaxed by done. tauto.
Qed.

(** ** One iteration of the loop *)

Lemma relax_step s curr nbr :
  shaped s → Grid.inside g curr → Grid.inside g nbr →
  ∃ s', relax g curr s nbr = Ok s' ∧ shaped s' ∧ measure s' = measure s.
Proof.
  intros Hs Hc Hn. rewrite relax_inside by done. eexists; split; [done|].
  case_decide as Hu; [|done]. split; [by apply shaped_relaxed|].
  apply measure_relaxed; tauto.
Qed.

Lemma relax_neighbors s curr :
  shaped s → Grid.inside g curr →
  ∃ s', for_each (relax g curr) (Grid.four_neighbors g curr.1 curr.2) s = Ok s' ∧
        shaped s' ∧ measure s' = measure s.
Proof.
  intros Hs Hc.
  apply (for_each_ok _ (λ t, shaped t ∧ measure t = measure s)); [done|].
  intros t nbr Hn [Ht Hm]. destruct (relax_step t curr nbr) as (t' & ? & ? & ?);
    [done|done|by eapply Grid.four_neighbors_inside|].
  exists t'. split_and!; congruence.
Qed.

(** The dequeue step of [bfs_body]. *)
Lemma bfs_body_cons s x xs :
  q_items (boundary s) = x :: xs →
  ∃ b, q_items b = xs ∧
       bfs_body g s = for_each (relax g x) (Grid.four_neighbors g x.1 x.2)
                        (mk_bfs_state (visited s) (distance_field s) b).
Proof.
  intros Hq. destruct (q_dequeue_cons _ _ _ Hq) as (b & Hd & Hb).
  exists b. split; [done|]. unfold bfs_body. by rewrite Hd.
Qed.

Lemma bfs_body_ok s :
  shaped s → q_items (boundary s) ≠ [] →
  ∃ s', bfs_body g s = Ok s' ∧ shaped s' ∧ S (measure s') = measure s.
Proof.
  intros Hs Hne. destruct (q_items (boundary s)) as [|x xs] eqn:Hq; [done|].
  destruct (bfs_body_cons s x xs Hq) as (b & Hb & ->).
  destruct Hs as (Hwf & Hh & Hw & Hd & Hfa). rewrite Hq in Hfa.
  apply Forall_cons in Hfa as [Hx Hxs].
  destruct (relax_neighbors (mk_bfs_state (visited s) (distance_field s) b) x)
    as (s' & Hrun & Hs' & Hm); [by split_and!; simpl; rewrite ?Hb|done|].
  exists s'. split_and!; [done|done|]. rewrite Hm. unfold measure; simpl.
  rewrite !q_len_items, Hq, Hb. done.
Qed.

(** The iteration is a function of the state: a property kept by every
    iteration that starts from a [shaped] state is kept by the loop. *)
Lemma bfs_loop_inv (P : state → Prop) fuel s s' :
  shaped s → P s →
  (∀ t t', shaped t → P t → q_items (boundary t) ≠ [] → bfs_body g t = Ok t' → P t') →
  bfs_loop g fuel s = Ok s' → shaped s' ∧ P s'.
Proof.
  revert s. induction fuel as [|fuel IH]; simpl; intros s Hs HP Hstep Hrun.
  { by injection Hrun as <-. }
  case_decide as Hlen; [by injection Hrun as <-|].
  rewrite q_len_items in Hlen.
  assert (q_items (boundary s) ≠ []) as Hne by (intros E; rewrite E in Hlen; done).
  destruct (bfs_body_ok s Hs Hne) as (t & Ht & Hts & _). rewrite Ht in Hrun. simpl in Hrun.
  apply (IH t); [done| |done|done]. by apply (Hstep s t).
Qed.

(** ** Termination *)

Lemma measure_queue_empty s : measure s = 0%nat → q_items (boundary s) = [].
Proof. unfold measure. rewrite q_len_items. destruct (q_items _); simpl; [done|lia]. Qed.

(** Enough fuel runs the loop to an empty queue. *)
Lemma bfs_loop_drains fuel s :
  shaped s → (measure s ≤ fuel)%nat →
  ∃ s', bfs_loop g fuel s = Ok s' ∧ shaped s' ∧ q_items (boundary s') = [].
Proof.
  revert s. induction fuel as [|fuel IH]; simpl; intros s Hs Hm.
  { exists s. split_and!; [done|done|]. apply measure_queue_empty. lia. }
  case_decide as Hlen.
  { exists s. split_and!; [done|done|]. rewrite q_len_items in Hlen. by destruct (q_items _). }
  rewrite q_len_items in Hlen.
  destruct (bfs_body_ok s Hs) as (t & -> & Ht & Hmt); [by intros E; rewrite E in Hlen|].
  simpl. apply IH; [done|lia].
Qed.

(** C20: The [while boundary] loop terminates: from a state whose indices
    are in range, a fuel at least [measure] (the queue length plus the number
    of unvisited cells) runs the loop to an empty queue, without any
    exception. *)
Theorem bfs_loop_terminates fuel s :
  shaped s → (measure s ≤ fuel)%nat →
  ∃ s', bfs_loop g fuel s = Ok s' ∧ shaped s' ∧ q_items (boundary s') = [].
Proof. apply bfs_loop_drains. Qed.

(** ** Seeding *)

(** The state after seeding [p]. *)
Definition seeded (s : state) (p : coord) : state :=
  mk_bfs_state
    (Grid.mk_grid (Grid.grid_height (visited s)) (Grid.grid_width (visited s))
       (mset (Grid.cells (visited s)) p Grid.FULL))
    (mset (distance_field s) p 0)
    (boundary s).

Lemma seed_entity_inside s p :
  shaped s → Grid.inside g p → seed_entity s p = Ok (seeded s p).
Proof.
  intros Hs Hp. pose proof (shaped_inside_visited s p Hs Hp) as Hv.
  destruct Hs as (Hwf & Hh & Hw & Hd & Hq).
  unfold seed_entity, Grid.set_full. rewrite Grid.set_cell_inside by done. simpl.
  by rewrite (py_set2_mset h w _ p _ Hd Hp).
Qed.

Lemma shaped_seeded s p : shaped s → Grid.inside g p → shaped (seeded s p).
Proof.
  intros (Hwf & Hh & Hw & Hd & Hq) Hp. unfold shaped, seeded; simpl.
  split_and!; [by apply rect_mset|done|done|by apply rect_mset|done].
Qed.

Lemma cell_at_seeded s p q :
  shaped s → Grid.inside g p → Grid.inside g q →
  Grid.cell_at (visited (seeded s p)) q =
    if decide (p = q) then Some Grid.FULL else Grid.cell_at (visited s) q.
Proof.
  intros Hs Hp Hq. pose proof (shaped_inside_visited s _ Hs Hp).
  pose proof (shaped_inside_visited s _ Hs Hq). destruct Hs as (Hwf & _).
  unfold Grid.cell_at, seeded; simpl. by apply (mget_mset (Grid.grid_height (visited s)) (Grid.grid_width (visited s))).
Qed.

Lemma mget_seeded s p q :
  shaped s → Grid.inside g p → Grid.inside g q →
  mget (distance_field (seeded s p)) q =
    if decide (p = q) then Some 0 else mget (distance_field s) q.
Proof. intros (_ & _ & _ & Hd & _) Hp Hq. simpl. by apply (mget_mset h w). Qed.

(** The seeding loop marks each listed cell visited at distance 0 and
    leaves every other cell and the queue as they were. *)
Lemma seed_loop xs s :
  shaped s → Forall (Grid.inside g) xs →
  ∃ s', for_each seed_entity xs s = Ok s' ∧ shaped s' ∧ boundary s' = boundary s ∧
    ∀ q, Grid.inside g q →
      Grid.cell_at (visited s') q =
        (if decide (q ∈ xs) then Some Grid.FULL else Grid.cell_at (visited s) q) ∧
      mget (distance_field s') q =
        (if decide (q ∈ xs) then Some 0 else mget (distance_field s) q).
Proof.
  revert s. induction xs as [|x xs IH]; intros s Hs Hxs; simpl.
  { exists s. split_and!; [done..|]. intros q _. split; repeat case_decide; set_solver. }
  apply Forall_cons in Hxs as [Hx Hxs]. rewrite seed_entity_inside by done. simpl.
  destruct (IH (seeded s x)) as (s' & Hrun & Hs' & Hb & Hcells);
    [by apply shaped_seeded|done|].
  exists s'. split_and!; [done|done|done|]. intros q Hq.
  destruct (Hcells q Hq) as [Hc Hd]. rewrite Hc, Hd.
  rewrite cell_at_seeded, mget_seeded by done.
  destruct (decide (q ∈ xs)), (decide (x = q)), (decide (q ∈ x :: xs)); set_solver.
Qed.

End Search.

Section Method.
Context {Q : Type → Type} `{!QueueOps Q} `{!QueueLaws Q}.
Context (a : apocalypse) (entity_type : Z).

Local Abbreviation g := (apoc_grid a).
Local Abbreviation h := (Grid.grid_height (apoc_grid a)).
Local Abbreviation w := (Grid.grid_width (apoc_grid a)).
Local Abbreviation seeds_of := (seeds a entity_type).

Lemma initial_state_shaped :
  Forall (Grid.inside g) seeds_of → shaped g (initial_state (Q := Q) a entity_type).
Proof.
  intros Hs. unfold shaped, initial_state; simpl.
  split_and!; [apply Grid.wf_new|done|done|apply rect_const_matrix|].
  by unfold enqueue_all; rewrite q_items_enqueue_new.
Qed.

(** After the seeding loop: the seeds are queued, visited, at distance 0;
    every other cell is unvisited at the sentinel distance. *)
Lemma seed_boundary_spec :
  Grid.wf g → Forall (Grid.inside g) seeds_of →
  ∃ s0, seed_boundary (initial_state (Q := Q) a entity_type) = Ok s0 ∧
    shaped g s0 ∧ q_items (boundary s0) = seeds_of ∧
    ∀ p, Grid.inside g p →
      Grid.cell_at (visited s0) p = Some (if decide (p ∈ seeds_of) then Grid.FULL else Grid.EMPTY) ∧
      mget (distance_field s0) p = Some (if decide (p ∈ seeds_of) then 0 else h * w).
Proof.
  intros Hg Hs. pose proof (initial_state_shaped Hs) as Hi.
  unfold seed_boundary.
  assert (q_items (boundary (initial_state (Q := Q) a entity_type)) = seeds_of) as Hq
    by (simpl; unfold enqueue_all; apply q_items_enqueue_new).
  rewrite Hq.
  destruct (seed_loop g Hg seeds_of _ Hi Hs) as (s0 & Hrun & Hs0 & Hb & Hcells).
  exists s0. split_and!; [done|done|by rewrite Hb|]. intros p Hp.
  destruct (Hcells p Hp) as [-> ->]. simpl.
  unfold Grid.cell_at, Grid.new; simpl.
  rewrite !mget_const_matrix by done. split; by case_decide.
Qed.

Lemma measure_initial s0 :
  q_items (boundary s0) = seeds_of →
  (measure g s0 ≤ bfs_fuel a entity_type)%nat.
Proof.
  intros Hq. unfold measure, bfs_fuel. rewrite q_len_items, Hq.
  apply Nat.add_le_mono_l. rewrite <-length_all_cells. apply length_filter.
Qed.

(** The seeding and the search run through without exception. *)
Lemma compute_distance_field_runs :
  Grid.wf g → Forall (Grid.inside g) seeds_of →
  ∃ s0 s', seed_boundary (initial_state (Q := Q) a entity_type) = Ok s0 ∧
    bfs_loop g (bfs_fuel a entity_type) s0 = Ok s' ∧ q_items (boundary s') = [] ∧
    compute_distance_field (Q := Q) a entity_type = Ok (distance_field s').
Proof.
  intros Hg Hs. destruct seed_boundary_spec as (s0 & Hs0 & Hsh & Hq & _); [done..|].
  destruct (bfs_loop_drains g Hg (bfs_fuel a entity_type) s0 Hsh) as (s' & Hrun & _ & Hemp);
    [by apply measure_initial|].
  exists s0, s'. split_and!; [done..|].
  unfold compute_distance_field. by rewrite Hs0; simpl; rewrite Hrun.
Qed.

(** C2: [compute_distance_field] is total on a well-formed grid whose seeds
    are in bounds: the seeding loop and the search run without exception,
    and the search stops because its queue is empty (the fuel [bfs_fuel]
    never runs out); the method returns the final distance array. *)
Theorem compute_distance_field_total :
  Grid.wf g → Forall (Grid.inside g) seeds_of →
  ∃ s0 s', seed_boundary (initial_state (Q := Q) a entity_type) = Ok s0 ∧
    bfs_loop g (bfs_fuel a entity_type) s0 = Ok s' ∧ q_items (boundary s') = [] ∧
    compute_distance_field (Q := Q) a entity_type = Ok (distance_field s').
Proof. apply compute_distance_field_runs. Qed.

End Method.

Import Scenarios.

(** From the unseeded start state of the first fixture (humans queued,
    nothing visited), the loop with [bfs_fuel] empties its queue. *)
Lemma bfs_loop_terminates_witness :
  ∃ s', bfs_loop (apoc_grid apoc1) (bfs_fuel apoc1 HUMAN) (initial_state (Q := ListQueue.queue) apoc1 HUMAN) = Ok s' ∧
    shaped (apoc_grid apoc1) s' ∧ q_items (boundary s') = [].
Proof.
  apply (bfs_loop_terminates (apoc_grid apoc1)); [decide_by_eval..].
Defined.

Lemma compute_distance_field_total_witness :
  ∃ s0 s', seed_boundary (initial_state (Q := ListQueue.queue) apoc1 HUMAN) = Ok s0 ∧
    bfs_loop (apoc_grid apoc1) (bfs_fuel apoc1 HUMAN) s0 = Ok s' ∧ q_items (boundary s') = [] ∧
    compute_distance_field (Q := ListQueue.queue) apoc1 HUMAN = Ok (distance_field s').
Proof. apply compute_distance_field_total; decide_by_eval. Defined.

End DistanceField.
