(* ===== verification/FieldInvariants.v ===== *)
(** * What every distance field satisfies (section 8 of the specification)

    [marks] relates the [visited] grid and the distance array during the
    search: an unvisited cell holds the sentinel [height * width], a seed is
    visited at distance 0, and a visited cell is a seed or a free cell of the
    obstacle grid.  It holds after seeding and every iteration keeps it, so
    the returned array has 0 on every seed and the sentinel on every obstacle
    that is not a seed. *)

From stdpp Require Import base list options sets.
From Stdlib Require Import ZArith Lia.
From S2P Require Import Prelude Grid Queue Apocalypse Scenarios DistanceField.

Open Scope Z_scope.
Local Unset Default Proof Using.

Module FieldInvariants.
Import Apocalypse DistanceField.

Section Marks.
Context {Q : Type → Type} `{!QueueOps Q} `{!QueueLaws Q}.
Context (g : Grid.grid) (Hg : Grid.wf g) (S : list coord).

Local Abbreviation h := (Grid.grid_height g).
Local Abbreviation w := (Grid.grid_width g).
Local Abbreviation state := (@bfs_state Q).

Definition marks (s : state) : Prop :=
  ∀ p, Grid.inside g p →
    (unvisited s p → mget (distance_field s) p = Some (h * w)) ∧
    (p ∈ S → ¬ unvisited s p ∧ mget (distance_field s) p = Some 0) ∧
    (¬ unvisited s p → p ∈ S ∨ passable g p).

Lemma marks_relaxed s curr nbr :
  shaped g s → marks s → Grid.inside g nbr → unvisited s nbr → passable g nbr →
  marks (relaxed s curr nbr).
Proof.
  intros Hs Hm Hn Hu Hp p Hpi. pose proof Hs as (_ & _ & _ & Hd & _).
  rewrite unvisited_relaxed by done. simpl.
  rewrite (mget_mset h w) by done.
  destruct (Hm p Hpi) as (H1 & H2 & H3).
  case_decide as E; [subst p|]; split_and!.
  - tauto.
  - intros Hin. exfalso. by apply (proj1 (H2 Hin)).
  - intros _. by right.
  - intros [_ Hu']. by apply H1.
  - intros Hin. destruct (H2 Hin). split; [tauto|done].
  - intros Hnu. apply H3. intros Hu'. apply Hnu. split; [done|done].
Qed.

Lemma marks_relax s curr nbr s' :
  shaped g s → marks s → Grid.inside g curr → Grid.inside g nbr →
  relax g curr s nbr = Ok s' → shaped g s' ∧ marks s'.
Proof.
  intros Hs Hm Hc Hn. rewrite relax_inside by done. intros [= <-].
  case_decide as E; [|done]. destruct E.
  split; [by apply shaped_relaxed|by apply marks_relaxed].
Qed.

Lemma marks_body s s' :
  shaped g s → marks s → bfs_body g s = Ok s' → marks s'.
Proof.
  intros Hs Hm Hrun.
  destruct (q_items (boundary s)) as [|x xs] eqn:Hq.
  { unfold bfs_body in Hrun. rewrite q_dequeue_nil in Hrun by done. done. }
  destruct (bfs_body_cons g s x xs Hq) as (b & Hb & Hbody). rewrite Hbody in Hrun.
  pose proof Hs as (Hwf & Hh & Hw & Hd & Hfa). rewrite Hq in Hfa.
  apply Forall_cons in Hfa as [Hx Hxs].
  refine (proj2 (for_each_inv _ (λ t, shaped g t ∧ marks t) _ _ _ _ _ Hrun)).
  - split; [by split_and!; simpl; rewrite ?Hb|done].
  - intros t nbr t' Hnbr [Ht Hmt]. apply marks_relax; [done|done|done|].
    by eapply Grid.four_neighbors_inside.
Qed.

(** The state after seeding: the listed cells visited at distance 0, the
    others unvisited at the sentinel. *)
Lemma marks_initial s0 :
  (∀ p, Grid.inside g p →
     Grid.cell_at (visited s0) p = Some (if decide (p ∈ S) then Grid.FULL else Grid.EMPTY) ∧
     mget (distance_field s0) p = Some (if decide (p ∈ S) then 0 else h * w)) →
  marks s0.
Proof.
  intros Hcells p Hp. destruct (Hcells p Hp) as [Hc Hd]. unfold unvisited. rewrite Hc, Hd.
  case_decide; split_and!; (done || intros; simplify_eq; naive_solver).
Qed.

Lemma marks_loop fuel s s' :
  shaped g s → marks s → bfs_loop g fuel s = Ok s' → marks s'.
Proof.
  intros Hs Hm Hrun. refine (proj2 (bfs_loop_inv g Hg marks fuel s s' Hs Hm _ Hrun)).
  intros t t' Ht Hmt _. by apply marks_body.
Qed.

End Marks.

Section Method.
Context {Q : Type → Type} `{!QueueOps Q} `{!QueueLaws Q}.
Context (a : apocalypse) (entity_type : Z).

Local Abbreviation g := (apoc_grid a).
Local Abbreviation h := (Grid.grid_height (apoc_grid a)).
Local Abbreviation w := (Grid.grid_width (apoc_grid a)).
Local Abbreviation seeds_of := (seeds a entity_type).

(** The search state the method returns, with [marks] and [shaped]. *)
Lemma compute_distance_field_marks m :
  Grid.wf g → Forall (Grid.inside g) seeds_of →
  compute_distance_field (Q := Q) a entity_type = Ok m →
  ∃ s', distance_field s' = m ∧ shaped g s' ∧ marks g seeds_of s'.
Proof.
  intros Hg Hs Hrun.
  destruct (seed_boundary_spec (Q := Q) a entity_type Hg Hs) as (s0 & Hs0 & Hsh & Hq & Hcells).
  unfold compute_distance_field in Hrun. rewrite Hs0 in Hrun. simpl in Hrun.
  destruct (bfs_loop g (bfs_fuel a entity_type) s0) as [s'|e] eqn:Hloop; simpl in Hrun;
    [|done].
  injection Hrun as <-. exists s'. split; [done|].
  assert (marks g seeds_of s0) as Hm0 by (by apply marks_initial).
  split; [|by eapply marks_loop].
  refine (proj1 (bfs_loop_inv g Hg (λ _, True) _ s0 s' Hsh I _ Hloop)). done.
Qed.

(** C5: Every seed (each human for [HUMAN], each zombie otherwise) has
    distance 0 in the returned field. *)
Theorem compute_distance_field_seeds_zero m :
  Grid.wf g → Forall (Grid.inside g) seeds_of →
  compute_distance_field (Q := Q) a entity_type = Ok m →
  ∀ p, p ∈ seeds_of → mget m p = Some 0.
Proof.
  intros Hg Hs Hrun p Hp. destruct (compute_distance_field_marks m Hg Hs Hrun) as (s' & <- & _ & Hm).
  apply (Hm p); [|done]. by eapply Forall_forall.
Qed.

(** C6: Every obstacle cell that is not itself a seed keeps the sentinel
    [height * width] ("unreachable") in the returned field. *)
Theorem compute_distance_field_obstacle_sentinel m :
  Grid.wf g → Forall (Grid.inside g) seeds_of →
  compute_distance_field (Q := Q) a entity_type = Ok m →
  ∀ p, Grid.inside g p → Grid.cell_at g p = Some Grid.FULL → p ∉ seeds_of →
  mget m p = Some (h * w).
Proof.
  intros Hg Hs Hrun p Hp Hfull Hns.
  destruct (compute_distance_field_marks m Hg Hs Hrun) as (s' & <- & _ & Hm).
  destruct (Hm p Hp) as (H1 & _ & H3). apply H1.
  destruct (decide (unvisited s' p)) as [|Hv]; [done|].
  destruct (H3 Hv) as [|Hpass]; [done|]. unfold passable in Hpass. congruence.
Qed.

(** C19: The returned field has the grid's shape: [height] rows of [width]
    integers. *)
Theorem compute_distance_field_rect m :
  Grid.wf g → Forall (Grid.inside g) seeds_of →
  compute_distance_field (Q := Q) a entity_type = Ok m → rect h w m.
Proof.
  intros Hg Hs Hrun. destruct (compute_distance_field_marks m Hg Hs Hrun) as (s' & <- & Hsh & _).
  apply Hsh.
Qed.

(** With no seed, every cell keeps the sentinel: the method returns the
    [height] by [width] array of [height * width]. *)
Theorem compute_distance_field_no_seeds :
  seeds_of = [] →
  compute_distance_field (Q := Q) a entity_type = Ok (const_matrix h w (h * w)).
Proof.
  intros Hnil. unfold compute_distance_field, seed_boundary.
  assert (q_items (boundary (initial_state (Q := Q) a entity_type)) = []) as ->
    by (simpl; unfold enqueue_all; rewrite q_items_enqueue_new; done).
  simpl. destruct (bfs_fuel a entity_type); simpl; [done|].
  rewrite decide_True; [done|]. rewrite q_len_items. unfold enqueue_all.
  by rewrite q_items_enqueue_new, Hnil.
Qed.

End Method.

Import Scenarios.

(** The seeds of the first fixture, e.g. the human at (18, 14), are at
    distance 0 of the field [run_tests] expects. *)
Lemma compute_distance_field_seeds_zero_witness :
  mget expected_human_field (18, 14) = Some 0.
Proof.
  apply (compute_distance_field_seeds_zero (Q := ListQueue.queue) apoc1 HUMAN);
    [decide_by_eval|decide_by_eval|vm_compute; reflexivity|decide_by_eval].
Defined.

(** The wall cell (4, 15) of the first fixture keeps the sentinel 600. *)
Lemma compute_distance_field_obstacle_sentinel_witness :
  mget expected_human_field (4, 15) = Some (20 * 30).
Proof.
  apply (compute_distance_field_obstacle_sentinel (Q := ListQueue.queue) apoc1 HUMAN);
    [decide_by_eval|decide_by_eval|vm_compute; reflexivity|decide_by_eval|
     vm_compute; reflexivity|decide_by_eval].
Defined.

Lemma compute_distance_field_rect_witness : rect 20 30 expected_zombie_field.
Proof.
  apply (compute_distance_field_rect (Q := ListQueue.queue) apoc2 ZOMBIE);
    [decide_by_eval|decide_by_eval|vm_compute; reflexivity].
Defined.

Lemma compute_distance_field_no_seeds_witness :
  compute_distance_field (Q := ListQueue.queue) empty_3x4 HUMAN = Ok (const_matrix 3 4 12).
Proof.
  apply (compute_distance_field_no_seeds (Q := ListQueue.queue) empty_3x4 HUMAN).
  reflexivity.
Defined.

End FieldInvariants.
