(* ===== verification/Movement.v ===== *)
(** * [move_humans] and [move_zombies]

    On a well-formed grid, with entities in bounds and a distance field of
    the grid's shape, the inner [for nbr in nbrs] loop of both methods raises
    nothing and is the left fold of [pick_step]: keep the first empty
    neighbour whose distance beats the best so far by [R] ([>] for humans,
    [<] for zombies).  [pick_foldl] characterises that fold for any strict
    order [R]; the theorems then say where each entity can go and that it
    goes to a best cell. *)

From stdpp Require Import base list options sets.
From Stdlib Require Import ZArith Lia.
From S2P Require Import Prelude Grid Queue Apocalypse Scenarios.

Open Scope Z_scope.
Local Unset Default Proof Using.

Module Movement.
Import Apocalypse.

(** The distance read at an in-range cell. *)
Definition dget (field : list (list Z)) (p : coord) : Z := default 0 (mget field p).

(** The body of the neighbour loop once no index can fail. *)
Definition pick_step (R : Z → Z → Prop) `{∀ x y, Decision (R x y)} (g : Grid.grid)
    (field : list (list Z)) (acc : Z * coord) (nbr : coord) : Z * coord :=
  if decide (Grid.cell_at g nbr = Some Grid.EMPTY ∧ R (dget field nbr) acc.1)
  then (dget field nbr, nbr) else acc.

(** The loop as the source writes it, for either comparison. *)
Definition pick_body (R : Z → Z → Prop) `{∀ x y, Decision (R x y)} (g : Grid.grid)
    (field : list (list Z)) : Z * coord → coord → res (Z * coord) :=
  λ '(curr_best_dist, best_so_far) nbr,
    e <- Grid.is_empty g nbr.1 nbr.2 ;;
    if e then
      (d <- of_index (py_get2 field nbr.1 nbr.2) ;;
       if decide (R d curr_best_dist) then Ok (d, nbr) else Ok (curr_best_dist, best_so_far))
    else Ok (curr_best_dist, best_so_far).

Section Pick.
Context (R : Z → Z → Prop) `{∀ x y, Decision (R x y)}.
Context (R_irrefl : ∀ x, ¬ R x x) (R_trans : ∀ x y z, R x y → R y z → R x z).
Context (g : Grid.grid) (field : list (list Z)).
(** What the fold returns: the start, or a listed empty cell whose
    distance beats the start and is carried along; and no listed empty
    cell beats the result. *)
Lemma pick_foldl acc nbrs :
  let r := foldl (pick_step R g field) acc nbrs in
  (r = acc ∨ (r.2 ∈ nbrs ∧ Grid.cell_at g r.2 = Some Grid.EMPTY ∧
              r.1 = dget field r.2 ∧ R r.1 acc.1)) ∧
  (∀ x, x ∈ nbrs → Grid.cell_at g x = Some Grid.EMPTY → ¬ R (dget field x) r.1).
Proof.
  revert acc. induction nbrs as [|x xs IH]; intros acc; simpl.
  { split; [by left|set_solver]. }
  destruct (IH (pick_step R g field acc x)) as [IH1 IH2].
  set (r := foldl _ _ xs) in *. unfold pick_step in *.
  case_decide as Hx; split.
  - destruct IH1 as [-> | (? & ? & ? & ?)]; right; [simpl; split_and!; set_solver|].
    split_and!; [set_solver|done|done|]. simpl in *. destruct Hx. eauto.
  - intros y Hy Hye. apply elem_of_cons in Hy as [->|Hy]; [|by apply IH2].
    destruct IH1 as [-> | (_ & _ & _ & HR)]; simpl in *; [apply R_irrefl|].
    intros HR'. by apply (R_irrefl (dget field x)), (R_trans _ _ _ HR').
  - destruct IH1 as [-> | (? & ? & ? & ?)]; [by left|right; split_and!; set_solver].
  - intros y Hy Hye. apply elem_of_cons in Hy as [->|Hy]; [|by apply IH2].
    intros HR'. destruct IH1 as [-> | (_ & _ & _ & HR)]; [by apply Hx|].
    apply Hx. split; [done|]. by apply (R_trans _ _ _ HR').
Qed.

Context (Hg : Grid.wf g) (Hfield : rect (Grid.grid_height g) (Grid.grid_width g) field).

Lemma pick_body_inside acc nbr :
  Grid.inside g nbr → pick_body R g field acc nbr = Ok (pick_step R g field acc nbr).
Proof.
  intros Hn. destruct acc as [c b]. unfold pick_body, pick_step, dget. simpl.
  rewrite Grid.is_empty_inside by done. simpl.
  rewrite (py_get2_mget (Grid.grid_height g) (Grid.grid_width g)) by done.
  destruct (mget_is_Some _ _ _ _ Hfield Hn) as [d ->]. simpl.
  destruct (decide (Grid.cell_at g nbr = Some Grid.EMPTY)) as [E|E].
  - rewrite bool_decide_true by done. simpl.
    destruct (decide (R d c)); [rewrite decide_True|rewrite decide_False]; naive_solver.
  - rewrite bool_decide_false by done. simpl. rewrite decide_False; naive_solver.
Qed.

Lemma pick_loop acc nbrs :
  Forall (Grid.inside g) nbrs →
  for_each (pick_body R g field) nbrs acc = Ok (foldl (pick_step R g field) acc nbrs).
Proof.
  intros Hn. apply for_each_pure. intros t x Hx. apply pick_body_inside.
  by eapply Forall_forall.
Qed.

End Pick.

Section Moves.
Context (a : apocalypse) (field : list (list Z)).

Local Abbreviation g := (apoc_grid a).
Local Abbreviation h := (Grid.grid_height (apoc_grid a)).
Local Abbreviation w := (Grid.grid_width (apoc_grid a)).

Lemma best_human_move_fold p :
  Grid.wf g → rect h w field → Grid.inside g p →
  best_human_move g field p =
    Ok (foldl (pick_step Z.gt g field) (dget field p, p) (Grid.eight_neighbors g p.1 p.2)).2.
Proof.
  intros Hg Hf Hp.
  change (best_human_move g field p) with
    (c <- of_index (py_get2 field p.1 p.2) ;;
     '(_, b) <- for_each (pick_body Z.gt g field) (Grid.eight_neighbors g p.1 p.2) (c, p) ;;
     Ok b).
  rewrite (py_get2_mget h w) by done. unfold dget.
  destruct (mget_is_Some _ _ _ _ Hf Hp) as [d ->]. simpl.
  rewrite pick_loop by (done || (apply Forall_forall; intros; by eapply Grid.eight_neighbors_inside)).
  simpl. by destruct (foldl _ _ _).
Qed.

Lemma best_zombie_move_fold p :
  Grid.wf g → rect h w field → Grid.inside g p →
  best_zombie_move g field p =
    Ok (foldl (pick_step Z.lt g field) (dget field p, p) (Grid.four_neighbors g p.1 p.2)).2.
Proof.
  intros Hg Hf Hp.
  change (best_zombie_move g field p) with
    (c <- of_index (py_get2 field p.1 p.2) ;;
     '(_, b) <- for_each (pick_body Z.lt g field) (Grid.four_neighbors g p.1 p.2) (c, p) ;;
     Ok b).
  rewrite (py_get2_mget h w) by done. unfold dget.
  destruct (mget_is_Some _ _ _ _ Hf Hp) as [d ->]. simpl.
  rewrite pick_loop by (done || (apply Forall_forall; intros; by eapply Grid.four_neighbors_inside)).
  simpl. by destruct (foldl _ _ _).
Qed.

(** Where one human goes: stays, or moves to an empty neighbour strictly
    farther from the zombies; and no empty neighbour is farther than where
    it ends. *)
Lemma best_human_move_spec p :
  Grid.wf g → rect h w field → Grid.inside g p →
  ∃ b, best_human_move g field p = Ok b ∧
    (b = p ∨ (b ∈ Grid.eight_neighbors g p.1 p.2 ∧ Grid.cell_at g b = Some Grid.EMPTY ∧
              dget field p < dget field b)) ∧
    dget field p ≤ dget field b ∧
    ∀ n, n ∈ Grid.eight_neighbors g p.1 p.2 → Grid.cell_at g n = Some Grid.EMPTY →
      dget field n ≤ dget field b.
Proof.
  intros Hg Hf Hp. rewrite best_human_move_fold by done. eexists; split; [done|].
  destruct (pick_foldl Z.gt ltac:(lia) ltac:(lia) g field (dget field p, p)
              (Grid.eight_neighbors g p.1 p.2)) as [[Hr|(Hin & He & Hd & Hgt)] Hmax];
    set (r := foldl _ _ _) in *.
  - rewrite Hr in Hmax |- *. simpl in *. split_and!; [by left|lia|].
    intros n Hn Hne. specialize (Hmax n Hn Hne). lia.
  - simpl in Hgt. rewrite <-Hd. split_and!; [right; split_and!; [done|done|lia]|lia|].
    intros n Hn Hne. specialize (Hmax n Hn Hne). lia.
Qed.

(** Where one zombie goes: stays, or moves to an empty four-neighbour
    strictly nearer the humans; and no empty four-neighbour is nearer than
    where it ends. *)
Lemma best_zombie_move_spec p :
  Grid.wf g → rect h w field → Grid.inside g p →
  ∃ b, best_zombie_move g field p = Ok b ∧
    (b = p ∨ (b ∈ Grid.four_neighbors g p.1 p.2 ∧ Grid.cell_at g b = Some Grid.EMPTY ∧
              dget field b < dget field p)) ∧
    dget field b ≤ dget field p ∧
    ∀ n, n ∈ Grid.four_neighbors g p.1 p.2 → Grid.cell_at g n = Some Grid.EMPTY →
      dget field b ≤ dget field n.
Proof.
  intros Hg Hf Hp. rewrite best_zombie_move_fold by done. eexists; split; [done|].
  destruct (pick_foldl Z.lt ltac:(lia) ltac:(lia) g field (dget field p, p)
              (Grid.four_neighbors g p.1 p.2)) as [[Hr|(Hin & He & Hd & Hlt)] Hmin];
    set (r := foldl _ _ _) in *.
  - rewrite Hr in Hmin |- *. simpl in *. split_and!; [by left|lia|].
    intros n Hn Hne. specialize (Hmin n Hn Hne). lia.
  - simpl in Hlt. rewrite <-Hd. split_and!; [right; split_and!; [done|done|lia]|lia|].
    intros n Hn Hne. specialize (Hmin n Hn Hne). lia.
Qed.

(** [move_humans] decides every human from the same distance field and
    replaces the list at once. *)
Lemma move_humans_snapshot :
  Grid.wf g → rect h w field → Forall (Grid.inside g) (humans a) →
  ∃ hs, move_humans a field = Ok (mk_apocalypse g (_zombie_list a) hs) ∧
    Forall2 (λ old new, best_human_move g field old = Ok new) (humans a) hs.
Proof.
  intros Hg Hf Hh. unfold move_humans.
  destruct (for_each_append (best_human_move g field) (humans a) []) as (hs & -> & Hall).
  { intros x Hx. destruct (best_human_move_spec x) as (b & Hb & _); [done|done| |by eauto].
    by eapply Forall_forall. }
  by exists hs.
Qed.

Lemma move_zombies_snapshot :
  Grid.wf g → rect h w field → Forall (Grid.inside g) (zombies a) →
  ∃ zs, move_zombies a field = Ok (mk_apocalypse g zs (_human_list a)) ∧
    Forall2 (λ old new, best_zombie_move g field old = Ok new) (zombies a) zs.
Proof.
  intros Hg Hf Hz. unfold move_zombies.
  destruct (for_each_append (best_zombie_move g field) (zombies a) []) as (zs & -> & Hall).
  { intros x Hx. destruct (best_zombie_move_spec x) as (b & Hb & _); [done|done| |by eauto].
    by eapply Forall_forall. }
  by exists zs.
Qed.

(** C13: A human moves only to an empty cell among its eight neighbours,
    or stays: every new position is the old one or an empty in-bounds
    neighbour, so humans stay in bounds and off obstacles; the grid and the
    zombies are unchanged. *)
Theorem move_humans_safe :
  Grid.wf g → rect h w field → Forall (Grid.inside g) (humans a) →
  ∃ a', move_humans a field = Ok a' ∧ apoc_grid a' = g ∧ zombies a' = zombies a ∧
    Forall (Grid.inside g) (humans a') ∧
    Forall2 (λ old new, new = old ∨
               (new ∈ Grid.eight_neighbors g old.1 old.2 ∧ Grid.cell_at g new = Some Grid.EMPTY))
      (humans a) (humans a').
Proof.
  intros Hg Hf Hh. destruct move_humans_snapshot as (hs & Hrun & Hall); [done..|].
  exists (mk_apocalypse g (_zombie_list a) hs). split_and!; [done|done|done| |].
  - apply (Forall2_Forall_snd _ (humans a)).
    apply (Forall2_impl_l _ _ _ _ _ Hh Hall). intros x y Hx Hy.
    destruct (best_human_move_spec x) as (b & Hb & [->|[Hn _]] & _); [done..|congruence|].
    rewrite Hy in Hb. injection Hb as <-. by eapply Grid.eight_neighbors_inside.
  - apply (Forall2_impl_l _ _ _ _ _ Hh Hall). intros x y Hx Hy.
    destruct (best_human_move_spec x) as (b & Hb & Hwhere & _); [done..|].
    rewrite Hy in Hb. injection Hb as <-. destruct Hwhere as [->|(? & ? & _)]; [by left|by right].
Qed.

(** C10: Humans flee: each human ends on a cell at least as far from the
    zombies as where it was, and no empty neighbour of its old cell is
    farther. *)
Theorem move_humans_flee a' :
  Grid.wf g → rect h w field → Forall (Grid.inside g) (humans a) →
  move_humans a field = Ok a' →
  Forall2 (λ old new, dget field old ≤ dget field new ∧
             ∀ n, n ∈ Grid.eight_neighbors g old.1 old.2 → Grid.cell_at g n = Some Grid.EMPTY →
               dget field n ≤ dget field new)
    (humans a) (humans a').
Proof.
  intros Hg Hf Hh Hrun'. destruct move_humans_snapshot as (hs & Hrun & Hall); [done..|].
  rewrite Hrun' in Hrun. injection Hrun as ->. simpl.
  apply (Forall2_impl_l _ _ _ _ _ Hh Hall). intros x y Hx Hy.
  destruct (best_human_move_spec x) as (b & Hb & _ & Hge & Hmax); [done..|].
  rewrite Hy in Hb. by injection Hb as <-.
Qed.

(** C12: A zombie moves only to an empty cell among its four neighbours, or
    stays; zombies stay in bounds and off obstacles; the grid and the humans
    are unchanged. *)
Theorem move_zombies_safe :
  Grid.wf g → rect h w field → Forall (Grid.inside g) (zombies a) →
  ∃ a', move_zombies a field = Ok a' ∧ apoc_grid a' = g ∧ humans a' = humans a ∧
    Forall (Grid.inside g) (zombies a') ∧
    Forall2 (λ old new, new = old ∨
               (new ∈ Grid.four_neighbors g old.1 old.2 ∧ Grid.cell_at g new = Some Grid.EMPTY))
      (zombies a) (zombies a').
Proof.
  intros Hg Hf Hz. destruct move_zombies_snapshot as (zs & Hrun & Hall); [done..|].
  exists (mk_apocalypse g zs (_human_list a)). split_and!; [done|done|done| |].
  - apply (Forall2_Forall_snd _ (zombies a)).
    apply (Forall2_impl_l _ _ _ _ _ Hz Hall). intros x y Hx Hy.
    destruct (best_zombie_move_spec x) as (b & Hb & [->|[Hn _]] & _); [done..|congruence|].
    rewrite Hy in Hb. injection Hb as <-. by eapply Grid.four_neighbors_inside.
  - apply (Forall2_impl_l _ _ _ _ _ Hz Hall). intros x y Hx Hy.
    destruct (best_zombie_move_spec x) as (b & Hb & Hwhere & _); [done..|].
    rewrite Hy in Hb. injection Hb as <-. destruct Hwhere as [->|(? & ? & _)]; [by left|by right].
Qed.

(** C9: Zombies approach: each zombie ends on a cell whose distance to the
    humans is at most that of its old cell, and no empty four-neighbour of
    its old cell is nearer. *)
Theorem move_zombies_approach a' :
  Grid.wf g → rect h w field → Forall (Grid.inside g) (zombies a) →
  move_zombies a field = Ok a' →
  Forall2 (λ old new, dget field new ≤ dget field old ∧
             ∀ n, n ∈ Grid.four_neighbors g old.1 old.2 → Grid.cell_at g n = Some Grid.EMPTY →
               dget field new ≤ dget field n)
    (zombies a) (zombies a').
Proof.
  intros Hg Hf Hz Hrun'. destruct move_zombies_snapshot as (zs & Hrun & Hall); [done..|].
  rewrite Hrun' in Hrun. injection Hrun as ->. simpl.
  apply (Forall2_impl_l _ _ _ _ _ Hz Hall). intros x y Hx Hy.
  destruct (best_zombie_move_spec x) as (b & Hb & _ & Hle & Hmin); [done..|].
  rewrite Hy in Hb. by injection Hb as <-.
Qed.

End Moves.

Import Scenarios.

(** The humans of the first fixture fleeing the zombies of the second
    (both objects have the same walled grid). *)
Lemma move_humans_safe_witness :
  ∃ a', move_humans apoc1 expected_zombie_field = Ok a' ∧ apoc_grid a' = apoc_grid apoc1 ∧
    zombies a' = zombies apoc1 ∧ Forall (Grid.inside (apoc_grid apoc1)) (humans a') ∧
    Forall2 (λ old new, new = old ∨
               (new ∈ Grid.eight_neighbors (apoc_grid apoc1) old.1 old.2 ∧
                Grid.cell_at (apoc_grid apoc1) new = Some Grid.EMPTY))
      (humans apoc1) (humans a').
Proof. apply move_humans_safe; decide_by_eval. Defined.

Lemma move_humans_flee_witness :
  ∃ a', move_humans apoc1 expected_zombie_field = Ok a' ∧
    Forall2 (λ old new, dget expected_zombie_field old ≤ dget expected_zombie_field new ∧
               ∀ n, n ∈ Grid.eight_neighbors (apoc_grid apoc1) old.1 old.2 →
                 Grid.cell_at (apoc_grid apoc1) n = Some Grid.EMPTY →
                 dget expected_zombie_field n ≤ dget expected_zombie_field new)
      (humans apoc1) (humans a').
Proof.
  eexists. split; [vm_compute; reflexivity|].
  apply move_humans_flee; [decide_by_eval..|vm_compute; reflexivity].
Defined.

Lemma move_zombies_safe_witness :
  ∃ a', move_zombies apoc2 expected_human_field = Ok a' ∧ apoc_grid a' = apoc_grid apoc2 ∧
    humans a' = humans apoc2 ∧ Forall (Grid.inside (apoc_grid apoc2)) (zombies a') ∧
    Forall2 (λ old new, new = old ∨
               (new ∈ Grid.four_neighbors (apoc_grid apoc2) old.1 old.2 ∧
                Grid.cell_at (apoc_grid apoc2) new = Some Grid.EMPTY))
      (zombies apoc2) (zombies a').
Proof. apply move_zombies_safe; decide_by_eval. Defined.

Lemma move_zombies_approach_witness :
  ∃ a', move_zombies apoc2 expected_human_field = Ok a' ∧
    Forall2 (λ old new, dget expected_human_field new ≤ dget expected_human_field old ∧
               ∀ n, n ∈ Grid.four_neighbors (apoc_grid apoc2) old.1 old.2 →
                 Grid.cell_at (apoc_grid apoc2) n = Some Grid.EMPTY →
                 dget expected_human_field new ≤ dget expected_human_field n)
      (zombies apoc2) (zombies a').
Proof.
  eexists. split; [vm_compute; reflexivity|].
  apply move_zombies_approach; [decide_by_eval..|vm_compute; reflexivity].
Defined.

End Movement.
