(* ===== verification/ShortestPath.v ===== *)
(** * The distance field is the shortest-path distance (section 8 of the
      specification)

    The abstract contract of [compute_distance_field]: the value of an
    in-bounds cell is the length of a shortest path from a seed to it that
    moves between four-adjacent in-bounds free cells, and the sentinel
    [height * width] when no such path exists.  [walk] and [reach] state the
    paths; [shortest] the least length.  The breadth-first loop implements
    the contract: [bfs_inv] (queue ordered by distance, at most two distinct
    distances in it, processed cells closed under moves, every cell nearer
    than the queue head visited) holds after seeding and is kept by every
    iteration, and at an empty queue it gives the contract.  [shortest_bound]
    shows that the sentinel exceeds every shortest distance, so the minimum
    the source takes in [relax] never keeps the sentinel. *)

From stdpp Require Import base list options sets.
From Stdlib Require Import ZArith Lia.
From S2P Require Import Prelude Grid Queue Apocalypse Scenarios DistanceField FieldInvariants.

Open Scope Z_scope.
Local Unset Default Proof Using.

Module ShortestPath.
Import Apocalypse DistanceField FieldInvariants.

(** ** Paths through free cells *)

Section Paths.
Context (g : Grid.grid) (srcs : list coord).

Local Abbreviation h := (Grid.grid_height g).
Local Abbreviation w := (Grid.grid_width g).

(** One move of the search: to a four-adjacent, in-bounds, free cell. *)
Definition step (p q : coord) : Prop := Grid.inside g q ∧ passable g q ∧ Grid.adj4 p q.

(** [walk n p q]: a path of [n] moves from [p] to [q]. *)
Inductive walk : nat → coord → coord → Prop :=
  | walk_nil p : walk 0 p p
  | walk_snoc n p q r : walk n p q → step q r → walk (S n) p r.

#[global] Instance step_dec p q : Decision (step p q).
Proof. unfold step, Grid.adj4. apply _. Defined.

Definition reach (n : nat) (p : coord) : Prop := ∃ s, s ∈ srcs ∧ walk n s p.

Definition shortest (p : coord) (n : nat) : Prop := reach n p ∧ ∀ m, reach m p → (n ≤ m)%nat.

Lemma walk_app m n p q r : walk m p q → walk n q r → walk (m + n) p r.
Proof.
  intros Hpq Hqr. induction Hqr as [|n q' r' r'' Hw IH Hst]; [by rewrite Nat.add_0_r|].
  rewrite Nat.add_succ_r. by econstructor; [apply IH|].
Qed.

Lemma walk_inside n p q : Grid.inside g p → walk n p q → Grid.inside g q.
Proof. intros Hp Hw. by destruct Hw as [|n p q r _ (? & _)]. Qed.

Lemma reach_inside n p : Forall (Grid.inside g) srcs → reach n p → Grid.inside g p.
Proof. intros Hs (s & Hs' & Hw). eapply walk_inside; [|done]. by eapply Forall_forall. Qed.

Lemma reach_step n p q : reach n p → step p q → reach (S n) q.
Proof. intros (s & Hs & Hw) Hst. exists s. split; [done|]. by econstructor. Qed.

Lemma reach_0 p : reach 0 p ↔ p ∈ srcs.
Proof.
  split; [intros (s & Hs & Hw); by inversion Hw; subst|].
  intros Hp. exists p. split; [done|constructor].
Qed.

Lemma reach_S n q : reach (S n) q → ∃ p, reach n p ∧ step p q.
Proof. intros (s & Hs & Hw). inversion Hw; subst. eexists. split; [by exists s|done]. Qed.

Lemma shortest_unique p m n : shortest p m → shortest p n → m = n.
Proof. intros [Hm Hm'] [Hn Hn']. specialize (Hm' n Hn). specialize (Hn' m Hm). lia. Qed.

(** A path of [n] moves lists [n + 1] cells, the [j]-th reached in [j] moves
    and leading to the end in [n - j] more. *)
Lemma walk_cells n p r :
  walk n p r → ∃ l, length l = S n ∧
    ∀ j q, l !! j = Some q → walk j p q ∧ walk (n - j) q r.
Proof.
  induction 1 as [p|n p q r Hw IH Hst].
  { exists [p]. split; [done|]. intros [|j] q; simpl; [intros [= <-]; split; constructor|done]. }
  destruct IH as (l & Hl & Hcells). exists (l ++ [r]). rewrite length_app, Hl. split; [simpl; lia|].
  intros j x Hj. destruct (decide (j < S n)%nat) as [Hlt|Hge].
  - rewrite lookup_app_l in Hj by lia. destruct (Hcells j x Hj) as [H1 H2].
    split; [done|]. replace (S n - j)%nat with (S (n - j)) by lia. by econstructor.
  - rewrite lookup_app_r in Hj by lia. rewrite Hl in Hj.
    destruct (j - S n)%nat eqn:E; [|done]. injection Hj as <-.
    replace j with (S n) by lia. rewrite Nat.sub_diag. split; [by econstructor|constructor].
Qed.

(** The cells of a shortest path are pairwise distinct, so there are at most
    [height * width] of them: every shortest distance is below the sentinel. *)
Lemma shortest_bound p n :
  Forall (Grid.inside g) srcs → shortest p n → Z.of_nat n < h * w.
Proof.
  intros Hs [(s & Hsrc & Hw) Hmin].
  destruct (walk_cells n s p Hw) as (l & Hl & Hcells).
  assert (NoDup l) as Hnd.
  { apply NoDup_alt. intros i j x Hi Hj.
    destruct (Hcells i x Hi) as [Hi1 Hi2], (Hcells j x Hj) as [Hj1 Hj2].
    pose proof (lookup_lt_Some _ _ _ Hi). pose proof (lookup_lt_Some _ _ _ Hj).
    assert (i + (n - j) ≥ n)%nat by (apply Hmin; exists s; split; [done|]; by eapply walk_app).
    assert (j + (n - i) ≥ n)%nat by (apply Hmin; exists s; split; [done|]; by eapply walk_app).
    lia. }
  assert (length l ≤ length (all_cells h w))%nat as Hlen.
  { apply NoDup_incl_length; [by apply NoDup_ListNoDup|].
    intros x Hx%list_elem_of_In. apply list_elem_of_In, elem_of_all_cells.
    apply list_elem_of_lookup in Hx as [j Hj]. destruct (Hcells j x Hj) as [Hj1 _].
    eapply walk_inside; [by eapply Forall_forall|done]. }
  rewrite length_all_cells, Hl in Hlen.
  assert (Grid.inside g s) as Hsi by (by eapply Forall_forall).
  unfold Grid.inside, in_bounds in Hsi.
  rewrite <-(Z2Nat.id h), <-(Z2Nat.id w), <-Nat2Z.inj_mul by lia. lia.
Qed.

End Paths.

(** ** The loop invariant *)

Section Search.
Context {Q : Type → Type} `{!QueueOps Q} `{!QueueLaws Q}.
Context (g : Grid.grid) (Hg : Grid.wf g) (srcs : list coord) (Hsrcs : Forall (Grid.inside g) srcs).

Local Abbreviation h := (Grid.grid_height g).
Local Abbreviation w := (Grid.grid_width g).
Local Abbreviation state := (@bfs_state Q).
Local Abbreviation items s := (q_items (boundary s)).

(** Along the queue distances never decrease and grow by at most one. *)
Definition levels (s : state) (L : list coord) : Prop :=
  ∀ i j x y, L !! i = Some x → L !! j = Some y → (i ≤ j)%nat →
    dist_at s x ≤ dist_at s y ≤ dist_at s x + 1.

(** A visited cell holds its shortest distance. *)
Definition exact (s : state) : Prop :=
  ∀ p, Grid.inside g p → ¬ unvisited s p →
    ∃ n, shortest g srcs p n ∧ dist_at s p = Z.of_nat n.

(** A processed cell (visited, no longer queued) has every move visited. *)
Definition closed (s : state) : Prop :=
  ∀ p q, Grid.inside g p → ¬ unvisited s p → p ∉ items s → step g p q → ¬ unvisited s q.

(** Every cell reachable within the distance of the queue head is visited. *)
Definition ahead (s : state) : Prop :=
  ∀ x xs, items s = x :: xs → ∀ n p, reach g srcs n p → Z.of_nat n ≤ dist_at s x → ¬ unvisited s p.

Definition bfs_inv (s : state) : Prop :=
  shaped g s ∧ marks g srcs s ∧ exact s ∧ Forall (λ x, ¬ unvisited s x) (items s) ∧
  levels s (items s) ∧ closed s ∧ ahead s.

(** The state of the neighbour loop of the iteration that dequeued [curr]
    from [s0], with [rest] left in the queue: what was visited stays so at
    the same distance, and the cells it visits are appended to the queue at
    the distance of [curr] plus one. *)
Definition inner (s0 : state) (curr : coord) (rest : list coord) (t : state) : Prop :=
  shaped g t ∧ marks g srcs t ∧ exact t ∧
  (∀ p, Grid.inside g p → ¬ unvisited s0 p → ¬ unvisited t p ∧ dist_at t p = dist_at s0 p) ∧
  ∃ added, items t = rest ++ added ∧
    Forall (λ y, dist_at t y = dist_at s0 curr + 1 ∧ ¬ unvisited t y) added ∧
    (∀ p, Grid.inside g p → ¬ unvisited t p → unvisited s0 p → p ∈ added).

Lemma dist_at_relaxed s curr nbr p :
  shaped g s → Grid.inside g nbr → Grid.inside g p →
  dist_at (relaxed s curr nbr) p =
    if decide (p = nbr) then Z.min (dist_at s nbr) (dist_at s curr + 1) else dist_at s p.
Proof.
  intros (_ & _ & _ & Hd & _) Hn Hp. unfold dist_at at 1; simpl.
  rewrite (mget_mset h w) by done. repeat case_decide; subst; done.
Qed.

Lemma dist_at_unvisited s p :
  shaped g s → marks g srcs s → Grid.inside g p → unvisited s p → dist_at s p = h * w.
Proof.
  intros Hs Hm Hp Hu. pose proof (shaped_dist_at g s p Hs Hp) as E.
  rewrite (proj1 (Hm p Hp) Hu) in E. congruence.
Qed.

Lemma levels_head s curr rest i x :
  levels s (curr :: rest) → rest !! i = Some x →
  dist_at s curr ≤ dist_at s x ≤ dist_at s curr + 1.
Proof. intros Hl Hx. apply (Hl 0%nat (S i)); [done|done|lia]. Qed.

(** The cell relaxed from [curr] gets its shortest distance, one more than
    that of [curr]: a shorter path would end within the distance of the
    queue head, where [ahead] says every cell is already visited. *)
Lemma relaxed_shortest s0 curr rest (t : state) nbr k :
  bfs_inv s0 → items s0 = curr :: rest → shortest g srcs curr k →
  (∀ p, Grid.inside g p → ¬ unvisited s0 p → ¬ unvisited t p) →
  unvisited t nbr → step g curr nbr → shortest g srcs nbr (S k).
Proof.
  intros (_ & _ & Hex & Hvis & _ & _ & Hah) Hq Hk Hmono Hu Hst. split.
  { apply (reach_step g srcs k curr); [apply Hk|done]. }
  intros m Hm. destruct (decide (S k ≤ m)%nat) as [|Hlt]; [done|exfalso].
  assert (Grid.inside g nbr) as Hn by apply Hst.
  rewrite Hq in Hvis. apply Forall_cons in Hvis as [Hcv _].
  assert (Grid.inside g curr) as Hc by (by eapply reach_inside; [|apply Hk]).
  destruct (Hex curr Hc Hcv) as (k' & Hk' & Hd). rewrite (shortest_unique g srcs curr k' k) in Hd by done.
  apply (Hmono nbr Hn); [|done]. apply (Hah curr rest Hq m nbr Hm). lia.
Qed.

Lemma inner_queue_inside s0 curr rest t :
  inner s0 curr rest t → ∀ added, items t = rest ++ added → Forall (Grid.inside g) added.
Proof.
  intros ((_ & _ & _ & _ & Hfa) & _) added Hitems. rewrite Hitems in Hfa.
  by apply Forall_app in Hfa as [_ ?].
Qed.

(** The relaxation that visits [nbr] keeps [inner]. *)
Lemma inner_relaxed s0 curr rest t nbr k :
  bfs_inv s0 → items s0 = curr :: rest → inner s0 curr rest t →
  shortest g srcs curr k → dist_at s0 curr = Z.of_nat k → dist_at t curr = dist_at s0 curr →
  unvisited t nbr → step g curr nbr → inner s0 curr rest (relaxed t curr nbr).
Proof.
  intros Hinv Hq Hin Hk Hdk Hdc Hu Hst.
  pose proof Hin as (Hts & Htm & Htex & Hkeep & added & Hitems & Hadded & Hnew).
  pose proof Hst as (Hn & Hp & _).
  assert (shortest g srcs nbr (S k)) as Hk'.
  { eapply relaxed_shortest; [done..| |done|done]. intros; by apply Hkeep. }
  pose proof (shortest_bound g srcs nbr (S k) Hsrcs Hk') as Hb.
  assert (dist_at (relaxed t curr nbr) nbr = dist_at s0 curr + 1) as Hdn.
  { rewrite dist_at_relaxed, decide_True by done. rewrite (dist_at_unvisited t nbr), Hdc by done. lia. }
  assert (∀ p, Grid.inside g p → p ≠ nbr → dist_at (relaxed t curr nbr) p = dist_at t p) as Hdo.
  { intros p Hp' Hne. by rewrite dist_at_relaxed, decide_False by done. }
  assert (∀ p, Grid.inside g p → ¬ unvisited (relaxed t curr nbr) p ↔ p = nbr ∨ ¬ unvisited t p) as Hvr.
  { intros p Hp'. rewrite unvisited_relaxed by done. destruct (decide (p = nbr)); naive_solver. }
  split_and!; [by apply shaped_relaxed|by apply marks_relaxed| | |].
  - intros p Hp' Hpv. destruct (decide (p = nbr)) as [->|Hne].
    { exists (S k). split; [done|]. rewrite Hdn, Hdk. lia. }
    apply (Hvr p Hp') in Hpv as [?|Hpv]; [done|]. destruct (Htex p Hp' Hpv) as (n & ? & ?).
    exists n. by rewrite Hdo.
  - intros p Hp' Hpv. destruct (Hkeep p Hp' Hpv) as [Hptv Hpd].
    assert (p ≠ nbr) by (intros ->; done). rewrite Hdo by done. split; [apply (Hvr p Hp'); by right|done].
  - exists (added ++ [nbr]). split_and!.
    + simpl. by rewrite q_items_enqueue, Hitems, app_assoc.
    + apply Forall_app. split; [|constructor; [split; [done|apply (Hvr nbr Hn); by left]|constructor]].
      pose proof (inner_queue_inside _ _ _ _ Hin added Hitems) as Hai.
      apply Forall_forall. intros y Hy. rewrite Forall_forall in Hadded, Hai.
      destruct (Hadded y Hy) as [Hyd Hyv]. assert (y ≠ nbr) by (intros ->; done).
      rewrite Hdo by auto. split; [done|apply (Hvr y); auto].
    + intros p Hp' Hpv Hps0. apply (Hvr p Hp') in Hpv as [->|Hpv]; [set_solver|].
      apply elem_of_app; left. by apply Hnew.
Qed.

(** One relaxation of the neighbour loop keeps [inner], never unvisits a
    cell, and leaves a legal move of [curr] visited. *)
Lemma inner_relax s0 curr rest t nbr t' :
  bfs_inv s0 → items s0 = curr :: rest → inner s0 curr rest t →
  Grid.inside g nbr → Grid.adj4 curr nbr → relax g curr t nbr = Ok t' →
  inner s0 curr rest t' ∧ (step g curr nbr → ¬ unvisited t' nbr) ∧
  (∀ p, Grid.inside g p → ¬ unvisited t p → ¬ unvisited t' p).
Proof.
  intros Hinv Hq Hin Hn Hadj Hrun.
  pose proof Hinv as ((_ & _ & _ & _ & Hfa) & _ & Hex0 & Hvis0 & _).
  rewrite Hq in Hfa, Hvis0. apply Forall_cons in Hfa as [Hc _]. apply Forall_cons in Hvis0 as [Hcv _].
  destruct (Hex0 curr Hc Hcv) as (k & Hk & Hdk).
  pose proof Hin as (Hts & _ & _ & Hkeep & _). destruct (Hkeep curr Hc Hcv) as [_ Hdc].
  rewrite relax_inside in Hrun by done. injection Hrun as <-.
  case_decide as Hcase; cycle 1.
  { split_and!; [done| |done]. intros Hst Hu. apply Hcase. split; [done|apply Hst]. }
  destruct Hcase as [Hu Hp]. assert (step g curr nbr) as Hst by done.
  split_and!; [by eapply inner_relaxed| |].
  - intros _. rewrite unvisited_relaxed by done. tauto.
  - intros p Hp' Hpv. rewrite unvisited_relaxed by done. tauto.
Qed.

Lemma inner_loop s0 curr rest nbrs t t' :
  bfs_inv s0 → items s0 = curr :: rest → inner s0 curr rest t →
  (∀ n, n ∈ nbrs → Grid.inside g n ∧ Grid.adj4 curr n) →
  for_each (relax g curr) nbrs t = Ok t' →
  inner s0 curr rest t' ∧ (∀ n, n ∈ nbrs → step g curr n → ¬ unvisited t' n) ∧
  (∀ p, Grid.inside g p → ¬ unvisited t p → ¬ unvisited t' p).
Proof.
  intros Hinv Hq. revert t. induction nbrs as [|n nbrs IH]; intros t Hin Hnbrs Hrun; simpl in Hrun.
  { injection Hrun as <-. split_and!; [done|set_solver|done]. }
  destruct (relax g curr t n) as [t1|e] eqn:E; simpl in Hrun; [|done].
  destruct (Hnbrs n) as [Hn Hadj]; [apply elem_of_cons; by left|].
  destruct (inner_relax s0 curr rest t n t1) as (Hin1 & Hst1 & Hmono1); [done..|].
  destruct (IH t1) as (Hin' & Hst' & Hmono'); [done|intros m Hm; apply Hnbrs, elem_of_cons; by right|done|].
  split_and!; [done| |intros p Hp Hpv; by apply Hmono', Hmono1].
  intros n' Hn' Hst. apply elem_of_cons in Hn' as [->|Hn']; [|by apply Hst'].
  apply Hmono'; [apply Hst|by apply Hst1].
Qed.

(** ** One iteration *)

Lemma bfs_inv_head s curr rest :
  bfs_inv s → items s = curr :: rest →
  Grid.inside g curr ∧ ¬ unvisited s curr ∧ Forall (Grid.inside g) rest ∧ Forall (λ x, ¬ unvisited s x) rest.
Proof.
  intros ((_ & _ & _ & _ & Hfa) & _ & _ & Hvis & _) Hq. rewrite Hq in Hfa, Hvis.
  apply Forall_cons in Hfa as [? ?], Hvis as [? ?]. done.
Qed.

(** The neighbour loop of an iteration runs from the dequeued state, which
    satisfies [inner], and leaves every move of [curr] visited. *)
Lemma bfs_body_inner s s' :
  bfs_inv s → bfs_body g s = Ok s' →
  ∃ curr rest, items s = curr :: rest ∧ inner s curr rest s' ∧ (∀ q, step g curr q → ¬ unvisited s' q).
Proof.
  intros Hinv Hrun. destruct (items s) as [|curr rest] eqn:Hq.
  { unfold bfs_body in Hrun. by rewrite q_dequeue_nil in Hrun. }
  destruct (bfs_body_cons g s curr rest Hq) as (b & Hb & Hbody). rewrite Hbody in Hrun.
  destruct (bfs_inv_head s curr rest Hinv Hq) as (Hc & _ & Hrest & _).
  pose proof Hinv as ((Hwf & Hh & Hw & Hd & _) & Hm & Hex & _).
  destruct (inner_loop s curr rest (Grid.four_neighbors g curr.1 curr.2)
              (mk_bfs_state (visited s) (distance_field s) b) s') as (Hin & Hst & _);
    [done|done| |intros n Hn; by apply Grid.four_neighbors_spec|done|].
  - split_and!; [by split_and!; simpl; rewrite ?Hb|exact Hm|exact Hex|done|].
    exists []. split_and!; [simpl; by rewrite Hb, app_nil_r|constructor|done].
  - exists curr, rest. split_and!; [done|done|]. intros q Hq'. apply Hst; [|done].
    apply Grid.four_neighbors_spec; [done|]. split; apply Hq'.
Qed.

(** The queue after an iteration: [rest] at unchanged distances, then the
    cells visited by it at the distance of [curr] plus one. *)
Lemma inner_queue_dist s curr rest s' :
  bfs_inv s → items s = curr :: rest → inner s curr rest s' →
  ∃ added, items s' = rest ++ added ∧
    (∀ x, x ∈ rest → dist_at s' x = dist_at s x) ∧
    (∀ y, y ∈ added → dist_at s' y = dist_at s curr + 1).
Proof.
  intros Hinv Hq (_ & _ & _ & Hkeep & added & Hitems & Hadded & _).
  destruct (bfs_inv_head s curr rest Hinv Hq) as (_ & _ & Hri & Hrv).
  exists added. split_and!; [done| |].
  - intros x Hx. rewrite Forall_forall in Hri, Hrv. by apply Hkeep; auto.
  - intros y Hy. rewrite Forall_forall in Hadded. by apply Hadded.
Qed.

Lemma inner_queue_range s curr rest s' :
  bfs_inv s → items s = curr :: rest → inner s curr rest s' →
  ∀ z, z ∈ items s' → dist_at s curr ≤ dist_at s' z ≤ dist_at s curr + 1.
Proof.
  intros Hinv Hq Hin z Hz. pose proof Hinv as (_ & _ & _ & _ & Hlev & _). rewrite Hq in Hlev.
  destruct (inner_queue_dist s curr rest s' Hinv Hq Hin) as (added & Hitems & Hr & Ha).
  rewrite Hitems in Hz. apply elem_of_app in Hz as [Hz|Hz]; [|rewrite Ha by done; lia].
  rewrite Hr by done. apply list_elem_of_lookup in Hz as [i Hi]. by eapply levels_head.
Qed.

Lemma inner_levels s curr rest s' :
  bfs_inv s → items s = curr :: rest → inner s curr rest s' → levels s' (items s').
Proof.
  intros Hinv Hq Hin. pose proof Hinv as (_ & _ & _ & _ & Hlev & _). rewrite Hq in Hlev.
  destruct (inner_queue_dist s curr rest s' Hinv Hq Hin) as (added & Hitems & Hr & Ha).
  rewrite Hitems. intros i j x y Hx Hy Hij.
  destruct (decide (i < length rest)%nat) as [Hi|Hi].
  - rewrite lookup_app_l in Hx by done.
    pose proof (levels_head _ _ _ _ _ Hlev Hx). rewrite (Hr x) by (by eapply list_elem_of_lookup_2).
    destruct (decide (j < length rest)%nat) as [Hj|Hj].
    + rewrite lookup_app_l in Hy by done. rewrite (Hr y) by (by eapply list_elem_of_lookup_2).
      apply (Hlev (S i) (S j)); [done|done|lia].
    + rewrite lookup_app_r in Hy by lia. rewrite (Ha y) by (by eapply list_elem_of_lookup_2). lia.
  - rewrite lookup_app_r in Hx, Hy by lia.
    rewrite (Ha x), (Ha y) by (by eapply list_elem_of_lookup_2). lia.
Qed.

Lemma inner_closed s curr rest s' :
  bfs_inv s → items s = curr :: rest → inner s curr rest s' →
  (∀ q, step g curr q → ¬ unvisited s' q) → closed s'.
Proof.
  intros Hinv Hq (_ & _ & _ & Hkeep & added & Hitems & _ & Hnew) Hcurr p q Hp Hpv Hpq Hst.
  destruct (decide (p = curr)) as [->|Hne]; [by apply Hcurr|].
  rewrite Hitems in Hpq. apply not_elem_of_app in Hpq as [Hpr Hpa].
  destruct (decide (unvisited s p)) as [Hu|Hpv0]; [by destruct Hpa; apply Hnew|].
  pose proof Hinv as (_ & _ & _ & _ & _ & Hcl & _).
  apply (Hkeep q); [apply Hst|]. apply (Hcl p q Hp Hpv0); [|done].
  rewrite Hq. by apply not_elem_of_cons.
Qed.

(** Every cell within the distance of the new queue head is visited: it is
    within the old one, or one move from a cell of the old level, which has
    been processed. *)
Lemma inner_ahead s curr rest s' :
  bfs_inv s → items s = curr :: rest → inner s curr rest s' →
  closed s' → levels s' (items s') → ahead s'.
Proof.
  intros Hinv Hq Hin Hcl' Hlev' x xs Hx n p Hr Hn.
  pose proof Hinv as (_ & _ & Hex & _ & _ & _ & Hah). pose proof Hin as (_ & _ & _ & Hkeep & _).
  destruct (bfs_inv_head s curr rest Hinv Hq) as (Hc & Hcv & _).
  destruct (Hex curr Hc Hcv) as (k & _ & Hdk).
  pose proof (inner_queue_range s curr rest s' Hinv Hq Hin x) as Hxr. rewrite Hx in Hxr.
  assert (Grid.inside g p) as Hp by (by eapply reach_inside).
  destruct (decide (Z.of_nat n ≤ dist_at s curr)) as [Hle|Hgt].
  { apply Hkeep; [done|]. by apply (Hah curr rest Hq n p). }
  assert (n = S k) as -> by (specialize (Hxr ltac:(set_solver)); lia).
  destruct (reach_S g srcs k p Hr) as (q & Hrq & Hst).
  assert (Grid.inside g q) as Hqi by (by eapply reach_inside).
  assert (¬ unvisited s q) as Hqv by (apply (Hah curr rest Hq k q Hrq); lia).
  destruct (Hex q Hqi Hqv) as (k' & [_ Hk'] & Hdq). specialize (Hk' k Hrq).
  apply (Hcl' q p Hqi); [by apply Hkeep|intros Hqin|done].
  apply list_elem_of_lookup in Hqin as [j Hj]. rewrite Hx in Hj.
  pose proof (Hlev' 0%nat j x q) as Hl. rewrite Hx in Hl.
  specialize (Hl eq_refl Hj ltac:(lia)). destruct (Hkeep q Hqi Hqv) as [_ Hdq']. lia.
Qed.

Lemma bfs_inv_body s s' : bfs_inv s → bfs_body g s = Ok s' → bfs_inv s'.
Proof.
  intros Hinv Hrun. destruct (bfs_body_inner s s' Hinv Hrun) as (curr & rest & Hq & Hin & Hcurr).
  pose proof (inner_levels s curr rest s' Hinv Hq Hin) as Hlev.
  pose proof (inner_closed s curr rest s' Hinv Hq Hin Hcurr) as Hcl.
  pose proof Hin as (Hs' & Hm' & Hex' & Hkeep & added & Hitems & Hadded & _).
  destruct (bfs_inv_head s curr rest Hinv Hq) as (_ & _ & Hri & Hrv).
  split_and!; [done..| |done|done|by eapply inner_ahead].
  rewrite Hitems. apply Forall_app. split; [|by eapply Forall_impl; [done|]; intros ? []].
  rewrite Forall_forall in Hri, Hrv |- *. intros x Hx. by apply Hkeep; auto.
Qed.

Lemma bfs_inv_loop fuel s s' : bfs_inv s → bfs_loop g fuel s = Ok s' → bfs_inv s'.
Proof.
  intros Hinv Hrun. refine (proj2 (bfs_loop_inv g Hg bfs_inv fuel s s' _ Hinv _ Hrun)); [apply Hinv|].
  intros t t' _ Ht _. by apply bfs_inv_body.
Qed.

(** ** Seeding and the end of the loop *)

Lemma bfs_inv_seeded s0 :
  shaped g s0 → items s0 = srcs →
  (∀ p, Grid.inside g p →
     Grid.cell_at (visited s0) p = Some (if decide (p ∈ srcs) then Grid.FULL else Grid.EMPTY) ∧
     mget (distance_field s0) p = Some (if decide (p ∈ srcs) then 0 else h * w)) →
  bfs_inv s0.
Proof.
  intros Hs Hq Hcells.
  assert (∀ p, Grid.inside g p → ¬ unvisited s0 p → p ∈ srcs ∧ dist_at s0 p = 0) as Hseed.
  { intros p Hp Hv. destruct (Hcells p Hp) as [Hc Hd]. unfold unvisited, dist_at in *.
    rewrite Hc in Hv. rewrite Hd. by case_decide. }
  assert (∀ p, p ∈ srcs → ¬ unvisited s0 p) as Hvis.
  { intros p Hp. destruct (Hcells p) as [Hc _]; [by eapply Forall_forall|].
    unfold unvisited. rewrite Hc. by case_decide. }
  assert (∀ i x, items s0 !! i = Some x → dist_at s0 x = 0) as Hzero.
  { intros i x Hx. rewrite Hq in Hx. apply list_elem_of_lookup_2 in Hx.
    apply Hseed; [by eapply Forall_forall|auto]. }
  split_and!; [done|by apply marks_initial| | | | |].
  - intros p Hp Hv. exists 0%nat. destruct (Hseed p Hp Hv) as [Hin ->].
    split; [|done]. split; [by apply reach_0|lia].
  - rewrite Hq. by apply Forall_forall.
  - intros i j x y Hx Hy _. rewrite (Hzero i x), (Hzero j y) by done. lia.
  - intros p q Hp Hv Hpq. destruct Hpq. rewrite Hq. by apply Hseed.
  - intros x xs Hx n p Hr Hn. rewrite (Hzero 0%nat x) in Hn by (by rewrite Hx).
    assert (n = 0%nat) as -> by lia. apply Hvis. by apply (reach_0 g srcs).
Qed.

(** With the queue empty, every cell reachable from a seed is visited. *)
Lemma bfs_inv_reach s :
  bfs_inv s → items s = [] → ∀ n p, reach g srcs n p → ¬ unvisited s p.
Proof.
  intros (_ & Hm & _ & _ & _ & Hcl & _) Hq. induction n as [|n IH]; intros p Hr.
  - apply reach_0 in Hr as Hin. apply (Hm p); [by eapply Forall_forall|done].
  - destruct (reach_S g srcs n p Hr) as (q & Hrq & Hst).
    apply (Hcl q p); [by eapply reach_inside|by apply IH|rewrite Hq; set_solver|done].
Qed.

(** At an empty queue the distance array meets the contract. *)
Lemma bfs_inv_field s :
  bfs_inv s → items s = [] → ∀ p, Grid.inside g p →
    (∃ n, shortest g srcs p n ∧ mget (distance_field s) p = Some (Z.of_nat n)) ∨
    ((∀ n, ¬ reach g srcs n p) ∧ mget (distance_field s) p = Some (h * w)).
Proof.
  intros Hinv Hq p Hp. pose proof Hinv as (Hs & Hm & Hex & _).
  destruct (decide (unvisited s p)) as [Hu|Hv].
  - right. split; [|by apply (Hm p)]. intros n Hr. by apply (bfs_inv_reach s Hinv Hq n p).
  - left. destruct (Hex p Hp Hv) as (n & Hn & Hd). exists n. split; [done|].
    rewrite <-Hd. by apply (shaped_dist_at g).
Qed.

End Search.

(** ** The method meets its contract *)

Section Method.
Context {Q : Type → Type} `{!QueueOps Q} `{!QueueLaws Q}.
Context (a : apocalypse) (entity_type : Z).

Local Abbreviation g := (apoc_grid a).
Local Abbreviation h := (Grid.grid_height (apoc_grid a)).
Local Abbreviation w := (Grid.grid_width (apoc_grid a)).
Local Abbreviation seeds_of := (seeds a entity_type).

(** The field meets the shortest-path contract. *)
Lemma compute_distance_field_contract m :
  Grid.wf g → Forall (Grid.inside g) seeds_of →
  compute_distance_field (Q := Q) a entity_type = Ok m →
  ∀ p, Grid.inside g p →
    (∃ n, shortest g seeds_of p n ∧ mget m p = Some (Z.of_nat n)) ∨
    ((∀ n, ¬ reach g seeds_of n p) ∧ mget m p = Some (h * w)).
Proof.
  intros Hg Hs Hrun.
  destruct (compute_distance_field_runs (Q := Q) a entity_type Hg Hs)
    as (s0 & s' & Hs0 & Hloop & Hemp & Hres).
  rewrite Hres in Hrun. injection Hrun as <-.
  destruct (seed_boundary_spec (Q := Q) a entity_type Hg Hs) as (s0' & Hs0' & Hsh & Hq & Hcells).
  rewrite Hs0 in Hs0'. injection Hs0' as <-.
  apply (bfs_inv_field g Hg seeds_of Hs); [|done].
  eapply (bfs_inv_loop g Hg seeds_of Hs); [|done]. by apply (bfs_inv_seeded g seeds_of Hs).
Qed.

(** C1: Refinement: on a well-formed grid with in-bounds seeds,
    [compute_distance_field] returns, for every in-bounds cell, the length of
    a shortest path of four-adjacent moves through free cells from the
    nearest seed, and the sentinel [height * width] exactly for the cells no
    seed reaches. *)
Theorem compute_distance_field_shortest m :
  Grid.wf g → Forall (Grid.inside g) seeds_of →
  compute_distance_field (Q := Q) a entity_type = Ok m →
  ∀ p, Grid.inside g p →
    (∃ n, shortest g seeds_of p n ∧ mget m p = Some (Z.of_nat n)) ∨
    ((∀ n, ¬ reach g seeds_of n p) ∧ mget m p = Some (h * w)).
Proof. apply compute_distance_field_contract. Qed.

(** C7: A cell's value is below the sentinel [height * width] exactly when
    some path of moves through free cells leads to it from a seed: the
    field marks reachability. *)
Theorem compute_distance_field_reachable m p d :
  Grid.wf g → Forall (Grid.inside g) seeds_of →
  compute_distance_field (Q := Q) a entity_type = Ok m →
  Grid.inside g p → mget m p = Some d →
  d < h * w ↔ ∃ n, reach g seeds_of n p.
Proof.
  intros Hg Hs Hrun Hp Hd.
  destruct (compute_distance_field_contract m Hg Hs Hrun p Hp) as [(n & Hn & Hm)|(Hnr & Hm)];
    rewrite Hd in Hm; injection Hm as ->.
  - split; [intros _; exists n; apply Hn|intros _; by eapply shortest_bound].
  - split; [lia|intros (n & Hn); by destruct (Hnr n)].
Qed.

(** C15: Bounds: every in-bounds value of the field lies between 0 and the
    sentinel [height * width]. *)
Theorem compute_distance_field_bounds m p d :
  Grid.wf g → Forall (Grid.inside g) seeds_of →
  compute_distance_field (Q := Q) a entity_type = Ok m →
  Grid.inside g p → mget m p = Some d → 0 ≤ d ≤ h * w.
Proof.
  intros Hg Hs Hrun Hp Hd.
  destruct (compute_distance_field_contract m Hg Hs Hrun p Hp) as [(n & Hn & Hm)|(_ & Hm)];
    rewrite Hd in Hm; injection Hm as ->; [|unfold Grid.inside, in_bounds in Hp; nia].
  pose proof (shortest_bound g seeds_of p n Hs Hn). lia.
Qed.

(** C8: The field changes by at most one along a move: if [q] is a free
    in-bounds cell four-adjacent to [p], its value is at most that of [p]
    plus one.  A zombie following the human field therefore never faces a
    jump, and a cell next to a seed has value at most 1. *)
Theorem compute_distance_field_lipschitz m p q dp dq :
  Grid.wf g → Forall (Grid.inside g) seeds_of →
  compute_distance_field (Q := Q) a entity_type = Ok m →
  Grid.inside g p → step g p q → mget m p = Some dp → mget m q = Some dq →
  dq ≤ dp + 1.
Proof.
  intros Hg Hs Hrun Hp Hst Hdp Hdq.
  pose proof Hst as (Hq & _).
  destruct (compute_distance_field_contract m Hg Hs Hrun q Hq) as [(k & Hk & Hm)|(Hnr & Hm)];
    rewrite Hdq in Hm; injection Hm as ->;
  destruct (compute_distance_field_contract m Hg Hs Hrun p Hp) as [(n & Hn & Hm')|(_ & Hm')];
    rewrite Hdp in Hm'; injection Hm' as ->.
  - pose proof (proj2 Hk (S n) (reach_step g seeds_of n p q (proj1 Hn) Hst)). lia.
  - pose proof (shortest_bound g seeds_of q k Hs Hk). lia.
  - by destruct (Hnr (S n)); apply (reach_step g seeds_of n p q (proj1 Hn)).
  - lia.
Qed.

End Method.

Import Scenarios.

(** The first fixture: the cell (0, 0) is reachable from a human. *)
Lemma compute_distance_field_shortest_witness :
  (∃ n, shortest (apoc_grid apoc1) (seeds apoc1 HUMAN) (0, 0) n ∧
        mget expected_human_field (0, 0) = Some (Z.of_nat n)) ∨
  ((∀ n, ¬ reach (apoc_grid apoc1) (seeds apoc1 HUMAN) n (0, 0)) ∧
   mget expected_human_field (0, 0) = Some (20 * 30)).
Proof.
  apply (compute_distance_field_shortest (Q := ListQueue.queue) apoc1 HUMAN);
    [decide_by_eval|decide_by_eval|vm_compute; reflexivity|decide_by_eval].
Defined.

(** The human field of the first fixture is 0 at the human (18, 14), so the
    human there is reachable (from itself). *)
Lemma compute_distance_field_reachable_witness :
  0 < 20 * 30 ↔ ∃ n, reach (apoc_grid apoc1) (seeds apoc1 HUMAN) n (18, 14).
Proof.
  apply (compute_distance_field_reachable (Q := ListQueue.queue) apoc1 HUMAN expected_human_field);
    [decide_by_eval|decide_by_eval|vm_compute; reflexivity|decide_by_eval|vm_compute; reflexivity].
Defined.

Lemma compute_distance_field_bounds_witness :
  0 ≤ 600 ≤ 20 * 30.
Proof.
  apply (compute_distance_field_bounds (Q := ListQueue.queue) apoc1 HUMAN expected_human_field (4, 15));
    [decide_by_eval|decide_by_eval|vm_compute; reflexivity|decide_by_eval|vm_compute; reflexivity].
Defined.

(** The cells (0, 0) and (0, 1) of the first fixture are free neighbours,
    with human distances 24 and 23. *)
Lemma compute_distance_field_lipschitz_witness : 24 ≤ 23 + 1.
Proof.
  apply (compute_distance_field_lipschitz (Q := ListQueue.queue) apoc1 HUMAN expected_human_field (0, 1) (0, 0));
    [decide_by_eval|decide_by_eval|vm_compute; reflexivity|decide_by_eval|decide_by_eval|
     vm_compute; reflexivity|vm_compute; reflexivity].
Defined.

End ShortestPath.
