(* ===== verification/Chase.v ===== *)
(** * Zombies catch humans who stand still

    The simulation's tick (section 5 of the specification, driven by the
    GUI) computes the humans' distance field and moves the zombies on it.
    [zombie_tick] is that half of the tick, [chase n] runs it [n] times.
    Humans that do not move keep the field unchanged, since
    [compute_distance_field] reads only the grid and the seeds; every zombie
    that is at distance [d > 0] of the humans has a free four-neighbour at
    distance [d - 1] (the previous cell of a shortest path), so
    [move_zombies] takes it to distance at most [d - 1], and a zombie at
    distance 0 stands on a human and stays there.  The distance is the
    variant: a zombie from which a human is reachable is on a human after
    as many ticks as its distance, and stays on one.  *)

From stdpp Require Import base list options sets.
From Stdlib Require Import ZArith Lia.
From S2P Require Import Prelude Grid Queue Apocalypse Scenarios DistanceField FieldInvariants Movement ShortestPath.

Open Scope Z_scope.
Local Unset Default Proof Using.

Module Chase.
Import Apocalypse DistanceField FieldInvariants Movement ShortestPath.

Section Chase.
Context {Q : Type → Type} `{!QueueOps Q} `{!QueueLaws Q}.

(** The zombies' half of a tick: the humans' field, then [move_zombies]. *)
Definition zombie_tick (a : apocalypse) : res apocalypse :=
  human_distance_field <- compute_distance_field (Q := Q) a HUMAN ;;
  move_zombies a human_distance_field.

(** [n] ticks in a row; the first exception stops the run. *)
Fixpoint chase (n : nat) (a : apocalypse) : res apocalypse :=
  match n with
  | O => Ok a
  | S n' => a' <- zombie_tick a ;; chase n' a'
  end.

(** The field of the humans depends on the grid and the humans only. *)
Lemma compute_distance_field_humans a a' :
  apoc_grid a' = apoc_grid a → humans a' = humans a →
  compute_distance_field (Q := Q) a' HUMAN = compute_distance_field (Q := Q) a HUMAN.
Proof.
  intros Hg Hh. unfold compute_distance_field, initial_state, bfs_fuel, seeds.
  rewrite !decide_True by done. by rewrite Hg, Hh.
Qed.

(** ** One tick, with the humans' field [m] *)

Section Tick.
Context (a : apocalypse) (m : list (list Z)).
Local Abbreviation g := (apoc_grid a).
Local Abbreviation h := (Grid.grid_height (apoc_grid a)).
Local Abbreviation w := (Grid.grid_width (apoc_grid a)).
Context (Hg : Grid.wf g) (Hin : Forall (Grid.inside g) (humans a))
  (Hfree : Forall (passable g) (humans a))
  (Hm : compute_distance_field (Q := Q) a HUMAN = Ok m).

Lemma seeds_human : seeds a HUMAN = humans a.
Proof. unfold seeds. by rewrite decide_True. Qed.

Lemma field_at p : Grid.inside g p →
  (∃ n, shortest g (humans a) p n ∧ dget m p = Z.of_nat n) ∨
  ((∀ n, ¬ reach g (humans a) n p) ∧ dget m p = h * w).
Proof.
  intros Hp. assert (Forall (Grid.inside g) (seeds a HUMAN)) as Hs by (by rewrite seeds_human).
  destruct (compute_distance_field_contract a HUMAN m Hg Hs Hm p Hp) as [(n & Hn & E)|(Hn & E)];
    rewrite seeds_human in Hn; unfold dget; rewrite E; [left|right]; by eauto.
Qed.

Lemma field_nonneg p : Grid.inside g p → 0 ≤ dget m p.
Proof.
  intros Hp. destruct (field_at p Hp) as [(n & _ & ->)|(_ & ->)]; [lia|].
  unfold Grid.inside, in_bounds in Hp. nia.
Qed.

Lemma field_rect : rect h w m.
Proof.
  destruct (compute_distance_field_marks (Q := Q) a HUMAN m Hg) as (s' & <- & Hsh & _);
    [by rewrite seeds_human|done|apply Hsh].
Qed.

(** A cell at field value 0 is a human's. *)
Lemma field_zero p : Grid.inside g p → dget m p = 0 → p ∈ humans a.
Proof.
  intros Hp E. destruct (field_at p Hp) as [(n & (Hr & _) & En)|(_ & En)].
  - assert (n = 0%nat) as -> by lia. by apply (reach_0 g (humans a)).
  - unfold Grid.inside, in_bounds in Hp. nia.
Qed.

(** A cell at distance [d > 0] has a free four-neighbour nearer the humans. *)
Lemma field_descent p : Grid.inside g p → 0 < dget m p < h * w →
  ∃ q, q ∈ Grid.four_neighbors g p.1 p.2 ∧ Grid.cell_at g q = Some Grid.EMPTY ∧
    dget m q < dget m p.
Proof.
  intros Hp Hd. destruct (field_at p Hp) as [(n & (Hr & _) & En)|(_ & En)]; [|lia].
  destruct n as [|k]; [lia|]. destruct (reach_S g (humans a) k p Hr) as (q & Hq & _ & _ & Hadj).
  assert (Grid.inside g q) as Hqin by (by eapply reach_inside).
  exists q. split_and!.
  - apply Grid.four_neighbors_spec; [done|]. split; [done|]. unfold Grid.adj4 in *. lia.
  - destruct k as [|k].
    + apply (reach_0 g (humans a)) in Hq. by eapply Forall_forall in Hfree.
    + by destruct (reach_S g (humans a) k q Hq) as (r & _ & _ & Hpass & _).
  - destruct (field_at q Hqin) as [(n' & (_ & Hmin) & Eq)|(Hnr & _)]; [|by destruct (Hnr k)].
    specialize (Hmin k Hq). lia.
Qed.

(** Where [best_zombie_move] takes one zombie: nowhere from a human, one
    step nearer from anywhere else a human can be reached from. *)
Lemma best_zombie_move_descent z :
  Grid.inside g z →
  ∃ z', best_zombie_move g m z = Ok z' ∧ Grid.inside g z' ∧
    (dget m z = 0 → z' = z) ∧ (0 < dget m z < h * w → dget m z' < dget m z).
Proof.
  intros Hz. pose proof field_rect as Hf.
  destruct (best_zombie_move_spec a m z Hg Hf Hz) as (b & Hb & Hwhere & Hle & Hmin).
  assert (Grid.inside g b) as Hbin
    by (destruct Hwhere as [->|(Hn & _)]; [done|by eapply Grid.four_neighbors_inside]).
  exists b. split_and!; [done|done| |].
  - intros E. destruct Hwhere as [->|(_ & _ & Hlt)]; [done|].
    pose proof (field_nonneg b Hbin). lia.
  - intros Hd. destruct (field_descent z Hz Hd) as (q & Hq & He & Hlt).
    specialize (Hmin q Hq He). lia.
Qed.

Lemma zombie_tick_descent :
  Forall (Grid.inside g) (zombies a) →
  ∃ a', zombie_tick a = Ok a' ∧ apoc_grid a' = g ∧ humans a' = humans a ∧
    Forall (Grid.inside g) (zombies a') ∧
    Forall2 (λ z z', (dget m z = 0 → z' = z) ∧ (0 < dget m z < h * w → dget m z' < dget m z))
      (zombies a) (zombies a').
Proof.
  intros Hz. destruct (move_zombies_snapshot a m Hg field_rect Hz) as (zs & Hrun & Hall).
  exists (mk_apocalypse g zs (_human_list a)).
  unfold zombie_tick. rewrite Hm. simpl. rewrite Hrun. split_and!; [done..| |].
  - apply (Forall2_Forall_snd _ (zombies a)), (Forall2_impl_l _ _ _ _ _ Hz Hall).
    intros x y Hx Hy. destruct (best_zombie_move_descent x Hx) as (z' & E & ? & _). congruence.
  - apply (Forall2_impl_l _ _ _ _ _ Hz Hall).
    intros x y Hx Hy. destruct (best_zombie_move_descent x Hx) as (z' & E & _ & H1 & H2).
    rewrite Hy in E. by injection E as ->.
Qed.

End Tick.

(** ** The run: the distance is a variant *)

(** After [n] ticks from a state with the humans' field [m], the zombie at
    index [i], at field value [v < h * w] with [v ≤ n], stands on a cell of
    value 0; the grid and the humans are those of the start. *)
Lemma chase_descent n : ∀ a m i z,
  Grid.wf (apoc_grid a) → Forall (Grid.inside (apoc_grid a)) (humans a) →
  Forall (passable (apoc_grid a)) (humans a) → Forall (Grid.inside (apoc_grid a)) (zombies a) →
  compute_distance_field (Q := Q) a HUMAN = Ok m →
  zombies a !! i = Some z →
  dget m z < Grid.grid_height (apoc_grid a) * Grid.grid_width (apoc_grid a) →
  (Z.to_nat (dget m z) ≤ n)%nat →
  ∃ a' z', chase n a = Ok a' ∧ apoc_grid a' = apoc_grid a ∧ humans a' = humans a ∧
    zombies a' !! i = Some z' ∧ Grid.inside (apoc_grid a) z' ∧ dget m z' = 0.
Proof.
  induction n as [|n IH]; intros a m i z Hg Hin Hfree Hz Hm Hi Hlt Hn.
  - exists a, z. split_and!; [done..| |]; [by eapply Forall_lookup_1|].
    pose proof (field_nonneg a m Hg Hin Hm z (Forall_lookup_1 _ _ _ _ Hz Hi)). lia.
  - destruct (zombie_tick_descent a m Hg Hin Hfree Hm Hz)
      as (a1 & Hrun & Hg1 & Hh1 & Hz1 & Hall).
    destruct (Forall2_lookup_l _ _ _ _ _ Hall Hi) as (z1 & Hi1 & Hmono & Hdesc).
    assert (Grid.inside (apoc_grid a) z) as Hzin by exact (Forall_lookup_1 _ _ _ _ Hz Hi).
    pose proof (field_nonneg a m Hg Hin Hm z Hzin) as H0.
    assert (compute_distance_field (Q := Q) a1 HUMAN = Ok m) as Hm1
      by (rewrite (compute_distance_field_humans a a1); congruence).
    destruct (IH a1 m i z1) as (a' & z' & Hch & Hg' & Hh' & Hi' & Hz' & E);
      [by rewrite Hg1|by rewrite Hg1, Hh1|by rewrite Hg1, Hh1|by rewrite Hg1|done|done| | |].
    + rewrite Hg1. destruct (decide (dget m z = 0)) as [E|Hne]; [rewrite (Hmono E); lia|].
      specialize (Hdesc ltac:(lia)). lia.
    + destruct (decide (dget m z = 0)) as [E|Hne]; [rewrite (Hmono E), E; simpl; lia|].
      specialize (Hdesc ltac:(lia)). lia.
    + exists a', z'. simpl. rewrite Hrun. simpl.
      split_and!; [done|congruence|congruence|done|congruence|done].
Qed.

(** C22: Liveness: humans who stand still are caught.  On a well-formed
    grid with the humans in bounds on free cells and the zombies in bounds,
    a zombie from which a human can be reached in [d] moves through free
    cells stands on a human's cell after any [n ≥ d] ticks of computing the
    humans' field and moving the zombies; no tick raises, and the humans
    are unchanged. *)
Theorem zombies_catch_still_humans a i z d n :
  Grid.wf (apoc_grid a) → Forall (Grid.inside (apoc_grid a)) (humans a) →
  Forall (passable (apoc_grid a)) (humans a) → Forall (Grid.inside (apoc_grid a)) (zombies a) →
  zombies a !! i = Some z → reach (apoc_grid a) (humans a) d z → (d ≤ n)%nat →
  ∃ a' z', chase n a = Ok a' ∧ humans a' = humans a ∧ zombies a' !! i = Some z' ∧ z' ∈ humans a.
Proof.
  intros Hg Hin Hfree Hz Hi Hd Hn.
  destruct (compute_distance_field_runs (Q := Q) a HUMAN Hg) as (_ & s' & _ & _ & _ & Hm);
    [by rewrite seeds_human|].
  set (m := distance_field s') in Hm.
  assert (Grid.inside (apoc_grid a) z) as Hzin by exact (Forall_lookup_1 _ _ _ _ Hz Hi).
  destruct (field_at a m Hg Hin Hm z Hzin) as [(k & (Hk & Hmin) & Ek)|(Hnr & _)];
    [|by destruct (Hnr d)].
  pose proof (Hmin d Hd) as Hkd.
  destruct (chase_descent n a m i z Hg Hin Hfree Hz Hm Hi) as (a' & z' & Hrun & Hg' & Hh' & Hi' & Hz' & E).
  - rewrite Ek. pose proof (shortest_bound (apoc_grid a) (humans a) z k Hin (conj Hk Hmin)).
    lia.
  - rewrite Ek, Nat2Z.id. lia.
  - exists a', z'. split_and!; [done..|]. by apply (field_zero a m Hg Hin Hm).
Qed.

End Chase.

(** A 3 by 3 grid with an obstacle in the middle, a human in one corner
    and a zombie in the opposite one, four moves away. *)
Definition corner_apoc : apocalypse :=
  default (mk_apocalypse (Grid.new 0 0) [] [])
    (res_to_option (init 3 3 (Some [(1, 1)]) (Some [(2, 2)]) (Some [(0, 0)]))).

Lemma zombies_catch_still_humans_witness :
  ∃ a' z', chase (Q := ListQueue.queue) 4 corner_apoc = Ok a' ∧ humans a' = humans corner_apoc ∧
    zombies a' !! 0%nat = Some z' ∧ z' ∈ humans corner_apoc.
Proof.
  apply (zombies_catch_still_humans (Q := ListQueue.queue) corner_apoc 0 (2, 2) 4 4);
    [decide_by_eval|decide_by_eval|decide_by_eval|decide_by_eval|reflexivity| |lia].
  exists (0, 0). split; [vm_compute; left|].
  apply (walk_snoc _ 3 _ (1, 2)); [|decide_by_eval].
  apply (walk_snoc _ 2 _ (0, 2)); [|decide_by_eval].
  apply (walk_snoc _ 1 _ (0, 1)); [|decide_by_eval].
  apply (walk_snoc _ 0 _ (0, 0)); [constructor|decide_by_eval].
Defined.

End Chase.
