(* ===== verification/Ticks.v ===== *)
(** * The simulation as a state machine of ticks

    A tick of the simulation (section 5 of the specification, driven by
    the GUI) computes both distance fields from the state before the tick,
    then moves the humans on the zombies' field and the zombies on the
    humans' field ([tick]).  [tick_step] is the transition relation and
    [rtc tick_step a0] the states reachable from [a0].  The invariant
    [placed]: the grid keeps its shape and every entity stands on a free
    in-bounds cell.  It holds in every reachable state of a placed start,
    by rule induction on [rtc], and from every such state the next tick
    raises nothing: no run of the simulation ever raises.  The
    specification lets the caller move the humans or the zombies first;
    [tick_zombies_first] is the other order, and the two are equal on
    every state. *)

From stdpp Require Import base list options sets relations.
From Stdlib Require Import ZArith Lia.
From S2P Require Import Prelude Grid Queue Apocalypse DistanceField FieldInvariants Movement.

Open Scope Z_scope.
Local Unset Default Proof Using.

Module Ticks.
Import Apocalypse DistanceField FieldInvariants Movement.

Section Ticks.
Context {Q : Type → Type} `{!QueueOps Q} `{!QueueLaws Q}.

(** One tick: both fields from the same snapshot, then both moves. *)
Definition tick (a : apocalypse) : res apocalypse :=
  zombie_distance_field <- compute_distance_field (Q := Q) a ZOMBIE ;;
  human_distance_field <- compute_distance_field (Q := Q) a HUMAN ;;
  a <- move_humans a zombie_distance_field ;;
  move_zombies a human_distance_field.

Definition tick_step (a a' : apocalypse) : Prop := tick a = Ok a'.

(** The other order the specification allows: the zombies move first, on
    the fields of the same snapshot. *)
Definition tick_zombies_first (a : apocalypse) : res apocalypse :=
  zombie_distance_field <- compute_distance_field (Q := Q) a ZOMBIE ;;
  human_distance_field <- compute_distance_field (Q := Q) a HUMAN ;;
  a <- move_zombies a human_distance_field ;;
  move_humans a zombie_distance_field.

(** An entity stands on a free in-bounds cell. *)
Definition on_free (g : Grid.grid) (p : coord) : Prop := Grid.inside g p ∧ passable g p.

(** The invariant of the simulation. *)
Definition placed (a : apocalypse) : Prop :=
  Grid.wf (apoc_grid a) ∧ Forall (on_free (apoc_grid a)) (humans a) ∧
  Forall (on_free (apoc_grid a)) (zombies a).

(** ** A move keeps entities on free cells *)

(** A move that keeps an entity in place or takes it to a free cell among
    neighbours in bounds keeps a list of entities on free cells. *)
Lemma moves_on_free g (nbrs : coord → list coord) (step : coord → res coord) l l' :
  (∀ p q, Grid.inside g p → q ∈ nbrs p → Grid.inside g q) →
  (∀ p b, on_free g p → step p = Ok b → b = p ∨ (b ∈ nbrs p ∧ Grid.cell_at g b = Some Grid.EMPTY)) →
  Forall (on_free g) l → Forall2 (λ old new, step old = Ok new) l l' → Forall (on_free g) l'.
Proof.
  intros Hn Hstep Hl Hall. apply (Forall2_Forall_snd _ l), (Forall2_impl_l _ _ _ _ _ Hl Hall).
  intros x y [Hx Hpx] Hy. destruct (Hstep x y (conj Hx Hpx) Hy) as [->|(Hin & He)]; [done|].
  split; [by eapply Hn|done].
Qed.

Lemma field_ok a t :
  Grid.wf (apoc_grid a) → Forall (Grid.inside (apoc_grid a)) (seeds a t) →
  ∃ m, compute_distance_field (Q := Q) a t = Ok m ∧
    rect (Grid.grid_height (apoc_grid a)) (Grid.grid_width (apoc_grid a)) m.
Proof.
  intros Hg Hs. destruct (compute_distance_field_runs (Q := Q) a t Hg Hs) as (_ & s' & _ & _ & _ & Hm).
  exists (distance_field s'). split; [done|].
  destruct (compute_distance_field_marks (Q := Q) a t _ Hg Hs Hm) as (s'' & <- & Hsh & _). apply Hsh.
Qed.

Lemma on_free_inside g l : Forall (on_free g) l → Forall (Grid.inside g) l.
Proof. intros Hl. eapply Forall_impl; [exact Hl|]. by intros p []. Qed.

Lemma seeds_inside a t :
  Forall (on_free (apoc_grid a)) (humans a) → Forall (on_free (apoc_grid a)) (zombies a) →
  Forall (Grid.inside (apoc_grid a)) (seeds a t).
Proof. intros Hh Hz. unfold seeds. case_decide; by apply on_free_inside. Qed.

(** ** The order of the two moves *)

(** A move can only fail on an index out of range. *)
Lemma best_human_move_raises g f p : raises_only IndexError (best_human_move g f p).
Proof. unfold best_human_move, Grid.is_empty. cbv zeta. solve_raises_only. Qed.

Lemma best_zombie_move_raises g f p : raises_only IndexError (best_zombie_move g f p).
Proof. unfold best_zombie_move, Grid.is_empty. cbv zeta. solve_raises_only. Qed.

(** The humans' loop reads the grid and the humans only, the zombies'
    loop the grid and the zombies only, and both fail only with
    [IndexError]: the two moves commute. *)
Lemma moves_commute a zf hf :
  (a1 <- move_humans a zf ;; move_zombies a1 hf) = (a1 <- move_zombies a hf ;; move_humans a1 zf).
Proof.
  unfold move_humans, move_zombies, humans, zombies. simpl.
  assert (raises_only IndexError (for_each (λ acc human,
    best <- best_human_move (apoc_grid a) zf human ;; Ok (acc ++ [best])) (_human_list a) [])) as HH
    by (apply raises_only_for_each; intros; solve_raises_only; apply best_human_move_raises).
  assert (raises_only IndexError (for_each (λ acc zombie,
    best <- best_zombie_move (apoc_grid a) hf zombie ;; Ok (acc ++ [best])) (_zombie_list a) [])) as HZ
    by (apply raises_only_for_each; intros; solve_raises_only; apply best_zombie_move_raises).
  destruct (for_each _ (_human_list a) []) as [hs|e1] eqn:EH;
    destruct (for_each _ (_zombie_list a) []) as [zs|e2] eqn:EZ; simpl; rewrite ?EH, ?EZ; simpl;
    [done|done|done|].
  by rewrite (HH e1 eq_refl), (HZ e2 eq_refl).
Qed.

(** ** One tick *)

Lemma tick_placed a :
  placed a →
  ∃ a', tick a = Ok a' ∧ placed a' ∧ apoc_grid a' = apoc_grid a ∧
    num_humans a' = num_humans a ∧ num_zombies a' = num_zombies a.
Proof.
  intros (Hg & Hh & Hz).
  destruct (field_ok a ZOMBIE Hg (seeds_inside a ZOMBIE Hh Hz)) as (zf & Ezf & Hzf).
  destruct (field_ok a HUMAN Hg (seeds_inside a HUMAN Hh Hz)) as (hf & Ehf & Hhf).
  destruct (move_humans_snapshot a zf Hg Hzf (on_free_inside _ _ Hh)) as (hs & Eh & Hhs).
  set (a1 := mk_apocalypse (apoc_grid a) (_zombie_list a) hs) in Eh.
  destruct (move_zombies_snapshot a1 hf Hg Hhf (on_free_inside _ _ Hz)) as (zs & Ez & Hzs).
  exists (mk_apocalypse (apoc_grid a) zs hs).
  unfold tick. rewrite Ezf, Ehf. simpl. rewrite Eh. simpl. rewrite Ez.
  split_and!; [done| |done|by apply Forall2_length in Hhs|by apply Forall2_length in Hzs].
  split_and!; [exact Hg| |].
  - apply (moves_on_free (apoc_grid a) (λ p, Grid.eight_neighbors (apoc_grid a) p.1 p.2)
             (best_human_move (apoc_grid a) zf) (humans a) hs
             (λ p q, Grid.eight_neighbors_inside _ p q)); [|done|done].
    intros p b [Hp _] E. destruct (best_human_move_spec a zf p Hg Hzf Hp) as (b' & E' & Hw & _).
    rewrite E in E'. injection E' as <-. destruct Hw as [->|(? & ? & _)]; [by left|by right].
  - apply (moves_on_free (apoc_grid a) (λ p, Grid.four_neighbors (apoc_grid a) p.1 p.2)
             (best_zombie_move (apoc_grid a) hf) (zombies a1) zs
             (λ p q, Grid.four_neighbors_inside _ p q)); [|done|done].
    intros p b [Hp _] E. destruct (best_zombie_move_spec a1 hf p Hg Hhf Hp) as (b' & E' & Hw & _).
    change (apoc_grid a1) with (apoc_grid a) in E', Hw.
    rewrite E in E'. injection E' as <-. destruct Hw as [->|(? & ? & _)]; [by left|by right].
Qed.

(** C18: Invariant and safety of the simulation: from a state whose
    grid is well formed and whose entities all stand on free in-bounds
    cells, every state reachable by ticks has the same grid and the same
    numbers of humans and zombies, keeps every entity on a free in-bounds
    cell, and its next tick raises nothing. *)
Theorem ticks_keep_placed a0 a :
  placed a0 → rtc tick_step a0 a →
  placed a ∧ apoc_grid a = apoc_grid a0 ∧ num_humans a = num_humans a0 ∧
  num_zombies a = num_zombies a0 ∧ ∃ a', tick_step a a'.
Proof.
  intros H0 Hr. revert H0. induction Hr as [a|a a1 a2 Hstep _ IH]; intros Ha.
  - split_and!; [done..|]. destruct (tick_placed a Ha) as (a' & E & _). by exists a'.
  - destruct (tick_placed a Ha) as (a' & E & Ha' & Hg & Hnh & Hnz).
    unfold tick_step in Hstep. rewrite E in Hstep. injection Hstep as <-.
    destruct (IH Ha') as (Hp & Hg2 & Hh2 & Hz2 & Hnext). split_and!; [done|congruence..|done].
Qed.

(** C23: Equivalence: the order of the two moves does not matter.  A tick
    that moves the zombies first, on the fields of the same snapshot,
    returns exactly what [tick] returns, error or state, on every state:
    [move_humans] changes only the humans and [move_zombies] only the
    zombies, and either fails only with [IndexError]. *)
Theorem tick_order_irrelevant a : tick_zombies_first a = tick a.
Proof.
  unfold tick, tick_zombies_first.
  destruct (compute_distance_field (Q := Q) a ZOMBIE), (compute_distance_field (Q := Q) a HUMAN);
    simpl; [|done..]. symmetry. apply moves_commute.
Qed.

End Ticks.

(** A 3 by 3 grid with an obstacle in the middle, a human and a zombie in
    opposite corners, and the state one tick later. *)
Definition corners : apocalypse :=
  default (mk_apocalypse (Grid.new 0 0) [] [])
    (res_to_option (init 3 3 (Some [(1, 1)]) (Some [(2, 2)]) (Some [(0, 0)]))).

Definition corners_after : apocalypse :=
  default corners (res_to_option (tick (Q := ListQueue.queue) corners)).

Lemma ticks_keep_placed_witness :
  placed corners ∧ rtc (tick_step (Q := ListQueue.queue)) corners corners_after ∧
  (placed corners_after ∧ apoc_grid corners_after = apoc_grid corners ∧
   num_humans corners_after = num_humans corners ∧ num_zombies corners_after = num_zombies corners ∧
   ∃ a', tick_step (Q := ListQueue.queue) corners_after a').
Proof.
  assert (H0 : placed corners) by (unfold placed, on_free; decide_by_eval).
  assert (H1 : rtc (tick_step (Q := ListQueue.queue)) corners corners_after)
    by (apply rtc_once; vm_compute; reflexivity).
  split; [exact H0|]. split; [exact H1|]. exact (ticks_keep_placed corners corners_after H0 H1).
Defined.

End Ticks.
