(* ===== verification/Merge.v ===== *)
(** * The 2048 line merge ([src/merge.py])

    [slide_list] and [merge] translate the two functions of [merge.py]
    statement by statement: the [for] loops are folds that append, the
    [while index <= len(slided) - 1] loop is [merge_loop] on fuel, list
    indexing is Python's ([py_get], an absent index raising [IndexError]),
    and [result[:-1]] is [py_drop_last].

    The abstract specification of a 2048 merge is [merge_spec]: drop the
    zeros, merge equal neighbours left to right, each tile at most once
    ([merge_nz]), pad with zeros to the original length.  The proof that the
    code implements it goes through [merge_trace], what the [while] loop
    appends when it starts at a given suffix: it is the line merged with a
    0 placeholder after each merged pair ([merge_pairs]), followed, when the
    loop ends on two different tiles, by a repeated copy of the last tile,
    which the final [result[:-1]] removes. *)

From stdpp Require Import base list options sets.
From Stdlib Require Import ZArith Lia.
From Stdlib Require String.
From S2P Require Import Prelude.

Open Scope Z_scope.
Local Unset Default Proof Using.

Module Merge.

(** ** The code *)

(** [slide_list(line)]: the non-zero tiles in order, then zeros up to the
    length of [line]. *)
Definition slide_list (line : list Z) : list Z :=
  let slided := foldl (λ acc num, if decide (num ≠ 0) then acc ++ [num] else acc) [] line in
  if decide (length slided ≠ length line) then
    foldl (λ acc _, acc ++ [0]) slided
      (seqZ 0 (Z.of_nat (length line) - Z.of_nat (length slided)))
  else slided.

(** The [while] loop of [merge]; [index] and the lengths are Python
    integers. *)
Fixpoint merge_loop (fuel : nat) (slided : list Z) (index : Z) (result : list Z) : res (list Z) :=
  match fuel with
  | O => Ok result
  | S fuel' =>
      let n := Z.of_nat (length slided) in
      if decide (index ≤ n - 1) then
        if decide (index = n - 1) then
          (x <- of_index (py_get slided index) ;;
           merge_loop fuel' slided (index + 1) (result ++ [x]))
        else
          (a <- of_index (py_get slided index) ;;
           b <- of_index (py_get slided (index + 1)) ;;
           if decide (a ≠ b) then
             (if decide (index = n - 2) then
                merge_loop fuel' slided (index + 1) ((result ++ [a]) ++ [b])
              else merge_loop fuel' slided (index + 1) (result ++ [a]))
           else merge_loop fuel' slided (index + 2) (result ++ ([a * 2] ++ [0])))
      else Ok result
  end.

(** [merge(line)].  Each iteration raises [index] by at least one, so
    [length slided + 1] iterations reach the exit test. *)
Definition merge (line : list Z) : res (list Z) :=
  let slided := slide_list line in
  result <- merge_loop (S (length slided)) slided 0 [] ;;
  if decide (length slided < length result)%nat then Ok (slide_list (py_drop_last result))
  else Ok (slide_list result).

(** ** The specification *)

(** Merge equal neighbours of a line of non-zero tiles, left to right. *)
Section Output.
Import String.
Local Open Scope string_scope.

(** [run_tests()]: six assertions on [merge], then the line it prints. *)
Definition run_tests : res (list String.string) :=
  r1 <- merge [2; 0; 2; 2] ;; _ <- py_assert (r1 = [4; 2; 0; 0]) ;;
  r2 <- merge [2; 0; 2; 4] ;; _ <- py_assert (r2 = [4; 4; 0; 0]) ;;
  r3 <- merge [0; 0; 2; 2] ;; _ <- py_assert (r3 = [4; 0; 0; 0]) ;;
  r4 <- merge [2; 2; 0; 0] ;; _ <- py_assert (r4 = [4; 0; 0; 0]) ;;
  r5 <- merge [2; 2; 2; 2; 2] ;; _ <- py_assert (r5 = [4; 4; 2; 0; 0]) ;;
  r6 <- merge [8; 16; 16; 8] ;; _ <- py_assert (r6 = [8; 32; 8; 0]) ;;
  Ok ["All tests pass!!!"].

End Output.

Fixpoint merge_nz (l : list Z) : list Z :=
  match l with
  | x :: ((y :: rest) as t) => if decide (x = y) then x * 2 :: merge_nz rest else x :: merge_nz t
  | _ => l
  end.

Definition merge_spec (line : list Z) : list Z :=
  let m := merge_nz (filter (λ x, x ≠ 0) line) in
  m ++ replicate (length line - length m) 0.

(** The total of the tiles of a line (a quantity a merge keeps). *)
Definition tile_sum (l : list Z) : Z := foldr Z.add 0 l.

(** ** The loop, as a function of the suffix it starts at *)

Fixpoint merge_trace (l : list Z) : list Z :=
  match l with
  | [] => []
  | [x] => [x]
  | x :: ((y :: rest) as t) =>
      if decide (x ≠ y) then
        match rest with [] => [x; y; y] | _ => x :: merge_trace t end
      else x * 2 :: 0 :: merge_trace rest
  end.

Fixpoint merge_pairs (l : list Z) : list Z :=
  match l with
  | x :: ((y :: rest) as t) => if decide (x = y) then x * 2 :: 0 :: merge_pairs rest else x :: merge_pairs t
  | _ => l
  end.

Local Abbreviation nonzero l := (filter (λ x : Z, x ≠ 0) l).

(** ** [slide_list] *)

Lemma slide_list_spec line :
  slide_list line = nonzero line ++ replicate (length line - length (nonzero line)) 0.
Proof.
  unfold slide_list. rewrite (foldl_append_filter (λ x, x ≠ 0)). simpl.
  pose proof (length_filter (λ x : Z, x ≠ 0) line).
  case_decide as Hne.
  - rewrite foldl_append_const, length_seqZ. do 2 f_equal. lia.
  - assert (length line - length (nonzero line) = 0)%nat as -> by lia. by rewrite app_nil_r.
Qed.

Lemma length_slide_list line : length (slide_list line) = length line.
Proof.
  rewrite slide_list_spec, length_app, length_replicate.
  pose proof (length_filter (λ x : Z, x ≠ 0) line). lia.
Qed.

(** ** The [while] loop *)

Lemma drop_cons_lookup {A} (l t : list A) k x :
  drop k l = x :: t → l !! k = Some x ∧ drop (S k) l = t ∧ (k < length l)%nat.
Proof.
  intros Hd. split_and!.
  - by rewrite <-(Nat.add_0_r k), <-lookup_drop, Hd.
  - by rewrite <-(Nat.add_1_r k), <-drop_drop, Hd.
  - pose proof (f_equal length Hd) as E. rewrite length_drop in E. simpl in E. lia.
Qed.

Lemma py_get_drop (l t : list Z) i x :
  drop (Z.to_nat i) l = x :: t → 0 ≤ i → py_get l i = Some x ∧ drop (Z.to_nat (i + 1)) l = t.
Proof.
  intros Hd Hi. destruct (drop_cons_lookup l t _ x Hd) as (Hl & Ht & Hlen).
  rewrite py_get_in by lia. split; [done|].
  by replace (Z.to_nat (i + 1)) with (S (Z.to_nat i)) by lia.
Qed.

Ltac merge_read H :=
  let Hg := fresh "Hget" in let Hn := fresh "Hnext" in
  destruct (py_get_drop _ _ _ _ H ltac:(lia)) as [Hg Hn]; rewrite Hg; simpl.

(** Started at [index], with [l] the suffix of [slided] from there and
    enough fuel, the loop appends [merge_trace l] to [result]. *)
Lemma merge_loop_trace slided fuel index result l :
  0 ≤ index → drop (Z.to_nat index) slided = l → (length l < fuel)%nat →
  (Z.to_nat index + length l = length slided)%nat →
  merge_loop fuel slided index result = Ok (result ++ merge_trace l).
Proof.
  revert index result l. induction fuel as [|fuel IH]; intros index result l Hi Hd Hf Hlen; [lia|].
  simpl. destruct l as [|x [|y rest]]; simpl in Hlen, Hf.
  - rewrite decide_False by lia. by rewrite app_nil_r.
  - rewrite decide_True, decide_True by lia. merge_read Hd.
    rewrite (IH (index + 1) _ []) by (done || simpl; lia). by rewrite app_nil_r.
  - rewrite decide_True, decide_False by lia. merge_read Hd. merge_read Hnext.
    simpl. destruct (decide (x ≠ y)) as [Hxy|Hxy].
    + destruct rest as [|z rest]; simpl in Hlen, Hf.
      * rewrite decide_True by lia.
        rewrite (IH (index + 1) _ [y]) by (done || simpl; lia). by rewrite <-!app_assoc.
      * rewrite decide_False by lia.
        rewrite (IH (index + 1) _ (y :: z :: rest)) by (done || simpl; lia).
        by rewrite <-app_assoc.
    + assert (drop (Z.to_nat (index + 2)) slided = rest)
        by (by replace (index + 2) with (index + 1 + 1) by lia).
      rewrite (IH (index + 2) _ rest) by (done || lia). by rewrite <-app_assoc.
Qed.

(** ** From the trace to the specification *)

(** The loop appends the merged line with placeholders, plus at most one
    repeated tile. *)
Lemma merge_trace_cons3 x y z l :
  merge_trace (x :: y :: z :: l) =
    if decide (x ≠ y) then x :: merge_trace (y :: z :: l) else x * 2 :: 0 :: merge_trace (z :: l).
Proof. done. Qed.

Lemma merge_pairs_cons2 x y l :
  merge_pairs (x :: y :: l) =
    if decide (x = y) then x * 2 :: 0 :: merge_pairs l else x :: merge_pairs (y :: l).
Proof. done. Qed.

Lemma merge_trace_pairs l :
  merge_trace l = merge_pairs l ∨ ∃ y, merge_trace l = merge_pairs l ++ [y].
Proof.
  induction l as [|x|x y l IHl IHyl] using list_ind2; [by left..|].
  destruct l as [|z l].
  { simpl. destruct (decide (x = y)) as [->|Hxy].
    - rewrite decide_False by tauto. by left.
    - rewrite decide_True by done. right. by exists y. }
  rewrite merge_trace_cons3, merge_pairs_cons2.
  destruct (decide (x ≠ y)) as [Hxy|Hxy].
  - rewrite decide_False by done.
    destruct IHyl as [->|[y' ->]]; [by left|right; by exists y'].
  - rewrite decide_True by (destruct (decide (x = y)); tauto).
    destruct IHl as [->|[y' ->]]; [by left|right; by exists y'].
Qed.

Lemma length_merge_pairs l : length (merge_pairs l) = length l.
Proof.
  induction l as [|x|x y l IHl IHyl] using list_ind2; [done..|]. rewrite merge_pairs_cons2.
  case_decide; cbn [length]; [by rewrite IHl|by rewrite IHyl].
Qed.

Lemma merge_pairs_zeros l : Forall (λ x, x = 0) l → merge_pairs l = l.
Proof.
  induction l as [|x|x y l IHl IHyl] using list_ind2; [done..|].
  intros Hl. apply Forall_cons in Hl as [-> Hl]. apply Forall_cons in Hl as [-> Hl].
  rewrite merge_pairs_cons2, decide_True by done. by rewrite IHl.
Qed.

Lemma nonzero_zeros l : Forall (λ x, x = 0) l → nonzero l = [].
Proof. induction 1; [done|]. rewrite filter_cons_False; [done|]. lia. Qed.

(** On a slid line, dropping the placeholders of [merge_pairs] gives
    [merge_nz] of the tiles. *)
Lemma nonzero_merge_pairs l z :
  Forall (λ x, x ≠ 0) l → Forall (λ x, x = 0) z → nonzero (merge_pairs (l ++ z)) = merge_nz l.
Proof.
  intros Hl Hz. induction l as [|x|x y l IHl IHyl] using list_ind2; cbn [app].
  - rewrite merge_pairs_zeros by done. by apply nonzero_zeros.
  - apply Forall_cons in Hl as [Hx _]. destruct z as [|z0 z]; [cbn [merge_pairs merge_nz]; by rewrite filter_cons_True|].
    apply Forall_cons in Hz as [-> Hz].
    rewrite merge_pairs_cons2, decide_False by done.
    rewrite filter_cons_True, merge_pairs_zeros, nonzero_zeros by (try constructor; done). done.
  - apply Forall_cons in Hl as [Hx Hl]. pose proof Hl as [Hy Hl']%Forall_cons.
    rewrite merge_pairs_cons2. simpl merge_nz. case_decide as Hxy; [subst y|].
    + rewrite filter_cons_True, filter_cons_False by lia. by rewrite IHl.
    + rewrite filter_cons_True by done. by rewrite app_comm_cons, IHyl.
Qed.

Lemma slide_list_nonzero line :
  slide_list line = nonzero line ++ replicate (length line - length (nonzero line)) 0 ∧
  Forall (λ x, x ≠ 0) (nonzero line) ∧ Forall (λ x, x = 0) (replicate (length line - length (nonzero line)) 0).
Proof.
  split_and!; [apply slide_list_spec| |by apply Forall_replicate].
  apply Forall_forall. intros x Hx%list_elem_of_filter. apply Hx.
Qed.

(** Sliding the merged placeholder line gives the specification. *)
Lemma slide_list_merge_pairs line :
  slide_list (merge_pairs (slide_list line)) = merge_spec line.
Proof.
  destruct (slide_list_nonzero line) as (Hs & Hnz & Hz).
  rewrite slide_list_spec, length_merge_pairs, length_slide_list.
  unfold merge_spec. rewrite Hs, nonzero_merge_pairs by done. done.
Qed.

Lemma py_drop_last_snoc {A} (l : list A) y : py_drop_last (l ++ [y]) = l.
Proof.
  unfold py_drop_last. rewrite length_app. simpl.
  replace (length l + 1 - 1)%nat with (length l) by lia. apply take_app_length.
Qed.

Lemma tile_sum_app l k : tile_sum (l ++ k) = tile_sum l + tile_sum k.
Proof. induction l as [|x l IH]; simpl; [done|]. unfold tile_sum in *. simpl. lia. Qed.

Lemma tile_sum_zeros l : Forall (λ x, x = 0) l → tile_sum l = 0.
Proof. induction 1 as [|x l -> _ IH]; [done|]. unfold tile_sum in *. simpl. lia. Qed.

Lemma tile_sum_nonzero l : tile_sum (nonzero l) = tile_sum l.
Proof.
  induction l as [|x l IH]; [done|]. rewrite filter_cons. unfold tile_sum in *.
  case_decide; simpl; lia.
Qed.

Lemma merge_nz_props l :
  tile_sum (merge_nz l) = tile_sum l ∧ (length (merge_nz l) ≤ length l)%nat ∧
  (Forall (λ x, x ≠ 0) l → Forall (λ x, x ≠ 0) (merge_nz l)).
Proof.
  induction l as [|x|x y l (IHs & IHl & IHnz) (IHs' & IHl' & IHnz')] using list_ind2; [done..|].
  simpl. unfold tile_sum in *. case_decide as Hxy; simpl in *; [subst y|].
  - split_and!; [lia|lia|]. intros Hl. apply Forall_cons in Hl as [Hx Hl].
    apply Forall_cons in Hl as [_ Hl]. constructor; [lia|auto].
  - split_and!; [lia|lia|]. intros Hl. apply Forall_cons in Hl as [Hx Hl]. constructor; auto.
Qed.

Lemma nonzero_all l : Forall (λ x, x ≠ 0) l → nonzero l = l.
Proof. induction 1; [done|]. rewrite filter_cons_True by done. by f_equal. Qed.

(** A line of tiles followed by zeros is already slid. *)
Lemma slide_list_slid m k :
  Forall (λ x, x ≠ 0) m → slide_list (m ++ replicate k 0) = m ++ replicate k 0.
Proof.
  intros Hm. rewrite slide_list_spec, filter_app, (nonzero_zeros (replicate k 0)) by (by apply Forall_replicate).
  rewrite (nonzero_all m) by done.
  rewrite app_nil_r, length_app, length_replicate. do 2 f_equal. lia.
Qed.

Lemma length_merge_spec line : length (merge_spec line) = length line.
Proof.
  unfold merge_spec. rewrite length_app, length_replicate.
  pose proof (proj1 (proj2 (merge_nz_props (nonzero line)))).
  pose proof (length_filter (λ x : Z, x ≠ 0) line). lia.
Qed.

(** Every tile of a merged line is 0, a tile of the line, or twice one. *)
Lemma elem_of_merge_nz l y : y ∈ merge_nz l → y ∈ l ∨ ∃ x, x ∈ l ∧ y = x * 2.
Proof.
  induction l as [|x|x z l IHl IHzl] using list_ind2; simpl; [set_solver..|].
  case_decide as Hxz; [subst z|]; rewrite elem_of_cons.
  - intros [->|Hy]; [right; exists x; set_solver|].
    destruct (IHl Hy) as [?|(x' & ? & ->)]; [left; set_solver|right; exists x'; set_solver].
  - intros [->|Hy]; [left; set_solver|].
    destruct (IHzl Hy) as [?|(x' & ? & ->)]; [left; set_solver|right; exists x'; set_solver].
Qed.

Lemma elem_of_merge_spec l y :
  y ∈ merge_spec l → y = 0 ∨ y ∈ l ∨ ∃ x, x ∈ l ∧ y = x * 2.
Proof.
  unfold merge_spec. rewrite elem_of_app. intros [Hy|Hy%elem_of_replicate]; [|left; apply Hy].
  right. destruct (elem_of_merge_nz _ _ Hy) as [Hx%list_elem_of_filter|(x & Hx%list_elem_of_filter & ->)];
    [left; apply Hx|right; exists x; split; [apply Hx|done]].
Qed.

(** ** The merge meets its specification *)

(** [merge] computes the reference merge. *)
Lemma merge_eq_spec line : merge line = Ok (merge_spec line).
Proof.
  unfold merge.
  rewrite (merge_loop_trace (slide_list line) _ 0 [] (slide_list line)) by (done || simpl; lia).
  simpl. rewrite <-slide_list_merge_pairs.
  destruct (merge_trace_pairs (slide_list line)) as [->|[y ->]].
  - rewrite decide_False by (rewrite length_merge_pairs; lia). done.
  - rewrite decide_True by (rewrite length_app, length_merge_pairs; simpl; lia).
    by rewrite py_drop_last_snoc.
Qed.

(** C3: Equivalence: [merge] never raises and returns the reference 2048
    merge of the line: its non-zero tiles with equal neighbours merged left
    to right, each tile at most once, padded with zeros to the original
    length. *)
Theorem merge_correct line : merge line = Ok (merge_spec line).
Proof. apply merge_eq_spec. Qed.

(** [merge] keeps the length of the line. *)
Theorem merge_length line r : merge line = Ok r → length r = length line.
Proof. rewrite merge_eq_spec. intros [= <-]. apply length_merge_spec. Qed.

(** C21: [merge] keeps the total of the tiles: a merged pair [x, x] becomes
    [2 * x]. *)
Theorem merge_tile_sum line r : merge line = Ok r → tile_sum r = tile_sum line.
Proof.
  rewrite merge_eq_spec. intros [= <-]. unfold merge_spec.
  rewrite tile_sum_app, (tile_sum_zeros (replicate _ 0)) by (by apply Forall_replicate).
  rewrite (proj1 (merge_nz_props _)), tile_sum_nonzero. lia.
Qed.

(** The result of [merge] is slid: sliding it again changes nothing,
    so every zero comes after every tile. *)
Theorem merge_slid line r : merge line = Ok r → slide_list r = r.
Proof.
  rewrite merge_eq_spec. intros [= <-]. unfold merge_spec. apply slide_list_slid.
  apply (proj2 (proj2 (merge_nz_props _))). apply Forall_forall. intros x Hx%list_elem_of_filter. apply Hx.
Qed.

(** C24: [slide_list] only moves tiles: its result is a permutation of the
    line, of the same length. *)
Theorem slide_list_perm line : slide_list line ≡ₚ line.
Proof.
  pose proof (filter_app_complement (λ x : Z, x ≠ 0) line) as Hperm.
  assert (filter (λ x : Z, ¬ x ≠ 0) line = replicate (length line - length (nonzero line)) 0) as E.
  { symmetry. apply replicate_as_Forall. split.
    - apply Permutation_length in Hperm. rewrite length_app in Hperm. lia.
    - apply Forall_forall. intros x [Hx _]%list_elem_of_filter.
      destruct (decide (x = 0)); [done|tauto]. }
  by rewrite slide_list_spec, <-E.
Qed.

Section OutputTheorem.
Import String.
Local Open Scope string_scope.

(** [run_tests()] of [merge.py] raises no [AssertionError] and prints
    its one line. *)
Theorem run_tests_merge : run_tests = Ok ["All tests pass!!!"].
Proof. vm_compute. reflexivity. Qed.

End OutputTheorem.

Lemma merge_length_witness : length [4; 4; 2; 0; 0] = length [2; 2; 2; 2; 2].
Proof. apply merge_length. vm_compute. reflexivity. Defined.

Lemma merge_tile_sum_witness : tile_sum [8; 32; 8; 0] = tile_sum [8; 16; 16; 8].
Proof. apply merge_tile_sum. vm_compute. reflexivity. Defined.

Lemma merge_slid_witness : slide_list [4; 2; 0; 0] = [4; 2; 0; 0].
Proof. apply (merge_slid [2; 0; 2; 2]). vm_compute. reflexivity. Defined.

End Merge.
