(* ===== verification/Game2048.v ===== *)
(** * The 2048 game ([src/2048.py])

    The class [TwentyFortyEight] as a record [game] of its attributes
    ([_grid_height], [_grid_width], [_grid], and the two caches [_initials]
    and [_loop_ranges], Python dicts keyed by direction, as stdpp [gmap]s),
    and one definition per method.  [slide_list] and [merge] are verbatim
    copies of those of [merge.py] and are the definitions of [Merge.v].

    The methods that draw random numbers ([find_empty_coords], [new_tile],
    [reset], [__init__], [move]) are computations of [rnd], parameterised by
    the stream of draws [oracle] (Section [Random]): [random.choice] is
    [py_choice oracle].  [move] compares [str(self._grid)] before and after;
    the [str] of a list of lists of integers determines the list, so the
    comparison is made on the grids themselves.  A method that changes the
    game returns the new game; the rows of [_grid] are distinct lists (the
    comprehension of [reset] builds each one), so writing a tile changes
    that tile only. *)

From stdpp Require Import base list options gmap.
From Stdlib Require Import ZArith Lia.
From Stdlib Require String.
From S2P Require Import Prelude Merge.

Open Scope Z_scope.
Local Unset Default Proof Using.

Module Game2048.

(** ** Directions and offsets *)

Definition UP : Z := 1.
Definition DOWN : Z := 2.
Definition LEFT : Z := 3.
Definition RIGHT : Z := 4.

Definition OFFSETS : gmap Z coord :=
  <[RIGHT := (0, -1)]> (<[LEFT := (0, 1)]> (<[DOWN := (-1, 0)]> (<[UP := (1, 0)]> ∅))).

(** [slide_list] and [merge] of [2048.py], copies of those of [merge.py]. *)
Definition slide_list : list Z → list Z := Merge.slide_list.
Definition merge : list Z → res (list Z) := Merge.merge.

(** ** The class *)

Record game := mk_game {
  _grid_height : Z;
  _grid_width : Z;
  _grid : list (list Z);
  _initials : gmap Z (list coord);
  _loop_ranges : gmap Z Z
}.

Definition with_grid (g : game) (grid : list (list Z)) : game :=
  mk_game (_grid_height g) (_grid_width g) grid (_initials g) (_loop_ranges g).

(** The dict [create_initials_cache] builds: the first cell of every line
    in each direction. *)
Definition initials_dict (h w : Z) : gmap Z (list coord) :=
  <[RIGHT := map (λ dummy_i, (dummy_i, w - 1)) (seqZ 0 h)]>
  (<[LEFT := map (λ dummy_i, (dummy_i, 0)) (seqZ 0 h)]>
  (<[DOWN := map (λ dummy_i, (h - 1, dummy_i)) (seqZ 0 w)]>
  (<[UP := map (λ dummy_i, (0, dummy_i)) (seqZ 0 w)]> ∅))).

(** [create_initials_cache(testing)]: the game with the cache, and the dict
    when [testing]. *)
Definition create_initials_cache (g : game) (testing : bool) : game * option (gmap Z (list coord)) :=
  let d := initials_dict (_grid_height g) (_grid_width g) in
  (mk_game (_grid_height g) (_grid_width g) (_grid g) d (_loop_ranges g),
   if testing then Some d else None).

Definition ranges_dict (h w : Z) : gmap Z Z :=
  <[RIGHT := w]> (<[LEFT := w]> (<[DOWN := h]> (<[UP := h]> ∅))).

Definition create_ranges_cache (g : game) (testing : bool) : game * option (gmap Z Z) :=
  let d := ranges_dict (_grid_height g) (_grid_width g) in
  (mk_game (_grid_height g) (_grid_width g) (_grid g) (_initials g) d,
   if testing then Some d else None).

Definition get_grid_height (g : game) : Z := _grid_height g.
Definition get_grid_width (g : game) : Z := _grid_width g.

(** [gen_offset_list(coord, offset, loop_range)] *)
Definition gen_offset_list (c : coord) (offset : coord) (loop_range : Z) : list coord :=
  (foldl (λ '(offset_list, this_coord) _,
            (offset_list ++ [this_coord], (this_coord.1 + offset.1, this_coord.2 + offset.2)))
         ([], c) (seqZ 0 loop_range)).1.

(** [set_tile]: [self._grid[row][col] = value] *)
Definition set_tile (g : game) (row col value : Z) : res game :=
  grid <- of_index (py_set2 (_grid g) row col value) ;;
  Ok (with_grid g grid).

(** [get_tile]: [self._grid[row][col]] *)
Definition get_tile (g : game) (row col : Z) : res Z := of_index (py_get2 (_grid g) row col).

(** [__str__]: [str(self._grid)], e.g. ["[[0, 2], [0, 0]]"]. *)
Definition __str__ (g : game) : String.string := py_str_list (py_str_list py_str_int) (_grid g).

(** One iteration of the [for init_coord in init_coords] loop of [move]. *)
Definition move_line (direction : Z) (offset : coord) (g : game) (init_coord : coord) : res game :=
  loop_range <- of_key (_loop_ranges g !! direction) ;;
  let offset_coords := gen_offset_list init_coord offset loop_range in
  temp_vals <- res_map (λ oc, of_index (py_get2 (_grid g) oc.1 oc.2)) offset_coords ;;
  merged_vals <- merge temp_vals ;;
  for_each (λ g index,
      v <- of_index (py_get merged_vals index) ;;
      oc <- of_index (py_get offset_coords index) ;;
      set_tile g oc.1 oc.2 v)
    (seqZ 0 (Z.of_nat (length merged_vals))) g.

(** What [new_tile] returns: [None], or the message of a full board. *)
Module Messages.
Import String.
Definition game_over_message : string := "Game is over!!!".
End Messages.
Import Messages.

(** The truth value of the list [find_empty_coords] returns ([None] is
    false). *)
Definition truthy (o : option (list Z)) : bool :=
  match o with Some (_ :: _) => true | _ => false end.

Section Random.
Context (oracle : nat → nat).

(** The [for dummy_i in range(height * width)] loop of [find_empty_coords];
    its end returns [None] (the method falls off its end). *)
Fixpoint find_loop (n : nat) (g : game) : rnd (option (list Z)) :=
  match n with
  | O => rnd_ret None
  | S n' =>
      random_row <~ py_choice oracle (seqZ 0 (_grid_height g)) ;;
      random_col <~ py_choice oracle (seqZ 0 (_grid_width g)) ;;
      random_sq <~ rnd_lift (of_index (py_get2 (_grid g) random_row random_col)) ;;
      if decide (random_sq = 0) then rnd_ret (Some [random_row; random_col])
      else find_loop n' g
  end.

(** [find_empty_coords]: an [IndexError] in the loop returns [None]. *)
Definition find_empty_coords (g : game) : rnd (option (list Z)) :=
  rnd_catch_index (find_loop (Z.to_nat (_grid_height g * _grid_width g)) g) None.

(** [new_tile]: the game, and what the method returns. *)
Definition new_tile (g : game) : rnd (game * option String.string) :=
  random_empty_coords <~ find_empty_coords g ;;
  if truthy random_empty_coords then
    (random_row <~ rnd_lift (of_index (default [] random_empty_coords !! 0%nat)) ;;
     random_col <~ rnd_lift (of_index (default [] random_empty_coords !! 1%nat)) ;;
     let value_dist := replicate 90 2 ++ replicate 10 4 in
     value <~ py_choice oracle value_dist ;;
     g' <~ rnd_lift (set_tile g random_row random_col value) ;;
     rnd_ret (g', None))
  else rnd_ret (g, Some game_over_message).

(** [reset]: an empty grid of the game's shape, then two new tiles. *)
Definition reset (g : game) : rnd game :=
  let g := with_grid g (map (λ dummy_row, map (λ dummy_col, 0) (seqZ 0 (_grid_width g)))
                            (seqZ 0 (_grid_height g))) in
  rnd_for_each (λ g dummy_i, '(g', _) <~ new_tile g ;; rnd_ret g') (seqZ 0 2) g.

(** [__init__(grid_height, grid_width)] *)
Definition init (grid_height grid_width : Z) : rnd game :=
  g <~ reset (mk_game grid_height grid_width [] ∅ ∅) ;;
  rnd_ret (create_ranges_cache (create_initials_cache g false).1 false).1.

(** [move(direction)] *)
Definition move (g : game) (direction : Z) : rnd game :=
  let before_move := _grid g in
  offset <~ rnd_lift (of_key (OFFSETS !! direction)) ;;
  init_coords <~ rnd_lift (of_key (_initials g !! direction)) ;;
  g' <~ rnd_lift (for_each (move_line direction offset) init_coords g) ;;
  let after_move := _grid g' in
  if decide (before_move ≠ after_move) then ('(g'', _) <~ new_tile g' ;; rnd_ret g'')
  else rnd_ret g'.

End Random.

(** ** The grid invariant *)

(** The grid has the game's shape. *)
Definition shaped (g : game) : Prop :=
  0 ≤ _grid_height g ∧ 0 ≤ _grid_width g ∧ rect (_grid_height g) (_grid_width g) (_grid g).

#[global] Instance shaped_dec g : Decision (shaped g).
Proof. unfold shaped. apply _. Defined.

(** A cell of the grid that holds 0. *)
Definition empty_cell (g : game) (p : coord) : Prop :=
  in_bounds (_grid_height g) (_grid_width g) p ∧ mget (_grid g) p = Some 0.

Lemma shaped_with_grid g m :
  shaped g → rect (_grid_height g) (_grid_width g) m → shaped (with_grid g m).
Proof. intros (? & ? & _) Hm. by split_and!. Qed.

Lemma set_tile_inside g r c v :
  shaped g → in_bounds (_grid_height g) (_grid_width g) (r, c) →
  set_tile g r c v = Ok (with_grid g (mset (_grid g) (r, c) v)).
Proof. intros (_ & _ & Hm) Hp. unfold set_tile. by rewrite (py_set2_mset _ _ _ (r, c) v Hm Hp : py_set2 _ r c v = _). Qed.

Lemma get_tile_inside g r c :
  shaped g → in_bounds (_grid_height g) (_grid_width g) (r, c) →
  get_tile g r c = of_index (mget (_grid g) (r, c)).
Proof. intros (_ & _ & Hm) Hp. unfold get_tile. by rewrite (py_get2_mget _ _ _ (r, c) Hm Hp : py_get2 _ r c = _). Qed.

(** ** Drawing an empty cell *)

Section RandomSpec.
Context (oracle : nat → nat) (g : game) (Hg : shaped g).

Local Abbreviation h := (_grid_height g).
Local Abbreviation w := (_grid_width g).

Lemma choice_range n k :
  0 < n → ∃ x, 0 ≤ x < n ∧ py_choice oracle (seqZ 0 n) k = (Ok x, S k).
Proof.
  intros Hn. destruct (py_choice_ok oracle (seqZ 0 n) k) as (x & Hx & E); [by apply seqZ_nonempty|].
  apply elem_of_seqZ in Hx. exists x. split; [lia|done].
Qed.

(** Each round draws a row and a column and stops at an empty cell; the
    search raises nothing on a grid with cells. *)
Lemma find_loop_spec n k :
  0 < h → 0 < w →
  ∃ o k', find_loop oracle n g k = (Ok o, k') ∧
    (o = None ∨ ∃ p, o = Some [p.1; p.2] ∧ empty_cell g p).
Proof.
  intros Hh Hw. destruct Hg as (_ & _ & Hm). revert k.
  induction n as [|n IH]; intros k; simpl; [by eexists _, _; split; [|left]|].
  destruct (choice_range h k Hh) as (r & Hr & Er).
  destruct (choice_range w (S k) Hw) as (c & Hc & Ec).
  unfold rnd_bind. rewrite Er, Ec. unfold rnd_lift.
  assert (in_bounds h w (r, c)) as Hrc by (split; simpl; lia).
  rewrite (py_get2_mget h w _ (r, c) Hm Hrc : py_get2 _ r c = _).
  destruct (mget_is_Some h w _ _ Hm Hrc) as [sq Hsq]. rewrite Hsq. simpl.
  case_decide as E0; [subst sq|apply IH].
  eexists _, _. split; [done|]. right. exists (r, c). done.
Qed.

Lemma find_empty_coords_spec k :
  ∃ o k', find_empty_coords oracle g k = (Ok o, k') ∧
    (o = None ∨ ∃ p, o = Some [p.1; p.2] ∧ empty_cell g p).
Proof.
  pose proof Hg as (Hh & Hw & _). unfold find_empty_coords, rnd_catch_index.
  destruct (decide (0 < h ∧ 0 < w)) as [[Hh' Hw']|Hz].
  - destruct (find_loop_spec (Z.to_nat (h * w)) k Hh' Hw') as (o & k' & -> & Ho). by eexists _, _.
  - replace (Z.to_nat (h * w)) with 0%nat by nia. simpl. eexists _, _. split; [done|by left].
Qed.

(** [new_tile] raises nothing: it either writes a 2 or a 4 on an empty
    cell and returns [None], or leaves the game as it is and returns the
    message of a full board. *)
Lemma new_tile_cases k :
  ∃ g' msg k', new_tile oracle g k = (Ok (g', msg), k') ∧
    ((msg = Some game_over_message ∧ g' = g) ∨
     (msg = None ∧ ∃ p v, empty_cell g p ∧ (v = 2 ∨ v = 4) ∧
                         g' = with_grid g (mset (_grid g) p v))).
Proof.
  destruct (find_empty_coords_spec k) as (o & k1 & E & [->|([r c] & -> & Hp)]);
    unfold new_tile, rnd_bind; rewrite E; [by eexists _, _, _; split; [|left]|].
  cbn -[py_choice replicate set_tile]. destruct (py_choice_ok oracle (replicate 90 2 ++ replicate 10 4) k1) as (v & Hv & Ev);
    [done|]. rewrite Ev. unfold rnd_lift. rewrite set_tile_inside by (apply Hg || apply Hp). simpl.
  eexists _, _, _. split; [done|]. right. split; [done|]. exists (r, c), v. split_and!; [done| |done].
  apply elem_of_app in Hv as [Hv|Hv]; apply elem_of_replicate in Hv as [-> _]; auto.
Qed.

End RandomSpec.

(** ** The game invariant *)

(** Every tile is 0 or a power of two, at least 2. *)
Definition tile_ok (v : Z) : Prop := v = 0 ∨ ∃ n : nat, v = 2 ^ Z.of_nat (S n).

Definition tiles_ok (g : game) : Prop := Forall (Forall tile_ok) (_grid g).

(** The state [__init__] establishes and every method keeps: the grid has
    the game's shape and the two caches are those of the game's shape. *)
Definition wf (g : game) : Prop :=
  shaped g ∧ _initials g = initials_dict (_grid_height g) (_grid_width g) ∧
  _loop_ranges g = ranges_dict (_grid_height g) (_grid_width g).

#[global] Instance wf_dec g : Decision (wf g).
Proof. unfold wf. apply _. Defined.

Lemma tile_ok_new v : v = 2 ∨ v = 4 → tile_ok v.
Proof. intros [-> | ->]; right; [exists 0%nat|exists 1%nat]; done. Qed.

Lemma with_grid_with_grid g m m' : with_grid (with_grid g m) m' = with_grid g m'.
Proof. done. Qed.

Section RandomInv.
Context (oracle : nat → nat).

(** What [new_tile] keeps. *)
Lemma new_tile_inv g k :
  shaped g → tiles_ok g →
  ∃ g' msg k', new_tile oracle g k = (Ok (g', msg), k') ∧
    shaped g' ∧ tiles_ok g' ∧ g' = with_grid g (_grid g').
Proof.
  intros Hg Ht. destruct (new_tile_cases oracle g Hg k) as (g' & msg & k' & E & [[_ ->]|(_ & p & v & _ & Hv & ->)]);
    eexists _, _, _; (split; [exact E|]); [by split_and!; [..|destruct g]|].
  pose proof Hg as (? & ? & Hm). split_and!; [|by apply Forall_mset; [|apply tile_ok_new]|done].
  apply shaped_with_grid; [done|by apply rect_mset].
Qed.

(** [reset] raises nothing; the grid it leaves has the game's shape and
    only 0, 2 and 4 tiles. *)
Lemma reset_inv g k :
  0 ≤ _grid_height g → 0 ≤ _grid_width g →
  ∃ g' k', reset oracle g k = (Ok g', k') ∧ shaped g' ∧ tiles_ok g' ∧ g' = with_grid g (_grid g').
Proof.
  intros Hh Hw. unfold reset. rewrite comprehension_const_matrix.
  apply (rnd_for_each_inv (λ g', shaped g' ∧ tiles_ok g' ∧ g' = with_grid g (_grid g'))).
  - intros g1 x k1 (Hs & Ht & E1) _.
    destruct (new_tile_inv g1 k1 Hs Ht) as (g2 & msg & k2 & E & Hs2 & Ht2 & E2).
    unfold rnd_bind. rewrite E. eexists _, _. split; [done|]. split_and!; [done|done|].
    rewrite E2, E1. done.
  - split_and!; [by split_and!; [..|apply rect_const_matrix]| |done].
    apply Forall_replicate, Forall_replicate. by left.
Qed.

(** [__init__] raises nothing and establishes [wf] and [tiles_ok]. *)
Lemma init_inv h w k :
  0 ≤ h → 0 ≤ w →
  ∃ g k', init oracle h w k = (Ok g, k') ∧ wf g ∧ tiles_ok g ∧
    _grid_height g = h ∧ _grid_width g = w.
Proof.
  intros Hh Hw. unfold init.
  destruct (reset_inv (mk_game h w [] ∅ ∅) k Hh Hw) as (g & k' & E & Hs & Ht & Eg).
  unfold rnd_bind. rewrite E. eexists _, _. split; [done|].
  rewrite Eg in Hs, Ht |- *. unfold wf. simpl. by split_and!.
Qed.

End RandomInv.

End Game2048.
