(* ===== verification/Game2048Move.v ===== *)
(** * [move] of the 2048 game merges every line

    The abstract contract of [TwentyFortyEight.move(direction)]: the board
    is cut into lines along the direction (columns for [UP] and [DOWN],
    rows for [LEFT] and [RIGHT]), each read from the edge the tiles move
    towards; every line is replaced by its merge ([Merge.merge_spec]); then
    a tile is added when the board changed.  [line_cell] names the cells of
    the lines; [move_merges_lines] proves that [move] implements the
    contract on a well-formed game, and that it raises [KeyError] on any
    other direction.

    The proof follows the loops of [move]: [gen_offset_list] lists the
    cells of a line ([gen_offset_list_spec]); [move_line] reads them
    ([read_line]), merges and writes them back ([write_line]); the lines of
    a direction are pairwise disjoint, so the [for init_coord] loop merges
    each line from the values it had before the move ([move_lines]). *)

From stdpp Require Import base list options gmap.
From Stdlib Require Import ZArith Lia.
From S2P Require Import Prelude Merge Game2048.

Open Scope Z_scope.
Local Unset Default Proof Using.

Module Game2048Move.
Import Game2048.
Import Merge.Merge.

(** The value of a cell (0 out of range, which [shaped] excludes). *)
Definition tile_at (m : list (list Z)) (p : coord) : Z := default 0 (mget m p).

Definition line_vals (m : list (list Z)) (L : list coord) : list Z := map (tile_at m) L.

(** ** [gen_offset_list] *)

Lemma gen_offset_fold (o : coord) {B} (l : list B) acc c :
  (foldl (λ '(offset_list, this_coord) (_ : B),
            (offset_list ++ [this_coord], (this_coord.1 + o.1, this_coord.2 + o.2))) (acc, c) l).1 =
  acc ++ map (λ i : nat, (c.1 + Z.of_nat i * o.1, c.2 + Z.of_nat i * o.2)) (seq 0 (length l)).
Proof.
  revert acc c. induction l as [|x l IH]; intros acc c; simpl; [by rewrite app_nil_r|].
  rewrite IH, <-app_assoc. f_equal. simpl. f_equal; [destruct c; simpl; f_equal; lia|].
  rewrite <-seq_shift, map_map. apply map_ext. intros i. simpl. f_equal; lia.
Qed.

(** The [k]-th cell listed is [coord + k * offset]. *)
Lemma gen_offset_list_spec c o n :
  gen_offset_list c o n = map (λ j, (c.1 + j * o.1, c.2 + j * o.2)) (seqZ 0 n).
Proof.
  unfold gen_offset_list. rewrite gen_offset_fold, length_seqZ. simpl.
  change (map ?f (seqZ 0 n)) with (f <$> seqZ 0 n). unfold seqZ.
  change (map ?f (seq 0 (Z.to_nat n))) with (f <$> seq 0 (Z.to_nat n)).
  rewrite <-list_fmap_compose. apply list_fmap_ext. intros i x _. simpl. f_equal; lia.
Qed.

(** ** One line *)

Section Line.
Context (g : game) (Hg : shaped g).

Local Abbreviation h := (_grid_height g).
Local Abbreviation w := (_grid_width g).

(** The comprehension [[self._grid[r][c] for (r, c) in offset_coords]]. *)
Lemma read_line L :
  Forall (in_bounds h w) L →
  res_map (λ oc, of_index (py_get2 (_grid g) oc.1 oc.2)) L = Ok (line_vals (_grid g) L).
Proof.
  destruct Hg as (_ & _ & Hm). induction 1 as [|[r c] L Hp HL IH]; [done|]. simpl.
  rewrite (py_get2_mget h w _ (r, c) Hm Hp : py_get2 _ r c = _).
  destruct (mget_is_Some h w _ _ Hm Hp) as [v Hv]. rewrite Hv. simpl. rewrite IH. simpl.
  unfold tile_at. by rewrite Hv.
Qed.

End Line.

(** ** Writing the merged values back *)

Section Write.
Context (L : list coord) (vals : list Z).
Context (HL : NoDup L) (Hlen : length vals = length L).

(** The body of [for index in range(len(merged_vals))]. *)
Local Abbreviation write_body :=
  (λ g index, v <- of_index (py_get vals index) ;;
              oc <- of_index (py_get L index) ;;
              set_tile g oc.1 oc.2 v).

Lemma lookup_distinct (i i' : Z) p :
  0 ≤ i → 0 ≤ i' → i ≠ i' → L !! Z.to_nat i = Some p → L !! Z.to_nat i' ≠ Some p.
Proof. intros ??? Hi Hi'. assert (Z.to_nat i = Z.to_nat i') by (by eapply NoDup_lookup). lia. Qed.

Lemma write_indices idx gg :
  shaped gg → Forall (in_bounds (_grid_height gg) (_grid_width gg)) L →
  NoDup idx → Forall (λ i, 0 ≤ i < Z.of_nat (length L)) idx →
  ∃ gg', for_each write_body idx gg = Ok gg' ∧ gg' = with_grid gg (_grid gg') ∧ shaped gg' ∧
    (∀ i p v, i ∈ idx → L !! Z.to_nat i = Some p → vals !! Z.to_nat i = Some v →
       mget (_grid gg') p = Some v) ∧
    (∀ p, in_bounds (_grid_height gg) (_grid_width gg) p →
       (∀ i, i ∈ idx → L !! Z.to_nat i ≠ Some p) → mget (_grid gg') p = mget (_grid gg) p).
Proof.
  revert gg. induction idx as [|i idx IH]; intros gg Hs HLin Hnd Hrange; simpl.
  { exists gg. split_and!; [done|by destruct gg|done|set_solver|done]. }
  apply NoDup_cons in Hnd as [Hi_is Hnd]. apply Forall_cons in Hrange as [Hi Hrange].
  destruct (lookup_lt_is_Some_2 vals (Z.to_nat i)) as [v Hv]; [lia|].
  destruct (lookup_lt_is_Some_2 L (Z.to_nat i)) as [[r c] Hp]; [lia|].
  assert (in_bounds (_grid_height gg) (_grid_width gg) (r, c)) as Hpin
    by (eapply Forall_lookup_1; [exact HLin|exact Hp]).
  rewrite !py_get_in by lia. rewrite Hv, Hp. simpl.
  rewrite set_tile_inside by done. simpl.
  pose proof Hs as (_ & _ & Hm).
  destruct (IH (with_grid gg (mset (_grid gg) (r, c) v))) as (gg' & Hrun & Heq & Hs' & Hset & Hkeep);
    [by apply shaped_with_grid; [|apply rect_mset]|done|done|done|].
  exists gg'. split_and!; [done|by rewrite Heq|done| |].
  - intros i' p' v' Hi' Hp' Hv'. apply elem_of_cons in Hi' as [->|Hi']; [|by eapply Hset].
    rewrite Hp in Hp'. rewrite Hv in Hv'. simplify_eq.
    rewrite Hkeep; [by eapply mget_mset_eq|done|].
    intros i'' Hi''. pose proof (proj1 (Forall_forall _ _) Hrange i'' Hi'') as Hr''; simpl in Hr''. apply (lookup_distinct i); [lia|lia|by intros ->|done].
  - intros p' Hp'in Hnot. rewrite Hkeep; [|done|set_solver].
    apply mget_mset_ne; [apply Hpin..|apply Hp'in|apply Hp'in|].
    intros <-. by apply (Hnot i); [set_solver|].
Qed.

(** The loop writes [vals] on the cells of [L], and nothing else. *)
Lemma write_line gg :
  shaped gg → Forall (in_bounds (_grid_height gg) (_grid_width gg)) L →
  ∃ gg', for_each write_body (seqZ 0 (Z.of_nat (length vals))) gg = Ok gg' ∧
    gg' = with_grid gg (_grid gg') ∧ shaped gg' ∧
    (∀ j p v, L !! j = Some p → vals !! j = Some v → mget (_grid gg') p = Some v) ∧
    (∀ p, in_bounds (_grid_height gg) (_grid_width gg) p → p ∉ L → mget (_grid gg') p = mget (_grid gg) p).
Proof.
  intros Hs HLin.
  destruct (write_indices (seqZ 0 (Z.of_nat (length vals))) gg) as (gg' & Hrun & Heq & Hs' & Hset & Hkeep);
    [done|done|apply NoDup_seqZ|apply Forall_forall; intros i Hi%elem_of_seqZ; lia|].
  exists gg'. split_and!; [done..| |].
  - intros j p v Hp Hv. apply (Hset (Z.of_nat j)); [|by rewrite Nat2Z.id..].
    apply elem_of_seqZ. apply lookup_lt_Some in Hv. lia.
  - intros p Hpin Hnot. apply Hkeep; [done|]. intros i _ Hi. apply Hnot. by eapply list_elem_of_lookup_2.
Qed.

End Write.

(** ** One iteration of the [for init_coord] loop *)

Section Lines.
Context (direction : Z) (offset : coord) (n : Z).

(** The cells [gen_offset_list] lists from [c]. *)
Local Abbreviation line c := (gen_offset_list c offset n).

Lemma move_line_spec gg c :
  shaped gg → _loop_ranges gg !! direction = Some n →
  NoDup (line c) → Forall (in_bounds (_grid_height gg) (_grid_width gg)) (line c) →
  ∃ gg', move_line direction offset gg c = Ok gg' ∧ gg' = with_grid gg (_grid gg') ∧ shaped gg' ∧
    (∀ j p v, line c !! j = Some p → merge_spec (line_vals (_grid gg) (line c)) !! j = Some v →
       mget (_grid gg') p = Some v) ∧
    (∀ p, in_bounds (_grid_height gg) (_grid_width gg) p → p ∉ line c → mget (_grid gg') p = mget (_grid gg) p).
Proof.
  intros Hs Hn Hnd Hin. unfold move_line. rewrite Hn. simpl.
  rewrite read_line by done. simpl. unfold Game2048.merge. rewrite merge_eq_spec. simpl.
  apply write_line; [done| |done|done]. by rewrite length_merge_spec; unfold line_vals; rewrite length_map.
Qed.

(** The [for init_coord in init_coords] loop, over lines that share no
    cell: each line is replaced by the merge of the values it had in
    [grid0], the grid before the loop. *)
Lemma move_lines cs gg grid0 :
  shaped gg → _loop_ranges gg !! direction = Some n → NoDup cs →
  (∀ c, c ∈ cs → NoDup (line c) ∧ Forall (in_bounds (_grid_height gg) (_grid_width gg)) (line c)) →
  (∀ c c' p, c ∈ cs → c' ∈ cs → p ∈ line c → p ∈ line c' → c = c') →
  (∀ c p, c ∈ cs → p ∈ line c → mget (_grid gg) p = mget grid0 p) →
  ∃ gg', for_each (move_line direction offset) cs gg = Ok gg' ∧ gg' = with_grid gg (_grid gg') ∧
    shaped gg' ∧
    (∀ c j p v, c ∈ cs → line c !! j = Some p → merge_spec (line_vals grid0 (line c)) !! j = Some v →
       mget (_grid gg') p = Some v) ∧
    (∀ p, in_bounds (_grid_height gg) (_grid_width gg) p → (∀ c, c ∈ cs → p ∉ line c) →
       mget (_grid gg') p = mget (_grid gg) p).
Proof.
  revert gg. induction cs as [|c cs IH]; intros gg Hs Hn Hnd Hlines Hdisj Hsame; simpl.
  { exists gg. split_and!; [done|by destruct gg|done|set_solver|done]. }
  apply NoDup_cons in Hnd as [Hc Hnd].
  destruct (Hlines c) as [Hlnd Hlin]; [set_solver|].
  assert (line_vals (_grid gg) (line c) = line_vals grid0 (line c)) as Hvals.
  { apply map_ext_in. intros p Hp%list_elem_of_In. unfold tile_at. rewrite (Hsame c p); [done|set_solver|done]. }
  destruct (move_line_spec gg c Hs Hn Hlnd Hlin) as (gg1 & Hrun1 & Heq1 & Hs1 & Hset1 & Hkeep1).
  rewrite Hrun1. simpl. rewrite Hvals in Hset1.
  assert (∀ c' p, c' ∈ cs → p ∈ line c' → p ∉ line c) as Hout.
  { intros c' p Hc' Hp Hpc. assert (c = c') as <- by (apply (Hdisj c c' p); set_solver). done. }
  destruct (IH gg1) as (gg' & Hrun & Heq & Hs' & Hset & Hkeep);
    [done|by rewrite Heq1|done| |intros c1 c2 p H1 H2 H3 H4; apply (Hdisj c1 c2 p); [set_solver|set_solver|done|done]| |].
  { intros c' Hc'. rewrite Heq1. apply Hlines. set_solver. }
  { intros c' p Hc' Hp. rewrite Hkeep1; [by apply (Hsame c'); [set_solver|]| |by eapply Hout].
    destruct (Hlines c') as [_ Hl']; [set_solver|]. by eapply Forall_forall. }
  exists gg'. split_and!; [done|by rewrite Heq, Heq1|done| |].
  - intros c' j p v Hc' Hp Hv. apply elem_of_cons in Hc' as [->|Hc']; [|by eapply Hset].
    rewrite Hkeep; [by eapply Hset1| |].
    + rewrite Heq1. eapply Forall_lookup_1; [exact Hlin|exact Hp].
    + intros c'' Hc'' Hp''. apply (Hout c'' p Hc'' Hp''). by eapply list_elem_of_lookup_2.
  - intros p Hp Hnot. rewrite Hkeep; [apply Hkeep1; [done|]| |]; [set_solver|by rewrite Heq1|set_solver].
Qed.

End Lines.

(** ** The lines of a direction (the contract) *)

Definition direction_ok (d : Z) : Prop := d = UP ∨ d = DOWN ∨ d = LEFT ∨ d = RIGHT.

#[global] Instance direction_ok_dec d : Decision (direction_ok d).
Proof. unfold direction_ok. apply _. Defined.

(** Columns for [UP] and [DOWN], rows for [LEFT] and [RIGHT]. *)
Definition num_lines (d h w : Z) : Z := if decide (d = UP ∨ d = DOWN) then w else h.
Definition line_len (d h w : Z) : Z := if decide (d = UP ∨ d = DOWN) then h else w.

(** The [j]-th cell of line [k], counted from the edge the tiles move to. *)
Definition line_cell (d h w k j : Z) : coord :=
  if decide (d = UP) then (j, k)
  else if decide (d = DOWN) then (h - 1 - j, k)
  else if decide (d = LEFT) then (k, j)
  else (k, w - 1 - j).

Definition line (d h w k : Z) : list coord := map (line_cell d h w k) (seqZ 0 (line_len d h w)).

Ltac direction_cases Hd :=
  destruct Hd as [-> | [-> | [-> | ->]]]; unfold num_lines, line_len, line_cell, UP, DOWN, LEFT, RIGHT;
  repeat first [rewrite decide_True by lia | rewrite decide_False by lia].

Lemma line_cell_inside d h w k j :
  direction_ok d → 0 ≤ k < num_lines d h w → 0 ≤ j < line_len d h w →
  in_bounds h w (line_cell d h w k j).
Proof. intros Hd. unfold in_bounds. direction_cases Hd; simpl; lia. Qed.

Lemma line_cell_inj d h w k j k' j' :
  direction_ok d → line_cell d h w k j = line_cell d h w k' j' → k = k' ∧ j = j'.
Proof. intros Hd. direction_cases Hd; intros [= ? ?]; lia. Qed.

(** Every in-bounds cell is on a line: the lines cover the board. *)
Lemma line_cell_cover d h w p :
  direction_ok d → in_bounds h w p →
  ∃ k j, 0 ≤ k < num_lines d h w ∧ 0 ≤ j < line_len d h w ∧ p = line_cell d h w k j.
Proof.
  destruct p as [r c]. unfold in_bounds. simpl. intros Hd Hp. direction_cases Hd.
  - exists c, r. split_and!; (done || lia).
  - exists c, (h - 1 - r). split_and!; (lia || f_equal; lia).
  - exists r, c. split_and!; (done || lia).
  - exists r, (w - 1 - c). split_and!; (lia || f_equal; lia).
Qed.

(** What [move] finds in [OFFSETS] and in the two caches, for a valid
    direction: the first cells of the lines, the line length, and an offset
    that walks along a line. *)
Lemma direction_lookups d h w :
  direction_ok d →
  (∃ off, OFFSETS !! d = Some off ∧
     ∀ k, gen_offset_list (line_cell d h w k 0) off (line_len d h w) = line d h w k) ∧
  initials_dict h w !! d = Some (map (λ k, line_cell d h w k 0) (seqZ 0 (num_lines d h w))) ∧
  ranges_dict h w !! d = Some (line_len d h w).
Proof.
  intros Hd. unfold initials_dict, ranges_dict, OFFSETS, line. rewrite !lookup_insert.
  direction_cases Hd;
    (split_and!; [eexists; split; [done|]; intros k; rewrite gen_offset_list_spec;
                  apply map_ext; intros j; simpl; f_equal; lia
                 |f_equal; apply map_ext; intros; f_equal; lia|done]).
Qed.

(** ** [move] *)

Section Move.
Context (oracle : nat → nat) (g : game) (d : Z).

Local Abbreviation h := (_grid_height g).
Local Abbreviation w := (_grid_width g).

(** The facts [move_lines] needs, for the lines of a valid direction. *)
Lemma direction_lines off :
  direction_ok d →
  (∀ kk, gen_offset_list (line_cell d h w kk 0) off (line_len d h w) = line d h w kk) →
  let cs := map (λ kk, line_cell d h w kk 0) (seqZ 0 (num_lines d h w)) in
  NoDup cs ∧
  (∀ c, c ∈ cs → NoDup (gen_offset_list c off (line_len d h w)) ∧
                 Forall (in_bounds h w) (gen_offset_list c off (line_len d h w))) ∧
  (∀ c c' p, c ∈ cs → c' ∈ cs → p ∈ gen_offset_list c off (line_len d h w) →
     p ∈ gen_offset_list c' off (line_len d h w) → c = c').
Proof.
  intros Hd Hgen cs. split_and!.
  - apply NoDup_map_seqZ. intros i j _ _ E. by apply (line_cell_inj d h w i 0 j 0 Hd E).
  - intros c (kk & -> & Hkk)%elem_of_map_seqZ. rewrite Hgen. split.
    + apply NoDup_map_seqZ. intros i j _ _ E. by apply (line_cell_inj d h w kk i kk j Hd E).
    + apply Forall_forall. intros p (j & -> & Hj)%elem_of_map_seqZ. by apply line_cell_inside.
  - intros c c' p (kk & -> & _)%elem_of_map_seqZ (kk' & -> & _)%elem_of_map_seqZ.
    rewrite !Hgen. intros (j & -> & _)%elem_of_map_seqZ (j' & E & _)%elem_of_map_seqZ.
    destruct (line_cell_inj d h w kk j kk' j' Hd E) as [-> _]. done.
Qed.

(** Refinement: on a well-formed game and a valid direction, [move] first
    replaces every line by its merge, computed from the values the line
    had before the move, and then calls [new_tile] exactly when the grid
    changed. *)
Lemma move_spec k :
  wf g → direction_ok d →
  ∃ g1, wf g1 ∧ g1 = with_grid g (_grid g1) ∧
    (∀ kk j, 0 ≤ kk < num_lines d h w → 0 ≤ j < line_len d h w →
       mget (_grid g1) (line_cell d h w kk j) =
         merge_spec (line_vals (_grid g) (line d h w kk)) !! Z.to_nat j) ∧
    move oracle g d k =
      (if decide (_grid g ≠ _grid g1) then ('(g2, _) <~ new_tile oracle g1 ;; rnd_ret g2)
       else rnd_ret g1) k.
Proof.
  intros (Hs & Hi & Hr) Hd.
  destruct (direction_lookups d h w Hd) as ((off & Hoff & Hgen) & Hinit & Hrange).
  destruct (direction_lines off Hd Hgen) as (Hnd & Hlines & Hdisj).
  destruct (move_lines d off (line_len d h w) _ g (_grid g) Hs ltac:(by rewrite Hr) Hnd Hlines Hdisj)
    as (g1 & Hrun & Heq & Hs1 & Hset & _); [done|].
  exists g1. split_and!.
  - split; [done|]. rewrite Heq. by split.
  - done.
  - intros kk j Hkk Hj.
    destruct (lookup_lt_is_Some_2 (merge_spec (line_vals (_grid g) (line d h w kk))) (Z.to_nat j))
      as [v Hv]; [rewrite length_merge_spec; unfold line_vals, line; rewrite !length_map, length_seqZ; lia|].
    rewrite Hv. apply (Hset (line_cell d h w kk 0) (Z.to_nat j)); [by apply elem_of_map_seqZ; exists kk| |by rewrite Hgen].
    rewrite Hgen. unfold line. by apply lookup_map_seqZ.
  - unfold move, rnd_bind, rnd_lift. rewrite Hoff, Hi, Hinit. simpl. by rewrite Hrun.
Qed.

(** An unknown direction raises [KeyError] and draws nothing. *)
Lemma move_bad_direction k :
  ¬ direction_ok d → move oracle g d k = (Raise KeyError, k).
Proof.
  intros Hd. unfold direction_ok, UP, DOWN, LEFT, RIGHT in Hd.
  unfold move, rnd_bind, rnd_lift, OFFSETS. rewrite !lookup_insert.
  repeat (rewrite decide_False by (unfold UP, DOWN, LEFT, RIGHT; lia)). by rewrite lookup_empty.
Qed.

(** C16: Any other direction raises [KeyError] on [OFFSETS[direction]], before
    the grid is touched. *)
Theorem move_invalid_direction k :
  ¬ direction_ok d → move oracle g d k = (Raise KeyError, k).
Proof. apply move_bad_direction. Qed.

End Move.

End Game2048Move.
