(* ===== verification/Game2048Props.v ===== *)
(** * Properties of the 2048 game

    The game invariant ([Game2048.wf] and [Game2048.tiles_ok]: the grid has
    the board's shape, the caches are those of the board, every tile is 0 or
    a power of two) is established by [__init__] and kept by [move];
    [set_tile] and [get_tile] are inverse on a cell (and the tile checks
    of [run_test_suite] hold for every stream of random draws; the whole
    suite is run in [TestSuites.v]); and [new_tile]
    can report a full board while a cell is empty, because
    [find_empty_coords] only draws [height * width] random cells. *)

From stdpp Require Import base list options gmap.
From Stdlib Require Import ZArith Lia.
From S2P Require Import Prelude Merge Game2048 Game2048Move.

Open Scope Z_scope.
Local Unset Default Proof Using.

Module Game2048Props.
Import Game2048 Game2048.Messages Game2048Move Merge.Merge.

(** ** Tiles *)

Lemma tile_ok_double x : tile_ok x → tile_ok (x * 2).
Proof.
  intros [->|[n ->]]; [by left|right]. exists (S n).
  rewrite (Nat2Z.inj_succ (S n)), Z.pow_succ_r by lia. lia.
Qed.

Lemma tile_ok_merge_spec l : Forall tile_ok l → Forall tile_ok (merge_spec l).
Proof.
  intros Hl. apply Forall_forall. intros y Hy.
  destruct (elem_of_merge_spec l y Hy) as [->|[Hy'|(x & Hx & ->)]];
    [by left|by eapply Forall_forall|apply tile_ok_double; by eapply Forall_forall].
Qed.

Lemma tile_ok_tile_at g p : tiles_ok g → tile_ok (tile_at (_grid g) p).
Proof.
  intros Ht. unfold tile_at. destruct (mget (_grid g) p) as [v|] eqn:E; simpl; [|by left].
  by eapply Forall_mget.
Qed.

(** The grid after the merge phase of [move] keeps [tiles_ok]. *)
Lemma tiles_ok_merged g d g1 :
  wf g → tiles_ok g → direction_ok d → wf g1 → g1 = with_grid g (_grid g1) →
  (∀ kk j, 0 ≤ kk < num_lines d (_grid_height g) (_grid_width g) →
     0 ≤ j < line_len d (_grid_height g) (_grid_width g) →
     mget (_grid g1) (line_cell d (_grid_height g) (_grid_width g) kk j) =
       merge_spec (line_vals (_grid g) (line d (_grid_height g) (_grid_width g) kk)) !! Z.to_nat j) →
  tiles_ok g1.
Proof.
  intros Hwf Ht Hd ((_ & _ & Hm1) & _) Heq Hcells. rewrite Heq in Hm1; simpl in Hm1.
  apply (mget_Forall _ _ _ _ Hm1). intros p v Hp Hv.
  destruct (line_cell_cover d _ _ p Hd Hp) as (kk & j & Hkk & Hj & ->).
  rewrite Hcells in Hv by done. apply list_elem_of_lookup_2 in Hv.
  eapply Forall_forall; [|exact Hv]. apply tile_ok_merge_spec.
  apply Forall_forall. intros x Hx. unfold line_vals in Hx.
  apply list_elem_of_In, in_map_iff in Hx as (q & <- & _). by apply tile_ok_tile_at.
Qed.

(** ** The board after the merge phase, as a function *)

(** The line of a cell and its place on it (the inverse of [line_cell]). *)
Definition line_index (d h w : Z) (p : coord) : Z * Z :=
  if decide (d = UP) then (p.2, p.1)
  else if decide (d = DOWN) then (p.2, h - 1 - p.1)
  else if decide (d = LEFT) then (p.1, p.2)
  else (p.1, w - 1 - p.2).

(** Every cell holds the merge of its line, read before the move. *)
Definition merged_grid (d : Z) (g : game) : list (list Z) :=
  let h := _grid_height g in let w := _grid_width g in
  matrix_of h w (λ p, let '(k, j) := line_index d h w p in
                      default 0 (merge_spec (line_vals (_grid g) (line d h w k)) !! Z.to_nat j)).

(** What [move] does once the lines are merged: a new tile when the board
    changed. *)
Definition post_move (oracle : nat → nat) (g g1 : game) : rnd game :=
  if decide (_grid g ≠ _grid g1) then ('(g2, _) <~ new_tile oracle g1 ;; rnd_ret g2)
  else rnd_ret g1.

Lemma line_index_cell d h w k j : direction_ok d → line_index d h w (line_cell d h w k j) = (k, j).
Proof. intros Hd. unfold line_index. direction_cases Hd; simpl; f_equal; lia. Qed.

Lemma move_grid oracle g d k :
  wf g → direction_ok d →
  ∃ g1, g1 = with_grid g (merged_grid d g) ∧ wf g1 ∧ move oracle g d k = post_move oracle g g1 k ∧
    (∀ kk j, 0 ≤ kk < num_lines d (_grid_height g) (_grid_width g) →
       0 ≤ j < line_len d (_grid_height g) (_grid_width g) →
       mget (_grid g1) (line_cell d (_grid_height g) (_grid_width g) kk j) =
         merge_spec (line_vals (_grid g) (line d (_grid_height g) (_grid_width g) kk)) !! Z.to_nat j).
Proof.
  intros Hwf Hd. destruct (move_spec oracle g d k Hwf Hd) as (g1 & Hwf1 & Heq & Hcells & Hmove).
  exists g1. split_and!; [|done|done|done].
  rewrite Heq. f_equal. pose proof Hwf1 as ((_ & _ & Hm1) & _). rewrite Heq in Hm1; simpl in Hm1.
  apply (mget_ext _ _ _ _ Hm1 (rect_matrix_of _ _ _)). intros p Hp.
  destruct (line_cell_cover d _ _ p Hd Hp) as (kk & j & Hkk & Hj & ->).
  unfold merged_grid. rewrite mget_matrix_of by done. rewrite line_index_cell by done.
  rewrite Hcells by done.
  destruct (lookup_lt_is_Some_2 (merge_spec (line_vals (_grid g) (line d (_grid_height g) (_grid_width g) kk)))
              (Z.to_nat j)) as [v ->]; [|done].
  rewrite length_merge_spec. unfold line_vals, line. rewrite !length_map, length_seqZ. lia.
Qed.

(** [set_tile] on an in-bounds cell, and [get_tile] reading it back. *)
Lemma set_tile_shaped g r c v :
  shaped g → in_bounds (_grid_height g) (_grid_width g) (r, c) →
  set_tile g r c v = Ok (with_grid g (mset (_grid g) (r, c) v)) ∧
  shaped (with_grid g (mset (_grid g) (r, c) v)) ∧
  get_tile (with_grid g (mset (_grid g) (r, c) v)) r c = Ok v.
Proof.
  intros Hs Hp. pose proof Hs as (_ & _ & Hm).
  assert (shaped (with_grid g (mset (_grid g) (r, c) v))) as Hs' by (apply shaped_with_grid; [|apply rect_mset]; done).
  split_and!; [by apply set_tile_inside|done|].
  rewrite get_tile_inside by done. simpl. by rewrite (mget_mset_eq _ _ _ _ _ Hm Hp).
Qed.

(** ** Claims *)

Section Claims.
Context (oracle : nat → nat).

(** C4: Refinement: on a well-formed game and for each of the four
    directions, [move] is the abstract 2048 move: every line (column for
    UP and DOWN, row for LEFT and RIGHT, read from the edge the tiles move
    to) is replaced by its merge, computed from the board before the move
    ([merged_grid]), then a tile is added when the board changed. *)
Theorem move_refines g d k :
  wf g → direction_ok d →
  move oracle g d k = post_move oracle g (with_grid g (merged_grid d g)) k.
Proof.
  intros Hwf Hd. destruct (move_grid oracle g d k Hwf Hd) as (g1 & -> & _ & Hmove & _). done.
Qed.

(** C11: [move] keeps the game invariant: the board keeps its shape and
    its caches, and every tile stays 0 or a power of two (a merge doubles a
    tile, [new_tile] adds a 2 or a 4). *)
Theorem move_keeps_invariant g d k g' k' :
  wf g → tiles_ok g → move oracle g d k = (Ok g', k') → wf g' ∧ tiles_ok g'.
Proof.
  intros Hwf Ht Hrun. destruct (decide (direction_ok d)) as [Hd|Hd];
    [|by rewrite move_bad_direction in Hrun].
  destruct (move_grid oracle g d k Hwf Hd) as (g1 & Heq & Hwf1 & Hmove & Hcells).
  assert (g1 = with_grid g (_grid g1)) as Heq1 by (by rewrite Heq).
  pose proof (tiles_ok_merged g d g1 Hwf Ht Hd Hwf1 Heq1 Hcells) as Ht1.
  rewrite Hmove in Hrun. unfold post_move in Hrun. case_decide; [|by injection Hrun as <-].
  pose proof Hwf1 as (Hs1 & Hi1 & Hr1).
  destruct (new_tile_inv oracle g1 k Hs1 Ht1) as (g2 & msg & k2 & E & Hs2 & Ht2 & Heq2).
  unfold rnd_bind in Hrun. rewrite E in Hrun. injection Hrun as <- <-.
  split; [|done]. split; [done|]. rewrite Heq2. simpl. by split.
Qed.

(** C14: [new_tile] raises nothing on a board of its shape: it either
    writes a 2 or a 4 on a cell that held 0 and returns [None], or returns
    "Game is over!!!" and leaves the game unchanged; on a board without an
    empty cell it always does the latter. *)
Theorem new_tile_spec g k :
  shaped g →
  ∃ g' msg k', new_tile oracle g k = (Ok (g', msg), k') ∧
    ((msg = Some game_over_message ∧ g' = g) ∨
     (msg = None ∧ ∃ p v, empty_cell g p ∧ (v = 2 ∨ v = 4) ∧
                         g' = with_grid g (mset (_grid g) p v))) ∧
    ((∀ p, ¬ empty_cell g p) → msg = Some game_over_message ∧ g' = g).
Proof.
  intros Hs. destruct (new_tile_cases oracle g Hs k) as (g' & msg & k' & E & Hcases).
  exists g', msg, k'. split_and!; [done|done|]. intros Hfull.
  destruct Hcases as [?|(_ & p & _ & Hp & _)]; [done|]. by destruct (Hfull p).
Qed.

(** C17: Round trip: on a board of its shape, [get_tile] returns what
    [set_tile] wrote on an in-bounds cell, and every other cell is
    unchanged. *)
Theorem set_tile_get_tile g r c v :
  shaped g → in_bounds (_grid_height g) (_grid_width g) (r, c) →
  ∃ g', set_tile g r c v = Ok g' ∧ get_tile g' r c = Ok v ∧ shaped g' ∧
    ∀ p, in_bounds (_grid_height g) (_grid_width g) p → p ≠ (r, c) → mget (_grid g') p = mget (_grid g) p.
Proof.
  intros Hs Hp. destruct (set_tile_shaped g r c v Hs Hp) as (E & Hs' & Hget).
  eexists. split_and!; [exact E|done|done|]. intros p Hp' Hne. simpl.
  apply mget_mset_ne; [apply Hp..|apply Hp'|apply Hp'|done].
Qed.

(** The tile checks of [run_test_suite] (tests 16 to 18) hold for a
    5 by 4 game, whatever the random draws of [__init__]. *)
Theorem run_test_suite_tiles k :
  ∃ g k', init oracle 5 4 k = (Ok g, k') ∧ get_grid_height g = 5 ∧ get_grid_width g = 4 ∧
    ∃ g1 g2, set_tile g 4 3 10 = Ok g1 ∧ get_tile g1 4 3 = Ok 10 ∧
             set_tile g1 3 3 11 = Ok g2 ∧ get_tile g2 3 3 = Ok 11.
Proof.
  destruct (init_inv oracle 5 4 k) as (g & k' & E & (Hs & _) & _ & Hh & Hw); [lia|lia|].
  exists g, k'. split_and!; [done..|].
  destruct (set_tile_shaped g 4 3 10 Hs) as (E1 & Hs1 & Hget1); [rewrite Hh, Hw; split; simpl; lia|].
  destruct (set_tile_shaped _ 3 3 11 Hs1) as (E2 & _ & Hget2); [simpl; rewrite Hh, Hw; split; simpl; lia|].
  eexists _, _. split_and!; [exact E1|exact Hget1|exact E2|exact Hget2].
Qed.

End Claims.

(** [new_tile] can report a full board while a cell is empty:
    [find_empty_coords] draws [height * width] random cells and returns
    [None] when none of them is empty.  On the board [[2, 0]], with draws
    that always pick the first cell, it returns "Game is over!!!" though
    the cell (0, 1) holds 0. *)
Theorem new_tile_misses_empty_cell :
  new_tile (λ _, 0%nat) (mk_game 1 2 [[2; 0]] ∅ ∅) 0%nat =
    (Ok (mk_game 1 2 [[2; 0]] ∅ ∅, Some game_over_message), 4%nat) ∧
  empty_cell (mk_game 1 2 [[2; 0]] ∅ ∅) (0, 1).
Proof. split; [vm_compute; reflexivity|split; [split; simpl; lia|reflexivity]]. Qed.

(** ** Witnesses *)

Definition game_1x2 : game := mk_game 1 2 [[2; 2]] (initials_dict 1 2) (ranges_dict 1 2).

Lemma move_refines_witness :
  move (λ _, 0%nat) game_1x2 LEFT 0%nat =
    post_move (λ _, 0%nat) game_1x2 (with_grid game_1x2 (merged_grid LEFT game_1x2)) 0%nat.
Proof. apply move_refines; [decide_by_eval|decide_by_eval]. Defined.

Lemma move_keeps_invariant_witness :
  wf (mk_game 1 2 [[4; 0]] (initials_dict 1 2) (ranges_dict 1 2)) ∧
  tiles_ok (mk_game 1 2 [[4; 0]] (initials_dict 1 2) (ranges_dict 1 2)).
Proof.
  apply (move_keeps_invariant (λ _, 0%nat) game_1x2 LEFT 0%nat _ 4%nat).
  - decide_by_eval.
  - constructor; [|constructor].
    constructor; [right; exists 0%nat; reflexivity|constructor; [right; exists 0%nat; reflexivity|constructor]].
  - vm_compute. reflexivity.
Defined.

Lemma move_invalid_direction_witness :
  move (λ _, 0%nat) game_1x2 5 0%nat = (Raise KeyError, 0%nat).
Proof. apply move_invalid_direction. decide_by_eval. Defined.

Lemma new_tile_spec_witness :
  ∃ g' msg k', new_tile (λ _, 1%nat) game_1x2 0%nat = (Ok (g', msg), k') ∧
    ((msg = Some game_over_message ∧ g' = game_1x2) ∨
     (msg = None ∧ ∃ p v, empty_cell game_1x2 p ∧ (v = 2 ∨ v = 4) ∧
                         g' = with_grid game_1x2 (mset (_grid game_1x2) p v))) ∧
    ((∀ p, ¬ empty_cell game_1x2 p) → msg = Some game_over_message ∧ g' = game_1x2).
Proof. apply new_tile_spec. decide_by_eval. Defined.

Lemma set_tile_get_tile_witness :
  ∃ g', set_tile game_1x2 0 1 8 = Ok g' ∧ get_tile g' 0 1 = Ok 8 ∧ shaped g' ∧
    ∀ p, in_bounds 1 2 p → p ≠ (0, 1) → mget (_grid g') p = mget (_grid game_1x2) p.
Proof. apply (set_tile_get_tile game_1x2 0 1 8); [decide_by_eval|decide_by_eval]. Defined.

End Game2048Props.
