(* ===== verification/Yahtzee.v ===== *)
(** * The Yahtzee planner ([src/yahtzee.py])

    Hands and holds are Python tuples of integers, lists of [Z]; a Python
    set of tuples is a stdpp [gset (list Z)].  A [for] loop over a set
    visits its elements in some order; the model visits [elements s], and
    every result below is independent of that order except which of two
    equally good holds [strategy] returns.

    [expected_value] divides two Python floats; the model divides the same
    integers exactly in [Q] (floating-point rounding is not modelled), and
    raises [ZeroDivisionError] on a zero denominator, as Python does.
    [max] of an empty list raises [ValueError] ([py_max]).

    [combinations] is a Python generator (the index algorithm of
    [itertools.combinations]); it is modelled as the list of the tuples it
    yields, in order, which is all that [gen_all_holds] observes.  Its
    [while True] loop is [comb_loop] on fuel [2 ^ len(pool)], at least the
    number of combinations. *)

From stdpp Require Import base list options gmap sets.
From Stdlib Require Import ZArith QArith Lia.
From S2P Require Import Prelude.

Open Scope Z_scope.
Local Unset Default Proof Using.

Module Yahtzee.

(** [gen_all_sequences(outcomes, length)] *)
Definition gen_all_sequences (outcomes : list Z) (length : Z) : gset (list Z) :=
  foldl (λ answer_set _,
           foldl (λ temp_set partial_sequence,
                    foldl (λ temp_set item, {[partial_sequence ++ [item]]} ∪ temp_set)
                      temp_set outcomes)
             ∅ (elements answer_set))
    {[ [] ]} (seqZ 0 length).

(** [score(hand)]: [max([hand.count(num) * num for num in hand])]. *)
Definition score (hand : list Z) : res Z :=
  py_max (map (λ num, py_count hand num * num) hand).

(** [expected_value(held_dice, num_die_sides, num_free_dice)] *)
Definition expected_value (held_dice : list Z) (num_die_sides num_free_dice : Z) : res Q :=
  let all_poss_hands :=
    map (λ hand, held_dice ++ hand)
      (elements (gen_all_sequences (seqZ 1 num_die_sides) num_free_dice)) in
  all_poss_scores <- res_map score all_poss_hands ;;
  py_fdiv (inject_Z (foldl Z.add 0%Z all_poss_scores) + 0)%Q
          (inject_Z (Z.of_nat (length all_poss_scores)) + 0)%Q.

(** [tuple(pool[i] for i in indices)] *)
Definition pick (pool : list Z) (indices : list Z) : res (list Z) :=
  res_map (λ i, of_index (py_get pool i)) indices.

(** [for i in range(r)[::-1]: if indices[i] != i + n - r: break]; [None]
    when the loop ends without [break] (its [else: return]). *)
Fixpoint scan_back (indices : list Z) (n r : Z) (is_ : list Z) : res (option Z) :=
  match is_ with
  | [] => Ok None
  | i :: is' =>
      v <- of_index (py_get indices i) ;;
      if decide (v ≠ i + n - r) then Ok (Some i) else scan_back indices n r is'
  end.

(** [indices[i] += 1], then [for j in range(i+1, r): indices[j] =
    indices[j-1] + 1]. *)
Definition advance (indices : list Z) (i r : Z) : res (list Z) :=
  v <- of_index (py_get indices i) ;;
  indices <- of_index (py_set indices i (v + 1)) ;;
  for_each (λ indices j,
      u <- of_index (py_get indices (j - 1)) ;;
      of_index (py_set indices j (u + 1)))
    (seqZ (i + 1) (r - (i + 1))) indices.

(** The [while True] loop of [combinations]: the tuples it yields. *)
Fixpoint comb_loop (fuel : nat) (pool : list Z) (n r : Z) (indices : list Z) : res (list (list Z)) :=
  match fuel with
  | O => Ok []
  | S fuel' =>
      found <- scan_back indices n r (reverse (seqZ 0 r)) ;;
      match found with
      | None => Ok []
      | Some i =>
          indices <- advance indices i r ;;
          t <- pick pool indices ;;
          rest <- comb_loop fuel' pool n r indices ;;
          Ok (t :: rest)
      end
  end.

(** [combinations(iterable, r)]: the tuples the generator yields. *)
Definition combinations (iterable : list Z) (r : Z) : res (list (list Z)) :=
  let pool := iterable in
  let n := Z.of_nat (length pool) in
  if decide (r > n) then Ok []
  else
    let indices := seqZ 0 r in
    t <- pick pool indices ;;
    rest <- comb_loop (2 ^ length pool)%nat pool n r indices ;;
    Ok (t :: rest).

(** [gen_all_holds(hand)] *)
Definition gen_all_holds (hand : list Z) : res (gset (list Z)) :=
  all_subsets <- for_each (λ all_subsets dummy_i,
      subsets <- combinations hand dummy_i ;;
      Ok (all_subsets ++ subsets))
    (seqZ 0 (Z.of_nat (length hand) + 1)) [] ;;
  Ok (list_to_set all_subsets).

(** The [for hold in all_holds] loop of [strategy], over the holds in the
    order given. *)
Definition strategy_loop (hand : list Z) (num_die_sides : Z) (holds : list (list Z))
    (acc : Q * option (list Z)) : res (Q * option (list Z)) :=
  for_each (λ '(max_expected, to_hold) hold,
      let num_free_dice := Z.of_nat (length hand) - Z.of_nat (length hold) in
      expected_val <- expected_value hold num_die_sides num_free_dice ;;
      if Qlt_le_dec max_expected expected_val then Ok (expected_val, Some hold)
      else Ok (max_expected, to_hold))
    holds acc.

(** [strategy(hand, num_die_sides)]: the best expected score and the hold
    that gives it ([None] if no hold beats 0). *)
Definition strategy (hand : list Z) (num_die_sides : Z) : res (Q * option (list Z)) :=
  all_holds <- gen_all_holds hand ;;
  strategy_loop hand num_die_sides (elements all_holds) (0%Q, None).

(** [run_example()]: the expected score and the hold it prints for the
    hand (1, 1, 1, 5, 6) and a six-sided die (the text of the line is not
    modelled). *)
Definition run_example : res (Q * option (list Z)) :=
  let num_die_sides := 6 in
  let hand := [1; 1; 1; 5; 6] in
  strategy hand num_die_sides.

End Yahtzee.
