(* ===== verification/YahtzeeComb.v ===== *)
(** * [combinations] enumerates the sublists of a given length

    The reference [choose l k] lists the sublists of [l] of length [k] in
    the order of their index tuples.  [snext m c] is the successor of the
    increasing index tuple [c] whose head may go up to [m]; the loop body
    of [combinations] (the [for ... else] scan and the reset of the tail)
    computes it ([comb_body]), and [choose (seqZ a len) k] is the chain of
    successors from [seqZ a k] ([choose_runs]).  Together they show that
    the generator yields [choose pool r], on enough fuel. *)

From stdpp Require Import base list options gmap sets.
From Stdlib Require Import ZArith Lia.
From S2P Require Import Prelude Yahtzee.

Open Scope Z_scope.
Local Unset Default Proof Using.

Module YahtzeeComb.
Import Yahtzee.

(** The sublists of [l] of length [k], in lexicographic order of indices. *)
Fixpoint choose {A} (l : list A) (k : nat) : list (list A) :=
  match l, k with
  | _, O => [[]]
  | [], S _ => []
  | x :: l', S k' => map (cons x) (choose l' k') ++ choose l' k
  end.

(** The successor of an increasing index tuple whose head is at most [m]:
    the last index below its maximum goes up by one, the ones after it
    follow it. *)
Fixpoint snext (m : Z) (c : list Z) : option (list Z) :=
  match c with
  | [] => None
  | x :: c' =>
      match snext (m + 1) c' with
      | Some c'' => Some (x :: c'')
      | None => if decide (x = m) then None else Some (x + 1 :: seqZ (x + 2) (Z.of_nat (length c')))
      end
  end.

(** [x] steps through [l] to [z]. *)
Inductive runs_to (next : list Z → option (list Z)) : list Z → list (list Z) → list Z → Prop :=
  | runs_nil x : runs_to next x [] x
  | runs_cons x y l z : next x = Some y → runs_to next y l z → runs_to next x (y :: l) z.

(** ** The reference *)

Lemma seqZ_succ m k : seqZ m (Z.of_nat (S k)) = m :: seqZ (m + 1) (Z.of_nat k).
Proof. rewrite seqZ_cons by lia. f_equal. f_equal; lia. Qed.

Lemma choose_0 {A} (l : list A) : choose l 0 = [[]].
Proof. by destruct l. Qed.

Lemma choose_long {A} (l : list A) k : (length l < k)%nat → choose l k = [].
Proof.
  revert k. induction l as [|x l IH]; intros [|k] Hk; simpl in *; try lia; [done|].
  rewrite IH, IH by lia. done.
Qed.

Lemma length_choose {A} (l : list A) k : (length (choose l k) ≤ 2 ^ length l)%nat.
Proof.
  revert k. induction l as [|x l IH]; intros [|k]; simpl; [lia..| |].
  - specialize (IH 0%nat). rewrite choose_0 in IH. simpl in IH. lia.
  - rewrite length_app, length_map. pose proof (IH k). pose proof (IH (S k)). lia.
Qed.

Lemma choose_map {A B} (f : A → B) (l : list A) k :
  choose (map f l) k = map (map f) (choose l k).
Proof.
  revert k. induction l as [|x l IH]; intros [|k]; simpl; try done.
  rewrite map_app, !IH, !map_map. done.
Qed.

Lemma elem_of_choose {A} (l : list A) k c : c ∈ choose l k ↔ sublist c l ∧ length c = k.
Proof.
  revert k c. induction l as [|x l IH]; intros [|k] c; simpl.
  - rewrite list_elem_of_singleton. split; [intros ->; done|].
    intros [Hs Hl]. by destruct c.
  - split; [set_solver|]. intros [Hs Hl]. apply sublist_nil_r in Hs. by subst.
  - rewrite list_elem_of_singleton. split; [intros ->; split; [apply sublist_nil_l|done]|].
    intros [_ Hl]. by destruct c.
  - rewrite elem_of_app, list_elem_of_fmap. setoid_rewrite IH. split.
    + intros [(c' & -> & Hs & Hl)|[Hs Hl]].
      * split; [by apply sublist_skip|simpl; lia].
      * split; [by apply sublist_cons|done].
    + intros [Hs Hl]. inversion Hs; subst.
      * left. eexists. split; [done|]. split; [done|simpl in Hl; lia].
      * by right.
Qed.

(** ** The successor *)

Lemma snext_none m c : snext m c = None ↔ c = seqZ m (Z.of_nat (length c)).
Proof.
  revert m. induction c as [|x c IH]; intros m; simpl; [done|].
  rewrite seqZ_succ. destruct (snext (m + 1) c) eqn:E.
  - split; [done|]. intros [= -> Hc]. apply IH in Hc. congruence.
  - apply IH in E. case_decide; [subst; split; [congruence|done]|].
    split; [done|]. intros [= ? _]. done.
Qed.

Lemma snext_some m pre x suf :
  suf = seqZ (m + Z.of_nat (length pre) + 1) (Z.of_nat (length suf)) →
  x ≠ m + Z.of_nat (length pre) →
  snext m (pre ++ x :: suf) = Some (pre ++ x + 1 :: seqZ (x + 2) (Z.of_nat (length suf))).
Proof.
  revert m. induction pre as [|y pre IH]; intros m Hsuf Hx; simpl in *.
  - assert (snext (m + 1) suf = None) as ->.
    { apply snext_none. rewrite Hsuf at 1. f_equal. lia. }
    rewrite decide_False by lia. done.
  - rewrite IH; [done| |lia]. rewrite Hsuf at 1. f_equal. lia.
Qed.

(** Every tuple is the last one or has a position to advance. *)
Lemma snext_cases m c :
  c = seqZ m (Z.of_nat (length c)) ∨
  ∃ pre x suf, c = pre ++ x :: suf ∧
    suf = seqZ (m + Z.of_nat (length pre) + 1) (Z.of_nat (length suf)) ∧
    x ≠ m + Z.of_nat (length pre).
Proof.
  revert m. induction c as [|y c IH]; intros m; [by left|].
  destruct (IH (m + 1)) as [Hc|(pre & x & suf & -> & Hsuf & Hx)].
  - destruct (decide (y = m)) as [->|Hy].
    + left. cbn [length]. by rewrite seqZ_succ, <-Hc.
    + right. exists [], y, c. simpl. split; [done|]. split; [|lia].
      rewrite Hc at 1. f_equal. lia.
  - right. exists (y :: pre), x, suf. simpl. split; [done|]. split; [|lia].
    rewrite Hsuf at 1. f_equal. lia.
Qed.

Lemma snext_length m c c' : snext m c = Some c' → length c' = length c.
Proof.
  revert m c'. induction c as [|x c IH]; intros m c'; simpl; [done|].
  destruct (snext (m + 1) c) eqn:E.
  - intros [= <-]. simpl. by erewrite IH.
  - case_decide; [done|]. intros [= <-]. simpl. rewrite length_seqZ. lia.
Qed.

(** ** Chains of successors *)

Lemma runs_to_app next x l1 z y l2 w :
  runs_to next x l1 z → next z = Some y → runs_to next y l2 w →
  runs_to next x (l1 ++ y :: l2) w.
Proof. induction 1; intros; simpl; by repeat econstructor; eauto. Qed.

Lemma runs_to_map (next next' : list Z → option (list Z)) (f : list Z → list Z) x l z :
  (∀ c c', next c = Some c' → next' (f c) = Some (f c')) →
  runs_to next x l z → runs_to next' (f x) (map f l) (f z).
Proof. intros Hf. induction 1; simpl; econstructor; eauto. Qed.

Lemma runs_to_elem next x l z c : runs_to next x l z → c ∈ l → ∃ c0, next c0 = Some c.
Proof. induction 1; [set_solver|]. rewrite elem_of_cons. intros [->|]; eauto. Qed.

(** [choose (seqZ a len) k] starts at [seqZ a k] and runs through the
    successors to a last tuple. *)
Lemma choose_runs len : ∀ a k m, (k ≤ len)%nat → m = a + Z.of_nat len - Z.of_nat k →
  ∃ l z, choose (seqZ a (Z.of_nat len)) k = seqZ a (Z.of_nat k) :: l ∧
    runs_to (snext m) (seqZ a (Z.of_nat k)) l z ∧ snext m z = None ∧ length z = k.
Proof.
  induction len as [|len IH]; intros a [|k] m Hk Hm; try lia.
  - exists [], []. simpl. split; [done|]. split; [constructor|done].
  - exists [], []. rewrite choose_0. split; [done|]. split; [constructor|done].
  - rewrite !seqZ_succ. simpl.
    destruct (IH (a + 1) k (m + 1)) as (l1 & z1 & -> & Hrun1 & Hlast1 & Hlen1); [lia..|].
    assert (Hmap : runs_to (snext m) (a :: seqZ (a + 1) (Z.of_nat k)) (map (cons a) l1) (a :: z1)).
    { apply (runs_to_map (snext (m + 1))); [|done]. intros c c' Hc. simpl. by rewrite Hc. }
    destruct (decide (k = len)) as [->|Hne].
    + rewrite (choose_long _ (S len)) by (rewrite length_seqZ; lia).
      exists (map (cons a) l1), (a :: z1). rewrite app_nil_r. split; [done|].
      split; [done|]. split; [|simpl; lia]. simpl. rewrite Hlast1. case_decide; [done|lia].
    + destruct (IH (a + 1) (S k) m) as (l2 & z2 & -> & Hrun2 & Hlast2 & Hlen2); [lia..|].
      exists (map (cons a) l1 ++ seqZ (a + 1) (Z.of_nat (S k)) :: l2), z2.
      split; [done|]. split; [|by split]. eapply runs_to_app; [done| |done].
      simpl. rewrite Hlast1, decide_False by lia. rewrite seqZ_succ, Hlen1.
      do 3 f_equal. lia.
Qed.

(** ** The loop body of [combinations] *)

Lemma py_get_mid (pre rest : list Z) y :
  py_get (pre ++ y :: rest) (Z.of_nat (length pre)) = Some y.
Proof.
  rewrite py_get_in by (rewrite length_app; simpl; lia).
  apply list_lookup_middle. lia.
Qed.

Lemma py_set_mid (pre rest : list Z) y z :
  py_set (pre ++ y :: rest) (Z.of_nat (length pre)) z = Some (pre ++ z :: rest).
Proof.
  rewrite py_set_in by (rewrite length_app; simpl; lia).
  rewrite Nat2Z.id, insert_app_r_alt, Nat.sub_diag by lia. done.
Qed.

Lemma scan_back_skip c n r l1 l2 :
  (∀ i, i ∈ l1 → py_get c i = Some (i + n - r)) →
  scan_back c n r (l1 ++ l2) = scan_back c n r l2.
Proof.
  induction l1 as [|i l1 IH]; intros Hl; simpl; [done|].
  rewrite Hl by set_solver. simpl. rewrite decide_False by lia. apply IH. set_solver.
Qed.

(** The positions after [pre] hold their maxima. *)
Lemma suffix_at_max (pre suf : list Z) x n r i :
  suf = seqZ (n - r + Z.of_nat (length pre) + 1) (Z.of_nat (length suf)) →
  i ∈ seqZ (Z.of_nat (length pre) + 1) (Z.of_nat (length suf)) →
  py_get (pre ++ x :: suf) i = Some (i + n - r).
Proof.
  intros Hsuf Hi. apply elem_of_seqZ in Hi.
  rewrite py_get_in by (rewrite length_app; simpl; lia).
  rewrite lookup_app_r by lia.
  replace (Z.to_nat i - length pre)%nat with (S (Z.to_nat i - length pre - 1)) by lia.
  simpl. rewrite Hsuf, lookup_seqZ_lt by lia. f_equal. lia.
Qed.

Lemma scan_back_found (pre suf : list Z) x n r :
  Z.of_nat (length (pre ++ x :: suf)) = r →
  suf = seqZ (n - r + Z.of_nat (length pre) + 1) (Z.of_nat (length suf)) →
  x ≠ n - r + Z.of_nat (length pre) →
  scan_back (pre ++ x :: suf) n r (reverse (seqZ 0 r)) = Ok (Some (Z.of_nat (length pre))).
Proof.
  intros Hr Hsuf Hx. rewrite length_app in Hr. simpl in Hr.
  replace (seqZ 0 r) with (seqZ 0 (Z.of_nat (S (length pre)) + Z.of_nat (length suf)))
    by (f_equal; lia).
  rewrite seqZ_app, seqZ_S, !reverse_app by lia. simpl.
  rewrite scan_back_skip.
  - simpl. rewrite py_get_mid. simpl. rewrite decide_True by lia. done.
  - intros i Hi. apply suffix_at_max; [congruence|]. rewrite elem_of_reverse in Hi.
    replace (0 + Z.of_nat (S (length pre))) with (Z.of_nat (length pre) + 1) in Hi by lia.
    done.
Qed.

Lemma scan_back_last c n r :
  Z.of_nat (length c) = r → c = seqZ (n - r) r →
  scan_back c n r (reverse (seqZ 0 r)) = Ok None.
Proof.
  intros Hr Hc. rewrite <-(app_nil_r (reverse _)), scan_back_skip; [done|].
  intros i Hi. rewrite elem_of_reverse, elem_of_seqZ in Hi.
  rewrite py_get_in by lia. rewrite Hc, lookup_seqZ_lt by lia. f_equal. lia.
Qed.

(** The [for j in range(i+1, r)] loop of the body sets each position to one
    more than the one before it. *)
Lemma fill_tail k : ∀ (pre rest : list Z) y, (k ≤ length rest)%nat →
  for_each (λ indices j,
      u <- of_index (py_get indices (j - 1)) ;;
      of_index (py_set indices j (u + 1)))
    (seqZ (Z.of_nat (length pre) + 1) (Z.of_nat k)) (pre ++ y :: rest)
  = Ok (pre ++ y :: seqZ (y + 1) (Z.of_nat k) ++ drop k rest).
Proof.
  induction k as [|k IH]; intros pre rest y Hk; [done|].
  destruct rest as [|z rest]; simpl in Hk; [lia|].
  rewrite seqZ_succ. simpl.
  replace (Z.of_nat (length pre) + 1 - 1) with (Z.of_nat (length pre)) by lia.
  rewrite py_get_mid. simpl.
  replace (pre ++ y :: z :: rest) with ((pre ++ [y]) ++ z :: rest) by by rewrite <-app_assoc.
  replace (Z.of_nat (length pre) + 1) with (Z.of_nat (length (pre ++ [y]))) at 1
    by (rewrite length_app; simpl; lia).
  rewrite py_set_mid. simpl.
  replace (Z.of_nat (length pre) + 1 + 1) with (Z.of_nat (length (pre ++ [y])) + 1)
    by (rewrite length_app; simpl; lia).
  rewrite IH by lia. rewrite <-app_assoc. simpl. by rewrite (seqZ_succ (y + 1)).
Qed.

Lemma advance_spec (pre suf : list Z) x r :
  Z.of_nat (length (pre ++ x :: suf)) = r →
  advance (pre ++ x :: suf) (Z.of_nat (length pre)) r =
    Ok (pre ++ x + 1 :: seqZ (x + 2) (Z.of_nat (length suf))).
Proof.
  intros Hr. rewrite length_app in Hr. simpl in Hr. unfold advance.
  rewrite py_get_mid. simpl. rewrite py_set_mid. simpl.
  replace (r - (Z.of_nat (length pre) + 1)) with (Z.of_nat (length suf)) by lia.
  rewrite fill_tail by lia. rewrite drop_all, app_nil_r. by replace (x + 1 + 1) with (x + 2) by lia.
Qed.

(** One turn of the [while True] loop: the scan and the reset compute
    [snext]. *)
Lemma comb_loop_S fuel pool n r c :
  Z.of_nat (length c) = r →
  comb_loop (S fuel) pool n r c =
    match snext (n - r) c with
    | None => Ok []
    | Some c' => t <- pick pool c' ;; rest <- comb_loop fuel pool n r c' ;; Ok (t :: rest)
    end.
Proof.
  intros Hr. destruct (snext_cases (n - r) c) as [Hc|(pre & x & suf & -> & Hsuf & Hx)].
  - cbn [comb_loop]. rewrite scan_back_last by congruence. simpl.
    by rewrite (proj2 (snext_none _ _) Hc).
  - cbn [comb_loop]. rewrite scan_back_found by done. simpl.
    rewrite advance_spec by done. simpl. by rewrite snext_some.
Qed.

Lemma pick_in pool c :
  Forall (λ i, 0 ≤ i < Z.of_nat (length pool)) c →
  pick pool c = Ok (map (λ i, pool !!! Z.to_nat i) c).
Proof.
  induction 1 as [|i c Hi _ IH]; [done|]. unfold pick in *. simpl.
  rewrite py_get_in by done.
  destruct (lookup_lt_is_Some_2 pool (Z.to_nat i)) as [v Hv]; [lia|].
  rewrite Hv. simpl. rewrite IH. simpl. by rewrite (list_lookup_total_correct _ _ _ Hv).
Qed.

Lemma pool_as_map (pool : list Z) :
  map (λ i, pool !!! Z.to_nat i) (seqZ 0 (Z.of_nat (length pool))) = pool.
Proof.
  apply list_eq. intros i. change (map ?f ?l) with (f <$> l). rewrite list_lookup_fmap.
  destruct (decide (i < length pool)%nat).
  - rewrite lookup_seqZ_lt by lia. simpl. rewrite Z.add_0_l, Nat2Z.id.
    destruct (lookup_lt_is_Some_2 pool i) as [v Hv]; [lia|].
    by rewrite Hv, (list_lookup_total_correct _ _ _ Hv).
  - rewrite lookup_seqZ_ge by lia. simpl. symmetry. apply lookup_ge_None_2. lia.
Qed.

(** The loop yields the tuples of the chain, given fuel for each. *)
Lemma comb_loop_runs pool n r c l z fuel :
  n = Z.of_nat (length pool) → Z.of_nat (length c) = r →
  runs_to (snext (n - r)) c l z → snext (n - r) z = None → (length l < fuel)%nat →
  (∀ c', c' ∈ l → Forall (λ i, 0 ≤ i < n) c') →
  comb_loop fuel pool n r c = Ok (map (map (λ i, pool !!! Z.to_nat i)) l).
Proof.
  intros Hn Hr Hrun. revert fuel Hr. induction Hrun as [x|x y l z Hxy Hrun IH];
    intros fuel Hr Hlast Hfuel Hrange; (destruct fuel as [|fuel]; [simpl in Hfuel; lia|]).
  - rewrite comb_loop_S, Hlast by done. done.
  - rewrite comb_loop_S, Hxy by done. simpl.
    rewrite pick_in by (subst n; apply Hrange; set_solver). simpl.
    rewrite IH; [done| |done|simpl in Hfuel; lia|intros; apply Hrange; set_solver].
    rewrite (snext_length _ _ _ Hxy). done.
Qed.

Lemma choose_seqZ_range a len k c :
  c ∈ choose (seqZ a len) k → Forall (λ i, a ≤ i < a + len) c.
Proof.
  rewrite elem_of_choose. intros [Hs _]. apply Forall_forall. intros i Hi.
  apply elem_of_seqZ. by eapply elem_of_sublist.
Qed.

(** ** The generator *)

Lemma combinations_ok pool r : combinations pool r = Ok (choose pool (Z.to_nat r)).
Proof.
  unfold combinations. set (n := Z.of_nat (length pool)).
  assert (Hfuel : (0 < 2 ^ length pool)%nat) by (apply Nat.neq_0_lt_0, Nat.pow_nonzero; lia).
  case_decide as Hr; [rewrite choose_long by lia; done|].
  destruct (decide (r < 0)) as [Hneg|Hpos].
  - rewrite (seqZ_nil 0 r) by lia. replace (Z.to_nat r) with 0%nat by lia. rewrite choose_0. simpl.
    destruct (2 ^ length pool)%nat; [lia|]. simpl. by rewrite seqZ_nil by lia.
  - set (k := Z.to_nat r).
    destruct (choose_runs (length pool) 0 k (n - r)) as (l & z & Hch & Hrun & Hlast & Hlen);
      [lia..|].
    assert (Hpool : choose pool k = map (map (λ i, pool !!! Z.to_nat i)) (seqZ 0 (Z.of_nat k) :: l)).
    { by rewrite <-Hch, <-choose_map, pool_as_map. }
    assert (Hrange : ∀ c, c ∈ seqZ 0 (Z.of_nat k) :: l → Forall (λ i, 0 ≤ i < n) c).
    { intros c Hc. rewrite <-Hch in Hc. apply choose_seqZ_range in Hc. done. }
    replace (seqZ 0 r) with (seqZ 0 (Z.of_nat k)) by (f_equal; lia).
    rewrite Hpool, pick_in by (apply Hrange; set_solver). simpl.
    rewrite (comb_loop_runs pool n r _ l z); [done|done| |done|done| |].
    + rewrite length_seqZ. lia.
    + pose proof (length_choose (seqZ 0 (Z.of_nat (length pool))) k) as Hle.
      rewrite Hch, length_seqZ in Hle. simpl in Hle. subst n. rewrite Nat2Z.id in Hle. lia.
    + intros. apply Hrange. set_solver.
Qed.

(** C25: the generator [combinations(pool, r)] terminates and yields
    exactly the sublists of [pool] of length [r], in the order of their
    index tuples: one tuple for [r <= 0], none for [r > len(pool)]. *)
Theorem combinations_choose pool r : combinations pool r = Ok (choose pool (Z.to_nat r)).
Proof. apply combinations_ok. Qed.

End YahtzeeComb.
