(* ===== verification/YahtzeeProps.v ===== *)
(** * Properties of the Yahtzee planner

    [gen_all_sequences] builds exactly the sequences of the given length
    over the outcomes, [len(outcomes) ** length] of them; [score] is the
    best upper-section score; [gen_all_holds] is the set of sublists of the
    hand; [strategy] returns a hold of greatest expected value, and fails
    exactly on an empty hand ([ValueError]) or a die without sides
    ([ZeroDivisionError]).  The test suites are run in [TestSuites.v]. *)

From stdpp Require Import base list options gmap sets.
From Stdlib Require Import ZArith QArith Lia.
From S2P Require Import Prelude Yahtzee YahtzeeComb.

Open Scope Z_scope.
Local Unset Default Proof Using.

Module YahtzeeProps.
Import Yahtzee YahtzeeComb.

(** The sequences of length [k] over [outs], listed once each. *)
Fixpoint all_seqs (outs : list Z) (k : nat) : list (list Z) :=
  match k with
  | O => [[]]
  | S k' => concat (map (λ x, map (cons x) (all_seqs outs k')) outs)
  end.

(** The hold [strategy] compares, with its expected value. *)
Definition hold_value (hand : list Z) (num_die_sides : Z) (hold : list Z) : res Q :=
  expected_value hold num_die_sides (Z.of_nat (length hand) - Z.of_nat (length hold)).

(** ** [gen_all_sequences] *)

Lemma seq_extend (p outs : list Z) (acc : gset (list Z)) x :
  x ∈ foldl (λ temp_set item, {[p ++ [item]]} ∪ temp_set) acc outs ↔
  x ∈ acc ∨ ∃ item, item ∈ outs ∧ x = p ++ [item].
Proof.
  revert acc. induction outs as [|y outs IH]; intros acc; simpl; [set_solver|].
  rewrite IH. set_solver.
Qed.

Lemma seq_round (outs : list Z) (acc : gset (list Z)) (ps : list (list Z)) x :
  x ∈ foldl (λ temp_set partial_sequence,
               foldl (λ temp_set item, {[partial_sequence ++ [item]]} ∪ temp_set)
                 temp_set outs) acc ps ↔
  x ∈ acc ∨ ∃ p item, p ∈ ps ∧ item ∈ outs ∧ x = p ++ [item].
Proof.
  revert acc. induction ps as [|p ps IH]; intros acc; simpl; [set_solver|].
  rewrite IH, seq_extend. set_solver.
Qed.

Lemma seq_rounds outs (l : list Z) : ∀ (acc : gset (list Z)) t,
  (∀ s, s ∈ acc ↔ length s = t ∧ Forall (λ x, x ∈ outs) s) →
  ∀ s, s ∈ foldl (λ answer_set _,
           foldl (λ temp_set partial_sequence,
                    foldl (λ temp_set item, {[partial_sequence ++ [item]]} ∪ temp_set)
                      temp_set outs)
             ∅ (elements answer_set)) acc l ↔
       length s = (t + length l)%nat ∧ Forall (λ x, x ∈ outs) s.
Proof.
  induction l as [|y l IH]; intros acc t Hacc s; simpl; [by rewrite Hacc, Nat.add_0_r|].
  rewrite (IH _ (S t)); [split; intros []; split; [lia|done|lia|done]|].
  intros s'. rewrite seq_round. setoid_rewrite elem_of_elements. setoid_rewrite Hacc. split.
  - intros [Hs|(p & item & (Hp & Hfa) & Hitem & ->)]; [set_solver|].
    rewrite length_app, Forall_app, Forall_singleton. simpl. split; [lia|done].
  - intros [Hlen Hfa]. right. destruct s' as [|z s'] using rev_ind; [done|].
    rewrite length_app in Hlen. rewrite Forall_app, Forall_singleton in Hfa. destruct Hfa as [? Hz].
    exists s', z. simpl in Hlen. split_and!; [lia|assumption|assumption|reflexivity].
Qed.

Lemma gen_all_sequences_elem outcomes len s :
  s ∈ gen_all_sequences outcomes len ↔
  length s = Z.to_nat len ∧ Forall (λ x, x ∈ outcomes) s.
Proof.
  unfold gen_all_sequences. rewrite (seq_rounds _ _ _ 0); [by rewrite length_seqZ|].
  intros s'. rewrite elem_of_singleton. split; [intros ->; done|].
  intros [Hl _]. by destruct s'.
Qed.

Lemma elem_of_all_seqs outs k s : s ∈ all_seqs outs k ↔ length s = k ∧ Forall (λ x, x ∈ outs) s.
Proof.
  revert s. induction k as [|k IH]; intros s; simpl.
  - rewrite list_elem_of_singleton. split; [intros ->; done|]. intros [? _]. by destruct s.
  - rewrite elem_of_concat_map. setoid_rewrite list_elem_of_fmap. setoid_rewrite IH.
    split.
    + intros (x & Hx & s' & -> & Hl & Hfa). simpl. split; [lia|by constructor].
    + intros [Hl Hfa]. destruct s as [|x s']; [done|]. inversion Hfa; subst.
      exists x. split; [done|]. exists s'. simpl in Hl. split_and!; [done|lia|done].
Qed.

Lemma NoDup_prefix_each (outs : list Z) (L : list (list Z)) :
  NoDup outs → NoDup L → NoDup (concat (map (λ x, map (cons x) L) outs)).
Proof.
  intros Hout HL. induction Hout as [|x outs Hx Hout IHo]; simpl; [constructor|].
  apply NoDup_app. split_and!; [|intros s Hs1 Hs2|done].
  - change (map ?f ?l) with (f <$> l). apply NoDup_fmap_2; [|done]. intros ?? [=]. done.
  - apply elem_of_concat_map in Hs2 as (y & Hy & Hs2).
    change (map ?f ?l) with (f <$> l) in Hs1, Hs2.
    apply list_elem_of_fmap in Hs1 as (s1 & -> & _), Hs2 as (s2 & [= -> _] & _). done.
Qed.

Lemma NoDup_all_seqs outs k : NoDup outs → NoDup (all_seqs outs k).
Proof.
  intros Hout. induction k as [|k IH]; simpl; [apply NoDup_singleton|].
  by apply NoDup_prefix_each.
Qed.

Lemma length_prefix_each (outs : list Z) (L : list (list Z)) :
  length (concat (map (λ x, map (cons x) L) outs)) = (length outs * length L)%nat.
Proof. induction outs as [|x outs IH]; simpl; [done|]. rewrite length_app, length_map, IH. lia. Qed.

Lemma length_all_seqs outs k : length (all_seqs outs k) = (length outs ^ k)%nat.
Proof. induction k as [|k IH]; simpl; [done|]. rewrite length_prefix_each, IH. lia. Qed.

(** ** [score] *)

Lemma score_spec hand :
  hand ≠ [] → ∃ m, score hand = Ok m ∧
    (∀ x, x ∈ hand → py_count hand x * x ≤ m) ∧ ∃ x, x ∈ hand ∧ m = py_count hand x * x.
Proof.
  intros Hne. destruct (py_max_spec (map (λ num, py_count hand num * num) hand))
    as (m & Hm & Hin & Hle); [by destruct hand|].
  exists m. split; [done|]. split.
  - intros x Hx. apply Hle. exact (list_elem_of_fmap_2 (λ num, py_count hand num * num) hand x Hx).
  - apply (list_elem_of_fmap (λ num, py_count hand num * num)) in Hin as (x & -> & Hx).
    by exists x.
Qed.

(** ** [gen_all_holds] *)

Lemma gen_all_holds_ok hand :
  gen_all_holds hand =
    Ok (list_to_set (concat (map (λ i, choose hand (Z.to_nat i))
                                 (seqZ 0 (Z.of_nat (length hand) + 1))))).
Proof.
  unfold gen_all_holds.
  rewrite (for_each_pure _ (λ acc i, acc ++ choose hand (Z.to_nat i)))
    by (intros; by rewrite combinations_ok).
  by rewrite foldl_append_concat.
Qed.

Lemma gen_all_holds_elem hand S h :
  gen_all_holds hand = Ok S → h ∈ S ↔ h `sublist_of` hand.
Proof.
  rewrite gen_all_holds_ok. intros [= <-].
  rewrite elem_of_list_to_set, elem_of_concat_map. setoid_rewrite elem_of_choose.
  setoid_rewrite elem_of_seqZ. split.
  - intros (i & _ & Hs & _). done.
  - intros Hs. pose proof (sublist_length _ _ Hs).
    exists (Z.of_nat (length h)). rewrite Nat2Z.id. split_and!; [lia|lia|done|done].
Qed.

(** ** [expected_value] *)

Lemma gen_all_sequences_none outcomes len : len ≤ 0 → gen_all_sequences outcomes len = {[ [] ]}.
Proof. intros. unfold gen_all_sequences. by rewrite seqZ_nil. Qed.

Lemma gen_all_sequences_empty len : 0 < len → gen_all_sequences [] len = ∅.
Proof.
  intros Hlen. apply set_eq. intros s. rewrite gen_all_sequences_elem. split; [|set_solver].
  intros [Hl Hfa]. destruct s as [|x s]; [simpl in Hl; lia|]. inversion Hfa. set_solver.
Qed.

(** Every rolled hand is non-empty and some hand can be rolled: the mean
    is computed. *)
Lemma expected_value_mean held sides free :
  (∀ s, s ∈ gen_all_sequences (seqZ 1 sides) free → held ++ s ≠ []) →
  gen_all_sequences (seqZ 1 sides) free ≠ ∅ →
  ∃ q, expected_value held sides free = Ok q.
Proof.
  intros Hne Hsome. unfold expected_value.
  destruct (res_map_ok score (map (λ hand, held ++ hand)
      (elements (gen_all_sequences (seqZ 1 sides) free)))) as (ys & -> & Hlen).
  { intros x Hx. change (map ?f ?l) with (f <$> l) in Hx.
    apply list_elem_of_fmap in Hx as (s & -> & Hs). rewrite elem_of_elements in Hs.
    destruct (score_spec (held ++ s)) as (m & -> & _); [by apply Hne|by exists m]. }
  simpl. eexists. apply py_fdiv_ok. rewrite Hlen, length_map.
  destruct (elements (gen_all_sequences (seqZ 1 sides) free)) eqn:E.
  - apply elements_empty_inv, leibniz_equiv in E. done.
  - intros H. rewrite Qplus_0_r in H. unfold Qeq in H. cbn [Qnum Qden inject_Z length] in H.
    lia.
Qed.

(** Holding every die: the mean of the single hand [held]. *)
Lemma expected_value_held held sides free :
  free ≤ 0 → held ≠ [] → ∃ q, expected_value held sides free = Ok q.
Proof.
  intros Hfree Hne. apply expected_value_mean; rewrite gen_all_sequences_none by done.
  - intros s ->%elem_of_singleton. by rewrite app_nil_r.
  - set_solver.
Qed.

(** Rolling at least one die of at least one side. *)
Lemma expected_value_roll held sides free :
  0 < free → 1 ≤ sides → ∃ q, expected_value held sides free = Ok q.
Proof.
  intros Hfree Hsides. apply expected_value_mean.
  - intros s Hs ?. apply gen_all_sequences_elem in Hs as [Hl _].
    apply app_eq_nil in H as [_ ->]. simpl in Hl. lia.
  - intros Hempty. assert (replicate (Z.to_nat free) 1 ∈ gen_all_sequences (seqZ 1 sides) free)
      as Hin; [|set_solver].
    apply gen_all_sequences_elem. rewrite length_replicate. split; [done|].
    apply Forall_replicate, elem_of_seqZ. lia.
Qed.

Lemma expected_value_no_sides held sides free :
  0 < free → sides < 1 → expected_value held sides free = Raise ZeroDivisionError.
Proof.
  intros Hfree Hsides. unfold expected_value.
  rewrite (seqZ_nil 1 sides), gen_all_sequences_empty, elements_empty by lia. done.
Qed.

Lemma expected_value_nothing sides free :
  free ≤ 0 → expected_value [] sides free = Raise ValueError.
Proof. intros. unfold expected_value. by rewrite gen_all_sequences_none, elements_singleton. Qed.

(** ** [strategy] *)

(** The loop keeps the best value seen, and the hold that gave it. *)
Lemma strategy_loop_spec hand sides holds acc r :
  strategy_loop hand sides holds acc = Ok r →
  (acc.1 <= r.1)%Q ∧
  (∀ hold ev, hold ∈ holds → hold_value hand sides hold = Ok ev → (ev <= r.1)%Q) ∧
  (r = acc ∨ ∃ hold, hold ∈ holds ∧ r.2 = Some hold ∧ hold_value hand sides hold = Ok r.1).
Proof.
  unfold strategy_loop. revert acc.
  induction holds as [|hold holds IH]; intros [mx th] Hrun; simpl in Hrun.
  { injection Hrun as <-. split; [apply Qle_refl|]. split; [set_solver|by left]. }
  destruct (expected_value hold sides _) as [ev|e] eqn:Hev; simpl in Hrun; [|done].
  destruct (Qlt_le_dec mx ev) as [Hlt|Hge];
    destruct (IH _ Hrun) as (Hle & Hall & Hwho); simpl in *.
  - split; [apply Qlt_le_weak; eapply Qlt_le_trans; eauto|]. split.
    + intros h e Hh He. apply elem_of_cons in Hh as [->|Hh]; [|by eapply Hall].
      unfold hold_value in He. congruence.
    + right. destruct Hwho as [->|(h & ? & ? & ?)]; [by exists hold; split_and!; [set_solver|..]|].
      exists h. split_and!; [set_solver|done..].
  - split; [done|]. split.
    + intros h e Hh He. apply elem_of_cons in Hh as [->|Hh]; [|by eapply Hall].
      unfold hold_value in He. rewrite He in Hev. injection Hev as ->. eapply Qle_trans; eauto.
    + destruct Hwho as [->|(h & ? & ? & ?)]; [by left|right]. exists h. split_and!; [set_solver|done..].
Qed.

(** The holds of a hand, as [gen_all_holds] builds them. *)
Lemma gen_all_holds_exists hand : ∃ S, gen_all_holds hand = Ok S.
Proof. rewrite gen_all_holds_ok. by eexists. Qed.

(** Every hold of a non-empty hand has an expected value when the dice have
    sides. *)
Lemma hold_value_ok hand sides hold :
  hand ≠ [] → 1 ≤ sides → hold `sublist_of` hand → ∃ q, hold_value hand sides hold = Ok q.
Proof.
  intros Hne Hsides Hsub. pose proof (sublist_length _ _ Hsub). unfold hold_value.
  destruct (decide (0 < Z.of_nat (length hand) - Z.of_nat (length hold))).
  - by apply expected_value_roll.
  - apply expected_value_held; [lia|]. intros ->. destruct hand; simpl in *; [done|lia].
Qed.

(** ** Claims *)

(** C26: [gen_all_holds(hand)] returns the set of the sublists of [hand]
    (the dice kept in their order), every one of them. *)
Theorem gen_all_holds_sublists hand :
  ∃ S, gen_all_holds hand = Ok S ∧ ∀ h, h ∈ S ↔ h `sublist_of` hand.
Proof.
  destruct (gen_all_holds_exists hand) as [S HS]. exists S. split; [done|].
  intros h. by apply gen_all_holds_elem.
Qed.

(** C27: over distinct outcomes, [gen_all_sequences(outcomes, length)] is
    the set of all sequences of that length over them, and it has
    [len(outcomes) ** length] elements. *)
Theorem gen_all_sequences_enumerates outcomes len :
  NoDup outcomes →
  gen_all_sequences outcomes len = list_to_set (all_seqs outcomes (Z.to_nat len)) ∧
  size (gen_all_sequences outcomes len) = (length outcomes ^ Z.to_nat len)%nat.
Proof.
  intros Hnd.
  assert (E : gen_all_sequences outcomes len = list_to_set (all_seqs outcomes (Z.to_nat len))).
  { apply set_eq. intros s. by rewrite elem_of_list_to_set, elem_of_all_seqs, gen_all_sequences_elem. }
  split; [done|]. rewrite E, size_list_to_set by by apply NoDup_all_seqs.
  apply length_all_seqs.
Qed.

(** C28: [score(hand)] is the largest [hand.count(num) * num] over the
    dice of the hand, reached by one of them; on an empty hand [max]
    raises [ValueError]. *)
Theorem score_max hand :
  match score hand with
  | Ok m => hand ≠ [] ∧ (∀ x, x ∈ hand → py_count hand x * x ≤ m) ∧
            ∃ x, x ∈ hand ∧ m = py_count hand x * x
  | Raise e => hand = [] ∧ e = ValueError
  end.
Proof.
  destruct hand as [|d ds]; [done|].
  destruct (score_spec (d :: ds)) as (m & -> & Hle & Hin); [done|]. done.
Qed.

(** C29: [strategy(hand, num_die_sides)] returns a hold of greatest
    expected value among all the holds of the hand, with that value; it
    returns [(0, None)] only when no hold has a positive expected value. *)
Theorem strategy_optimal hand sides m h :
  strategy hand sides = Ok (m, h) →
  (0 <= m)%Q ∧
  (∀ hold ev, hold `sublist_of` hand → hold_value hand sides hold = Ok ev → (ev <= m)%Q) ∧
  ((h = None ∧ m = 0%Q) ∨
   ∃ hold, h = Some hold ∧ hold `sublist_of` hand ∧ hold_value hand sides hold = Ok m).
Proof.
  unfold strategy. destruct (gen_all_holds_exists hand) as [S HS]. rewrite HS. simpl.
  intros (Hle & Hall & Hwho)%strategy_loop_spec. simpl in *. split; [done|]. split.
  - intros hold ev Hsub Hev. apply (Hall hold); [|done].
    by rewrite elem_of_elements, (gen_all_holds_elem _ _ _ HS).
  - destruct Hwho as [[= -> ->]|(hold & Hin & Hh & Hev)]; [by left|right].
    rewrite elem_of_elements, (gen_all_holds_elem _ _ _ HS) in Hin. by exists hold.
Qed.

(** C30: [strategy(hand, num_die_sides)] fails exactly on an empty hand,
    with the [ValueError] of [max([])] in [score], and on a die with no
    sides, with the [ZeroDivisionError] of [expected_value]; otherwise it
    returns. *)
Theorem strategy_errors hand sides :
  match strategy hand sides with
  | Ok _ => hand ≠ [] ∧ 1 ≤ sides
  | Raise e => (hand = [] ∧ e = ValueError) ∨ (hand ≠ [] ∧ sides < 1 ∧ e = ZeroDivisionError)
  end.
Proof.
  destruct (decide (hand = [])) as [->|Hne].
  { unfold strategy. rewrite gen_all_holds_ok. cbn [length].
    change (list_to_set _) with ({[ [] ]} : gset (list Z)).
    simpl. rewrite elements_singleton. unfold strategy_loop. simpl.
    rewrite expected_value_nothing by lia. simpl. by left. }
  unfold strategy. destruct (gen_all_holds_exists hand) as [S HS]. rewrite HS. simpl.
  assert (Hin : ∀ hold, hold ∈ elements S ↔ hold `sublist_of` hand).
  { intros hold. by rewrite elem_of_elements, (gen_all_holds_elem _ _ _ HS). }
  destruct (decide (1 ≤ sides)) as [Hs|Hs].
  - unfold strategy_loop. match goal with |- context [for_each ?body (elements S) _] =>
      destruct (for_each_ok body (λ _, True) (elements S) (0%Q, None)) as (r & -> & _) end;
      [done| |done].
    intros [mx th] hold Hh _. apply Hin in Hh.
    destruct (hold_value_ok hand sides hold) as [q Hq]; [done..|].
    unfold hold_value in Hq. simpl. rewrite Hq. simpl.
    destruct (Qlt_le_dec mx q); eauto.
  - unfold strategy_loop. match goal with |- context [for_each ?body (elements S) _] =>
      rewrite (for_each_raise body (λ _, True) _ [] ZeroDivisionError) end.
    + right. split_and!; [done|lia|done].
    + apply Hin, sublist_nil_l.
    + done.
    + done.
    + intros [mx th] _. simpl. rewrite expected_value_no_sides; [done| |lia].
      destruct hand; [done|simpl; lia].
    + intros [mx th] hold Hh _. apply Hin in Hh. pose proof (sublist_length _ _ Hh). simpl.
      destruct (decide (0 < Z.of_nat (length hand) - Z.of_nat (length hold))).
      * right. rewrite expected_value_no_sides by lia. done.
      * left. destruct (expected_value_held hold sides (Z.of_nat (length hand) - Z.of_nat (length hold)))
          as [q ->]; [lia| |].
        { intros ->. destruct hand; simpl in *; [done|lia]. }
        simpl. destruct (Qlt_le_dec mx q); eauto.
Qed.

(** ** Witnesses *)

Lemma gen_all_sequences_enumerates_witness :
  NoDup [1; 2] ∧
  gen_all_sequences [1; 2] 2 = list_to_set (all_seqs [1; 2] (Z.to_nat 2)) ∧
  size (gen_all_sequences [1; 2] 2) = (length [1; 2] ^ Z.to_nat 2)%nat.
Proof. split; [decide_by_eval|]. apply gen_all_sequences_enumerates. decide_by_eval. Defined.

Lemma strategy_optimal_witness :
  strategy [1; 2] 2 = Ok ((6 # 2)%Q, Some [2]) ∧
  (0 <= (6 # 2))%Q ∧
  (∀ hold ev, hold `sublist_of` [1; 2] → hold_value [1; 2] 2 hold = Ok ev → (ev <= (6 # 2))%Q) ∧
  ((Some [2] = None ∧ (6 # 2)%Q = 0%Q) ∨
   ∃ hold, Some [2] = Some hold ∧ hold `sublist_of` [1; 2] ∧ hold_value [1; 2] 2 hold = Ok (6 # 2)%Q).
Proof.
  assert (E : strategy [1; 2] 2 = Ok ((6 # 2)%Q, Some [2])) by (vm_compute; reflexivity).
  split; [exact E|]. apply strategy_optimal. exact E.
Defined.

End YahtzeeProps.
