(* ===== verification/Cookie.v ===== *)
(** * The Cookie Clicker simulator ([src/cookie_clicker.py])

    [BuildInfo] is the record [build_info]: its dict [_info] maps an item
    name to the Python list [[cost, cps]], a stdpp [gmap string (list Q)]
    whose values stay lists (so unpacking [cost, cps = ...] can raise
    [ValueError] and indexing can raise [IndexError], as in Python).
    [ClickerState] is the record [clicker_state].  Floats are [Q]: the
    arithmetic is exact, rounding is not modelled; [math.ceil] is
    [Qceiling].

    A strategy is a Python function: [simulate_clicker] calls it with four
    arguments, so a strategy defined with five parameters ([strategy_none],
    [strategy_cheap], [strategy_expensive]) raises [TypeError] there.
    [map_costs_to_items] reads the global names [build_info] and [costs],
    which the module never defines: it raises [NameError].

    The [while] loop of [simulate_clicker] is [sim_loop] on fuel. *)

From stdpp Require Import base list options gmap strings.
From Stdlib Require Import ZArith QArith Qround Lia.
From S2P Require Import Prelude.

Local Unset Default Proof Using.

Module Cookie.

Open Scope Q_scope.

Definition SIM_TIME : Q := 10000000000.
Definition BUILD_GROWTH : Q := 115 # 100.

(** ** [BuildInfo] *)

Record build_info := mk_build_info {
  _build_growth : Q;
  _info : gmap string (list Q)
}.

Definition default_info : gmap string (list Q) :=
  list_to_map [("Cursor", [15; 1 # 10]);
               ("Grandma", [100; 1 # 2]);
               ("Farm", [500; 4]);
               ("Factory", [3000; 10]);
               ("Mine", [10000; 40]);
               ("Shipment", [40000; 100]);
               ("Alchemy Lab", [200000; 400]);
               ("Portal", [1666666; 6666]);
               ("Time Machine", [123456789; 98765]);
               ("Antimatter Condenser", [3999999999; 999999])]%string.

(** [BuildInfo(build_info = None, growth_factor = BUILD_GROWTH)]: the
    default table, or a copy of the given one ([list(value)] copies each
    entry). *)
Definition new_build_info (info : option (gmap string (list Q))) (growth_factor : Q) : build_info :=
  match info with
  | None => mk_build_info growth_factor default_info
  | Some bi => mk_build_info growth_factor (foldl (λ acc kv, <[kv.1 := kv.2]> acc) ∅ (map_to_list bi))
  end.

(** [build_items()]: the keys of the dict, in its order. *)
Definition build_items (b : build_info) : list string := (map_to_list (_info b)).*1.

Definition get_cost (b : build_info) (item : string) : res Q :=
  v <- of_key (_info b !! item) ;; of_index (py_get v 0).

Definition get_cps (b : build_info) (item : string) : res Q :=
  v <- of_key (_info b !! item) ;; of_index (py_get v 1).

Definition update_item (b : build_info) (item : string) : res build_info :=
  v <- of_key (_info b !! item) ;;
  match v with
  | [cost; cps] => Ok (mk_build_info (_build_growth b) (<[item := [cost * _build_growth b; cps]]> (_info b)))
  | _ => Raise ValueError
  end.

Definition clone (b : build_info) : build_info := new_build_info (Some (_info b)) (_build_growth b).

(** ** [ClickerState] *)

(** An entry [(time, item, cost of item, total cookies)] of the history. *)
Definition hist_entry : Type := Q * option string * Q * Q.

Record clicker_state := mk_state {
  _cookies_ : Q;
  _total_cookies_ : Q;
  _cps_ : Q;
  _current_time_ : Q;
  _history_ : list hist_entry
}.

Definition new_state : clicker_state := mk_state 0 0 1 0 [(0, None, 0, 0)].

Definition get_cookies (s : clicker_state) : Q := _cookies_ s.
Definition get_cps_state (s : clicker_state) : Q := _cps_ s.
Definition get_time (s : clicker_state) : Q := _current_time_ s.
Definition get_history (s : clicker_state) : list hist_entry := _history_ s.

(** [time_until(cookies)]: [0.0] when there are enough cookies, else the
    whole number of seconds to wait. *)
Definition time_until (s : clicker_state) (cookies : Q) : res Q :=
  if Qle_bool cookies (_cookies_ s) then Ok 0
  else t <- py_fdiv (cookies - _cookies_ s) (_cps_ s) ;; Ok (inject_Z (Qceiling t)).

(** [wait(time)]: nothing when [time <= 0]. *)
Definition wait (s : clicker_state) (time : Q) : clicker_state :=
  if Qle_bool time 0 then s
  else mk_state (_cookies_ s + time * _cps_ s) (_total_cookies_ s + time * _cps_ s)
         (_cps_ s) (_current_time_ s + time) (_history_ s).

(** [buy_item(item_name, cost, additional_cps)]: nothing when the item is
    not affordable. *)
Definition buy_item (s : clicker_state) (item_name : string) (cost additional_cps : Q) : clicker_state :=
  if Qle_bool cost (_cookies_ s) then
    mk_state (_cookies_ s - cost) (_total_cookies_ s) (_cps_ s + additional_cps) (_current_time_ s)
      (_history_ s ++ [(_current_time_ s, Some item_name, cost, _total_cookies_ s)])
  else s.

(** ** Strategies *)

(** A strategy function, by the number of parameters it is defined with. *)
Inductive strategy :=
  | Strategy4 (f : Q → Q → Q → build_info → res (option string))
  | Strategy5 (f : Q → Q → list hist_entry → Q → build_info → res (option string)).

(** [strategy(cookies, cps, time_left, build_info)]: four arguments. *)
Definition call_strategy (strat : strategy) (cookies cps time_left : Q) (b : build_info) :
    res (option string) :=
  match strat with
  | Strategy4 f => f cookies cps time_left b
  | Strategy5 _ => Raise TypeError
  end.

Definition strategy_cursor_broken : strategy := Strategy4 (λ _ _ _ _, Ok (Some "Cursor"%string)).

Definition strategy_none : strategy := Strategy5 (λ _ _ _ _ _, Ok None).

(** Its first statement reads the undefined global [build_info]. *)
Definition map_costs_to_items : res (list (Q * string)) := Raise NameError.

(** [costs_mapping[...]]: [costs_mapping] is undefined as well. *)
Definition strategy_cheap : strategy :=
  Strategy5 (λ cookies cps history time_left b,
    let future_cookies := cookies + cps * time_left in
    costs_map <- map_costs_to_items ;; Raise NameError).

Definition strategy_expensive : strategy :=
  Strategy5 (λ cookies cps history time_left b,
    let future_cookies := cookies + cps * time_left in
    costs_map <- map_costs_to_items ;; Raise NameError).

(** The [for item in item_list] loop of [strategy_best_cps_cost_ratio],
    on [(best_ratio_item, best_ratio)]. *)
Definition ratio_loop (b : build_info) (end_cookies : Q) (item_list : list string)
    (acc : option string * Q) : res (option string * Q) :=
  for_each (λ '(best_ratio_item, best_ratio) item,
      c <- get_cost b item ;;
      if Qlt_le_dec end_cookies c then Ok (best_ratio_item, best_ratio)
      else match best_ratio_item with
        | None =>
            cps <- get_cps b item ;; cost <- get_cost b item ;;
            r <- py_fdiv cps cost ;; Ok (Some item, r)
        | Some _ =>
            cps <- get_cps b item ;; cost <- get_cost b item ;;
            curr_ratio <- py_fdiv cps cost ;;
            if Qlt_le_dec best_ratio curr_ratio then Ok (Some item, curr_ratio)
            else Ok (best_ratio_item, best_ratio)
        end)
    item_list acc.

Definition strategy_best_cps_cost_ratio (cookies cps time_left : Q) (b : build_info) :
    res (option string) :=
  let end_cookies := cookies + cps * time_left in
  '(best_ratio_item, _) <- ratio_loop b end_cookies (build_items b) (None, 0) ;;
  Ok best_ratio_item.

Definition strategy_best : strategy := Strategy4 strategy_best_cps_cost_ratio.

(** ** [simulate_clicker] *)

(** The [while click_object.get_time() <= duration] loop, on the clicker
    state and the cloned build information. *)
Fixpoint sim_loop (fuel : nat) (duration : Q) (strat : strategy)
    (s : clicker_state) (b : build_info) : res (clicker_state * build_info) :=
  match fuel with
  | O => Ok (s, b)
  | S fuel' =>
      if Qle_bool (get_time s) duration then
        let time_left := duration - get_time s in
        item <- call_strategy strat (get_cookies s) (get_cps_state s) time_left b ;;
        match item with
        | None => Ok (s, b)
        | Some item =>
            cost <- get_cost b item ;;
            time_to_wait <- time_until s cost ;;
            if Qlt_le_dec time_left time_to_wait then Ok (s, b)
            else
              let s := wait s time_to_wait in
              additional_cps <- get_cps b item ;;
              let s := buy_item s item cost additional_cps in
              b <- update_item b item ;;
              sim_loop fuel' duration strat s b
        end
      else Ok (s, b)
  end.

(** [simulate_clicker(build_info, duration, strategy)] with the loop on
    [fuel]. *)
Definition simulate_clicker_fuel (fuel : nat) (b : build_info) (duration : Q) (strat : strategy) :
    res clicker_state :=
  let click_object := new_state in
  let build_info_object := clone b in
  '(click_object, _) <- sim_loop fuel duration strat click_object build_info_object ;;
  let time_left := duration - get_time click_object in
  if Qlt_le_dec 0 time_left then Ok (wait click_object time_left) else Ok click_object.

(** ** [run_strategy] and [run] *)

(** [run_strategy(strategy_name, time, strategy)]: the name and the state
    it prints (the text of [ClickerState.__str__], floats printed by
    Python's [str], is not modelled).  The table of the external
    [clicker.BuildInfo()] is the argument [b]; the loop of
    [simulate_clicker] runs on [fuel]. *)
Definition run_strategy (b : build_info) (fuel : nat) (strategy_name : string) (time : Q)
    (strat : strategy) : res (string * clicker_state) :=
  state <- simulate_clicker_fuel fuel b time strat ;;
  Ok (strategy_name, state).

(** [run()]: the one strategy it runs. *)
Definition run (b : build_info) (fuel : nat) : res (string * clicker_state) :=
  run_strategy b fuel "Cursor" SIM_TIME strategy_cursor_broken.

End Cookie.
