(* ===== verification/CookieProps.v ===== *)
(** * Properties of the Cookie Clicker simulator

    The build table is well formed ([wf_info]: every entry is a list
    [[cost, cps]] with a positive cost and a non-negative rate, the growth
    factor is at least 1) and [update_item] and [clone] keep it so; [clone]
    copies the table exactly.  [strategy_best_cps_cost_ratio] picks an
    affordable item of greatest cps/cost ratio, or [None] when nothing is
    affordable.  [time_until] is the least whole waiting time in exact
    arithmetic, and [wait] and [buy_item] keep the accounts of the clicker
    state ([accounts]: the cookies earned are the cookies held plus the
    costs in the history); [CookieTermination] builds on these lemmas. *)

From stdpp Require Import base list options gmap strings.
From Stdlib Require Import ZArith QArith Qround Lia Lqa.
From S2P Require Import Prelude Cookie.

Local Unset Default Proof Using.

Module CookieProps.
Import Cookie.

Open Scope Q_scope.

(** ** The build table *)

Definition entry_ok (v : list Q) : Prop :=
  match v with [cost; cps] => 0 < cost ∧ 0 <= cps | _ => False end.

Definition wf_info (b : build_info) : Prop :=
  1 <= _build_growth b ∧ map_Forall (λ _ v, entry_ok v) (_info b).

(** The ratio of an entry, [cps / cost]. *)
Definition ratio (v : list Q) : Q :=
  match v with [cost; cps] => cps / cost | _ => 0 end.

(** A checker for [wf_info], by evaluation. *)
Definition entry_okb (v : list Q) : bool :=
  match v with [cost; cps] => negb (Qle_bool cost 0) && Qle_bool 0 cps | _ => false end.

Definition wf_infob (b : build_info) : bool :=
  Qle_bool 1 (_build_growth b) && forallb (λ kv, entry_okb kv.2) (map_to_list (_info b)).

(** The cookies spent, the sum of the costs in the history. *)
Definition spent (h : list hist_entry) : Q := foldr (λ e acc, e.1.2 + acc) 0 h.

(** The accounts of a clicker state: every cookie earned is held or was
    spent on an entry of the history; the cookies held are not negative,
    the rate is at least the initial 1.0, and every entry of the history
    was made at a past time, with a past total. *)
Definition accounts (s : clicker_state) : Prop :=
  _total_cookies_ s == _cookies_ s + spent (_history_ s) ∧
  0 <= _cookies_ s ∧ 1 <= _cps_ s ∧ 0 <= _current_time_ s ∧
  Forall (λ e : hist_entry, e.1.1.1 <= _current_time_ s ∧ e.2 <= _total_cookies_ s) (_history_ s).

Lemma foldl_insert_union (l : list (string * list Q)) (acc : gmap string (list Q)) :
  NoDup l.*1 → foldl (λ acc kv, <[kv.1 := kv.2]> acc) acc l = list_to_map l ∪ acc.
Proof.
  revert acc. induction l as [|[k v] l IH]; intros acc Hnd; cbn [foldl].
  { by rewrite list_to_map_nil, map_empty_union. }
  apply NoDup_cons in Hnd as [Hk Hnd]. rewrite IH by done.
  rewrite list_to_map_cons, <-insert_union_r, insert_union_l; [done|].
  by apply not_elem_of_list_to_map.
Qed.

Lemma clone_info b : _info (clone b) = _info b.
Proof.
  unfold clone, new_build_info. simpl. rewrite foldl_insert_union by apply NoDup_fst_map_to_list.
  by rewrite map_union_empty, list_to_map_to_list.
Qed.

Lemma elem_of_build_items b item : item ∈ build_items b ↔ is_Some (_info b !! item).
Proof.
  unfold build_items. rewrite list_elem_of_fmap. split.
  - intros ([k v] & -> & Hin). apply elem_of_map_to_list in Hin. by exists v.
  - intros [v Hv]. exists (item, v). split; [done|]. by apply elem_of_map_to_list.
Qed.

Section WellFormed.
Context (b : build_info) (Hwf : wf_info b).

Lemma wf_lookup item v : _info b !! item = Some v → ∃ cost cps, v = [cost; cps] ∧ 0 < cost ∧ 0 <= cps.
Proof.
  intros Hv. pose proof (proj2 Hwf item v Hv) as Hok.
  destruct v as [|cost [|cps [|]]]; try done. by exists cost, cps.
Qed.

Lemma get_cost_entry item cost cps : _info b !! item = Some [cost; cps] → get_cost b item = Ok cost.
Proof. intros Hv. unfold get_cost. by rewrite Hv. Qed.

Lemma get_cps_entry item cost cps : _info b !! item = Some [cost; cps] → get_cps b item = Ok cps.
Proof. intros Hv. unfold get_cps. by rewrite Hv. Qed.

Lemma update_item_entry item cost cps :
  _info b !! item = Some [cost; cps] →
  update_item b item = Ok (mk_build_info (_build_growth b) (<[item := [cost * _build_growth b; cps]]> (_info b))).
Proof. intros Hv. unfold update_item. by rewrite Hv. Qed.

Lemma update_item_wf item b' : update_item b item = Ok b' → wf_info b'.
Proof.
  unfold update_item. destruct (_info b !! item) as [v|] eqn:Hv; [|done]. simpl.
  destruct (wf_lookup item v Hv) as (cost & cps & -> & Hc & Hp). intros [= <-].
  split; [apply Hwf|]. simpl. apply map_Forall_insert_2; [|apply Hwf]. simpl. split; [|done].
  apply Qlt_le_trans with (cost * 1); [by rewrite Qmult_1_r|].
  apply Qmult_le_l; [done|apply Hwf].
Qed.

End WellFormed.

(** ** [strategy_best_cps_cost_ratio] *)

(** What the ratio loop has established about the items it has seen. *)
Definition ratio_best (b : build_info) (end_cookies : Q) (seen : list string) (acc : option string * Q) : Prop :=
  match acc.1 with
  | None => ∀ item v, item ∈ seen → _info b !! item = Some v → end_cookies < hd 0 v
  | Some best => ∃ v, best ∈ seen ∧ _info b !! best = Some v ∧ hd 0 v <= end_cookies ∧
      acc.2 == ratio v ∧
      ∀ item w, item ∈ seen → _info b !! item = Some w → hd 0 w <= end_cookies → ratio w <= acc.2
  end.

Lemma ratio_loop_cons b e item items acc :
  ratio_loop b e (item :: items) acc = (acc1 <- ratio_loop b e [item] acc ;; ratio_loop b e items acc1).
Proof.
  unfold ratio_loop. simpl. match goal with |- context [res_bind ?m _] => destruct m end; done.
Qed.

(** One turn of the loop, on an entry of a well-formed table. *)
Lemma ratio_step b e seen acc item cost cps :
  _info b !! item = Some [cost; cps] → 0 < cost →
  ratio_best b e seen acc →
  ∃ acc1, ratio_loop b e [item] acc = Ok acc1 ∧ ratio_best b e (seen ++ [item]) acc1.
Proof.
  intros Hv Hc Hbest. destruct acc as [best r].
  assert (Hdiv : py_fdiv cps cost = Ok (cps / cost)).
  { apply py_fdiv_ok. intros E. rewrite E in Hc. discriminate. }
  unfold ratio_loop. cbn [for_each]. rewrite (get_cost_entry b item cost cps Hv). cbn [res_bind].
  destruct (Qlt_le_dec e cost) as [Hlt|Hle]; cbn [res_bind].
  - eexists. split; [done|]. destruct best as [best|]; simpl in *.
    + destruct Hbest as (w & Hw & Hlw & Hcw & Hr & Hall). exists w. split_and!; [set_solver|done..|].
      intros it w' [Hit| ->%list_elem_of_singleton]%elem_of_app Hw' Hcw'; [by eapply Hall|].
      rewrite Hv in Hw'. injection Hw' as <-. simpl in Hcw'.
      exfalso. by apply (Qlt_not_le _ _ Hlt).
    + intros it w [Hit| ->%list_elem_of_singleton]%elem_of_app Hw; [by eapply Hbest|].
      rewrite Hv in Hw. by injection Hw as <-.
  - rewrite (get_cps_entry b item cost cps Hv). cbn [res_bind].
    rewrite Hdiv. cbn [res_bind]. destruct best as [best|]; simpl in *.
    + destruct Hbest as (w & Hw & Hlw & Hcw & Hr & Hall).
      destruct (Qlt_le_dec r (cps / cost)) as [Hgt|Hge]; cbn [res_bind]; (eexists; split; [done|]); simpl.
      * exists [cost; cps]. split_and!; [set_solver|done|done|done|].
        intros it w' [Hit| ->%list_elem_of_singleton]%elem_of_app Hw' Hcw'.
        -- apply Qle_trans with r; [by eapply Hall|by apply Qlt_le_weak].
        -- rewrite Hv in Hw'. injection Hw' as <-. apply Qle_refl.
      * exists w. split_and!; [set_solver|done..|].
        intros it w' [Hit| ->%list_elem_of_singleton]%elem_of_app Hw' Hcw'; [by eapply Hall|].
        rewrite Hv in Hw'. by injection Hw' as <-.
    + eexists. split; [done|]. exists [cost; cps]. split_and!; [set_solver|done|done|done|].
      intros it w' [Hit| ->%list_elem_of_singleton]%elem_of_app Hw' Hcw'.
      * exfalso. specialize (Hbest it w' Hit Hw'). by apply (Qlt_not_le _ _ Hbest).
      * rewrite Hv in Hw'. injection Hw' as <-. apply Qle_refl.
Qed.

Lemma ratio_loop_spec b e : wf_info b → ∀ items seen acc,
  (∀ item, item ∈ items → is_Some (_info b !! item)) →
  ratio_best b e seen acc →
  ∃ acc', ratio_loop b e items acc = Ok acc' ∧ ratio_best b e (seen ++ items) acc'.
Proof.
  intros Hwf items. induction items as [|item items IH]; intros seen acc Hin Hbest.
  { exists acc. by rewrite app_nil_r. }
  destruct (Hin item) as [v Hv]; [set_solver|].
  destruct (wf_lookup b Hwf item v Hv) as (cost & cps & -> & Hc & Hp).
  destruct (ratio_step b e seen acc item cost cps Hv Hc Hbest) as (acc1 & E1 & H1).
  rewrite ratio_loop_cons, E1. simpl.
  replace (seen ++ item :: items) with ((seen ++ [item]) ++ items) by by rewrite <-app_assoc.
  apply IH; [set_solver|done].
Qed.

(** ** [time_until] *)

(** The least whole number of seconds after which [cookies] are held. *)
Lemma time_until_least s c t :
  0 < _cps_ s → time_until s c = Ok t →
  ∃ z : Z, t = inject_Z z ∧ (0 <= z)%Z ∧ c <= _cookies_ s + t * _cps_ s ∧
    ∀ z' : Z, (0 <= z' < z)%Z → _cookies_ s + inject_Z z' * _cps_ s < c.
Proof.
  intros Hcps. unfold time_until. destruct (Qle_bool c (_cookies_ s)) eqn:E.
  - intros [= <-]. apply Qle_bool_imp_le in E. exists 0%Z. split_and!; [done|lia| |lia].
    change (inject_Z 0) with 0. lra.
  - assert (Hlt : _cookies_ s < c).
    { apply Qnot_le_lt. intros Hle. apply Qle_bool_iff in Hle. congruence. }
    rewrite py_fdiv_ok by (intros Hz; rewrite Hz in Hcps; discriminate).
    intros [= <-]. set (q := (c - _cookies_ s) / _cps_ s).
    assert (Hq : q * _cps_ s == c - _cookies_ s) by (unfold q; field; intros Hz; rewrite Hz in Hcps; discriminate).
    assert (Hpos : 0 < q).
    { apply Qlt_shift_div_l; [done|]. lra. }
    pose proof (Qle_ceiling q) as Hce. pose proof (Qceiling_lt q) as Hcl.
    exists (Qceiling q). split_and!; [done| | |].
    + assert (Hz : (Qceiling 0 <= Qceiling q)%Z) by (apply Qceiling_resp_le; lra).
      exact Hz.
    + assert (q * _cps_ s <= inject_Z (Qceiling q) * _cps_ s) by (apply Qmult_le_compat_r; lra). lra.
    + intros z' Hz'. assert (inject_Z z' <= inject_Z (Qceiling q - 1)) as Hle.
      { rewrite <-Zle_Qle. lia. }
      assert (inject_Z z' < q) as Hz'q by lra.
      assert (inject_Z z' * _cps_ s < q * _cps_ s) by (apply Qmult_lt_r; lra). lra.
Qed.

Lemma wf_infob_sound b : wf_infob b = true → wf_info b.
Proof.
  unfold wf_infob. intros [Hg Hall]%andb_prop. split; [by apply Qle_bool_iff|].
  intros item v Hv. apply elem_of_map_to_list in Hv.
  rewrite forallb_forall in Hall. specialize (Hall (item, v)). simpl in Hall.
  assert (Hin : In (item, v) (map_to_list (_info b))) by by apply list_elem_of_In.
  specialize (Hall Hin). destruct v as [|cost [|cps [|]]]; try done.
  apply andb_prop in Hall as [Hc Hp]. split; [|by apply Qle_bool_iff].
  apply Qnot_le_lt. intros Hle. apply Qle_bool_iff in Hle. by rewrite Hle in Hc.
Qed.

(** ** The accounts of the clicker state *)

Lemma spent_snoc h e : spent (h ++ [e]) == spent h + e.1.2.
Proof. unfold spent. rewrite foldr_app. simpl. induction h as [|x h IH]; simpl; [lra|]. rewrite IH. lra. Qed.

Lemma accounts_new_state : accounts new_state.
Proof. unfold accounts, new_state, spent. simpl. split_and!; try lra. repeat constructor; simpl; lra. Qed.

Lemma wait_accounts s t : accounts s → accounts (wait s t).
Proof.
  unfold wait. destruct (Qle_bool t 0) eqn:E; [done|].
  assert (Ht : 0 < t) by (apply Qnot_le_lt; intros Hle; apply Qle_bool_iff in Hle; congruence).
  unfold accounts. simpl. intros (Htot & Hc & Hcps & Htime & Hh).
  assert (0 <= t * _cps_ s) by (apply Qmult_le_0_compat; lra).
  split_and!; [lra|lra|done|lra|].
  eapply Forall_impl; [exact Hh|]. simpl. intros e [He1 He2]. split; lra.
Qed.

Lemma buy_item_accounts s item cost a : 0 <= a → accounts s → accounts (buy_item s item cost a).
Proof.
  intros Ha. unfold buy_item. destruct (Qle_bool cost (_cookies_ s)) eqn:E; [|done].
  apply Qle_bool_iff in E. unfold accounts. simpl. intros (Htot & Hc & Hcps & Htime & Hh).
  split_and!; [rewrite spent_snoc; simpl; lra|lra|lra|done|].
  apply Forall_app. split; [done|]. constructor; [simpl; split; lra|constructor].
Qed.

(** ** Claims *)

(** [clone()] copies the build table exactly: rebuilding the dict entry by
    entry gives the same dict, with the same growth factor. *)
Lemma clone_copies b : clone b = b.
Proof. destruct b as [g i]. unfold clone. simpl. f_equal. apply (clone_info (mk_build_info g i)). Qed.

(** C31: on a well-formed table, [strategy_best_cps_cost_ratio] raises
    nothing and returns [None] exactly when no item costs at most the
    cookies held at the end ([cookies + cps * time_left]), and otherwise an
    affordable item whose cps/cost ratio is the greatest among the
    affordable items. *)
Theorem strategy_best_picks_best_ratio cookies cps time_left b :
  wf_info b →
  ∃ r, strategy_best_cps_cost_ratio cookies cps time_left b = Ok r ∧
  match r with
  | None => ∀ item cost cps', _info b !! item = Some [cost; cps'] → cookies + cps * time_left < cost
  | Some item => ∃ cost cps', _info b !! item = Some [cost; cps'] ∧ cost <= cookies + cps * time_left ∧
      ∀ item2 cost2 cps2, _info b !! item2 = Some [cost2; cps2] →
        cost2 <= cookies + cps * time_left → cps2 / cost2 <= cps' / cost
  end.
Proof.
  intros Hwf. unfold strategy_best_cps_cost_ratio.
  destruct (ratio_loop_spec b (cookies + cps * time_left) Hwf (build_items b) [] (None, 0))
    as ([best r] & -> & Hbest); [intros; by apply elem_of_build_items|unfold ratio_best; simpl; set_solver|].
  simpl. eexists. split; [done|]. simpl in Hbest.
  destruct best as [best|]; simpl in Hbest.
  - destruct Hbest as (v & _ & Hv & Hc & Hr & Hall).
    destruct (wf_lookup b Hwf best v Hv) as (cost & cps' & -> & _ & _). exists cost, cps'.
    split_and!; [done|done|]. intros it c2 p2 Hit Hc2. rewrite <-Hr.
    apply (Hall it [c2; p2]); [apply elem_of_build_items; by eexists|done|done].
  - intros it c2 p2 Hit. apply (Hbest it [c2; p2]); [apply elem_of_build_items; by eexists|done].
Qed.

(** ** Witnesses *)

Definition default_build_info : build_info := new_build_info None BUILD_GROWTH.

Lemma default_build_info_wf : wf_info default_build_info.
Proof. apply wf_infob_sound. vm_compute. reflexivity. Qed.

Lemma strategy_best_picks_best_ratio_witness :
  wf_info default_build_info ∧
  ∃ r, strategy_best_cps_cost_ratio 20 1 100 default_build_info = Ok r ∧
  match r with
  | None => ∀ item cost cps', _info default_build_info !! item = Some [cost; cps'] → 20 + 1 * 100 < cost
  | Some item => ∃ cost cps', _info default_build_info !! item = Some [cost; cps'] ∧ cost <= 20 + 1 * 100 ∧
      ∀ item2 cost2 cps2, _info default_build_info !! item2 = Some [cost2; cps2] →
        cost2 <= 20 + 1 * 100 → cps2 / cost2 <= cps' / cost
  end.
Proof.
  split; [exact default_build_info_wf|].
  apply strategy_best_picks_best_ratio. exact default_build_info_wf.
Defined.

End CookieProps.
