(* ===== verification/CookieTermination.v ===== *)
(** * [simulate_clicker] terminates on a well-formed table

    Each turn of the [while] loop that does not leave it buys an item, so
    the loop ends once the number of purchases is bounded.  With [cmin] the
    least cost and [R] the greatest cps/cost ratio of the table (costs only
    grow, so both bounds stay valid), the rate is at most [1 + R * spent];
    the clock only advances by whole seconds; and the cookies earned by
    time [n] are at most [G n], where [G 0 = 0] and
    [G (n + 1) = 1 + (1 + R) * G n].  Every purchase costs at least
    [cmin], so there are at most [G N / cmin] of them, [N] the whole part
    of [duration]: [sim_fuel] turns suffice, and more fuel gives the same
    result.  With an item of cost 0 the loop never ends. *)

From stdpp Require Import base list options gmap strings.
From Stdlib Require Import ZArith QArith Qround Qminmax Lia Lqa.
From S2P Require Import Prelude Cookie CookieProps.

Local Unset Default Proof Using.

Module CookieTermination.
Import Cookie CookieProps.

Open Scope Q_scope.

(** The cookies that can have been earned after [n] whole seconds. *)
Fixpoint G (R : Q) (n : nat) : Q :=
  match n with O => 0 | S n' => 1 + (1 + R) * G R n' end.

(** Every entry costs at least [cmin] and yields at most [R] per cookie of
    cost. *)
Definition table_ok (R cmin : Q) (b : build_info) : Prop :=
  1 <= _build_growth b ∧
  map_Forall (λ _ v, match v with [c; p] => cmin <= c ∧ 0 <= p ∧ p <= R * c | _ => False end) (_info b).

Definition cost_min (b : build_info) : Q :=
  foldr Qmin 1 (map (λ kv, hd 0 kv.2) (map_to_list (_info b))).

Definition ratio_max (b : build_info) : Q :=
  foldr Qmax 0 (map (λ kv, ratio kv.2) (map_to_list (_info b))).

(** The state after [n] whole seconds and [length history - 1]
    purchases. *)
Definition run_inv (R cmin : Q) (s : clicker_state) : Prop :=
  accounts s ∧ _cps_ s <= 1 + R * spent (_history_ s) ∧
  cmin * inject_Z (Z.of_nat (length (_history_ s))) <= spent (_history_ s) + cmin ∧
  ∃ n : nat, _current_time_ s == inject_Z (Z.of_nat n) ∧ _total_cookies_ s <= G R n.

(** Enough turns of the loop for a table and a duration. *)
Definition sim_fuel (b : build_info) (duration : Q) : nat :=
  S (Z.to_nat (Qceiling (G (ratio_max b) (Z.to_nat (Qfloor duration)) / cost_min b))).

(** ** The bound [G] *)

Lemma Qmult_le_compat_l x y z : 0 <= z → x <= y → z * x <= z * y.
Proof. intros. rewrite !(Qmult_comm z). by apply Qmult_le_compat_r. Qed.

Section G.
Context (R : Q) (HR : 0 <= R).

Lemma G_nonneg n : 0 <= G R n.
Proof.
  induction n as [|n IH]; simpl; [lra|].
  assert (0 <= (1 + R) * G R n) by (apply Qmult_le_0_compat; lra). lra.
Qed.

Lemma G_succ n : G R n + 1 + R * G R n <= G R (S n).
Proof. simpl. assert ((1 + R) * G R n == G R n + R * G R n) by ring. lra. Qed.

Lemma G_mono n m : (n <= m)%nat → G R n <= G R m.
Proof.
  induction 1 as [|m _ IH]; [lra|]. pose proof (G_succ m). pose proof (G_nonneg m).
  assert (0 <= R * G R m) by (apply Qmult_le_0_compat; lra). lra.
Qed.

(** Waiting [w] whole seconds at a rate of at most [1 + R * G n]. *)
Lemma G_wait n w : G R n + inject_Z (Z.of_nat w) * (1 + R * G R n) <= G R (n + w).
Proof.
  induction w as [|w IH].
  - rewrite Nat.add_0_r. change (inject_Z (Z.of_nat 0)) with 0. lra.
  - rewrite Nat.add_succ_r. pose proof (G_succ (n + w)).
    pose proof (G_mono n (n + w) ltac:(lia)).
    assert (R * G R n <= R * G R (n + w)) by (apply Qmult_le_compat_l; lra).
    rewrite Nat2Z.inj_succ, <-Z.add_1_r, inject_Z_plus. change (inject_Z 1) with 1.
    assert ((inject_Z (Z.of_nat w) + 1) * (1 + R * G R n) ==
            inject_Z (Z.of_nat w) * (1 + R * G R n) + (1 + R * G R n)) by ring.
    lra.
Qed.

End G.

(** ** Bounds of the table *)

Lemma foldr_Qmin_le a l x : x ∈ l → foldr Qmin a l <= x.
Proof.
  induction l as [|y l IH]; simpl; [set_solver|]. rewrite elem_of_cons.
  intros [->|Hx]; [apply Q.le_min_l|]. eapply Qle_trans; [apply Q.le_min_r|by apply IH].
Qed.

Lemma foldr_Qmin_pos a l : 0 < a → Forall (λ x, 0 < x) l → 0 < foldr Qmin a l.
Proof. intros Ha. induction 1 as [|y l Hy _ IH]; simpl; [done|]. by apply Q.min_glb_lt. Qed.

Lemma foldr_Qmax_ge a l x : x ∈ l → x <= foldr Qmax a l.
Proof.
  induction l as [|y l IH]; simpl; [set_solver|]. rewrite elem_of_cons.
  intros [->|Hx]; [apply Q.le_max_l|]. eapply Qle_trans; [by apply IH|apply Q.le_max_r].
Qed.

Lemma foldr_Qmax_nonneg l : 0 <= foldr Qmax 0 l.
Proof. induction l as [|y l IH]; simpl; [lra|]. eapply Qle_trans; [exact IH|apply Q.le_max_r]. Qed.

Lemma table_bounds b :
  wf_info b → 0 < cost_min b ∧ 0 <= ratio_max b ∧ table_ok (ratio_max b) (cost_min b) b.
Proof.
  intros Hwf. split_and!; [|apply foldr_Qmax_nonneg|].
  - apply foldr_Qmin_pos; [done|]. apply Forall_forall. intros x Hx.
    change (map ?f ?l) with (f <$> l) in Hx.
    apply list_elem_of_fmap in Hx as ([k v] & -> & Hkv). apply elem_of_map_to_list in Hkv.
    destruct (wf_lookup b Hwf k v Hkv) as (c & p & -> & Hc & _). done.
  - split; [apply Hwf|]. intros k v Hkv.
    destruct (wf_lookup b Hwf k v Hkv) as (c & p & -> & Hc & Hp).
    assert (Hin : (k, [c; p]) ∈ map_to_list (_info b)) by by apply elem_of_map_to_list.
    split_and!; [|done|].
    + apply foldr_Qmin_le. change (map ?f ?l) with (f <$> l).
      apply list_elem_of_fmap. by exists (k, [c; p]).
    + assert (Hr : p / c <= ratio_max b).
      { apply foldr_Qmax_ge. change (map ?f ?l) with (f <$> l).
        apply list_elem_of_fmap. by exists (k, [c; p]). }
      assert (Hp' : p == p / c * c) by (field; intros ?; lra).
      assert (p / c * c <= ratio_max b * c) by (apply Qmult_le_compat_r; lra). lra.
Qed.

Lemma table_ok_update R cmin b item b' :
  0 <= R → 0 < cmin → table_ok R cmin b → update_item b item = Ok b' → table_ok R cmin b'.
Proof.
  intros HR Hcmin [Hg Hall]. unfold update_item. destruct (_info b !! item) as [v|] eqn:Hv; [|done]. simpl.
  pose proof (Hall item v Hv) as Hok. destruct v as [|c [|p [|]]]; try done. intros [= <-].
  destruct Hok as (Hc & Hp & Hpr). split; [done|]. apply map_Forall_insert_2; [|done].
  assert (c * 1 <= c * _build_growth b) by (apply Qmult_le_l; lra).
  assert (R * c <= R * (c * _build_growth b)) by (apply Qmult_le_compat_l; lra).
  simpl. split_and!; lra.
Qed.

(** ** One turn of the loop *)

Lemma inject_nat_succ n : inject_Z (Z.of_nat (S n)) == inject_Z (Z.of_nat n) + 1.
Proof. rewrite Nat2Z.inj_succ, <-Z.add_1_r, inject_Z_plus. reflexivity. Qed.

Lemma wait_eqs s t : 0 <= t →
  _cookies_ (wait s t) == _cookies_ s + t * _cps_ s ∧
  _total_cookies_ (wait s t) == _total_cookies_ s + t * _cps_ s ∧
  _current_time_ (wait s t) == _current_time_ s + t ∧
  _cps_ (wait s t) = _cps_ s ∧ _history_ (wait s t) = _history_ s.
Proof.
  intros Ht. unfold wait. destruct (Qle_bool t 0) eqn:E; simpl; [|split_and!; done].
  apply Qle_bool_iff in E. assert (Ht0 : t == 0) by lra. rewrite Ht0. split_and!; try done; lra.
Qed.

Lemma buy_item_eqs s item cost a : cost <= _cookies_ s →
  buy_item s item cost a =
    mk_state (_cookies_ s - cost) (_total_cookies_ s) (_cps_ s + a) (_current_time_ s)
      (_history_ s ++ [(_current_time_ s, Some item, cost, _total_cookies_ s)]).
Proof. intros Hc. unfold buy_item. apply Qle_bool_iff in Hc. by rewrite Hc. Qed.

Section Run.
Context (R cmin : Q) (HR : 0 <= R) (Hcmin : 0 < cmin) (duration : Q) (strat : strategy).

Lemma run_inv_new : run_inv R cmin new_state.
Proof.
  split; [apply accounts_new_state|]. unfold spent. simpl. split_and!; [lra| |].
  - change (inject_Z (Z.of_nat 1)) with 1. lra.
  - exists 0%nat. simpl. split; [reflexivity|lra].
Qed.

Lemma run_step s b item cost ttw a b1 :
  run_inv R cmin s → table_ok R cmin b → get_time s <= duration →
  get_cost b item = Ok cost → time_until s cost = Ok ttw → ttw <= duration - get_time s →
  get_cps b item = Ok a → update_item b item = Ok b1 →
  run_inv R cmin (buy_item (wait s ttw) item cost a) ∧ table_ok R cmin b1 ∧
  get_time (buy_item (wait s ttw) item cost a) <= duration ∧
  length (_history_ (buy_item (wait s ttw) item cost a)) = S (length (_history_ s)).
Proof.
  intros (Hacc & Hcps & Hcount & n & Htime & Htot) Htab Hd Hcost Httw Hle Ha Hb1.
  pose proof Hacc as (Htc & Hc0 & Hcps1 & Ht0 & _).
  unfold get_cost, get_cps in *. destruct (_info b !! item) as [v|] eqn:Hv; [|done]. simpl in *.
  pose proof (proj2 Htab item v Hv) as Hok. destruct v as [|c [|p [|]]]; try done.
  simpl in Hcost, Ha. injection Hcost as <-. injection Ha as <-. destruct Hok as (Hcm & Hp & Hpr).
  destruct (time_until_least s c ttw ltac:(lra) Httw) as (z & -> & Hz & Henough & _).
  assert (Hz' : 0 <= inject_Z z) by (change 0 with (inject_Z 0); rewrite <-Zle_Qle; lia).
  destruct (wait_eqs s (inject_Z z) Hz') as (Ec & Et & Eti & Ecps & Eh).
  assert (Hacc2 : accounts (buy_item (wait s (inject_Z z)) item c p))
    by (apply buy_item_accounts; [done|by apply wait_accounts]).
  assert (Hbuy : c <= _cookies_ (wait s (inject_Z z))) by lra.
  rewrite buy_item_eqs in Hacc2 |- * by done. simpl.
  split_and!; [|by eapply table_ok_update| |by rewrite Eh, length_app, Nat.add_1_r].
  - split; [done|]. simpl. rewrite Eh, spent_snoc, Ecps. simpl.
    assert (R * (spent (_history_ s) + c) == R * spent (_history_ s) + R * c) by ring.
    split_and!.
    + lra.
    + rewrite length_app, Nat.add_1_r, inject_nat_succ.
      assert (cmin * (inject_Z (Z.of_nat (length (_history_ s))) + 1) ==
              cmin * inject_Z (Z.of_nat (length (_history_ s))) + cmin) by ring. lra.
    + exists (n + Z.to_nat z)%nat. split.
      * rewrite Eti, Htime, Nat2Z.inj_add, Z2Nat.id, inject_Z_plus by lia. reflexivity.
      * rewrite Et. pose proof (G_wait R HR n (Z.to_nat z)) as HG. rewrite Z2Nat.id in HG by lia.
        assert (Hsp : spent (_history_ s) <= G R n) by lra.
        assert (R * spent (_history_ s) <= R * G R n) by (apply Qmult_le_compat_l; lra).
        assert (inject_Z z * _cps_ s <= inject_Z z * (1 + R * G R n)) by (apply Qmult_le_compat_l; lra).
        lra.
  - unfold get_time in *. rewrite Eti. lra.
Qed.

(** The purchases made so far are at most [G N / cmin]. *)
Lemma purchases_bound s N :
  run_inv R cmin s → get_time s <= duration → duration < inject_Z (Z.of_nat N) + 1 →
  (length (_history_ s) <= S (Z.to_nat (Qceiling (G R N / cmin))))%nat.
Proof.
  intros (Hacc & _ & Hcount & n & Htime & Htot) Hd HN. pose proof Hacc as (Htc & Hc0 & _).
  assert (HnN : (n <= N)%nat).
  { unfold get_time in Hd. assert (inject_Z (Z.of_nat n) < inject_Z (Z.of_nat N + 1)) as Hlt.
    { rewrite inject_Z_plus. change (inject_Z 1) with 1. lra. }
    rewrite <-Zlt_Qlt in Hlt. lia. }
  pose proof (G_mono R HR n N HnN).
  assert (Hl : inject_Z (Z.of_nat (length (_history_ s))) <= G R N / cmin + 1).
  { apply (Qmult_le_l _ _ cmin); [done|].
    assert (cmin * (G R N / cmin + 1) == G R N + cmin) by (field; intros ?; lra). lra. }
  pose proof (Qle_ceiling (G R N / cmin)) as Hce.
  assert (Hnn : (0 <= Qceiling (G R N / cmin))%Z).
  { assert (Hq : 0 <= G R N / cmin) by (apply Qle_shift_div_l; [done|]; pose proof (G_nonneg R HR N); lra).
    pose proof (Qceiling_resp_le 0 _ Hq). exact H0. }
  assert (Hle : inject_Z (Z.of_nat (length (_history_ s))) <= inject_Z (Qceiling (G R N / cmin) + 1)).
  { rewrite inject_Z_plus. change (inject_Z 1) with 1. lra. }
  rewrite <-Zle_Qle in Hle. lia.
Qed.

(** Fuel beyond the bound changes nothing: the loop has left on its own. *)
Lemma sim_loop_enough N fuel : ∀ s b,
  run_inv R cmin s → table_ok R cmin b → get_time s <= duration →
  duration < inject_Z (Z.of_nat N) + 1 →
  (S (Z.to_nat (Qceiling (G R N / cmin))) < fuel + length (_history_ s))%nat →
  ∀ k, sim_loop (fuel + k) duration strat s b = sim_loop fuel duration strat s b.
Proof.
  induction fuel as [|fuel IH]; intros s b Hinv Htab Hd HN Hfuel k.
  { pose proof (purchases_bound s N Hinv Hd HN). lia. }
  cbn [Nat.add sim_loop]. destruct (Qle_bool (get_time s) duration) eqn:Et; [|done].
  destruct (call_strategy _ _ _ _ _) as [[item|]|e]; cbn [res_bind]; [|done|done].
  destruct (get_cost b item) as [cost|e] eqn:Hcost; cbn [res_bind]; [|done].
  destruct (time_until s cost) as [ttw|e] eqn:Httw; cbn [res_bind]; [|done].
  destruct (Qlt_le_dec (duration - get_time s) ttw) as [Hlt|Hle]; [done|].
  destruct (get_cps b item) as [a|e] eqn:Ha; cbn [res_bind]; [|done].
  destruct (update_item b item) as [b1|e] eqn:Hb1; cbn [res_bind]; [|done].
  apply Qle_bool_iff in Et.
  destruct (run_step s b item cost ttw a b1) as (Hinv' & Htab' & Hd' & Hlen); [done..|].
  apply IH; [done..|]. rewrite Hlen. lia.
Qed.

End Run.

(** ** A table with a free item *)

(** The loop from a state with cookies, while [Cursor] costs nothing:
    every turn buys it. *)
Lemma sim_loop_free_item duration g cps n : ∀ s c,
  0 <= cps → 0 <= _cookies_ s → get_time s <= duration → c == 0 →
  ∃ s' b', sim_loop n duration strategy_cursor_broken s (mk_build_info g {["Cursor" := [c; cps]]}) = Ok (s', b') ∧
    length (_history_ s') = (length (_history_ s) + n)%nat.
Proof.
  induction n as [|n IH]; intros s c Hcps Hc0 Hd Hc.
  { do 2 eexists. split; [done|lia]. }
  cbn [sim_loop]. apply Qle_bool_iff in Hd as Hd'. rewrite Hd'. cbn [call_strategy strategy_cursor_broken res_bind].
  unfold get_cost, get_cps, update_item. simpl _info. rewrite lookup_singleton_eq. cbn [of_key res_bind].
  assert (E0 : py_get [c; cps] 0 = Some c) by done. assert (E1 : py_get [c; cps] 1 = Some cps) by done.
  rewrite E0, E1. cbn [of_index res_bind]. unfold time_until. replace (Qle_bool c (_cookies_ s)) with true by (symmetry; apply Qle_bool_iff; lra).
  cbn [res_bind]. destruct (Qlt_le_dec (duration - get_time s) 0) as [Hlt|_]; [lra|].
  cbn [res_bind]. rewrite insert_singleton_eq.
  assert (Hw : wait s 0 = s) by done. rewrite Hw.
  rewrite buy_item_eqs by lra.
  destruct (IH (mk_state (_cookies_ s - c) (_total_cookies_ s) (_cps_ s + cps) (_current_time_ s)
      (_history_ s ++ [(_current_time_ s, Some "Cursor"%string, c, _total_cookies_ s)])) (c * g))
    as (s' & b' & E & Hlen); simpl; [done|lra|done|rewrite Hc; lra|].
  exists s', b'. split; [exact E|]. rewrite Hlen. simpl. rewrite length_app. simpl. lia.
Qed.

(** ** Claims *)

(** C32: on a well-formed table and a duration of at least 0, the loop of
    [simulate_clicker] ends by itself, whatever the strategy: after
    [sim_fuel b duration] turns, more fuel gives the same result. *)
Theorem simulate_clicker_terminates b duration strat :
  wf_info b → 0 <= duration →
  ∀ k, simulate_clicker_fuel (sim_fuel b duration + k) b duration strat =
       simulate_clicker_fuel (sim_fuel b duration) b duration strat.
Proof.
  intros Hwf Hd k. destruct (table_bounds b Hwf) as (Hc & HR & Htab).
  unfold simulate_clicker_fuel. rewrite clone_copies.
  assert (HN : duration < inject_Z (Z.of_nat (Z.to_nat (Qfloor duration))) + 1).
  { pose proof (Qfloor_resp_le 0 duration Hd) as H0. change (Qfloor 0) with 0%Z in H0.
    rewrite Z2Nat.id by lia. pose proof (Qlt_floor duration) as Hf.
    rewrite inject_Z_plus in Hf. exact Hf. }
  rewrite (sim_loop_enough (ratio_max b) (cost_min b) HR Hc duration strat
             (Z.to_nat (Qfloor duration)) (sim_fuel b duration) new_state b);
    [done|apply run_inv_new|done|unfold get_time; simpl; lra|done|unfold sim_fuel; simpl; lia].
Qed.

(** C33: [BuildInfo({"Cursor": [0.0, cps]})] with a rate of at least 0
    makes [simulate_clicker] with [strategy_cursor_broken] loop forever:
    every turn buys a free Cursor without the clock moving, so with [n]
    turns of fuel the history has [n] purchases, and no fuel is enough. *)
Theorem simulate_clicker_free_item g cps duration :
  0 <= cps → 0 <= duration →
  ∀ n, ∃ s, simulate_clicker_fuel n (new_build_info (Some {["Cursor" := [0; cps]]}) g) duration
              strategy_cursor_broken = Ok s ∧ length (get_history s) = S n.
Proof.
  intros Hcps Hd n. unfold simulate_clicker_fuel.
  assert (Hb : clone (new_build_info (Some {["Cursor" := [0; cps]]}) g) =
               mk_build_info g {["Cursor"%string := [0; cps]]}).
  { rewrite clone_copies. unfold new_build_info. rewrite map_to_list_singleton. simpl.
    by rewrite insert_empty. }
  rewrite Hb. destruct (sim_loop_free_item duration g cps n new_state 0) as (s' & b' & -> & Hlen);
    [done|unfold new_state; simpl; lra|unfold get_time; simpl; lra|reflexivity|].
  cbn [res_bind]. destruct (Qlt_le_dec 0 (duration - get_time s')); eexists; (split; [done|]);
    unfold get_history; [unfold wait; destruct (Qle_bool _ 0)|]; simpl; rewrite Hlen; simpl; lia.
Qed.

(** ** Witnesses *)

Lemma simulate_clicker_terminates_witness :
  wf_info default_build_info ∧ 0 <= 100 ∧
  ∀ k, simulate_clicker_fuel (sim_fuel default_build_info 100 + k) default_build_info 100 strategy_best =
       simulate_clicker_fuel (sim_fuel default_build_info 100) default_build_info 100 strategy_best.
Proof.
  assert (Hd : 0 <= 100) by (vm_compute; discriminate).
  split; [exact default_build_info_wf|]. split; [exact Hd|].
  exact (simulate_clicker_terminates default_build_info 100 strategy_best default_build_info_wf Hd).
Defined.

Lemma simulate_clicker_free_item_witness :
  0 <= 1 # 10 ∧ 0 <= 100 ∧
  ∀ n, ∃ s, simulate_clicker_fuel n (new_build_info (Some {["Cursor" := [0; 1 # 10]]}) BUILD_GROWTH) 100
              strategy_cursor_broken = Ok s ∧ length (get_history s) = S n.
Proof.
  assert (Hc : 0 <= 1 # 10) by (vm_compute; discriminate).
  assert (Hd : 0 <= 100) by (vm_compute; discriminate).
  split; [exact Hc|]. split; [exact Hd|].
  exact (simulate_clicker_free_item BUILD_GROWTH (1 # 10) 100 Hc Hd).
Defined.

End CookieTermination.
