(* ===== verification/TicTacToe.v ===== *)
(** * The Monte Carlo tic-tac-toe player ([src/tic_tac_toe.py])

    The player is written against the course module [ttt_board], which is
    not part of the repository.  Its board is the interface [TTTBoard]: the
    operations the player calls ([get_dim], [square], [get_empty_squares],
    [move], [check_win], [clone], [switch_player]), a [move] returning the
    board it changed.  [TTTBoardLaws] states the little the player relies
    on: the empty squares are squares of the board, and neither [clone] nor
    [move] changes its size.  The theorems of [TicTacToeProps.v] hold for
    every board satisfying them; [ListBoard] is one, a list of rows.

    Scores are Python floats that only ever move by [1.0]: they are [Q].
    [random.randrange] draws from the stream [oracle] ([py_randrange]);
    the [while winner == None] loop of [mc_trial] is [mc_trial_loop] on
    fuel, a parameter of [mc_move]. *)

From stdpp Require Import base list options.
From Stdlib Require Import ZArith QArith Lia.
From S2P Require Import Prelude.

Local Unset Default Proof Using.

Module TicTacToe.

(** The constants of [ttt_board]. *)
Definition EMPTY : Z := 1.
Definition PLAYERX : Z := 2.
Definition PLAYERO : Z := 3.
Definition DRAW : Z := 4.

Class TTTBoard (B : Type) := {
  get_dim : B → Z;
  square : B → Z → Z → Z;
  get_empty_squares : B → list (Z * Z);
  move : B → Z → Z → Z → B;
  check_win : B → option Z;
  clone : B → B;
  switch_player : Z → Z
}.

Class TTTBoardLaws (B : Type) `{TTTBoard B} := {
  empty_squares_in_range b r c :
    (r, c) ∈ get_empty_squares b → 0 ≤ r < get_dim b ∧ 0 ≤ c < get_dim b;
  get_dim_clone b : get_dim (clone b) = get_dim b;
  get_dim_move b r c p : get_dim (move b r c p) = get_dim b
}.

(** Constants for the Monte Carlo simulator. *)
Definition NTRIALS : Z := 20.
Definition SCORE_CURRENT : Q := 1.
Definition SCORE_OTHER : Q := 1.

Section Player.
Context {B : Type} `{TTTBoard B} (oracle : nat → nat).

Local Open Scope rnd_scope.

(** The [while winner == None] loop of [mc_trial]. *)
Fixpoint mc_trial_loop (fuel : nat) (board : B) (player : Z) (winner : option Z) : rnd B :=
  match fuel with
  | O => rnd_ret board
  | S fuel' =>
      match winner with
      | Some _ => rnd_ret board
      | None =>
          let board_dim := get_dim board in
          row <~ py_randrange oracle 0 board_dim ;;
          col <~ py_randrange oracle 0 board_dim ;;
          let board := move board row col player in
          let winner := check_win board in
          let player := switch_player player in
          mc_trial_loop fuel' board player winner
      end
  end.

(** [mc_trial(board, player)]: the board it leaves. *)
Definition mc_trial (fuel : nat) (board : B) (player : Z) : rnd B :=
  mc_trial_loop fuel board player None.

(** [scores[row][col] += delta] *)
Definition add_score (scores : list (list Q)) (row col : Z) (delta : Q) : res (list (list Q)) :=
  v <- of_index (py_get2 scores row col) ;; of_index (py_set2 scores row col (v + delta)%Q).

(** The body of the two [for] loops of [mc_update_scores], on the square
    [(row_num, col_num)]. *)
Definition update_square (board : B) (winner : option Z) (score_good score_bad : Q)
    (scores : list (list Q)) (row_num col_num : Z) : res (list (list Q)) :=
  let sqr := square board row_num col_num in
  if decide (sqr ≠ EMPTY) then
    if decide (Some sqr = winner) then add_score scores row_num col_num score_good
    else add_score scores row_num col_num (- score_bad)%Q
  else Ok scores.

(** [mc_update_scores(scores, board, player)]: the scores it leaves. *)
Definition mc_update_scores (scores : list (list Q)) (board : B) (player : Z) : res (list (list Q)) :=
  let winner := check_win board in
  if decide (winner ≠ Some DRAW) then
    let '(score_good, score_bad) :=
      if decide (winner = Some player) then (SCORE_CURRENT, SCORE_OTHER)
      else (SCORE_OTHER, SCORE_CURRENT) in
    let board_dim := get_dim board in
    for_each (λ scores row_num,
        for_each (λ scores col_num, update_square board winner score_good score_bad scores row_num col_num)
          (seqZ 0 board_dim) scores)
      (seqZ 0 board_dim) scores
  else Ok scores.

(** The body of the [for tup in emp_sqs[1:]] loop of [get_best_move]. *)
Definition best_step (scores : list (list Q)) (max_so_far tup : Z * Z) : res (Z * Z) :=
  s_tup <- of_index (py_get2 scores tup.1 tup.2) ;;
  s_max <- of_index (py_get2 scores max_so_far.1 max_so_far.2) ;;
  if Qlt_le_dec s_max s_tup then Ok tup else Ok max_so_far.

(** [get_best_move(board, scores)] *)
Definition get_best_move (board : B) (scores : list (list Q)) : res (Z * Z) :=
  let emp_sqs := get_empty_squares board in
  max_so_far <- of_index (py_get emp_sqs 0) ;;
  for_each (best_step scores) (drop 1 emp_sqs) max_so_far.

(** The first two statements and the [for] loop of [mc_move]: a zero
    score grid, then [trials] trials on clones of the board, each on
    [fuel] turns. *)
Definition mc_scores (fuel : nat) (board : B) (player trials : Z) : rnd (list (list Q)) :=
  let brd_dim := get_dim board in
  let scores := map (λ dummy_row, map (λ dummy_col, 0%Q) (seqZ 0 brd_dim)) (seqZ 0 brd_dim) in
  rnd_for_each (λ scores dummy_i,
      let trial_board := clone board in
      trial_board <~ mc_trial fuel trial_board player ;;
      rnd_lift (mc_update_scores scores trial_board player))
    (seqZ 0 trials) scores.

(** [mc_move(board, player, trials)]: the best move for those scores. *)
Definition mc_move (fuel : nat) (board : B) (player trials : Z) : rnd (Z * Z) :=
  scores <~ mc_scores fuel board player trials ;;
  let best_move := get_best_move board scores in
  rnd_lift best_move.

End Player.

(** ** A board of rows

    A board implementing the interface, to run the player on: a square of
    [EMPTY], [PLAYERX] and [PLAYERO] cells; [move] fills an empty cell;
    [check_win] reports a full row, column or diagonal, else [DRAW] on a
    full board, else nothing. *)
Module ListBoard.

Record board := mk_board { bdim : Z; cells : list (list Z) }.

Definition at_ (b : board) (r c : Z) : Z := default EMPTY (mget (cells b) (r, c)).

Definition empties (b : board) : list (Z * Z) :=
  filter (λ p, at_ b p.1 p.2 = EMPTY) (all_cells (bdim b) (bdim b)).

Definition place (b : board) (r c p : Z) : board :=
  if decide (in_bounds (bdim b) (bdim b) (r, c) ∧ at_ b r c = EMPTY)
  then mk_board (bdim b) (mset (cells b) (r, c) p) else b.

(** The lines of the board: rows, columns and the two diagonals. *)
Definition lines (b : board) : list (list (Z * Z)) :=
  let n := bdim b in
  map (λ r, map (λ c, (r, c)) (seqZ 0 n)) (seqZ 0 n) ++
  map (λ c, map (λ r, (r, c)) (seqZ 0 n)) (seqZ 0 n) ++
  [map (λ i, (i, i)) (seqZ 0 n); map (λ i, (i, n - 1 - i)) (seqZ 0 n)].

Definition line_winner (b : board) (l : list (Z * Z)) : option Z :=
  match l with
  | [] => None
  | p :: _ =>
      let v := at_ b p.1 p.2 in
      if decide (v ≠ EMPTY ∧ Forall (λ q, at_ b q.1 q.2 = v) l) then Some v else None
  end.

Definition winner (b : board) : option Z :=
  match omap (line_winner b) (lines b) with
  | v :: _ => Some v
  | [] => if decide (empties b = []) then Some DRAW else None
  end.

Definition other (p : Z) : Z := if decide (p = PLAYERX) then PLAYERO else PLAYERX.

#[export] Instance list_board : TTTBoard board := {
  get_dim := bdim;
  square := at_;
  get_empty_squares := empties;
  move := place;
  check_win := winner;
  clone b := b;
  switch_player := other
}.

#[export] Instance list_board_laws : TTTBoardLaws board.
Proof.
  split.
  - intros b r c Hin. unfold get_empty_squares in Hin. simpl in Hin. unfold empties in Hin.
    apply list_elem_of_filter in Hin as [_ Hin]. apply elem_of_all_cells in Hin. exact Hin.
  - done.
  - intros b r c p. simpl. unfold place. by case_decide.
Qed.

(** The empty [dim] by [dim] board. *)
Definition new_board (dim : Z) : board := mk_board dim (const_matrix dim dim EMPTY).

End ListBoard.

End TicTacToe.
