(* ===== verification/TicTacToeProps.v ===== *)
(** * Properties of the Monte Carlo tic-tac-toe player

    For every board satisfying [TTTBoardLaws]: [get_best_move] returns an
    empty square of maximum score ([best_of]; it is always the first one,
    [first_max]), and raises [IndexError] exactly on a board without empty
    squares; [mc_update_scores] adds 1 to each
    square of the winner and takes 1 from each square of the loser, leaves
    a draw alone, and (the two score constants being equal) does not depend
    on which player the machine is; [mc_move] raises nothing on a board
    with an empty square and returns an empty square of maximum score for
    the grid its trials build ([mc_scores]), whatever the random draws and
    however long the trials run. *)

From stdpp Require Import base list options sets.
From Stdlib Require Import ZArith QArith Lia.
From S2P Require Import Prelude TicTacToe.

Local Unset Default Proof Using.

Module TicTacToeProps.
Import TicTacToe.

(** The score of a square, [0] outside the grid. *)
Definition score_at (scores : list (list Q)) (p : Z * Z) : Q := default 0%Q (mget scores p).

(** [m] is the first square of [l] with the greatest score. *)
Definition first_max (scores : list (list Q)) (l : list (Z * Z)) (m : Z * Z) : Prop :=
  ∃ i, l !! i = Some m ∧ (∀ p, p ∈ l → (score_at scores p <= score_at scores m)%Q) ∧
    ∀ j q, (j < i)%nat → l !! j = Some q → (score_at scores q < score_at scores m)%Q.

(** [m] is an element of [l] of greatest score: what the docstring of
    [get_best_move] says it returns (one of the empty squares with the
    maximum score). *)
Definition best_of (scores : list (list Q)) (l : list (Z * Z)) (m : Z * Z) : Prop :=
  m ∈ l ∧ ∀ p, p ∈ l → (score_at scores p <= score_at scores m)%Q.

(** The change [mc_update_scores] makes to a square: the winner's squares
    gain [1.0], the loser's lose [1.0], nothing on a draw or an empty
    square. *)
Definition score_change {B} `{TTTBoard B} (board : B) (p : Z * Z) : option Q :=
  if decide (check_win board = Some DRAW) then None
  else let sqr := square board p.1 p.2 in
    if decide (sqr = EMPTY) then None
    else if decide (Some sqr = check_win board) then Some 1%Q else Some (-1)%Q.

Section Props.
Context {B : Type} `{TTTBoard B} `{!TTTBoardLaws B} (oracle : nat → nat).

(** ** [get_best_move] *)

Lemma best_step_spec d scores pre m tup :
  rect d d scores → in_bounds d d tup → in_bounds d d m → first_max scores pre m →
  ∃ m', best_step scores m tup = Ok m' ∧ first_max scores (pre ++ [tup]) m'.
Proof.
  intros Hs Ht Hm (i & Hi & Hle & Hlt). unfold best_step.
  rewrite (py_get2_mget d d scores tup Hs Ht), (py_get2_mget d d scores m Hs Hm).
  destruct (mget_is_Some d d scores tup Hs Ht) as [vt Hvt].
  destruct (mget_is_Some d d scores m Hs Hm) as [vm Hvm].
  rewrite Hvt, Hvm. simpl. unfold score_at in *. rewrite ?Hvt, ?Hvm in *. simpl in *.
  destruct (Qlt_le_dec vm vt) as [Hgt|Hge]; eexists; split; [done| |done|]; unfold first_max, score_at; rewrite ?Hvt, ?Hvm.
  - exists (length pre). rewrite lookup_app_r, Nat.sub_diag by lia. split; [done|]. split.
    + intros p [Hp| ->%list_elem_of_singleton]%elem_of_app; rewrite ?Hvt; [|apply Qle_refl].
      specialize (Hle p Hp). apply Qle_trans with vm; [done|by apply Qlt_le_weak].
    + intros j q Hj Hq. rewrite lookup_app_l in Hq by lia.
      apply Qle_lt_trans with vm; [|done]. apply Hle. by eapply list_elem_of_lookup_2.
  - exists i. rewrite lookup_app_l by (by apply lookup_lt_Some in Hi). split; [done|]. split.
    + intros p [Hp| ->%list_elem_of_singleton]%elem_of_app; [by apply Hle|]. by rewrite Hvt.
    + intros j q Hj Hq. rewrite lookup_app_l in Hq by (apply lookup_lt_Some in Hi; lia).
      by apply (Hlt j q).
Qed.

Lemma best_loop d scores l : ∀ pre m,
  rect d d scores → (∀ p, p ∈ pre ++ l → in_bounds d d p) → first_max scores pre m →
  ∃ m', for_each (best_step scores) l m = Ok m' ∧ first_max scores (pre ++ l) m'.
Proof.
  induction l as [|tup l IH]; intros pre m Hs Hin Hm; simpl.
  { exists m. by rewrite app_nil_r. }
  assert (Hmi : in_bounds d d m).
  { destruct Hm as (i & Hi & _). apply Hin, elem_of_app. left. by eapply list_elem_of_lookup_2. }
  destruct (best_step_spec d scores pre m tup Hs ltac:(apply Hin; set_solver) Hmi Hm) as (m1 & -> & Hm1).
  simpl. replace (pre ++ tup :: l) with ((pre ++ [tup]) ++ l) by by rewrite <-app_assoc.
  apply IH; [done| |done]. intros p Hp. apply Hin. rewrite <-app_assoc in Hp. done.
Qed.

Lemma best_move_ok board scores :
  rect (get_dim board) (get_dim board) scores → get_empty_squares board ≠ [] →
  ∃ m, get_best_move board scores = Ok m ∧ first_max scores (get_empty_squares board) m.
Proof.
  intros Hs Hne. unfold get_best_move.
  destruct (get_empty_squares board) as [|m0 rest] eqn:E; [done|].
  assert (Hin : ∀ p, p ∈ get_empty_squares board → in_bounds (get_dim board) (get_dim board) p).
  { intros [r c] Hp. by apply empty_squares_in_range. }
  rewrite E in Hin. simpl. rewrite drop_0.
  apply (best_loop (get_dim board) scores rest [m0] m0); [done|done|].
  exists 0%nat. split; [done|]. split; [|lia]. intros p ->%list_elem_of_singleton. apply Qle_refl.
Qed.

(** ** [mc_update_scores] *)

Lemma add_score_spec d scores p x :
  rect d d scores → in_bounds d d p →
  ∃ s', add_score scores p.1 p.2 x = Ok s' ∧ rect d d s' ∧
    ∀ q, in_bounds d d q → mget s' q =
      if decide (q = p) then (λ v, v + x)%Q <$> mget scores q else mget scores q.
Proof.
  intros Hs Hp. unfold add_score. rewrite (py_get2_mget d d scores p Hs Hp).
  destruct (mget_is_Some d d scores p Hs Hp) as [v Hv]. rewrite Hv. simpl.
  rewrite (py_set2_mset d d scores p _ Hs Hp). simpl. eexists. split_and!; [done|by apply rect_mset|].
  intros q Hq. rewrite (mget_mset d d scores p q _ Hs Hp Hq).
  destruct (decide (p = q)) as [->|]; [by rewrite decide_True, Hv|by rewrite decide_False].
Qed.

(** The loops of [mc_update_scores] change each square by its
    [score_change]. *)
Lemma update_scores_spec scores board player :
  rect (get_dim board) (get_dim board) scores →
  ∃ s', mc_update_scores scores board player = Ok s' ∧ rect (get_dim board) (get_dim board) s' ∧
    ∀ q, in_bounds (get_dim board) (get_dim board) q →
      mget s' q = match score_change board q with
                  | Some x => (λ v, v + x)%Q <$> mget scores q
                  | None => mget scores q
                  end.
Proof.
  intros Hs. set (d := get_dim board). unfold mc_update_scores.
  destruct (decide (check_win board ≠ Some DRAW)) as [Hw|Hw]; cbn zeta.
  2: { exists scores. split_and!; [done|done|]. intros q _. unfold score_change.
       case_decide as Hd; [done|]. by destruct Hw. }
  set (good := if decide (check_win board = Some player) then SCORE_CURRENT else SCORE_OTHER).
  set (bad := if decide (check_win board = Some player) then SCORE_OTHER else SCORE_CURRENT).
  replace (if decide (check_win board = Some player) then (SCORE_CURRENT, SCORE_OTHER)
           else (SCORE_OTHER, SCORE_CURRENT)) with (good, bad) by (unfold good, bad; by case_decide).
  assert (Hgood : good = 1%Q) by (unfold good; by case_decide).
  assert (Hbad : bad = 1%Q) by (unfold bad; by case_decide).
  rewrite for_each_nested.
  set (upd := λ (p : Z * Z) (v : Q), match score_change board p with Some x => (v + x)%Q | None => v end).
  destruct (for_each_cells d d (λ s p, update_square board (check_win board) good bad s p.1 p.2)
      upd (list_prod (seqZ 0 d) (seqZ 0 d)) scores) as (s' & E & Hs' & Hq);
    [|apply NoDup_all_cells|done|].
  - intros s p Hsr Hp. change (list_prod (seqZ 0 d) (seqZ 0 d)) with (all_cells d d) in Hp.
    apply elem_of_all_cells in Hp. unfold update_square, upd, score_change.
    rewrite (decide_False _ _ Hw).
    destruct (decide (square board p.1 p.2 ≠ EMPTY)) as [Hne|He].
    + rewrite (decide_False _ _ Hne).
      destruct (add_score_spec d s p (if decide (Some (square board p.1 p.2) = check_win board)
                                     then good else (- bad)%Q) Hsr Hp) as (s1 & E1 & Hs1 & Hq1).
      exists s1. split; [by case_decide|]. split; [done|]. intros q Hq. rewrite Hq1 by done.
      destruct (decide (q = p)) as [->|]; [|done]. rewrite Hgood, Hbad. by case_decide.
    + apply dec_stable in He. exists s. split_and!; [done|done|]. intros q _.
      destruct (decide (q = p)) as [->|]; [|done]. rewrite (decide_True _ _ He). by destruct (mget s p).
  - exists s'. split_and!; [done|done|]. intros q Hin. rewrite Hq by done.
    rewrite decide_True by (change (list_prod (seqZ 0 d) (seqZ 0 d)) with (all_cells d d);
                            by apply elem_of_all_cells).
    unfold upd. cbv beta. destruct (score_change board q); [done|]. by destruct (mget scores q).
Qed.

(** ** [mc_trial] and [mc_move] *)

(** A trial on a board with squares raises nothing and keeps its size. *)
Lemma mc_trial_dim fuel : ∀ board player winner k,
  0 < get_dim board →
  ∃ b' k', mc_trial_loop oracle fuel board player winner k = (Ok b', k') ∧ get_dim b' = get_dim board.
Proof.
  induction fuel as [|fuel IH]; intros board player winner k Hd; simpl; [by eexists _, _|].
  destruct winner as [w|]; [by eexists _, _|].
  unfold rnd_bind, py_randrange. rewrite decide_True by lia. simpl. rewrite decide_True by lia. simpl.
  match goal with |- context [mc_trial_loop oracle fuel ?b ?p ?w ?k0] =>
    destruct (IH b p w k0) as (b' & k' & E & Hb'); [by rewrite get_dim_move|] end.
  rewrite E. exists b', k'. split; [done|]. by rewrite Hb', get_dim_move.
Qed.

Lemma first_max_best_of scores l m : first_max scores l m → best_of scores l m.
Proof. intros (i & Hi & Hle & _). split; [by eapply list_elem_of_lookup_2|done]. Qed.

(** On a board with squares the trials raise nothing and leave a score
    grid of the board's size. *)
Lemma mc_scores_ok fuel board player trials k :
  0 < get_dim board →
  ∃ scores k', mc_scores oracle fuel board player trials k = (Ok scores, k') ∧
    rect (get_dim board) (get_dim board) scores.
Proof.
  intros Hd. set (d := get_dim board) in *. unfold mc_scores. fold d.
  rewrite comprehension_const_matrix.
  apply (rnd_for_each_inv (rect d d)); [|apply rect_const_matrix].
  intros s x k0 Hsr _. unfold rnd_bind, mc_trial.
  destruct (mc_trial_dim fuel (clone board) player None k0) as (b' & k2 & -> & Hb');
    [by rewrite get_dim_clone|].
  rewrite get_dim_clone in Hb'.
  destruct (update_scores_spec s b' player) as (s' & E' & Hs' & _); [by rewrite Hb'|].
  exists s', k2. unfold rnd_lift. rewrite E'. split; [done|]. by rewrite Hb' in Hs'.
Qed.

Lemma empty_squares_dim board : get_empty_squares board ≠ [] → 0 < get_dim board.
Proof.
  intros Hne. destruct (get_empty_squares board) as [|[r c] ps] eqn:E; [done|].
  destruct (empty_squares_in_range board r c) as [Hr _]; [rewrite E; set_solver|]. lia.
Qed.

(** ** Claims *)

(** How [get_best_move] breaks ties: the first empty square of greatest
    score (earlier empty squares score strictly less), where its docstring
    says it picks one of them at random. *)
Theorem get_best_move_first_max board scores :
  rect (get_dim board) (get_dim board) scores → get_empty_squares board ≠ [] →
  ∃ m, get_best_move board scores = Ok m ∧ first_max scores (get_empty_squares board) m.
Proof. apply best_move_ok. Qed.

(** C34: [get_best_move(board, scores)] returns one of the empty squares
    with the maximum score, as its docstring says, and raises
    [IndexError] ([emp_sqs[0]]) exactly when the board has no empty
    square. *)
Theorem get_best_move_maximal board scores :
  rect (get_dim board) (get_dim board) scores →
  match get_best_move board scores with
  | Ok m => best_of scores (get_empty_squares board) m
  | Raise e => e = IndexError ∧ get_empty_squares board = []
  end.
Proof.
  intros Hs. destruct (decide (get_empty_squares board = [])) as [E|Hne].
  - unfold get_best_move. rewrite E. by split.
  - destruct (best_move_ok board scores Hs Hne) as (m & -> & Hm). by apply first_max_best_of.
Qed.

(** C35: [mc_update_scores] adds [1.0] to every square of the winner and
    takes [1.0] from every other occupied square (all of them on an
    unfinished board), and changes nothing on a
    draw or on an empty square; the result does not depend on which player
    the machine is. *)
Theorem mc_update_scores_change scores board player :
  rect (get_dim board) (get_dim board) scores →
  ∃ s', mc_update_scores scores board player = Ok s' ∧ rect (get_dim board) (get_dim board) s' ∧
    (∀ r c, 0 ≤ r < get_dim board → 0 ≤ c < get_dim board →
      mget s' (r, c) = match score_change board (r, c) with
                       | Some x => (λ v, v + x)%Q <$> mget scores (r, c)
                       | None => mget scores (r, c)
                       end) ∧
    ∀ player', mc_update_scores scores board player' = Ok s'.
Proof.
  intros Hs. destruct (update_scores_spec scores board player Hs) as (s' & E & Hs' & Hq).
  exists s'. split_and!; [done|done| |].
  - intros r c Hr Hc. apply Hq. by split.
  - intros player'. destruct (update_scores_spec scores board player' Hs) as (s'' & E' & Hs'' & Hq').
    rewrite E'. f_equal. apply (mget_ext (get_dim board) (get_dim board)); [done|done|].
    intros p Hp. by rewrite Hq, Hq'.
Qed.

(** C36: on a board with an empty square, [mc_move] raises nothing and
    returns an empty square of maximum score for the very scores its
    trials build ([mc_scores], the first part of [mc_move]), whatever the
    random draws, the number of trials and the length of each trial. *)
Theorem mc_move_legal fuel board player trials k :
  get_empty_squares board ≠ [] →
  ∃ scores m k', mc_scores oracle fuel board player trials k = (Ok scores, k') ∧
    mc_move oracle fuel board player trials k = (Ok m, k') ∧
    best_of scores (get_empty_squares board) m.
Proof.
  intros Hne.
  destruct (mc_scores_ok fuel board player trials k (empty_squares_dim board Hne))
    as (scores & k' & E & Hs).
  destruct (best_move_ok board scores Hs Hne) as (m & Em & Hm).
  exists scores, m, k'. split_and!; [done| |by apply first_max_best_of].
  unfold mc_move. rewrite (rnd_bind_run _ _ _ _ _ E). unfold rnd_lift. by rewrite Em.
Qed.

End Props.

(** ** Runs on the board of rows *)

Import ListBoard.

(** Scores favouring the centre square. *)
Definition centre_scores : list (list Q) := mset (const_matrix 3 3 0%Q) (1, 1) 2%Q.

(** X holds the top row, O two squares of the middle row. *)
Definition x_wins_board : board :=
  place (place (place (place (place (new_board 3) 0 0 PLAYERX) 1 0 PLAYERO) 0 1 PLAYERX) 1 1 PLAYERO)
    0 2 PLAYERX.

Lemma get_best_move_maximal_witness :
  rect 3 3 centre_scores ∧ best_of centre_scores (get_empty_squares (new_board 3)) (1, 1).
Proof.
  assert (Hr : rect 3 3 centre_scores) by (unfold centre_scores; eauto with pylist).
  split; [exact Hr|].
  assert (E : get_best_move (new_board 3) centre_scores = Ok (1, 1)) by (vm_compute; reflexivity).
  pose proof (get_best_move_maximal (new_board 3) centre_scores Hr) as W. rewrite E in W. exact W.
Defined.

Lemma mc_update_scores_change_witness :
  rect 3 3 (const_matrix 3 3 0%Q) ∧
  ∃ s', mc_update_scores (const_matrix 3 3 0%Q) x_wins_board PLAYERO = Ok s' ∧
    mget s' (0, 2) = Some (0 + 1)%Q ∧ mget s' (1, 0) = Some (0 + -1)%Q ∧ mget s' (2, 2) = Some 0%Q.
Proof.
  assert (Hr : rect 3 3 (const_matrix 3 3 0%Q)) by apply rect_const_matrix.
  split; [exact Hr|].
  assert (Hd : get_dim x_wins_board = 3) by (vm_compute; reflexivity).
  destruct (mc_update_scores_change (const_matrix 3 3 0%Q) x_wins_board PLAYERO)
    as (s' & E & _ & Hq & _); [by rewrite Hd|].
  exists s'. split; [exact E|].
  rewrite !Hq by (rewrite Hd; lia). vm_compute. split_and!; reflexivity.
Defined.

Lemma mc_move_legal_witness :
  get_empty_squares x_wins_board ≠ [] ∧
  ∃ scores m k', mc_scores (λ k, (3 * k + 1)%nat) 9%nat x_wins_board PLAYERO 5 0%nat = (Ok scores, k') ∧
    mc_move (λ k, (3 * k + 1)%nat) 9%nat x_wins_board PLAYERO 5 0%nat = (Ok m, k') ∧
    best_of scores (get_empty_squares x_wins_board) m.
Proof.
  assert (Hne : get_empty_squares x_wins_board ≠ []) by (vm_compute; discriminate).
  split; [exact Hne|].
  exact (mc_move_legal (λ k, (3 * k + 1)%nat) 9%nat x_wins_board PLAYERO 5 0%nat Hne).
Defined.

End TicTacToeProps.
