(* ===== verification/TestSuites.v ===== *)
(** * The test suites of the repository

    [run_test_suite] of [src/2048.py] and of [src/yahtzee.py], and
    [run_suite] of [src/holds_testsuite.py], run their checks through
    [TestSuite] of the course module [poc_simpletest] (not in the
    repository).  [SimpleTest.test_suite] keeps what that class counts:
    the number of tests, the number of failures, and the lines printed so
    far; a failing test prints its message followed by the two values,
    of which the model keeps the message.  [report_results] prints
    ["Ran N tests. F failures."].  The theorems run each suite and show
    that it reports no failure: for the 2048 suite, whatever the random
    draws of [__init__] and [reset]. *)

From stdpp Require Import base list options gmap sets.
From Stdlib Require Import ZArith QArith Lia.
From Stdlib Require String.
From S2P Require Import Prelude Merge Game2048 Game2048Move Game2048Props Yahtzee.

Local Unset Default Proof Using.

Module SimpleTest.
Import String.
Local Open Scope string_scope.

Record test_suite := mk_suite {
  total_tests : Z;
  failures : Z;
  output : list String.string
}.

(** [TestSuite()] *)
Definition new : test_suite := mk_suite 0 0 [].

(** [print line] *)
Definition print (s : test_suite) (line : String.string) : test_suite :=
  mk_suite (total_tests s) (failures s) (app (output s) [line]).

(** [run_test(computed, expected, message)]: a failure prints its line
    and is counted. *)
Definition run_test {A} `{EqDecision A} (s : test_suite) (computed expected : A)
    (message : String.string) : test_suite :=
  let s := mk_suite (total_tests s + 1) (failures s) (output s) in
  if decide (computed ≠ expected) then
    let s := print s message in mk_suite (total_tests s) (failures s + 1) (output s)
  else s.

(** [report_results()] *)
Definition report_results (s : test_suite) : test_suite :=
  print s ("Ran " ++ py_str_int (total_tests s) ++ " tests. " ++ py_str_int (failures s) ++ " failures.").

(** A test whose computed value may raise: the exception propagates. *)
Definition run_test_res {A} `{EqDecision A} (s : test_suite) (computed : res A) (expected : A)
    (message : String.string) : res test_suite :=
  c <- computed ;; Ok (run_test s c expected message).

End SimpleTest.

Import SimpleTest.

Section Suites.
Import String.
Local Open Scope string_scope.

(** ** [holds_testsuite.run_suite(gen_all_holds)] *)

(** The suite takes the function under test as its argument. *)
Definition run_suite (gen_all_holds : list Z → res (gset (list Z))) : res test_suite :=
  let suite := SimpleTest.new in
  let hand := [] in
  suite <- run_test_res suite (gen_all_holds hand) (list_to_set [[]]) "Test #1:" ;;
  let hand := [2; 4] in
  suite <- run_test_res suite (gen_all_holds hand) (list_to_set [[]; [2]; [4]; [2; 4]]) "Test #2:" ;;
  let hand := [3; 3; 3] in
  suite <- run_test_res suite (gen_all_holds hand) (list_to_set [[]; [3]; [3; 3]; [3; 3; 3]])
    "Test #4:" ;;
  let hand := [1; 2; 2] in
  suite <- run_test_res suite (gen_all_holds hand)
    (list_to_set [[]; [1]; [2]; [1; 2]; [2; 2]; [1; 2; 2]]) "Test #3:" ;;
  let hand := [2; 3; 6] in
  suite <- run_test_res suite (gen_all_holds hand)
    (list_to_set [[]; [2]; [3]; [6]; [2; 3]; [2; 6]; [3; 6]; [2; 3; 6]]) "Test #5:" ;;
  Ok (report_results suite).

(** ** [run_test_suite()] of [yahtzee.py] *)

Definition run_test_suite_yahtzee : res test_suite :=
  let suite := SimpleTest.new in
  suite <- run_test_res suite (Yahtzee.score [1; 1; 1; 1; 1]) 5 "Test #1:" ;;
  suite <- run_test_res suite (Yahtzee.score [5; 5; 5; 5; 5]) 25 "Test #2" ;;
  suite <- run_test_res suite (Yahtzee.score [1; 1; 6; 1; 1]) 6 "Test #3" ;;
  suite <- run_test_res suite (Yahtzee.score [1; 1; 5; 1; 1]) 5 "Test #4" ;;
  suite <- run_test_res suite (Yahtzee.score [1; 1; 4; 1; 1]) 4 "Test #5" ;;
  suite <- run_test_res suite (Yahtzee.score [1; 1; 3; 3; 1]) 6 "Test #6:" ;;
  suite <- run_test_res suite (Yahtzee.score [1; 1; 6; 1; 6]) 12 "Test #7:" ;;
  suite <- run_test_res suite (Yahtzee.score [1; 5; 3; 1; 2]) 5 "Test #8:" ;;
  suite <- run_test_res suite (Yahtzee.score [1; 1; 1; 2; 2]) 4 "Test #9:" ;;
  suite <- run_test_res suite (Yahtzee.score [5; 5; 6; 6; 1]) 12 "Test #10:" ;;
  suite <- run_test_res suite (Yahtzee.gen_all_holds [5; 5; 5; 6; 6])
    (list_to_set [[]; [5; 5; 5; 6]; [5; 5; 5; 6; 6]; [5; 5; 6]; [5; 5; 5]; [5]; [5; 5];
                  [6]; [5; 6]; [5; 5; 6; 6]; [6; 6]; [5; 6; 6]]) "Test #11:" ;;
  Ok (report_results suite).

End Suites.

(** ** [run_test_suite()] of [2048.py] *)

Section Game2048Suite.
Import Game2048.
Context (oracle : nat → nat).
Import String.
Local Open Scope string_scope.

(** [d[key]] on what [create_initials_cache(testing = True)] returns;
    [None[key]] would raise [TypeError]. *)
Definition py_getitem {V} (d : option (gmap Z V)) (key : Z) : res V :=
  match d with Some d => of_key (d !! key) | None => Raise TypeError end.

(** Tests 1 to 6: [merge]. *)
Definition merge_tests (suite : test_suite) : res test_suite :=
  suite <- run_test_res suite (Game2048.merge [2; 0; 2; 2]) [4; 2; 0; 0] "Test #1:" ;;
  suite <- run_test_res suite (Game2048.merge [2; 0; 2; 4]) [4; 4; 0; 0] "Test #2:" ;;
  suite <- run_test_res suite (Game2048.merge [0; 0; 2; 2]) [4; 0; 0; 0] "Test #3:" ;;
  suite <- run_test_res suite (Game2048.merge [2; 2; 0; 0]) [4; 0; 0; 0] "Test #4:" ;;
  suite <- run_test_res suite (Game2048.merge [2; 2; 2; 2; 2]) [4; 4; 2; 0; 0] "Test #5:" ;;
  run_test_res suite (Game2048.merge [8; 16; 16; 8]) [8; 32; 8; 0] "Test #6:".

(** Tests 7 to 14: each call [create_initials_cache(testing=True)] or
    [create_ranges_cache(testing=True)] rebuilds the object's cache and
    returns the dict. *)
Definition cache_tests (suite : test_suite) (test_obj_one : game) : res (test_suite * game) :=
  let '(test_obj_one, d) := create_initials_cache test_obj_one true in
  suite <- run_test_res suite (py_getitem d UP) [(0, 0); (0, 1); (0, 2); (0, 3)] "Test #7:" ;;
  let '(test_obj_one, d) := create_initials_cache test_obj_one true in
  suite <- run_test_res suite (py_getitem d DOWN) [(3, 0); (3, 1); (3, 2); (3, 3)] "Test #8:" ;;
  let '(test_obj_one, d) := create_initials_cache test_obj_one true in
  suite <- run_test_res suite (py_getitem d RIGHT) [(0, 3); (1, 3); (2, 3); (3, 3)] "Test #9:" ;;
  let '(test_obj_one, d) := create_initials_cache test_obj_one true in
  suite <- run_test_res suite (py_getitem d LEFT) [(0, 0); (1, 0); (2, 0); (3, 0)] "Test #10:" ;;
  let '(test_obj_one, d) := create_ranges_cache test_obj_one true in
  suite <- run_test_res suite (py_getitem d UP) 4 "Test #11:" ;;
  let '(test_obj_one, d) := create_ranges_cache test_obj_one true in
  suite <- run_test_res suite (py_getitem d DOWN) 4 "Test #12:" ;;
  let '(test_obj_one, d) := create_ranges_cache test_obj_one true in
  suite <- run_test_res suite (py_getitem d RIGHT) 4 "Test #13:" ;;
  let '(test_obj_one, d) := create_ranges_cache test_obj_one true in
  suite <- run_test_res suite (py_getitem d LEFT) 4 "Test #14:" ;;
  Ok (suite, test_obj_one).

Definition run_test_suite_2048 : rnd test_suite :=
  suite <~ rnd_lift (merge_tests SimpleTest.new) ;;
  test_obj_one <~ init oracle 4 4 ;;
  '(suite, test_obj_one) <~ rnd_lift (cache_tests suite test_obj_one) ;;
  test_obj_one <~ reset oracle test_obj_one ;;
  let suite := SimpleTest.print suite (__str__ test_obj_one) in
  let suite := run_test suite (get_grid_height test_obj_one) 4 "Test #15:" in
  let suite := run_test suite (get_grid_width test_obj_one) 4 "Test #16:" in
  test_obj_two <~ init oracle 5 4 ;;
  let suite := run_test suite (get_grid_height test_obj_two) 5 "Test #16:" in
  let suite := run_test suite (get_grid_width test_obj_two) 4 "Test #17:" in
  test_obj_two <~ rnd_lift (set_tile test_obj_two 4 3 10) ;;
  suite <~ rnd_lift (run_test_res suite (get_tile test_obj_two 4 3) 10 "Test #18:") ;;
  test_obj_two <~ rnd_lift (set_tile test_obj_two 3 3 11) ;;
  suite <~ rnd_lift (run_test_res suite (get_tile test_obj_two 3 3) 11 "Test #18:") ;;
  rnd_ret (report_results suite).

End Game2048Suite.

Section Theorems.
Import String.
Local Open Scope string_scope.

(** [holds_testsuite.run_suite(gen_all_holds)], as [yahtzee.py] calls it,
    runs five tests without failure. *)
Theorem holds_testsuite_passes :
  run_suite Yahtzee.gen_all_holds = Ok (mk_suite 5 0 ["Ran 5 tests. 0 failures."]).
Proof. vm_compute. reflexivity. Qed.

(** [run_test_suite()] of [yahtzee.py] runs eleven tests without failure. *)
Theorem run_test_suite_yahtzee_passes :
  run_test_suite_yahtzee = Ok (mk_suite 11 0 ["Ran 11 tests. 0 failures."]).
Proof. vm_compute. reflexivity. Qed.

End Theorems.

Section Game2048Theorems.
Import Game2048 Game2048Props.
Import String.
Local Open Scope string_scope.

Lemma run_test_same {A} `{EqDecision A} s (x : A) m :
  run_test s x x m = mk_suite (total_tests s + 1) (failures s) (output s).
Proof. unfold run_test. by rewrite decide_False by tauto. Qed.

Lemma merge_tests_ok : merge_tests SimpleTest.new = Ok (mk_suite 6 0 []).
Proof. vm_compute. reflexivity. Qed.

(** On a 4 by 4 game the cache tests pass and leave both caches built. *)
Lemma cache_tests_ok g :
  _grid_height g = 4 → _grid_width g = 4 →
  cache_tests (mk_suite 6 0 []) g = Ok (mk_suite 14 0 [], mk_game 4 4 (_grid g) (initials_dict 4 4) (ranges_dict 4 4)).
Proof. destruct g as [h w grid i r]; simpl. intros -> ->. vm_compute. reflexivity. Qed.

(** [run_test_suite()] of [2048.py] runs twenty tests without failure,
    whatever the random draws; it prints the grid of [test_obj_one] after
    [reset], a 4 by 4 grid of tiles 0, 2 and 4, then its report. *)
Theorem run_test_suite_2048_passes oracle k :
  ∃ g k', run_test_suite_2048 oracle k =
      (Ok (mk_suite 20 0 [__str__ g; "Ran 20 tests. 0 failures."]), k') ∧
    _grid_height g = 4 ∧ _grid_width g = 4 ∧ shaped g ∧ tiles_ok g.
Proof.
  unfold run_test_suite_2048. rewrite merge_tests_ok, rnd_bind_lift_ok.
  destruct (init_inv oracle 4 4 k) as (g & k1 & E1 & (Hs & _) & _ & Hh & Hw); [lia|lia|].
  rewrite (rnd_bind_run _ _ _ _ _ E1), (cache_tests_ok g Hh Hw), rnd_bind_lift_ok. cbn beta iota.
  destruct (reset_inv oracle (mk_game 4 4 (_grid g) (initials_dict 4 4) (ranges_dict 4 4)) k1)
    as (g2 & k2 & E2 & Hs2 & Ht2 & Eg2); [simpl; lia|simpl; lia|].
  rewrite (rnd_bind_run _ _ _ _ _ E2).
  assert (_grid_height g2 = 4 ∧ _grid_width g2 = 4) as [Hh2 Hw2] by (by rewrite Eg2).
  destruct (run_test_suite_tiles oracle k2) as (g3 & k3 & E3 & Hh3 & Hw3 & g4 & g5 & Es4 & Eg4 & Es5 & Eg5).
  rewrite (rnd_bind_run _ _ _ _ _ E3), Es4, rnd_bind_lift_ok. unfold run_test_res at 1.
  rewrite Eg4. cbn [res_bind]. rewrite rnd_bind_lift_ok, Es5, rnd_bind_lift_ok.
  unfold run_test_res. rewrite Eg5. cbn [res_bind]. unfold rnd_lift, rnd_bind, rnd_ret.
  unfold get_grid_height, get_grid_width in *. rewrite Hh2, Hw2, Hh3, Hw3, !run_test_same.
  exists g2, k3. split_and!; [|done..]. vm_compute. reflexivity.
Qed.

End Game2048Theorems.
